(* ===== verification/_CoqProject ===== *)
-Q . S2P
Prelude.v
Taxonomy.v
Model.v
Bytes.v
Digest.v
Crc.v
Cost.v
Economics.v
Compatibility.v
ModelOps.v
Process.v
ChildProcess.v
Authority.v
ControlPlane.v
Placement.v
Effects.v
Consistency.v
FabricCore.v
MutationLogic.v
FabricState.v
Encoding.v
RecordCodecs.v
RequestCodecs.v
Naming.v
Calendar.v
Frames.v
Payloads.v
Transport.v
Sockets.v
ControlCodecs.v
FabricReplica.v
FabricOps.v
Lifecycle.v
Fabric.v
Scenario.v
Persistence.v
Engine.v
Admissible.v
Ownership.v
Recovery.v
Invariants.v
Fencing.v
Durability.v
FileStore.v
PlatformIO.v
WindowsIO.v
Transactions.v
Staging.v
ClusterLoss.v
Authorization.v
ReplicaSets.v
Generations.v
Verification.v
Coordinator.v
Coordination.v
Client.v
ClusterAgent.v
DataPlane.v
EndToEnd.v
Loops.v
Applications.v
Inspection.v
Accelerator.v
Examples.v
Completion.v
