(* ===== verification/Prelude.v ===== *)
(** * Cross-Cluster State Fabric: verification library

    The program is a control plane that decides which replica of an immutable state
    generation is authoritative, on which cluster, and when a transfer may move that
    authority.  This library models its core as executable definitions and proves
    what makes it safe: one owner per generation, fenced epochs, atomic refusals,
    durable records, byte-exact transfers and a protocol whose two ends agree.

    ** The program and how its parts interact

    A controller talks to the coordinator over framed TCP ([CoordinatorClient],
    [transport.cpp], [protocol.cpp]).  The coordinator ([coordinator.cpp]) owns one
    [Fabric] ([fabric_*.cpp]).  Every mutating method of the fabric is a body that
    reads an immutable control plane and appends redo effects; [Impl::mutate] writes
    the effects to the journal and then applies them.  [PersistenceStore]
    ([detail/control_plane.cpp]) keeps the journal and the snapshot as two files of
    records encoded by [detail/encoding.cpp] and guarded by CRC-32C.  When a transfer
    is authorized the coordinator sends an intent to the destination's agent
    ([cluster_agent.cpp]), which pulls the bytes from the source's agent, stores and
    hashes them, and reports progress, the result and a verification; each report
    becomes a call of the fabric.  Coordinator and agents are processes configured from
    their command lines ([apps]), and an operator looks at a control plane with the
    inspection tool ([tools/ccsf]), online or from its directory.

    ** Files

    Foundations.
    - [Prelude]: machine integers, record update, ordered listing of maps, tactics and
      shared lemmas.
    - [Taxonomy]: every enumeration with its numbers and names ([taxonomy.*],
      [error.*]).  [Model]: every record of the public headers and [ControlPlane].
    - [Bytes] ([bytes.*]), [Digest] ([digest.*]), [Crc] ([crc32c.*]), [Cost]
      ([cost.*]), [Economics] ([economics.*]), [Compatibility] ([compatibility.*]),
      [ModelOps] ([model.cpp] and the inline methods of the headers).

    The fabric.
    - [Authority] ([authority.*]): [assess_replica_authority].  [Placement]
      ([placement.*]): [evaluate_placement].
    - [ControlPlane] ([detail/control_plane.*], the image): [apply], [validate],
      [rebuild_replica_set].  [Effects] and [Consistency] are its theory.
    - [FabricCore] ([detail/fabric_impl.hpp], [persist_and_apply]): the monad [M] of
      mutation bodies, the class [PersistenceStore] and [mutate].  [MutationLogic] is
      a program logic for bodies, [Engine] what [mutate] does.
    - [FabricState], [FabricReplica], [FabricOps], [Lifecycle] ([fabric_state.cpp],
      [fabric_replica.cpp], [fabric_ops.cpp], [fabric_lifecycle.cpp]): one definition
      per method.  [Fabric]: the mutating methods as requests, [exec] and histories.
    - [Scenario]: a concrete history, at which the theorems are instantiated.

    Bytes at rest and on the wire.
    - [Encoding], [RecordCodecs], [RequestCodecs] ([detail/encoding.*]).  [Naming]:
      identities as text ([ids.cpp]), policy fingerprints ([model.cpp]), the logical
      clock and the version.  [Calendar] ([clock.cpp]): the wall clock as text.
    - [Persistence] (the formats of the journal and the snapshot and their readers) and
      [FileStore] ([PersistenceStore::append], [write_checkpoint], [load]).
      [PlatformIO] ([detail/platform_io.cpp], POSIX branch): the file operations over a
      file system with synced and unsynced data, an instance of the class [FileSystem].
      [WindowsIO]: its Windows branch, over answers of the system, another instance.
    - [Frames], [Payloads] ([protocol.*]), [Transport] (frames over a socket) and [Sockets]
      (descriptors) ([transport.*]), [ControlCodecs] (the codecs inside
      [coordinator.cpp]).

    Processes.
    - [Coordinator] ([coordinator.cpp]): the server as a machine over connection events;
      [Client]: the typed methods of [CoordinatorClient]; [ClusterAgent]
      ([cluster_agent.*]): the replica store, the data plane, reports, the control loop,
      the admission of data connections.
    - [Process] and [ChildProcess] ([process.*]): command lines, captured output, handles.
      [Applications] ([apps]): arguments, configurations, the two entry points.
      [Inspection] ([tools/ccsf/ccsf_cli.cpp]): every command of the inspection tool.

    Programs that use the library.
    - [Accelerator] ([cuda]): the kernel, the run of the device and the reference
      computation, over binary32 values.  [Examples] ([examples]): the ten programs and
      the driver they share.  [Completion]: that driver's transaction, to its end.

    ** What the theorems show

    - Safety of every history ([Admissible], [Ownership], [Recovery], [Invariants]):
      [plane_inv] holds of every plane reachable by requests, checkpoints and
      restarts; so no generation has two owners and every plane validates.
    - Fencing and refusals ([Fencing]): requests of another epoch are refused and change
      nothing, a restart moves the epoch forward, leaves no authority and no operation
      in flight.
    - Durability ([Durability], [FileStore], [Persistence]): what a restart loads has the
      records of the live plane, from an abstract store down to the bytes of the two
      files, a torn last record included; and on POSIX files ([PlatformIO]) a power
      failure loses no acknowledged commit.
    - Transactions ([Transactions], [Staging], [Authorization], [ClusterLoss],
      [Generations], [Verification], [ReplicaSets]): what each kind of request may
      and may not do to authority.
    - Decisions ([Authority], [Placement], [Compatibility], [Economics], [Cost]).
    - Codecs ([RequestCodecs], [Frames], [Payloads], [Compatibility]): an encodable value
      is read back, and for frames and payloads nothing else is accepted.
    - Distribution ([Transport], [Coordination], [Client], [DataPlane]): frames arrive in
      order; the coordinator serves only histories of the fabric, agents can only
      report, a controller's call is the fabric's call; pulled bytes are the hosted
      bytes and an agent vouches only for what it stored.  [EndToEnd] puts agent and
      coordinator together: what the control plane records as verified is hosted, and
      [Completion] drives an authorized replication to its end: nothing but the replica
      maximum or an owner in the way keeps the destination from counting.
    - Around the library ([Process], [ChildProcess], [Sockets], [Applications],
      [Inspection]): quoted arguments are split back, no handle or descriptor is leaked,
      every command line gives well-typed configurations, inspection changes nothing and
      answers alike online and offline.
    - Programs ([Accelerator], [Examples]): the device computes the bytes of the host's
      reference for any order of its threads, and every example ends as it is documented.
    - Termination ([Loops]): the loops that are translated with fuel return on every input.
    - Algorithms against references ([Digest], [Crc]): the streaming SHA-256 hashes the
      padded message whatever the chunks; the table-driven CRC is polynomial division.

    ** Modelling decisions

    - Integers are [Z]; unsigned arithmetic that may leave its width goes through [u64]
      or [u32], signed products wrap with [i64], divisions truncate.  A byte is an
      integer in [0, 256).  A [std::map] is a [gmap] listed in key order.
    - A [Result] is [Ok] or [Err] with the error code.  The messages of errors are kept
      where they are stored or compared; where only a peer sees them they are a
      parameter ([text]).
    - Code outside the repository's own logic is an argument: the file system is the class
      [FileSystem] with its laws in [FileStore], a store is the class
      [PersistenceStore], a network is the class [Network], a socket is a script of what
      each [send] and [recv] does, an agent's connections are the lists of results its
      [receive_frame] calls return, and the answers of the system to the file, socket
      and process calls are arguments.  POSIX branches are modelled where the source has
      two, except for [process.cpp], which exists for Windows only; the files have both.
    - Concurrency: the commit mutex of the fabric serializes its mutations, so a history is
      a sequence of requests.  A step of the coordinator is what a connection thread
      does between two [receive_frame] calls; a turn of an agent is the handling of one
      frame.  Locks themselves, and the interleavings inside a step, are not modelled;
      a data connection reads one version of the agent's store while it answers a
      request, and [request_stop] is not called during [serve].
    - [st_held] of [FileStore] is an auxiliary variable: what the two files are known to
      hold, which the operations carry along and never consult.

    ** Fuel

    Structural recursion is used wherever the source's loop is over data: a socket script,
    a list of effects, a stream of frames.  Elsewhere the fuel is a bound on the turns
    that the theorems show is never reached: [update_loop] of SHA-256 takes the length of
    the data (each turn takes a byte or more), the decoding of vectors and descriptors
    the declared count, [scan_loop] of the journal the length of the file (each record
    takes its header), [serve_chunks] the number of hosted bytes (each chunk has one),
    and [serve_loop] one more than the frames of the stream.  [Loops.loops_return] shows
    that more fuel changes nothing.  The loop of [write_all] is structural in the answers
    of the system; once they are used up the rest is written in one call.

    ** Not modelled, and why

    - Threads, mutexes and condition variables, except as said above.
    - The Windows branch of [transport.cpp], the same calls under other names.
    - The texts of trace lines and of errors that only a person reads.
    - [benchmarks] and [tests]: programs that measure or exercise the library; nothing
      calls them.
    - The device itself: [Accelerator] takes the answers of the CUDA runtime and the
      rounding of its fused multiplication as arguments.
    - Accessors that return a field.

    ** What would come next

    A machine of one coordinator and several agents with the frames in flight between
    them would join [EndToEnd], which is about one agent, and [Completion], which calls
    the fabric directly; the interleavings of connection threads inside a step of the
    coordinator would need the locks as a part of the state. *)

From stdpp Require Export base gmap list strings fin_maps pretty sorting.
From stdpp Require Export numbers.

Open Scope Z_scope.

(** ** Machine integers

    Unsigned values of the source are integers in [0, 2^w); arithmetic that can
    leave the range goes through [u64] / [u32].  Signed 64-bit values wrap with
    [i64] (two's complement). *)
Definition u64_max : Z := 18446744073709551615.
Definition i64_max : Z := 9223372036854775807.
Definition i64_min : Z := -9223372036854775808.

Definition u64 (z : Z) : Z := z mod 2 ^ 64.
Definition u32 (z : Z) : Z := z mod 2 ^ 32.
Definition i64 (z : Z) : Z := (z + 2 ^ 63) mod 2 ^ 64 - 2 ^ 63.

Definition in_u64 (z : Z) : bool := (0 <=? z) && (z <=? u64_max).
Definition in_i64 (z : Z) : bool := (i64_min <=? z) && (z <=? i64_max).

Lemma u64_id z : 0 ≤ z < 2 ^ 64 → u64 z = z.
Proof. intros. unfold u64. by rewrite Z.mod_small. Qed.

Lemma u64_range z : 0 ≤ u64 z < 2 ^ 64.
Proof. unfold u64. apply Z.mod_pos_bound. lia. Qed.

Lemma i64_id z : i64_min ≤ z ≤ i64_max → i64 z = z.
Proof. unfold i64, i64_min, i64_max. intros. rewrite Z.mod_small; lia. Qed.

(** A 64-bit identity is absent when it is zero ([StrongId::valid] in
    [ids.hpp]); [id_next] is [StrongId::next]. *)
Definition valid (id : Z) : bool := negb (id =? 0).
Definition id_next (id : Z) : Z := u64 (id + 1).

(** [id_to_string] of [ids.cpp]: canonical unsigned decimal. *)
Definition id_to_string (value : Z) : string := pretty (Z.to_N value).
Definition to_string_u64 (value : Z) : string := pretty (Z.to_N value).
Definition to_string_i64 (value : Z) : string := pretty value.

Lemma valid_true id : valid id = true ↔ id ≠ 0.
Proof. unfold valid. destruct (Z.eqb_spec id 0); naive_solver. Qed.

Lemma valid_false id : valid id = false ↔ id = 0.
Proof. unfold valid. destruct (Z.eqb_spec id 0); naive_solver. Qed.

(** ** Record update

    [r <| field := v |>] is [auto copy = r; copy.field = v;].  The setter is
    derived from the record's [Eta] instance, which rebuilds a record from its
    projections. *)
Class Eta (R : Type) := eta : R → R.
Class SetField {R T : Type} (proj : R → T) := set_field : (T → T) → R → R.
Arguments set_field {R T} proj {_} _ _ /.

Ltac derive_set_field :=
  lazymatch goal with
  | |- @SetField ?R ?T ?proj =>
      let r := fresh "r" in
      let f := fresh "f" in
      unfold SetField; intros f r;
      let b := eval hnf in (eta r) in
      lazymatch b with
      | context C [proj r] => let t := context C [f (proj r)] in exact t
      end
  end.

#[export] Hint Extern 0 (SetField _) => derive_set_field : typeclass_instances.

Declare Scope record_scope.
Open Scope record_scope.
Notation "r <| p := v |>" := (set_field p (λ _, v) r)
  (at level 1, left associativity, p at level 9, v at level 200,
   format "r <| p  :=  v |>") : record_scope.
Notation "r <| p ::= f |>" := (set_field p f r)
  (at level 1, left associativity, p at level 9, f at level 200,
   format "r <| p  ::=  f |>") : record_scope.

(** ** Ordered maps

    A [std::map] is a [gmap]; iteration visits the entries in ascending key
    order, which [entries] and [values] give. *)
Class KeyOrder (K : Type) := {
  key_leb : K → K → bool;
  key_leb_trans : ∀ a b c, key_leb a b = true → key_leb b c = true → key_leb a c = true;
  key_leb_total : ∀ a b, key_leb a b = true ∨ key_leb b a = true;
  key_leb_antisym : ∀ a b, key_leb a b = true → key_leb b a = true → a = b
}.

#[export] Instance Z_key_order : KeyOrder Z.
Proof. refine {| key_leb := Z.leb |}; intros; lia. Defined.

#[export] Instance pair_key_order : KeyOrder (Z * Z).
Proof.
  refine {| key_leb a b := (a.1 <? b.1) || ((a.1 =? b.1) && (a.2 <=? b.2)) |}.
  - intros [] [] []; simpl; lia.
  - intros [] []; simpl; lia.
  - intros [] []; simpl; intros. f_equal; lia.
Defined.

(** [std::string] keys compare as unsigned byte strings. *)
Fixpoint string_leb (a b : string) : bool :=
  match a, b with
  | EmptyString, _ => true
  | String _ _, EmptyString => false
  | String x a', String y b' =>
      let nx := Ascii.N_of_ascii x in
      let ny := Ascii.N_of_ascii y in
      (nx <? ny)%N || ((nx =? ny)%N && string_leb a' b')
  end.

#[export] Instance string_key_order : KeyOrder string.
Proof.
  refine {| key_leb := string_leb |}.
  - induction a as [|x a IH]; intros [|y b] [|z c]; simpl; try done.
    intros H1 H2. apply orb_true_iff in H1, H2. apply orb_true_iff.
    rewrite !andb_true_iff, !N.ltb_lt, !N.eqb_eq in *.
    destruct H1 as [?|[??]], H2 as [?|[??]]; try (left; lia).
    right. split; [lia|eauto].
  - induction a as [|x a IH]; intros [|y b]; simpl; auto.
    destruct (N.ltb_spec (Ascii.N_of_ascii x) (Ascii.N_of_ascii y)); simpl; [auto|].
    destruct (N.ltb_spec (Ascii.N_of_ascii y) (Ascii.N_of_ascii x)); simpl; [auto|].
    replace (Ascii.N_of_ascii y) with (Ascii.N_of_ascii x) by lia.
    rewrite N.eqb_refl. simpl. apply IH.
  - induction a as [|x a IH]; intros [|y b]; simpl; try done.
    intros H1 H2. apply orb_true_iff in H1, H2.
    rewrite !andb_true_iff, !N.ltb_lt, !N.eqb_eq in *.
    destruct H1 as [?|[Hx ?]], H2 as [?|[??]]; try lia.
    f_equal; [|eauto].
    by rewrite <-(Ascii.ascii_N_embedding x), <-(Ascii.ascii_N_embedding y), Hx.
Defined.

Definition key_le {K} `{KeyOrder K} (a b : K) : Prop := key_leb a b = true.

#[export] Instance key_le_dec {K} `{KeyOrder K} : RelDecision (key_le (K:=K)).
Proof. intros a b. unfold key_le. apply _. Defined.

Section ordered_maps.
Context {K : Type} `{Countable K} `{KeyOrder K} {V : Type}.

Definition entry_le (a b : K * V) : Prop := key_leb a.1 b.1 = true.

#[export] Instance entry_le_dec : RelDecision entry_le.
Proof. intros a b. unfold entry_le. apply _. Defined.

Definition entries (m : gmap K V) : list (K * V) := merge_sort entry_le (map_to_list m).
Definition values (m : gmap K V) : list V := (entries m).*2.

Lemma entries_perm (m : gmap K V) : entries m ≡ₚ map_to_list m.
Proof. apply merge_sort_Permutation. Qed.

Lemma elem_of_entries (m : gmap K V) k v : (k, v) ∈ entries m ↔ m !! k = Some v.
Proof. rewrite entries_perm. apply elem_of_map_to_list. Qed.

Lemma elem_of_values (m : gmap K V) v : v ∈ values m ↔ ∃ k, m !! k = Some v.
Proof.
  unfold values. rewrite list_elem_of_fmap. split.
  - intros [[k v'] [-> ?]]. exists k. by apply elem_of_entries.
  - intros [k ?]. exists (k, v). split; [done|]. by apply elem_of_entries.
Qed.

Lemma NoDup_entries_keys (m : gmap K V) : NoDup (entries m).*1.
Proof. rewrite entries_perm. apply NoDup_fst_map_to_list. Qed.

Lemma entries_sorted (m : gmap K V) : StronglySorted entry_le (entries m).
Proof.
  apply StronglySorted_merge_sort.
  - intros a b c. unfold entry_le. apply key_leb_trans.
  - intros a b. apply key_leb_total.
Qed.

Lemma length_values (m : gmap K V) : length (values m) = size m.
Proof. unfold values. rewrite length_fmap, entries_perm. apply length_map_to_list. Qed.

(** A sorted listing is determined by the map: [entries] does not depend on
    how the map was built. *)
Lemma values_permute (m : gmap K V) : values m ≡ₚ (map_to_list m).*2.
Proof. unfold values. by rewrite entries_perm. Qed.
End ordered_maps.

(** ** Lists *)
Definition list_contains {A} `{EqDecision A} (l : list A) (a : A) : bool :=
  bool_decide (a ∈ l).

(** [sort_unique] of [model.cpp]: [std::sort] then [std::unique]. *)
Fixpoint unique_adjacent {A} `{EqDecision A} (l : list A) : list A :=
  match l with
  | [] => []
  | a :: l' =>
      match unique_adjacent l' with
      | [] => [a]
      | b :: r => if decide (a = b) then b :: r else a :: b :: r
      end
  end.

Definition sort_unique {A} `{EqDecision A} `{KeyOrder A} (l : list A) : list A :=
  unique_adjacent (merge_sort key_le l).

(** ** Sums of counters *)
Definition count_if {A} (p : A → bool) (l : list A) : Z := Z.of_nat (length (filter (λ a, p a = true) l)).

Lemma count_if_nil {A} (p : A → bool) : count_if p [] = 0.
Proof. done. Qed.

Lemma count_if_cons {A} (p : A → bool) a l :
  count_if p (a :: l) = (if p a then 1 else 0) + count_if p l.
Proof.
  unfold count_if. rewrite filter_cons.
  case_decide as E; destruct (p a); simpl; try congruence; lia.
Qed.

Lemma count_if_nonneg {A} (p : A → bool) l : 0 ≤ count_if p l.
Proof. unfold count_if. lia. Qed.

Lemma count_if_perm {A} (p : A → bool) l k : l ≡ₚ k → count_if p l = count_if p k.
Proof. intros Hp. unfold count_if. by rewrite Hp. Qed.

(** ** Automation *)
Create HintDb ccsf.
Create Rewrite HintDb ccsf_rw.
#[export] Hint Rewrite andb_true_iff orb_true_iff negb_true_iff negb_false_iff
  orb_false_iff Z.eqb_eq Z.leb_le Z.ltb_lt bool_decide_eq_true bool_decide_eq_false
  valid_true valid_false : ccsf_rw.

Ltac bool_simpl := autorewrite with ccsf_rw in *.

(** A guard [flag && (x != y)] that was not taken. *)
Lemma guard_eq {A} `{EqDecision A} (flag : bool) (x y : A) :
  flag && bool_decide (x ≠ y) = false → flag = true → x = y.
Proof. intros H1 ->. apply bool_decide_eq_false in H1. by destruct (decide (x = y)). Qed.

Lemma guard_neq {A} `{EqDecision A} (x y : A) : bool_decide (x ≠ y) = false → x = y.
Proof. intros H1%bool_decide_eq_false. by destruct (decide (x = y)). Qed.

(** Splits every [match] and [if] of a hypothesis that says how a function
    returned, keeping the equations. *)
Ltac case_all H :=
  repeat (case_match; simplify_eq/=).
