(* ===== verification/Taxonomy.v ===== *)
(** * Domain taxonomy

    The enumerations of [include/ccsf/taxonomy.hpp], [error.hpp], [cost.hpp],
    [digest.hpp] and [policy.hpp], one Rocq inductive per C++ [enum class] with the
    source's enumerators (each in a short module, because C++ scopes them), their
    numeric values, the name tables of [taxonomy.cpp] / [error.cpp], and the
    generic [lookup], [contains] and [parse_with] templates.

    An [enum class] value read from bytes can be any 16-bit number; [enum_cast]
    is the cast followed by [is_valid], the only way the program accepts one. *)

From S2P Require Import Prelude.

(** What a table-driven enumeration promises to its users. *)
Class Enum (E : Type) `{EqDecision E} := {
  enum_value : E → Z;
  enum_table : list (E * string);
  enum_value_inj : ∀ a b, enum_value a = enum_value b → a = b;
  enum_value_u16 : ∀ a, 0 ≤ enum_value a < 2 ^ 16;
  enum_table_complete : ∀ a, a ∈ enum_table.*1;
  enum_names_nodup : NoDup enum_table.*2
}.

Ltac enum_instance v t :=
  refine {| enum_value := v; enum_table := t |};
  [ intros a b; destruct a, b; simpl; (reflexivity || discriminate)
  | intros a; destruct a; simpl; lia
  | intros a; apply (bool_decide_unpack _); destruct a; vm_compute; exact I
  | apply (bool_decide_unpack _); vm_compute; exact I ].

(** Broad kind of reusable machine state. The runtime is type-agnostic: the state class drives policy selection, never hard-wired special cases. *)
Module SC.
Inductive StateClass := OPAQUE_STATE | TENSOR_STATE | KV_STATE | PREFIX_STATE |
  CHECKPOINT_STATE | COMPILED_ARTIFACT | MODEL_COMPONENT | EXECUTION_SNAPSHOT | CACHE_OBJECT |
  INTERMEDIATE_RESULT | CUSTOM.
End SC.
Abbreviation StateClass := SC.StateClass.

Definition StateClass_value (e : StateClass) : Z :=
  match e with
  | SC.OPAQUE_STATE => 0 | SC.TENSOR_STATE => 1 | SC.KV_STATE => 2 | SC.PREFIX_STATE => 3
  | SC.CHECKPOINT_STATE => 4 | SC.COMPILED_ARTIFACT => 5 | SC.MODEL_COMPONENT => 6
  | SC.EXECUTION_SNAPSHOT => 7 | SC.CACHE_OBJECT => 8 | SC.INTERMEDIATE_RESULT => 9
  | SC.CUSTOM => 10
  end.

Definition kStateClass : list (StateClass * string) :=
  [(SC.OPAQUE_STATE, "OPAQUE_STATE"); (SC.TENSOR_STATE, "TENSOR_STATE");
   (SC.KV_STATE, "KV_STATE"); (SC.PREFIX_STATE, "PREFIX_STATE");
   (SC.CHECKPOINT_STATE, "CHECKPOINT_STATE"); (SC.COMPILED_ARTIFACT, "COMPILED_ARTIFACT");
   (SC.MODEL_COMPONENT, "MODEL_COMPONENT"); (SC.EXECUTION_SNAPSHOT, "EXECUTION_SNAPSHOT");
   (SC.CACHE_OBJECT, "CACHE_OBJECT"); (SC.INTERMEDIATE_RESULT, "INTERMEDIATE_RESULT");
   (SC.CUSTOM, "CUSTOM")].

#[export] Instance StateClass_eq_dec : EqDecision StateClass.
Proof. solve_decision. Defined.
#[export] Instance StateClass_enum : Enum StateClass.
Proof. enum_instance StateClass_value kStateClass. Defined.

(** Consistency semantics a state generation claims. The runtime never claims a stronger guarantee than the mode it was given. *)
Module CM.
Inductive ConsistencyMode := IMMUTABLE | APPEND_ONLY | SINGLE_WRITER | SNAPSHOT |
  OPAQUE_EXTERNAL_CONSISTENCY.
End CM.
Abbreviation ConsistencyMode := CM.ConsistencyMode.

Definition ConsistencyMode_value (e : ConsistencyMode) : Z :=
  match e with
  | CM.IMMUTABLE => 0 | CM.APPEND_ONLY => 1 | CM.SINGLE_WRITER => 2 | CM.SNAPSHOT => 3
  | CM.OPAQUE_EXTERNAL_CONSISTENCY => 4
  end.

Definition kConsistencyMode : list (ConsistencyMode * string) :=
  [(CM.IMMUTABLE, "IMMUTABLE"); (CM.APPEND_ONLY, "APPEND_ONLY");
   (CM.SINGLE_WRITER, "SINGLE_WRITER"); (CM.SNAPSHOT, "SNAPSHOT");
   (CM.OPAQUE_EXTERNAL_CONSISTENCY, "OPAQUE_EXTERNAL_CONSISTENCY")].

#[export] Instance ConsistencyMode_eq_dec : EqDecision ConsistencyMode.
Proof. solve_decision. Defined.
#[export] Instance ConsistencyMode_enum : Enum ConsistencyMode.
Proof. enum_instance ConsistencyMode_value kConsistencyMode. Defined.

(** Lifecycle of one state generation. *)
Module SGL.
Inductive StateGenerationLifecycle := STAGED | CURRENT | SUPERSEDED | HISTORICAL | INVALID |
  CORRUPT | REVALIDATION_REQUIRED | RETIRED.
End SGL.
Abbreviation StateGenerationLifecycle := SGL.StateGenerationLifecycle.

Definition StateGenerationLifecycle_value (e : StateGenerationLifecycle) : Z :=
  match e with
  | SGL.STAGED => 0 | SGL.CURRENT => 1 | SGL.SUPERSEDED => 2 | SGL.HISTORICAL => 3
  | SGL.INVALID => 4 | SGL.CORRUPT => 5 | SGL.REVALIDATION_REQUIRED => 6 | SGL.RETIRED => 7
  end.

Definition kStateLifecycle : list (StateGenerationLifecycle * string) :=
  [(SGL.STAGED, "STAGED"); (SGL.CURRENT, "CURRENT"); (SGL.SUPERSEDED, "SUPERSEDED");
   (SGL.HISTORICAL, "HISTORICAL"); (SGL.INVALID, "INVALID"); (SGL.CORRUPT, "CORRUPT");
   (SGL.REVALIDATION_REQUIRED, "REVALIDATION_REQUIRED"); (SGL.RETIRED, "RETIRED")].

#[export] Instance StateGenerationLifecycle_eq_dec : EqDecision StateGenerationLifecycle.
Proof. solve_decision. Defined.
#[export] Instance StateGenerationLifecycle_enum : Enum StateGenerationLifecycle.
Proof. enum_instance StateGenerationLifecycle_value kStateLifecycle. Defined.

(** Durability obligation attached to state or to a replica. *)
Module DC.
Inductive DurabilityClass := UNKNOWN | VOLATILE | EPHEMERAL | STANDARD | DURABLE | ARCHIVAL.
End DC.
Abbreviation DurabilityClass := DC.DurabilityClass.

Definition DurabilityClass_value (e : DurabilityClass) : Z :=
  match e with
  | DC.UNKNOWN => 0 | DC.VOLATILE => 1 | DC.EPHEMERAL => 2 | DC.STANDARD => 3
  | DC.DURABLE => 4 | DC.ARCHIVAL => 5
  end.

Definition kDurabilityClass : list (DurabilityClass * string) :=
  [(DC.UNKNOWN, "UNKNOWN"); (DC.VOLATILE, "VOLATILE"); (DC.EPHEMERAL, "EPHEMERAL");
   (DC.STANDARD, "STANDARD"); (DC.DURABLE, "DURABLE"); (DC.ARCHIVAL, "ARCHIVAL")].

#[export] Instance DurabilityClass_eq_dec : EqDecision DurabilityClass.
Proof. solve_decision. Defined.
#[export] Instance DurabilityClass_enum : Enum DurabilityClass.
Proof. enum_instance DurabilityClass_value kDurabilityClass. Defined.

(** How broadly a state generation may be reused. *)
Module RC.
Inductive ReuseClass := UNKNOWN | SHARED_READ | SHARED_MUTABLE | EXCLUSIVE | ARCHIVAL_ONLY.
End RC.
Abbreviation ReuseClass := RC.ReuseClass.

Definition ReuseClass_value (e : ReuseClass) : Z :=
  match e with
  | RC.UNKNOWN => 0 | RC.SHARED_READ => 1 | RC.SHARED_MUTABLE => 2 | RC.EXCLUSIVE => 3
  | RC.ARCHIVAL_ONLY => 4
  end.

Definition kReuseClass : list (ReuseClass * string) :=
  [(RC.UNKNOWN, "UNKNOWN"); (RC.SHARED_READ, "SHARED_READ");
   (RC.SHARED_MUTABLE, "SHARED_MUTABLE"); (RC.EXCLUSIVE, "EXCLUSIVE");
   (RC.ARCHIVAL_ONLY, "ARCHIVAL_ONLY")].

#[export] Instance ReuseClass_eq_dec : EqDecision ReuseClass.
Proof. solve_decision. Defined.
#[export] Instance ReuseClass_enum : Enum ReuseClass.
Proof. enum_instance ReuseClass_value kReuseClass. Defined.

(** Observed health of a registered cluster. *)
Module CH.
Inductive ClusterHealthState := UNKNOWN | HEALTHY | DEGRADED | UNREACHABLE | DRAINING | FAILED.
End CH.
Abbreviation ClusterHealthState := CH.ClusterHealthState.

Definition ClusterHealthState_value (e : ClusterHealthState) : Z :=
  match e with
  | CH.UNKNOWN => 0 | CH.HEALTHY => 1 | CH.DEGRADED => 2 | CH.UNREACHABLE => 3
  | CH.DRAINING => 4 | CH.FAILED => 5
  end.

Definition kClusterHealth : list (ClusterHealthState * string) :=
  [(CH.UNKNOWN, "UNKNOWN"); (CH.HEALTHY, "HEALTHY"); (CH.DEGRADED, "DEGRADED");
   (CH.UNREACHABLE, "UNREACHABLE"); (CH.DRAINING, "DRAINING"); (CH.FAILED, "FAILED")].

#[export] Instance ClusterHealthState_eq_dec : EqDecision ClusterHealthState.
Proof. solve_decision. Defined.
#[export] Instance ClusterHealthState_enum : Enum ClusterHealthState.
Proof. enum_instance ClusterHealthState_value kClusterHealth. Defined.

(** Registration lifecycle of a cluster identity. *)
Module CL.
Inductive ClusterLifecycle := REGISTERED | ACTIVE | SUSPECT | UNREACHABLE | REINCARNATED |
  RETIRED.
End CL.
Abbreviation ClusterLifecycle := CL.ClusterLifecycle.

Definition ClusterLifecycle_value (e : ClusterLifecycle) : Z :=
  match e with
  | CL.REGISTERED => 0 | CL.ACTIVE => 1 | CL.SUSPECT => 2 | CL.UNREACHABLE => 3
  | CL.REINCARNATED => 4 | CL.RETIRED => 5
  end.

Definition kClusterLifecycle : list (ClusterLifecycle * string) :=
  [(CL.REGISTERED, "REGISTERED"); (CL.ACTIVE, "ACTIVE"); (CL.SUSPECT, "SUSPECT");
   (CL.UNREACHABLE, "UNREACHABLE"); (CL.REINCARNATED, "REINCARNATED");
   (CL.RETIRED, "RETIRED")].

#[export] Instance ClusterLifecycle_eq_dec : EqDecision ClusterLifecycle.
Proof. solve_decision. Defined.
#[export] Instance ClusterLifecycle_enum : Enum ClusterLifecycle.
Proof. enum_instance ClusterLifecycle_value kClusterLifecycle. Defined.

(** Outcome of content integrity verification for one replica. *)
Module RI.
Inductive ReplicaIntegrityState := UNKNOWN | UNVERIFIED | VERIFYING | VERIFIED | MISMATCH |
  CORRUPT.
End RI.
Abbreviation ReplicaIntegrityState := RI.ReplicaIntegrityState.

Definition ReplicaIntegrityState_value (e : ReplicaIntegrityState) : Z :=
  match e with
  | RI.UNKNOWN => 0 | RI.UNVERIFIED => 1 | RI.VERIFYING => 2 | RI.VERIFIED => 3
  | RI.MISMATCH => 4 | RI.CORRUPT => 5
  end.

Definition kReplicaIntegrity : list (ReplicaIntegrityState * string) :=
  [(RI.UNKNOWN, "UNKNOWN"); (RI.UNVERIFIED, "UNVERIFIED"); (RI.VERIFYING, "VERIFYING");
   (RI.VERIFIED, "VERIFIED"); (RI.MISMATCH, "MISMATCH"); (RI.CORRUPT, "CORRUPT")].

#[export] Instance ReplicaIntegrityState_eq_dec : EqDecision ReplicaIntegrityState.
Proof. solve_decision. Defined.
#[export] Instance ReplicaIntegrityState_enum : Enum ReplicaIntegrityState.
Proof. enum_instance ReplicaIntegrityState_value kReplicaIntegrity. Defined.

(** Outcome of compatibility gating for one replica. *)
Module RCS.
Inductive ReplicaCompatibilityState := UNKNOWN | INCOMPATIBLE | COMPATIBLE |
  REVALIDATION_REQUIRED.
End RCS.
Abbreviation ReplicaCompatibilityState := RCS.ReplicaCompatibilityState.

Definition ReplicaCompatibilityState_value (e : ReplicaCompatibilityState) : Z :=
  match e with
  | RCS.UNKNOWN => 0 | RCS.INCOMPATIBLE => 1 | RCS.COMPATIBLE => 2
  | RCS.REVALIDATION_REQUIRED => 3
  end.

Definition kReplicaCompatibility : list (ReplicaCompatibilityState * string) :=
  [(RCS.UNKNOWN, "UNKNOWN"); (RCS.INCOMPATIBLE, "INCOMPATIBLE");
   (RCS.COMPATIBLE, "COMPATIBLE"); (RCS.REVALIDATION_REQUIRED, "REVALIDATION_REQUIRED")].

#[export] Instance ReplicaCompatibilityState_eq_dec : EqDecision ReplicaCompatibilityState.
Proof. solve_decision. Defined.
#[export] Instance ReplicaCompatibilityState_enum : Enum ReplicaCompatibilityState.
Proof. enum_instance ReplicaCompatibilityState_value kReplicaCompatibility. Defined.

(** Durability actually established for one replica. *)
Module RD.
Inductive ReplicaDurabilityState := UNKNOWN | VOLATILE | STANDARD | DURABLE | ARCHIVAL.
End RD.
Abbreviation ReplicaDurabilityState := RD.ReplicaDurabilityState.

Definition ReplicaDurabilityState_value (e : ReplicaDurabilityState) : Z :=
  match e with
  | RD.UNKNOWN => 0 | RD.VOLATILE => 1 | RD.STANDARD => 2 | RD.DURABLE => 3
  | RD.ARCHIVAL => 4
  end.

Definition kReplicaDurability : list (ReplicaDurabilityState * string) :=
  [(RD.UNKNOWN, "UNKNOWN"); (RD.VOLATILE, "VOLATILE"); (RD.STANDARD, "STANDARD");
   (RD.DURABLE, "DURABLE"); (RD.ARCHIVAL, "ARCHIVAL")].

#[export] Instance ReplicaDurabilityState_eq_dec : EqDecision ReplicaDurabilityState.
Proof. solve_decision. Defined.
#[export] Instance ReplicaDurabilityState_enum : Enum ReplicaDurabilityState.
Proof. enum_instance ReplicaDurabilityState_value kReplicaDurability. Defined.

(** Observed availability of one replica. *)
Module RA.
Inductive ReplicaAvailabilityState := UNKNOWN | PRESENT | ABSENT | UNREACHABLE | DRAINING.
End RA.
Abbreviation ReplicaAvailabilityState := RA.ReplicaAvailabilityState.

Definition ReplicaAvailabilityState_value (e : ReplicaAvailabilityState) : Z :=
  match e with
  | RA.UNKNOWN => 0 | RA.PRESENT => 1 | RA.ABSENT => 2 | RA.UNREACHABLE => 3
  | RA.DRAINING => 4
  end.

Definition kReplicaAvailability : list (ReplicaAvailabilityState * string) :=
  [(RA.UNKNOWN, "UNKNOWN"); (RA.PRESENT, "PRESENT"); (RA.ABSENT, "ABSENT");
   (RA.UNREACHABLE, "UNREACHABLE"); (RA.DRAINING, "DRAINING")].

#[export] Instance ReplicaAvailabilityState_eq_dec : EqDecision ReplicaAvailabilityState.
Proof. solve_decision. Defined.
#[export] Instance ReplicaAvailabilityState_enum : Enum ReplicaAvailabilityState.
Proof. enum_instance ReplicaAvailabilityState_value kReplicaAvailability. Defined.

(** Authority dimension. Authority is never inferred from presence. *)
Module RAS.
Inductive ReplicaAuthorityState := NONE | HISTORICAL | CANDIDATE | AUTHORITATIVE_FOR_REUSE |
  AUTHORITATIVE_SOURCE | AUTHORITATIVE_OWNER | FENCED.
End RAS.
Abbreviation ReplicaAuthorityState := RAS.ReplicaAuthorityState.

Definition ReplicaAuthorityState_value (e : ReplicaAuthorityState) : Z :=
  match e with
  | RAS.NONE => 0 | RAS.HISTORICAL => 1 | RAS.CANDIDATE => 2
  | RAS.AUTHORITATIVE_FOR_REUSE => 3 | RAS.AUTHORITATIVE_SOURCE => 4
  | RAS.AUTHORITATIVE_OWNER => 5 | RAS.FENCED => 6
  end.

Definition kReplicaAuthority : list (ReplicaAuthorityState * string) :=
  [(RAS.NONE, "NONE"); (RAS.HISTORICAL, "HISTORICAL"); (RAS.CANDIDATE, "CANDIDATE");
   (RAS.AUTHORITATIVE_FOR_REUSE, "AUTHORITATIVE_FOR_REUSE");
   (RAS.AUTHORITATIVE_SOURCE, "AUTHORITATIVE_SOURCE");
   (RAS.AUTHORITATIVE_OWNER, "AUTHORITATIVE_OWNER"); (RAS.FENCED, "FENCED")].

#[export] Instance ReplicaAuthorityState_eq_dec : EqDecision ReplicaAuthorityState.
Proof. solve_decision. Defined.
#[export] Instance ReplicaAuthorityState_enum : Enum ReplicaAuthorityState.
Proof. enum_instance ReplicaAuthorityState_value kReplicaAuthority. Defined.

(** Operational lifecycle of one replica. *)
Module RL.
Inductive ReplicaLifecycle := PLANNED | RESERVED | STAGING | TRANSFERRING | TRANSFERRED |
  VERIFYING | PREPARED | AUTHORITATIVE | DEGRADED | STALE | REVALIDATION_REQUIRED | SUPERSEDED
  | QUARANTINED | CORRUPT | RETIRING | RETIRED | ABANDONED.
End RL.
Abbreviation ReplicaLifecycle := RL.ReplicaLifecycle.

Definition ReplicaLifecycle_value (e : ReplicaLifecycle) : Z :=
  match e with
  | RL.PLANNED => 0 | RL.RESERVED => 1 | RL.STAGING => 2 | RL.TRANSFERRING => 3
  | RL.TRANSFERRED => 4 | RL.VERIFYING => 5 | RL.PREPARED => 6 | RL.AUTHORITATIVE => 7
  | RL.DEGRADED => 8 | RL.STALE => 9 | RL.REVALIDATION_REQUIRED => 10
  | RL.SUPERSEDED => 11 | RL.QUARANTINED => 12 | RL.CORRUPT => 13 | RL.RETIRING => 14
  | RL.RETIRED => 15 | RL.ABANDONED => 16
  end.

Definition kReplicaLifecycle : list (ReplicaLifecycle * string) :=
  [(RL.PLANNED, "PLANNED"); (RL.RESERVED, "RESERVED"); (RL.STAGING, "STAGING");
   (RL.TRANSFERRING, "TRANSFERRING"); (RL.TRANSFERRED, "TRANSFERRED");
   (RL.VERIFYING, "VERIFYING"); (RL.PREPARED, "PREPARED");
   (RL.AUTHORITATIVE, "AUTHORITATIVE"); (RL.DEGRADED, "DEGRADED"); (RL.STALE, "STALE");
   (RL.REVALIDATION_REQUIRED, "REVALIDATION_REQUIRED"); (RL.SUPERSEDED, "SUPERSEDED");
   (RL.QUARANTINED, "QUARANTINED"); (RL.CORRUPT, "CORRUPT"); (RL.RETIRING, "RETIRING");
   (RL.RETIRED, "RETIRED"); (RL.ABANDONED, "ABANDONED")].

#[export] Instance ReplicaLifecycle_eq_dec : EqDecision ReplicaLifecycle.
Proof. solve_decision. Defined.
#[export] Instance ReplicaLifecycle_enum : Enum ReplicaLifecycle.
Proof. enum_instance ReplicaLifecycle_value kReplicaLifecycle. Defined.

(** Aggregate health of one replica set generation. *)
Module RSS.
Inductive ReplicaSetState := HEALTHY | DEGRADED | UNDER_REPLICATED | OVER_REPLICATED |
  REVALIDATION_REQUIRED | SPLIT_BRAIN_RISK | NO_AUTHORITATIVE_REPLICA | CORRUPT | REBUILDING |
  RETIRING.
End RSS.
Abbreviation ReplicaSetState := RSS.ReplicaSetState.

Definition ReplicaSetState_value (e : ReplicaSetState) : Z :=
  match e with
  | RSS.HEALTHY => 0 | RSS.DEGRADED => 1 | RSS.UNDER_REPLICATED => 2
  | RSS.OVER_REPLICATED => 3 | RSS.REVALIDATION_REQUIRED => 4 | RSS.SPLIT_BRAIN_RISK => 5
  | RSS.NO_AUTHORITATIVE_REPLICA => 6 | RSS.CORRUPT => 7 | RSS.REBUILDING => 8
  | RSS.RETIRING => 9
  end.

Definition kReplicaSetState : list (ReplicaSetState * string) :=
  [(RSS.HEALTHY, "HEALTHY"); (RSS.DEGRADED, "DEGRADED");
   (RSS.UNDER_REPLICATED, "UNDER_REPLICATED"); (RSS.OVER_REPLICATED, "OVER_REPLICATED");
   (RSS.REVALIDATION_REQUIRED, "REVALIDATION_REQUIRED");
   (RSS.SPLIT_BRAIN_RISK, "SPLIT_BRAIN_RISK");
   (RSS.NO_AUTHORITATIVE_REPLICA, "NO_AUTHORITATIVE_REPLICA"); (RSS.CORRUPT, "CORRUPT");
   (RSS.REBUILDING, "REBUILDING"); (RSS.RETIRING, "RETIRING")].

#[export] Instance ReplicaSetState_eq_dec : EqDecision ReplicaSetState.
Proof. solve_decision. Defined.
#[export] Instance ReplicaSetState_enum : Enum ReplicaSetState.
Proof. enum_instance ReplicaSetState_value kReplicaSetState. Defined.

(** Result of gating a candidate against a compatibility requirement. *)
Module CRes.
Inductive CompatibilityResult := COMPATIBLE | INCOMPATIBLE | UNKNOWN | REVALIDATION_REQUIRED.
End CRes.
Abbreviation CompatibilityResult := CRes.CompatibilityResult.

Definition CompatibilityResult_value (e : CompatibilityResult) : Z :=
  match e with
  | CRes.COMPATIBLE => 0 | CRes.INCOMPATIBLE => 1 | CRes.UNKNOWN => 2
  | CRes.REVALIDATION_REQUIRED => 3
  end.

Definition kCompatibilityResult : list (CompatibilityResult * string) :=
  [(CRes.COMPATIBLE, "COMPATIBLE"); (CRes.INCOMPATIBLE, "INCOMPATIBLE");
   (CRes.UNKNOWN, "UNKNOWN"); (CRes.REVALIDATION_REQUIRED, "REVALIDATION_REQUIRED")].

#[export] Instance CompatibilityResult_eq_dec : EqDecision CompatibilityResult.
Proof. solve_decision. Defined.
#[export] Instance CompatibilityResult_enum : Enum CompatibilityResult.
Proof. enum_instance CompatibilityResult_value kCompatibilityResult. Defined.

(** Kind of governed cross-cluster operation. *)
Module OpK.
Inductive OperationKind := REPLICATION | MIGRATION | OWNERSHIP_TRANSFER | RETIREMENT |
  REVALIDATION | RECONSTRUCTION.
End OpK.
Abbreviation OperationKind := OpK.OperationKind.

Definition OperationKind_value (e : OperationKind) : Z :=
  match e with
  | OpK.REPLICATION => 0 | OpK.MIGRATION => 1 | OpK.OWNERSHIP_TRANSFER => 2
  | OpK.RETIREMENT => 3 | OpK.REVALIDATION => 4 | OpK.RECONSTRUCTION => 5
  end.

Definition kOperationKind : list (OperationKind * string) :=
  [(OpK.REPLICATION, "REPLICATION"); (OpK.MIGRATION, "MIGRATION");
   (OpK.OWNERSHIP_TRANSFER, "OWNERSHIP_TRANSFER"); (OpK.RETIREMENT, "RETIREMENT");
   (OpK.REVALIDATION, "REVALIDATION"); (OpK.RECONSTRUCTION, "RECONSTRUCTION")].

#[export] Instance OperationKind_eq_dec : EqDecision OperationKind.
Proof. solve_decision. Defined.
#[export] Instance OperationKind_enum : Enum OperationKind.
Proof. enum_instance OperationKind_value kOperationKind. Defined.

(** Transactional state of a governed operation. *)
Module OS.
Inductive OperationState := PLANNED | RESERVED | STAGING_DESTINATION | TRANSFERRING |
  TRANSFERRED | VERIFYING | PREPARED | COMMITTED | ADDED_TO_REPLICA_SET | SOURCE_RETIRING |
  COMPLETE | FAILED | ABANDONED | CANCELLED | OUTCOME_UNKNOWN.
End OS.
Abbreviation OperationState := OS.OperationState.

Definition OperationState_value (e : OperationState) : Z :=
  match e with
  | OS.PLANNED => 0 | OS.RESERVED => 1 | OS.STAGING_DESTINATION => 2
  | OS.TRANSFERRING => 3 | OS.TRANSFERRED => 4 | OS.VERIFYING => 5 | OS.PREPARED => 6
  | OS.COMMITTED => 7 | OS.ADDED_TO_REPLICA_SET => 8 | OS.SOURCE_RETIRING => 9
  | OS.COMPLETE => 10 | OS.FAILED => 11 | OS.ABANDONED => 12 | OS.CANCELLED => 13
  | OS.OUTCOME_UNKNOWN => 14
  end.

Definition kOperationState : list (OperationState * string) :=
  [(OS.PLANNED, "PLANNED"); (OS.RESERVED, "RESERVED");
   (OS.STAGING_DESTINATION, "STAGING_DESTINATION"); (OS.TRANSFERRING, "TRANSFERRING");
   (OS.TRANSFERRED, "TRANSFERRED"); (OS.VERIFYING, "VERIFYING"); (OS.PREPARED, "PREPARED");
   (OS.COMMITTED, "COMMITTED"); (OS.ADDED_TO_REPLICA_SET, "ADDED_TO_REPLICA_SET");
   (OS.SOURCE_RETIRING, "SOURCE_RETIRING"); (OS.COMPLETE, "COMPLETE");
   (OS.FAILED, "FAILED"); (OS.ABANDONED, "ABANDONED"); (OS.CANCELLED, "CANCELLED");
   (OS.OUTCOME_UNKNOWN, "OUTCOME_UNKNOWN")].

#[export] Instance OperationState_eq_dec : EqDecision OperationState.
Proof. solve_decision. Defined.
#[export] Instance OperationState_enum : Enum OperationState.
Proof. enum_instance OperationState_value kOperationState. Defined.

(** Terminal classification of a cancelled operation. *)
Module CO.
Inductive CancellationOutcome := CANCELLED_BEFORE_TRANSFER | CANCELLED_DURING_TRANSFER |
  CANCELLED_BEFORE_COMMIT | COMMIT_ALREADY_AUTHORITATIVE | OUTCOME_UNKNOWN.
End CO.
Abbreviation CancellationOutcome := CO.CancellationOutcome.

Definition CancellationOutcome_value (e : CancellationOutcome) : Z :=
  match e with
  | CO.CANCELLED_BEFORE_TRANSFER => 0 | CO.CANCELLED_DURING_TRANSFER => 1
  | CO.CANCELLED_BEFORE_COMMIT => 2 | CO.COMMIT_ALREADY_AUTHORITATIVE => 3
  | CO.OUTCOME_UNKNOWN => 4
  end.

Definition kCancellationOutcome : list (CancellationOutcome * string) :=
  [(CO.CANCELLED_BEFORE_TRANSFER, "CANCELLED_BEFORE_TRANSFER");
   (CO.CANCELLED_DURING_TRANSFER, "CANCELLED_DURING_TRANSFER");
   (CO.CANCELLED_BEFORE_COMMIT, "CANCELLED_BEFORE_COMMIT");
   (CO.COMMIT_ALREADY_AUTHORITATIVE, "COMMIT_ALREADY_AUTHORITATIVE");
   (CO.OUTCOME_UNKNOWN, "OUTCOME_UNKNOWN")].

#[export] Instance CancellationOutcome_eq_dec : EqDecision CancellationOutcome.
Proof. solve_decision. Defined.
#[export] Instance CancellationOutcome_enum : Enum CancellationOutcome.
Proof. enum_instance CancellationOutcome_value kCancellationOutcome. Defined.

(** Answer produced by the placement / economics planner. *)
Module DK.
Inductive DecisionKind := REUSE_LOCAL | REUSE_REMOTE | REPLICATE | MIGRATE | RECONSTRUCT |
  DEFER | REJECT | UNKNOWN.
End DK.
Abbreviation DecisionKind := DK.DecisionKind.

Definition DecisionKind_value (e : DecisionKind) : Z :=
  match e with
  | DK.REUSE_LOCAL => 0 | DK.REUSE_REMOTE => 1 | DK.REPLICATE => 2 | DK.MIGRATE => 3
  | DK.RECONSTRUCT => 4 | DK.DEFER => 5 | DK.REJECT => 6 | DK.UNKNOWN => 7
  end.

Definition kDecisionKind : list (DecisionKind * string) :=
  [(DK.REUSE_LOCAL, "REUSE_LOCAL"); (DK.REUSE_REMOTE, "REUSE_REMOTE");
   (DK.REPLICATE, "REPLICATE"); (DK.MIGRATE, "MIGRATE"); (DK.RECONSTRUCT, "RECONSTRUCT");
   (DK.DEFER, "DEFER"); (DK.REJECT, "REJECT"); (DK.UNKNOWN, "UNKNOWN")].

#[export] Instance DecisionKind_eq_dec : EqDecision DecisionKind.
Proof. solve_decision. Defined.
#[export] Instance DecisionKind_enum : Enum DecisionKind.
Proof. enum_instance DecisionKind_value kDecisionKind. Defined.

(** Named replication policy forms. The runtime implements exactly these. *)
Module RPF.
Inductive ReplicationPolicyForm := SINGLE | N_REPLICAS | REGION_DIVERSE | CLUSTER_DIVERSE |
  POLICY_CUSTOM.
End RPF.
Abbreviation ReplicationPolicyForm := RPF.ReplicationPolicyForm.

Definition ReplicationPolicyForm_value (e : ReplicationPolicyForm) : Z :=
  match e with
  | RPF.SINGLE => 0 | RPF.N_REPLICAS => 1 | RPF.REGION_DIVERSE => 2
  | RPF.CLUSTER_DIVERSE => 3 | RPF.POLICY_CUSTOM => 4
  end.

Definition kReplicationPolicyForm : list (ReplicationPolicyForm * string) :=
  [(RPF.SINGLE, "SINGLE"); (RPF.N_REPLICAS, "N_REPLICAS");
   (RPF.REGION_DIVERSE, "REGION_DIVERSE"); (RPF.CLUSTER_DIVERSE, "CLUSTER_DIVERSE");
   (RPF.POLICY_CUSTOM, "POLICY_CUSTOM")].

#[export] Instance ReplicationPolicyForm_eq_dec : EqDecision ReplicationPolicyForm.
Proof. solve_decision. Defined.
#[export] Instance ReplicationPolicyForm_enum : Enum ReplicationPolicyForm.
Proof. enum_instance ReplicationPolicyForm_value kReplicationPolicyForm. Defined.

(** Behavior permitted when a replica set is degraded. *)
Module DB.
Inductive DegradedBehavior := REJECT_REUSE | ALLOW_HISTORICAL_READ_ONLY |
  ALLOW_VERIFIED_READ_ONLY.
End DB.
Abbreviation DegradedBehavior := DB.DegradedBehavior.

Definition DegradedBehavior_value (e : DegradedBehavior) : Z :=
  match e with
  | DB.REJECT_REUSE => 0 | DB.ALLOW_HISTORICAL_READ_ONLY => 1
  | DB.ALLOW_VERIFIED_READ_ONLY => 2
  end.

Definition kDegradedBehavior : list (DegradedBehavior * string) :=
  [(DB.REJECT_REUSE, "REJECT_REUSE");
   (DB.ALLOW_HISTORICAL_READ_ONLY, "ALLOW_HISTORICAL_READ_ONLY");
   (DB.ALLOW_VERIFIED_READ_ONLY, "ALLOW_VERIFIED_READ_ONLY")].

#[export] Instance DegradedBehavior_eq_dec : EqDecision DegradedBehavior.
Proof. solve_decision. Defined.
#[export] Instance DegradedBehavior_enum : Enum DegradedBehavior.
Proof. enum_instance DegradedBehavior_value kDegradedBehavior. Defined.

(** Action taken when a destination fails eligibility or verification. *)
Module OFA.
Inductive OperationFailureAction := ABANDON_DESTINATION | QUARANTINE_DESTINATION |
  RETAIN_FOR_RETRY.
End OFA.
Abbreviation OperationFailureAction := OFA.OperationFailureAction.

Definition OperationFailureAction_value (e : OperationFailureAction) : Z :=
  match e with
  | OFA.ABANDON_DESTINATION => 0 | OFA.QUARANTINE_DESTINATION => 1
  | OFA.RETAIN_FOR_RETRY => 2
  end.

Definition kFailureAction : list (OperationFailureAction * string) :=
  [(OFA.ABANDON_DESTINATION, "ABANDON_DESTINATION");
   (OFA.QUARANTINE_DESTINATION, "QUARANTINE_DESTINATION");
   (OFA.RETAIN_FOR_RETRY, "RETAIN_FOR_RETRY")].

#[export] Instance OperationFailureAction_eq_dec : EqDecision OperationFailureAction.
Proof. solve_decision. Defined.
#[export] Instance OperationFailureAction_enum : Enum OperationFailureAction.
Proof. enum_instance OperationFailureAction_value kFailureAction. Defined.

(** Structured error codes. Normal policy outcomes are reported through these codes. *)
Module EC.
Inductive ErrorCode := OK | INVALID_ARGUMENT | NOT_FOUND | UNKNOWN_STATE | UNKNOWN_REPLICA |
  UNKNOWN_CLUSTER | UNKNOWN_OPERATION | UNKNOWN_POLICY | UNKNOWN_STATE_CLASS | STALE_EPOCH |
  STALE_WORKER | STALE_CLUSTER_INCARNATION | STALE_STATE_GENERATION | STALE_REPLICA_GENERATION
  | STALE_REPLICA_SET_GENERATION | STALE_PLACEMENT_GENERATION | STALE_MIGRATION_GENERATION |
  STALE_TRANSFER_GENERATION | STALE_EVIDENCE | STALE_OPERATION_GENERATION |
  NO_AUTHORITATIVE_REPLICA | INTEGRITY_UNKNOWN | INTEGRITY_MISMATCH | INCOMPATIBLE |
  COMPATIBILITY_UNKNOWN | DESTINATION_INELIGIBLE | SOURCE_INELIGIBLE | UNDER_REPLICATED |
  OVER_REPLICATED | SPLIT_BRAIN_RISK | MIGRATION_CONFLICT | TRANSFER_FAILED |
  TRANSFER_INCOMPLETE | COMMIT_CONFLICT | DUPLICATE_CONFLICT | REVALIDATION_REQUIRED |
  ILLEGAL_TRANSITION | POLICY_VIOLATION | CAPACITY_INSUFFICIENT | FENCED | QUARANTINED |
  IMMUTABLE_STATE_CONFLICT | AUTHORITY_NOT_ESTABLISHED | PERSISTENCE_CORRUPT |
  PERSISTENCE_UNSUPPORTED_VERSION | PERSISTENCE_IO | PERSISTENCE_TRUNCATED | FRAME_CORRUPT |
  FRAME_TOO_LARGE | FRAME_TRUNCATED | PROTOCOL_UNSUPPORTED | TRANSPORT_IO | TRANSPORT_CLOSED |
  RESOURCE_EXHAUSTED | OUTCOME_UNKNOWN | CANCELLED | SHUTTING_DOWN | INTERNAL_ERROR |
  NOT_SUPPORTED | UNKNOWN.
End EC.
Abbreviation ErrorCode := EC.ErrorCode.

Definition ErrorCode_value (e : ErrorCode) : Z :=
  match e with
  | EC.OK => 0 | EC.INVALID_ARGUMENT => 1 | EC.NOT_FOUND => 2 | EC.UNKNOWN_STATE => 3
  | EC.UNKNOWN_REPLICA => 4 | EC.UNKNOWN_CLUSTER => 5 | EC.UNKNOWN_OPERATION => 6
  | EC.UNKNOWN_POLICY => 7 | EC.UNKNOWN_STATE_CLASS => 8 | EC.STALE_EPOCH => 20
  | EC.STALE_WORKER => 21 | EC.STALE_CLUSTER_INCARNATION => 22
  | EC.STALE_STATE_GENERATION => 23 | EC.STALE_REPLICA_GENERATION => 24
  | EC.STALE_REPLICA_SET_GENERATION => 25 | EC.STALE_PLACEMENT_GENERATION => 26
  | EC.STALE_MIGRATION_GENERATION => 27 | EC.STALE_TRANSFER_GENERATION => 28
  | EC.STALE_EVIDENCE => 29 | EC.STALE_OPERATION_GENERATION => 30
  | EC.NO_AUTHORITATIVE_REPLICA => 40 | EC.INTEGRITY_UNKNOWN => 41
  | EC.INTEGRITY_MISMATCH => 42 | EC.INCOMPATIBLE => 43 | EC.COMPATIBILITY_UNKNOWN => 44
  | EC.DESTINATION_INELIGIBLE => 45 | EC.SOURCE_INELIGIBLE => 46
  | EC.UNDER_REPLICATED => 47 | EC.OVER_REPLICATED => 48 | EC.SPLIT_BRAIN_RISK => 49
  | EC.MIGRATION_CONFLICT => 50 | EC.TRANSFER_FAILED => 51 | EC.TRANSFER_INCOMPLETE => 52
  | EC.COMMIT_CONFLICT => 53 | EC.DUPLICATE_CONFLICT => 54
  | EC.REVALIDATION_REQUIRED => 55 | EC.ILLEGAL_TRANSITION => 56
  | EC.POLICY_VIOLATION => 57 | EC.CAPACITY_INSUFFICIENT => 58 | EC.FENCED => 59
  | EC.QUARANTINED => 60 | EC.IMMUTABLE_STATE_CONFLICT => 61
  | EC.AUTHORITY_NOT_ESTABLISHED => 62 | EC.PERSISTENCE_CORRUPT => 80
  | EC.PERSISTENCE_UNSUPPORTED_VERSION => 81 | EC.PERSISTENCE_IO => 82
  | EC.PERSISTENCE_TRUNCATED => 83 | EC.FRAME_CORRUPT => 100 | EC.FRAME_TOO_LARGE => 101
  | EC.FRAME_TRUNCATED => 102 | EC.PROTOCOL_UNSUPPORTED => 103 | EC.TRANSPORT_IO => 104
  | EC.TRANSPORT_CLOSED => 105 | EC.RESOURCE_EXHAUSTED => 120 | EC.OUTCOME_UNKNOWN => 121
  | EC.CANCELLED => 122 | EC.SHUTTING_DOWN => 123 | EC.INTERNAL_ERROR => 124
  | EC.NOT_SUPPORTED => 125 | EC.UNKNOWN => 126
  end.

Definition kCodeNames : list (ErrorCode * string) :=
  [(EC.OK, "OK"); (EC.INVALID_ARGUMENT, "INVALID_ARGUMENT"); (EC.NOT_FOUND, "NOT_FOUND");
   (EC.UNKNOWN_STATE, "UNKNOWN_STATE"); (EC.UNKNOWN_REPLICA, "UNKNOWN_REPLICA");
   (EC.UNKNOWN_CLUSTER, "UNKNOWN_CLUSTER"); (EC.UNKNOWN_OPERATION, "UNKNOWN_OPERATION");
   (EC.UNKNOWN_POLICY, "UNKNOWN_POLICY"); (EC.UNKNOWN_STATE_CLASS, "UNKNOWN_STATE_CLASS");
   (EC.STALE_EPOCH, "STALE_EPOCH"); (EC.STALE_WORKER, "STALE_WORKER");
   (EC.STALE_CLUSTER_INCARNATION, "STALE_CLUSTER_INCARNATION");
   (EC.STALE_STATE_GENERATION, "STALE_STATE_GENERATION");
   (EC.STALE_REPLICA_GENERATION, "STALE_REPLICA_GENERATION");
   (EC.STALE_REPLICA_SET_GENERATION, "STALE_REPLICA_SET_GENERATION");
   (EC.STALE_PLACEMENT_GENERATION, "STALE_PLACEMENT_GENERATION");
   (EC.STALE_MIGRATION_GENERATION, "STALE_MIGRATION_GENERATION");
   (EC.STALE_TRANSFER_GENERATION, "STALE_TRANSFER_GENERATION");
   (EC.STALE_EVIDENCE, "STALE_EVIDENCE");
   (EC.STALE_OPERATION_GENERATION, "STALE_OPERATION_GENERATION");
   (EC.NO_AUTHORITATIVE_REPLICA, "NO_AUTHORITATIVE_REPLICA");
   (EC.INTEGRITY_UNKNOWN, "INTEGRITY_UNKNOWN");
   (EC.INTEGRITY_MISMATCH, "INTEGRITY_MISMATCH"); (EC.INCOMPATIBLE, "INCOMPATIBLE");
   (EC.COMPATIBILITY_UNKNOWN, "COMPATIBILITY_UNKNOWN");
   (EC.DESTINATION_INELIGIBLE, "DESTINATION_INELIGIBLE");
   (EC.SOURCE_INELIGIBLE, "SOURCE_INELIGIBLE"); (EC.UNDER_REPLICATED, "UNDER_REPLICATED");
   (EC.OVER_REPLICATED, "OVER_REPLICATED"); (EC.SPLIT_BRAIN_RISK, "SPLIT_BRAIN_RISK");
   (EC.MIGRATION_CONFLICT, "MIGRATION_CONFLICT"); (EC.TRANSFER_FAILED, "TRANSFER_FAILED");
   (EC.TRANSFER_INCOMPLETE, "TRANSFER_INCOMPLETE");
   (EC.COMMIT_CONFLICT, "COMMIT_CONFLICT"); (EC.DUPLICATE_CONFLICT, "DUPLICATE_CONFLICT");
   (EC.REVALIDATION_REQUIRED, "REVALIDATION_REQUIRED");
   (EC.ILLEGAL_TRANSITION, "ILLEGAL_TRANSITION");
   (EC.POLICY_VIOLATION, "POLICY_VIOLATION");
   (EC.CAPACITY_INSUFFICIENT, "CAPACITY_INSUFFICIENT"); (EC.FENCED, "FENCED");
   (EC.QUARANTINED, "QUARANTINED");
   (EC.IMMUTABLE_STATE_CONFLICT, "IMMUTABLE_STATE_CONFLICT");
   (EC.AUTHORITY_NOT_ESTABLISHED, "AUTHORITY_NOT_ESTABLISHED");
   (EC.PERSISTENCE_CORRUPT, "PERSISTENCE_CORRUPT");
   (EC.PERSISTENCE_UNSUPPORTED_VERSION, "PERSISTENCE_UNSUPPORTED_VERSION");
   (EC.PERSISTENCE_IO, "PERSISTENCE_IO");
   (EC.PERSISTENCE_TRUNCATED, "PERSISTENCE_TRUNCATED");
   (EC.FRAME_CORRUPT, "FRAME_CORRUPT"); (EC.FRAME_TOO_LARGE, "FRAME_TOO_LARGE");
   (EC.FRAME_TRUNCATED, "FRAME_TRUNCATED");
   (EC.PROTOCOL_UNSUPPORTED, "PROTOCOL_UNSUPPORTED"); (EC.TRANSPORT_IO, "TRANSPORT_IO");
   (EC.TRANSPORT_CLOSED, "TRANSPORT_CLOSED");
   (EC.RESOURCE_EXHAUSTED, "RESOURCE_EXHAUSTED"); (EC.OUTCOME_UNKNOWN, "OUTCOME_UNKNOWN");
   (EC.CANCELLED, "CANCELLED"); (EC.SHUTTING_DOWN, "SHUTTING_DOWN");
   (EC.INTERNAL_ERROR, "INTERNAL_ERROR"); (EC.NOT_SUPPORTED, "NOT_SUPPORTED");
   (EC.UNKNOWN, "UNKNOWN")].

#[export] Instance ErrorCode_eq_dec : EqDecision ErrorCode.
Proof. solve_decision. Defined.
#[export] Instance ErrorCode_enum : Enum ErrorCode.
Proof. enum_instance ErrorCode_value kCodeNames. Defined.

(** Provenance of an economic or quantitative value. *)
Module CS.
Inductive CostSource := UNKNOWN | MEASURED | POLICY | ESTIMATED.
End CS.
Abbreviation CostSource := CS.CostSource.

Definition CostSource_value (e : CostSource) : Z :=
  match e with
  | CS.UNKNOWN => 0 | CS.MEASURED => 1 | CS.POLICY => 2 | CS.ESTIMATED => 3
  end.

Definition kCostSources : list (CostSource * string) :=
  [(CS.UNKNOWN, "UNKNOWN"); (CS.MEASURED, "MEASURED"); (CS.POLICY, "POLICY");
   (CS.ESTIMATED, "ESTIMATED")].

#[export] Instance CostSource_eq_dec : EqDecision CostSource.
Proof. solve_decision. Defined.
#[export] Instance CostSource_enum : Enum CostSource.
Proof. enum_instance CostSource_value kCostSources. Defined.

(** Names of the integrity algorithms this build understands. *)
Module IA.
Inductive IntegrityAlgorithm := NONE | SHA256.
End IA.
Abbreviation IntegrityAlgorithm := IA.IntegrityAlgorithm.

Definition IntegrityAlgorithm_value (e : IntegrityAlgorithm) : Z :=
  match e with
  | IA.NONE => 0 | IA.SHA256 => 1
  end.

Definition kIntegrityAlgorithms : list (IntegrityAlgorithm * string) :=
  [(IA.NONE, "NONE"); (IA.SHA256, "SHA256")].

#[export] Instance IntegrityAlgorithm_eq_dec : EqDecision IntegrityAlgorithm.
Proof. solve_decision. Defined.
#[export] Instance IntegrityAlgorithm_enum : Enum IntegrityAlgorithm.
Proof. enum_instance IntegrityAlgorithm_value kIntegrityAlgorithms. Defined.

(** Named ranking factors, in the fixed evaluation order used by the planner. *)
Module RF.
Inductive RankingFactor := EXPECTED_REUSE_VALUE | TRANSFER_COST | RECONSTRUCTION_COST |
  AVAILABLE_BANDWIDTH | PREDICTED_TRANSFER_DURATION | STORAGE_COST | COMPUTE_COST |
  REGION_AFFINITY | WORKLOAD_AFFINITY | EXISTING_REPLICA_PROXIMITY | FAILURE_DOMAIN_DIVERSITY |
  EXPECTED_FUTURE_DEMAND | SOURCE_HEALTH | DESTINATION_HEALTH | PRESSURE | UTILIZATION.
End RF.
Abbreviation RankingFactor := RF.RankingFactor.

Definition RankingFactor_value (e : RankingFactor) : Z :=
  match e with
  | RF.EXPECTED_REUSE_VALUE => 0 | RF.TRANSFER_COST => 1 | RF.RECONSTRUCTION_COST => 2
  | RF.AVAILABLE_BANDWIDTH => 3 | RF.PREDICTED_TRANSFER_DURATION => 4
  | RF.STORAGE_COST => 5 | RF.COMPUTE_COST => 6 | RF.REGION_AFFINITY => 7
  | RF.WORKLOAD_AFFINITY => 8 | RF.EXISTING_REPLICA_PROXIMITY => 9
  | RF.FAILURE_DOMAIN_DIVERSITY => 10 | RF.EXPECTED_FUTURE_DEMAND => 11
  | RF.SOURCE_HEALTH => 12 | RF.DESTINATION_HEALTH => 13 | RF.PRESSURE => 14
  | RF.UTILIZATION => 15
  end.

Definition ranking_factor_names : list (RankingFactor * string) :=
  [(RF.EXPECTED_REUSE_VALUE, "expected_reuse_value"); (RF.TRANSFER_COST, "transfer_cost");
   (RF.RECONSTRUCTION_COST, "reconstruction_cost");
   (RF.AVAILABLE_BANDWIDTH, "available_bandwidth");
   (RF.PREDICTED_TRANSFER_DURATION, "predicted_transfer_duration");
   (RF.STORAGE_COST, "storage_cost"); (RF.COMPUTE_COST, "compute_cost");
   (RF.REGION_AFFINITY, "region_affinity"); (RF.WORKLOAD_AFFINITY, "workload_affinity");
   (RF.EXISTING_REPLICA_PROXIMITY, "existing_replica_proximity");
   (RF.FAILURE_DOMAIN_DIVERSITY, "failure_domain_diversity");
   (RF.EXPECTED_FUTURE_DEMAND, "expected_future_demand");
   (RF.SOURCE_HEALTH, "source_health"); (RF.DESTINATION_HEALTH, "destination_health");
   (RF.PRESSURE, "pressure"); (RF.UTILIZATION, "utilization")].

#[export] Instance RankingFactor_eq_dec : EqDecision RankingFactor.
Proof. solve_decision. Defined.
#[export] Instance RankingFactor_enum : Enum RankingFactor.
Proof. enum_instance RankingFactor_value ranking_factor_names. Defined.

(** ** The generic templates of [taxonomy.cpp] *)
Section templates.
Context {E : Type} `{Enum E}.

Fixpoint lookup_table (table : list (E * string)) (value : E) : option string :=
  match table with
  | [] => None
  | (e, name) :: rest => if decide (e = value) then Some name else lookup_table rest value
  end.

Definition contains (table : list (E * string)) (value : E) : bool :=
  match lookup_table table value with Some _ => true | None => false end.

Fixpoint parse_with (table : list (E * string)) (text : string) : option E :=
  match table with
  | [] => None
  | (e, name) :: rest => if decide (text = name) then Some e else parse_with rest text
  end.

Definition to_string (value : E) : string :=
  match lookup_table enum_table value with Some name => name | None => "UNRECOGNIZED" end.

Definition is_valid (value : E) : bool := contains enum_table value.

(** The raw cast of a decoded number and its [is_valid] check. *)
Definition enum_cast (raw : Z) : option E :=
  list_find (λ p : E * string, enum_value p.1 = raw) enum_table ≫= λ p, Some p.2.1.

Lemma lookup_table_elem table value name :
  lookup_table table value = Some name → (value, name) ∈ table.
Proof.
  induction table as [|[e n] rest IH]; simpl; [done|].
  case_decide; intros; simplify_eq; [left|right; auto].
Qed.

Lemma lookup_table_some table value :
  value ∈ table.*1 → is_Some (lookup_table table value).
Proof.
  induction table as [|[e n] rest IH]; simpl; [by intros ?%elem_of_nil|].
  intros [->|?]%elem_of_cons; case_decide; eauto. done.
Qed.

Lemma parse_with_elem table value name :
  NoDup table.*2 → (value, name) ∈ table → parse_with table name = Some value.
Proof.
  induction table as [|[e n] rest IH]; simpl; [by intros _ ?%elem_of_nil|].
  intros [Hn Hd]%list.NoDup_cons Hin. apply elem_of_cons in Hin as [?|Hin]; simplify_eq.
  - by rewrite decide_True.
  - rewrite decide_False; [auto|]. intros ->. apply Hn.
    apply list_elem_of_fmap. by exists (value, n).
Qed.

Lemma is_valid_enum value : is_valid value = true.
Proof.
  unfold is_valid, contains.
  by destruct (lookup_table_some enum_table value (enum_table_complete value)) as [? ->].
Qed.

Lemma parse_to_string value : parse_with enum_table (to_string value) = Some value.
Proof.
  unfold to_string.
  destruct (lookup_table_some enum_table value (enum_table_complete value)) as [name Hn].
  rewrite Hn. apply parse_with_elem; [apply enum_names_nodup|].
  by apply lookup_table_elem.
Qed.

Lemma enum_cast_value value : enum_cast (enum_value value) = Some value.
Proof.
  unfold enum_cast. pose proof (enum_table_complete value) as Hin.
  apply list_elem_of_fmap in Hin as [[e n] [Heq Hin]]. simpl in Heq. subst e.
  destruct (list_find_elem_of (λ p : E * string, enum_value p.1 = enum_value value)
    enum_table (value, n) Hin eq_refl) as [[i [e m]] Hf].
  rewrite Hf. simpl. apply list_find_Some in Hf as (_ & He & _). simpl in He.
  f_equal. by apply enum_value_inj.
Qed.

Lemma enum_cast_sound raw value : enum_cast raw = Some value → enum_value value = raw.
Proof.
  unfold enum_cast. destruct (list_find _ _) as [[i [e n]]|] eqn:Hf; [|done]. intros [= <-].
  by apply list_find_Some in Hf as (_ & He & _).
Qed.
End templates.

(** Every enumeration of the taxonomy survives printing and storing.  A value
    printed by its table parses back to itself, is one of the valid
    enumerators, fits the 16 bits it is stored in, and a stored number is accepted
    exactly when it is the number of an enumerator. *)
Theorem enum_round_trip {E} `{Enum E} (value : E) :
  parse_with enum_table (to_string value) = Some value ∧ is_valid value = true ∧
  0 ≤ enum_value value < 2 ^ 16 ∧
  (∀ raw, enum_cast raw = Some value ↔ raw = enum_value value).
Proof.
  split_and!; [apply parse_to_string|apply is_valid_enum|apply enum_value_u16..|].
  intros raw. split; [intros Hc; symmetry; by apply enum_cast_sound|intros ->; apply enum_cast_value].
Qed.

(** [is_fencing_error] of [error.cpp]. *)
Definition is_fencing_error (code : ErrorCode) : bool :=
  match code with
  | EC.STALE_EPOCH | EC.STALE_WORKER | EC.STALE_CLUSTER_INCARNATION
  | EC.STALE_STATE_GENERATION | EC.STALE_REPLICA_GENERATION
  | EC.STALE_REPLICA_SET_GENERATION | EC.STALE_PLACEMENT_GENERATION
  | EC.STALE_MIGRATION_GENERATION | EC.STALE_TRANSFER_GENERATION
  | EC.STALE_EVIDENCE | EC.STALE_OPERATION_GENERATION => true
  | _ => false
  end.

(** [error.hpp] / [result.hpp]: a [Result<T>] holds a value or an [Error].  The
    human-readable text of a returned error is not modelled; its code is. *)
Inductive Result (A : Type) := Ok (value : A) | Err (code : ErrorCode).
Arguments Ok {A} value.
Arguments Err {A} code.

Definition has_value {A} (r : Result A) : bool :=
  match r with Ok _ => true | Err _ => false end.
