(* ===== verification/Model.v ===== *)
(** * Data model

    One record per C++ [struct] of the public headers (and [ControlPlane] of
    [detail/control_plane.hpp]), field by field; a field keeps its name behind a
    short prefix that stands for the struct.  [X_default] is the value [X{}], with
    the default member initialisers of the header.  Identities, ticks and counters
    are integers ([StrongId<Tag>] is a [uint64_t]); a pointer that may be null is
    an [option]; a [std::map] is a [gmap] (see [Prelude.entries] for its order). *)

From S2P Require Import Prelude Taxonomy.

Local Open Scope string_scope.
Local Open Scope Z_scope.

(** ** [include/ccsf/cost.hpp] *)

(** A quantity of cost in micro-units together with its provenance. *)
Record CostValue := mkCostValue {
  cv_source : CostSource;
  cv_micro_units : Z
}.

#[export] Instance CostValue_eta : Eta CostValue := λ r,
  mkCostValue
    (cv_source r) (cv_micro_units r).

Definition CostValue_default : CostValue :=
  mkCostValue
    CS.UNKNOWN 0.

(** A size in bytes that may be unknown. Unknown is not zero. *)
Record SizeValue := mkSizeValue {
  sz_present : bool;
  sz_bytes : Z
}.

#[export] Instance SizeValue_eta : Eta SizeValue := λ r,
  mkSizeValue
    (sz_present r) (sz_bytes r).

Definition SizeValue_default : SizeValue :=
  mkSizeValue
    false 0.

(** Expected reuse value of a state generation. Unknown reuse value never wins a ranking comparison against a known value. *)
Record ReuseValue := mkReuseValue {
  rv_source : CostSource;
  rv_expected_reuse_count : Z;
  rv_probability_per_mille : Z
}.

#[export] Instance ReuseValue_eta : Eta ReuseValue := λ r,
  mkReuseValue
    (rv_source r) (rv_expected_reuse_count r) (rv_probability_per_mille r).

Definition ReuseValue_default : ReuseValue :=
  mkReuseValue
    CS.UNKNOWN 0 0.


(** ** [include/ccsf/digest.hpp] *)

(** A 256-bit content digest. The all-zero digest means "unknown/absent". *)
Record Digest := mkDigest {
  dg_bytes : list Z
}.

#[export] Instance Digest_eta : Eta Digest := λ r,
  mkDigest
    (dg_bytes r).

Definition Digest_default : Digest :=
  mkDigest
    (replicate 32 0).


(** ** [include/ccsf/compatibility.hpp] *)

(** A canonical, ordered set of compatibility attributes.  Keys are compared as raw byte strings; iteration order is lexicographic so that serialization and fingerprints are canonical for equal content. *)
Record CompatibilityDescriptor := mkCompatibilityDescriptor {
  cd_attributes : gmap string string
}.

#[export] Instance CompatibilityDescriptor_eta : Eta CompatibilityDescriptor := λ r,
  mkCompatibilityDescriptor
    (cd_attributes r).

Definition CompatibilityDescriptor_default : CompatibilityDescriptor :=
  mkCompatibilityDescriptor
    ∅.

(** The compatibility identity a state generation requires of any replica. *)
Record CompatibilityRequirement := mkCompatibilityRequirement {
  cq_compatibility_id : Z;
  cq_generation : Z;
  cq_required : CompatibilityDescriptor;
  cq_require_verified_evidence : bool
}.

#[export] Instance CompatibilityRequirement_eta : Eta CompatibilityRequirement := λ r,
  mkCompatibilityRequirement
    (cq_compatibility_id r) (cq_generation r) (cq_required r)
    (cq_require_verified_evidence r).

Definition CompatibilityRequirement_default : CompatibilityRequirement :=
  mkCompatibilityRequirement
    0 0 CompatibilityDescriptor_default true.

(** A published compatibility identity for a producer (a cluster, a runtime, a model build). This is the fabric's local compatibility record, not a full compatibility registry. *)
Record CompatibilityRecord := mkCompatibilityRecord {
  cr_compatibility_id : Z;
  cr_generation : Z;
  cr_descriptor : CompatibilityDescriptor;
  cr_producer : string;
  cr_published_at : Z;
  cr_revalidation_required : bool
}.

#[export] Instance CompatibilityRecord_eta : Eta CompatibilityRecord := λ r,
  mkCompatibilityRecord
    (cr_compatibility_id r) (cr_generation r) (cr_descriptor r) (cr_producer r)
    (cr_published_at r) (cr_revalidation_required r).

Definition CompatibilityRecord_default : CompatibilityRecord :=
  mkCompatibilityRecord
    0 0 CompatibilityDescriptor_default "" 0 false.


(** ** [include/ccsf/policy.hpp] *)

(** Hard placement constraints. An empty collection means "unconstrained". *)
Record PlacementConstraints := mkPlacementConstraints {
  pc_legal_clusters : list Z;
  pc_legal_regions : list Z;
  pc_prohibited_clusters : list Z;
  pc_prohibited_regions : list Z;
  pc_required_capabilities : list string;
  pc_required_storage_classes : list string;
  pc_required_sovereignty_tags : list string;
  pc_require_locality : bool;
  pc_locality_clusters : list Z;
  pc_minimum_cluster_diversity : Z;
  pc_minimum_region_diversity : Z;
  pc_minimum_failure_domain_diversity : Z;
  pc_minimum_durability : DurabilityClass;
  pc_required_health : ClusterHealthState;
  pc_maximum_evidence_staleness_ticks : Z;
  pc_required_free_capacity : SizeValue;
  pc_maximum_transfer_cost : CostValue;
  pc_require_encryption_at_rest : bool;
  pc_require_attestation : bool;
  pc_require_integrity_verification : bool;
  pc_require_compatibility_verification : bool
}.

#[export] Instance PlacementConstraints_eta : Eta PlacementConstraints := λ r,
  mkPlacementConstraints
    (pc_legal_clusters r) (pc_legal_regions r) (pc_prohibited_clusters r)
    (pc_prohibited_regions r) (pc_required_capabilities r) (pc_required_storage_classes r)
    (pc_required_sovereignty_tags r) (pc_require_locality r) (pc_locality_clusters r)
    (pc_minimum_cluster_diversity r) (pc_minimum_region_diversity r)
    (pc_minimum_failure_domain_diversity r) (pc_minimum_durability r)
    (pc_required_health r) (pc_maximum_evidence_staleness_ticks r)
    (pc_required_free_capacity r) (pc_maximum_transfer_cost r)
    (pc_require_encryption_at_rest r) (pc_require_attestation r)
    (pc_require_integrity_verification r) (pc_require_compatibility_verification r).

Definition PlacementConstraints_default : PlacementConstraints :=
  mkPlacementConstraints
    [] [] [] [] [] [] [] false [] 0 0 0 DC.UNKNOWN CH.UNKNOWN 0 SizeValue_default
    CostValue_default false false true true.

(** Weights for the named ranking factors. A zero weight disables a factor from contributing to the score, but the factor is still reported in explanations when it was evaluated. *)
Record RankingWeights := mkRankingWeights {
  rw_expected_reuse_value : Z;
  rw_transfer_cost : Z;
  rw_reconstruction_cost : Z;
  rw_available_bandwidth : Z;
  rw_predicted_transfer_duration : Z;
  rw_storage_cost : Z;
  rw_compute_cost : Z;
  rw_region_affinity : Z;
  rw_workload_affinity : Z;
  rw_existing_replica_proximity : Z;
  rw_failure_domain_diversity : Z;
  rw_expected_future_demand : Z;
  rw_source_health : Z;
  rw_destination_health : Z;
  rw_pressure : Z;
  rw_utilization : Z
}.

#[export] Instance RankingWeights_eta : Eta RankingWeights := λ r,
  mkRankingWeights
    (rw_expected_reuse_value r) (rw_transfer_cost r) (rw_reconstruction_cost r)
    (rw_available_bandwidth r) (rw_predicted_transfer_duration r) (rw_storage_cost r)
    (rw_compute_cost r) (rw_region_affinity r) (rw_workload_affinity r)
    (rw_existing_replica_proximity r) (rw_failure_domain_diversity r)
    (rw_expected_future_demand r) (rw_source_health r) (rw_destination_health r)
    (rw_pressure r) (rw_utilization r).

Definition RankingWeights_default : RankingWeights :=
  mkRankingWeights
    0 0 0 0 0 0 0 0 0 0 0 0 0 0 0 0.

(** Policy-supplied unit prices. Every entry is optional and carries its own provenance; an absent price yields UNKNOWN modeled cost, never zero cost. *)
Record CostPolicy := mkCostPolicy {
  cpo_source : CostSource;
  cpo_transfer_micro_per_mib : Z;
  cpo_egress_micro_per_mib : Z;
  cpo_storage_micro_per_mib_tick : Z;
  cpo_compute_micro_per_mib : Z;
  cpo_accelerator_micro_per_mib_tick : Z;
  cpo_repair_micro_per_mib : Z;
  cpo_unit_label : string
}.

#[export] Instance CostPolicy_eta : Eta CostPolicy := λ r,
  mkCostPolicy
    (cpo_source r) (cpo_transfer_micro_per_mib r) (cpo_egress_micro_per_mib r)
    (cpo_storage_micro_per_mib_tick r) (cpo_compute_micro_per_mib r)
    (cpo_accelerator_micro_per_mib_tick r) (cpo_repair_micro_per_mib r) (cpo_unit_label r).

Definition CostPolicy_default : CostPolicy :=
  mkCostPolicy
    CS.UNKNOWN 0 0 0 0 0 0 "units".

(** One named contribution to a candidate's ranking score. *)
Record RankingContribution := mkRankingContribution {
  rk_factor : RankingFactor;
  rk_weight : Z;
  rk_normalized_value : Z;
  rk_unknown : bool;
  rk_contribution : Z;
  rk_evidence : string
}.

#[export] Instance RankingContribution_eta : Eta RankingContribution := λ r,
  mkRankingContribution
    (rk_factor r) (rk_weight r) (rk_normalized_value r) (rk_unknown r) (rk_contribution r)
    (rk_evidence r).

Definition RankingContribution_default : RankingContribution :=
  mkRankingContribution
    RF.EXPECTED_REUSE_VALUE 0 0 false 0 "".

(** Deterministic placement policy. *)
Record PlacementPolicyRecord := mkPlacementPolicyRecord {
  pp_placement_policy_id : Z;
  pp_generation : Z;
  pp_constraints : PlacementConstraints;
  pp_weights : RankingWeights;
  pp_cost_policy : CostPolicy;
  pp_updated_at : Z
}.

#[export] Instance PlacementPolicyRecord_eta : Eta PlacementPolicyRecord := λ r,
  mkPlacementPolicyRecord
    (pp_placement_policy_id r) (pp_generation r) (pp_constraints r) (pp_weights r)
    (pp_cost_policy r) (pp_updated_at r).

Definition PlacementPolicyRecord_default : PlacementPolicyRecord :=
  mkPlacementPolicyRecord
    0 0 PlacementConstraints_default RankingWeights_default CostPolicy_default 0.

(** Replication requirements attached to a state generation. *)
Record ReplicationRequirements := mkReplicationRequirements {
  rr_form : ReplicationPolicyForm;
  rr_minimum_authoritative_replicas : Z;
  rr_desired_replicas : Z;
  rr_maximum_replicas : Z;
  rr_region_diversity : Z;
  rr_cluster_diversity : Z;
  rr_failure_domain_diversity : Z;
  rr_minimum_durability : DurabilityClass
}.

#[export] Instance ReplicationRequirements_eta : Eta ReplicationRequirements := λ r,
  mkReplicationRequirements
    (rr_form r) (rr_minimum_authoritative_replicas r) (rr_desired_replicas r)
    (rr_maximum_replicas r) (rr_region_diversity r) (rr_cluster_diversity r)
    (rr_failure_domain_diversity r) (rr_minimum_durability r).

Definition ReplicationRequirements_default : ReplicationRequirements :=
  mkReplicationRequirements
    RPF.N_REPLICAS 1 1 4 0 0 0 DC.UNKNOWN.

(** Eligibility rules applied to replication/migration endpoints. *)
Record EligibilityRules := mkEligibilityRules {
  er_allowed_clusters : list Z;
  er_denied_clusters : list Z;
  er_require_healthy_source : bool;
  er_require_healthy_destination : bool;
  er_require_available_capacity : bool;
  er_allow_same_cluster : bool;
  er_require_fresh_evidence : bool;
  er_maximum_in_flight_operations_per_state : Z
}.

#[export] Instance EligibilityRules_eta : Eta EligibilityRules := λ r,
  mkEligibilityRules
    (er_allowed_clusters r) (er_denied_clusters r) (er_require_healthy_source r)
    (er_require_healthy_destination r) (er_require_available_capacity r)
    (er_allow_same_cluster r) (er_require_fresh_evidence r)
    (er_maximum_in_flight_operations_per_state r).

Definition EligibilityRules_default : EligibilityRules :=
  mkEligibilityRules
    [] [] true true true false true 2.

(** Authority rules applied when deciding whether a replica may serve reuse. *)
Record ReuseAuthorityRules := mkReuseAuthorityRules {
  rar_require_verified_integrity : bool;
  rar_require_verified_compatibility : bool;
  rar_require_current_state_generation : bool;
  rar_require_replica_set_membership : bool;
  rar_require_current_cluster_incarnation : bool;
  rar_require_current_coordinator_epoch : bool;
  rar_allow_historical_read_only : bool
}.

#[export] Instance ReuseAuthorityRules_eta : Eta ReuseAuthorityRules := λ r,
  mkReuseAuthorityRules
    (rar_require_verified_integrity r) (rar_require_verified_compatibility r)
    (rar_require_current_state_generation r) (rar_require_replica_set_membership r)
    (rar_require_current_cluster_incarnation r) (rar_require_current_coordinator_epoch r)
    (rar_allow_historical_read_only r).

Definition ReuseAuthorityRules_default : ReuseAuthorityRules :=
  mkReuseAuthorityRules
    true true true true true true false.

(** Retention policy for stale copies and historical records. *)
Record RetentionPolicy := mkRetentionPolicy {
  rtp_retain_historical_records : bool;
  rtp_stale_copy_retirement_ticks : Z;
  rtp_maximum_replicas_per_state : Z;
  rtp_hot_history_records_per_state : Z
}.

#[export] Instance RetentionPolicy_eta : Eta RetentionPolicy := λ r,
  mkRetentionPolicy
    (rtp_retain_historical_records r) (rtp_stale_copy_retirement_ticks r)
    (rtp_maximum_replicas_per_state r) (rtp_hot_history_records_per_state r).

Definition RetentionPolicy_default : RetentionPolicy :=
  mkRetentionPolicy
    true 0 8 64.

(** Repair policy applied when a replica set is under-replicated. *)
Record RepairPolicy := mkRepairPolicy {
  rep_automatic_repair_enabled : bool;
  rep_maximum_concurrent_repairs : Z;
  rep_repair_attempt_limit : Z
}.

#[export] Instance RepairPolicy_eta : Eta RepairPolicy := λ r,
  mkRepairPolicy
    (rep_automatic_repair_enabled r) (rep_maximum_concurrent_repairs r)
    (rep_repair_attempt_limit r).

Definition RepairPolicy_default : RepairPolicy :=
  mkRepairPolicy
    true 1 3.

(** Evidence generations that must be at least current for reuse authority. *)
Record RevalidationRequirements := mkRevalidationRequirements {
  rvr_require_revalidation_after_cluster_reincarnation : bool;
  rvr_require_revalidation_after_coordinator_restart : bool;
  rvr_require_fresh_health_evidence : bool;
  rvr_require_fresh_capability_evidence : bool
}.

#[export] Instance RevalidationRequirements_eta : Eta RevalidationRequirements := λ r,
  mkRevalidationRequirements
    (rvr_require_revalidation_after_cluster_reincarnation r)
    (rvr_require_revalidation_after_coordinator_restart r)
    (rvr_require_fresh_health_evidence r) (rvr_require_fresh_capability_evidence r).

Definition RevalidationRequirements_default : RevalidationRequirements :=
  mkRevalidationRequirements
    true true true true.

(** Deterministic replication policy. *)
Record ReplicationPolicyRecord := mkReplicationPolicyRecord {
  rpp_replication_policy_id : Z;
  rpp_generation : Z;
  rpp_requirements : ReplicationRequirements;
  rpp_source_rules : EligibilityRules;
  rpp_destination_rules : EligibilityRules;
  rpp_reuse_rules : ReuseAuthorityRules;
  rpp_retention : RetentionPolicy;
  rpp_repair : RepairPolicy;
  rpp_revalidation : RevalidationRequirements;
  rpp_degraded_behavior : DegradedBehavior;
  rpp_failure_action : OperationFailureAction;
  rpp_updated_at : Z
}.

#[export] Instance ReplicationPolicyRecord_eta : Eta ReplicationPolicyRecord := λ r,
  mkReplicationPolicyRecord
    (rpp_replication_policy_id r) (rpp_generation r) (rpp_requirements r)
    (rpp_source_rules r) (rpp_destination_rules r) (rpp_reuse_rules r) (rpp_retention r)
    (rpp_repair r) (rpp_revalidation r) (rpp_degraded_behavior r) (rpp_failure_action r)
    (rpp_updated_at r).

Definition ReplicationPolicyRecord_default : ReplicationPolicyRecord :=
  mkReplicationPolicyRecord
    0 0 ReplicationRequirements_default EligibilityRules_default EligibilityRules_default
    ReuseAuthorityRules_default RetentionPolicy_default RepairPolicy_default
    RevalidationRequirements_default DB.REJECT_REUSE OFA.ABANDON_DESTINATION 0.


(** ** [include/ccsf/state.hpp] *)

(** Where a state generation came from. Provenance is append-only: retiring or migrating a replica never rewrites the provenance that produced it. *)
Record StateProvenance := mkStateProvenance {
  sp_producer : string;
  sp_origin_cluster : Z;
  sp_origin_incarnation : Z;
  sp_source_generation : Z;
  sp_source_replica : Z;
  sp_operation : Z;
  sp_worker_boot : Z;
  sp_coordinator_epoch : Z;
  sp_commit : Z;
  sp_verification : string;
  sp_recorded_at : Z;
  sp_revalidated : bool;
  sp_revalidated_at : Z
}.

#[export] Instance StateProvenance_eta : Eta StateProvenance := λ r,
  mkStateProvenance
    (sp_producer r) (sp_origin_cluster r) (sp_origin_incarnation r)
    (sp_source_generation r) (sp_source_replica r) (sp_operation r) (sp_worker_boot r)
    (sp_coordinator_epoch r) (sp_commit r) (sp_verification r) (sp_recorded_at r)
    (sp_revalidated r) (sp_revalidated_at r).

Definition StateProvenance_default : StateProvenance :=
  mkStateProvenance
    "" 0 0 0 0 0 0 0 0 "" 0 false 0.

(** How this state generation can be rebuilt if transfer is not chosen. *)
Record ReconstructionIdentity := mkReconstructionIdentity {
  ri_reconstruction_id : Z;
  ri_method : string;
  ri_output_size : SizeValue;
  ri_estimated_cost : CostValue;
  ri_deterministic : bool
}.

#[export] Instance ReconstructionIdentity_eta : Eta ReconstructionIdentity := λ r,
  mkReconstructionIdentity
    (ri_reconstruction_id r) (ri_method r) (ri_output_size r) (ri_estimated_cost r)
    (ri_deterministic r).

Definition ReconstructionIdentity_default : ReconstructionIdentity :=
  mkReconstructionIdentity
    0 "" SizeValue_default CostValue_default false.

(** Input describing a state generation to register or publish. *)
Record StateGenerationSpec := mkStateGenerationSpec {
  ss_state_id : Z;
  ss_generation : Z;
  ss_lineage : Z;
  ss_branch : bool;
  ss_branches_from : Z;
  ss_state_class : StateClass;
  ss_consistency : ConsistencyMode;
  ss_logical_size : SizeValue;
  ss_physical_size : SizeValue;
  ss_content_digest : Digest;
  ss_digest_algorithm : IntegrityAlgorithm;
  ss_compatibility_id : Z;
  ss_compatibility_generation : Z;
  ss_compatibility_required : CompatibilityDescriptor;
  ss_reconstruction : ReconstructionIdentity;
  ss_durability : DurabilityClass;
  ss_reuse_class : ReuseClass;
  ss_placement_constraints : PlacementConstraints;
  ss_replication_requirements : ReplicationRequirements;
  ss_provenance : StateProvenance;
  ss_expected_reuse : ReuseValue;
  ss_transfer_cost : CostValue;
  ss_reconstruction_cost : CostValue
}.

#[export] Instance StateGenerationSpec_eta : Eta StateGenerationSpec := λ r,
  mkStateGenerationSpec
    (ss_state_id r) (ss_generation r) (ss_lineage r) (ss_branch r) (ss_branches_from r)
    (ss_state_class r) (ss_consistency r) (ss_logical_size r) (ss_physical_size r)
    (ss_content_digest r) (ss_digest_algorithm r) (ss_compatibility_id r)
    (ss_compatibility_generation r) (ss_compatibility_required r) (ss_reconstruction r)
    (ss_durability r) (ss_reuse_class r) (ss_placement_constraints r)
    (ss_replication_requirements r) (ss_provenance r) (ss_expected_reuse r)
    (ss_transfer_cost r) (ss_reconstruction_cost r).

Definition StateGenerationSpec_default : StateGenerationSpec :=
  mkStateGenerationSpec
    0 0 0 false 0 SC.OPAQUE_STATE CM.IMMUTABLE SizeValue_default SizeValue_default
    Digest_default IA.SHA256 0 0 CompatibilityDescriptor_default
    ReconstructionIdentity_default DC.STANDARD RC.SHARED_READ PlacementConstraints_default
    ReplicationRequirements_default StateProvenance_default ReuseValue_default
    CostValue_default CostValue_default.

(** The governed record of exactly one state generation. *)
Record StateGenerationRecord := mkStateGenerationRecord {
  sg_state_id : Z;
  sg_generation : Z;
  sg_lineage : Z;
  sg_branch : bool;
  sg_branches_from : Z;
  sg_state_class : StateClass;
  sg_consistency : ConsistencyMode;
  sg_lifecycle : StateGenerationLifecycle;
  sg_logical_size : SizeValue;
  sg_physical_size : SizeValue;
  sg_content_digest : Digest;
  sg_digest_algorithm : IntegrityAlgorithm;
  sg_compatibility_id : Z;
  sg_compatibility_generation : Z;
  sg_compatibility_required : CompatibilityDescriptor;
  sg_reconstruction : ReconstructionIdentity;
  sg_durability : DurabilityClass;
  sg_reuse_class : ReuseClass;
  sg_placement_constraints : PlacementConstraints;
  sg_replication_requirements : ReplicationRequirements;
  sg_provenance : StateProvenance;
  sg_expected_reuse : ReuseValue;
  sg_transfer_cost : CostValue;
  sg_reconstruction_cost : CostValue;
  sg_replica_set_id : Z;
  sg_replica_set_generation : Z;
  sg_commit : Z;
  sg_committed_epoch : Z;
  sg_registered_at : Z;
  sg_committed_at : Z;
  sg_revalidation_required : bool
}.

#[export] Instance StateGenerationRecord_eta : Eta StateGenerationRecord := λ r,
  mkStateGenerationRecord
    (sg_state_id r) (sg_generation r) (sg_lineage r) (sg_branch r) (sg_branches_from r)
    (sg_state_class r) (sg_consistency r) (sg_lifecycle r) (sg_logical_size r)
    (sg_physical_size r) (sg_content_digest r) (sg_digest_algorithm r)
    (sg_compatibility_id r) (sg_compatibility_generation r) (sg_compatibility_required r)
    (sg_reconstruction r) (sg_durability r) (sg_reuse_class r) (sg_placement_constraints r)
    (sg_replication_requirements r) (sg_provenance r) (sg_expected_reuse r)
    (sg_transfer_cost r) (sg_reconstruction_cost r) (sg_replica_set_id r)
    (sg_replica_set_generation r) (sg_commit r) (sg_committed_epoch r) (sg_registered_at r)
    (sg_committed_at r) (sg_revalidation_required r).

Definition StateGenerationRecord_default : StateGenerationRecord :=
  mkStateGenerationRecord
    0 0 0 false 0 SC.OPAQUE_STATE CM.IMMUTABLE SGL.STAGED SizeValue_default
    SizeValue_default Digest_default IA.SHA256 0 0 CompatibilityDescriptor_default
    ReconstructionIdentity_default DC.STANDARD RC.SHARED_READ PlacementConstraints_default
    ReplicationRequirements_default StateProvenance_default ReuseValue_default
    CostValue_default CostValue_default 0 0 0 0 0 0 false.

(** The set of generations recorded for one lineage, in ascending order. *)
Record LineageView := mkLineageView {
  lv_state_id : Z;
  lv_lineage : Z;
  lv_generations : list StateGenerationRecord;
  lv_current_generation : Z;
  lv_branched : bool;
  lv_current_branches : list Z
}.

#[export] Instance LineageView_eta : Eta LineageView := λ r,
  mkLineageView
    (lv_state_id r) (lv_lineage r) (lv_generations r) (lv_current_generation r)
    (lv_branched r) (lv_current_branches r).

Definition LineageView_default : LineageView :=
  mkLineageView
    0 0 [] 0 false [].


(** ** [include/ccsf/cluster.hpp] *)

(** Capability evidence published by a cluster agent. *)
Record ClusterCapabilities := mkClusterCapabilities {
  cc_tags : list string;
  cc_storage_classes : list string;
  cc_accelerator_architectures : list string;
  cc_encryption_at_rest : bool;
  cc_attestation : bool
}.

#[export] Instance ClusterCapabilities_eta : Eta ClusterCapabilities := λ r,
  mkClusterCapabilities
    (cc_tags r) (cc_storage_classes r) (cc_accelerator_architectures r)
    (cc_encryption_at_rest r) (cc_attestation r).

Definition ClusterCapabilities_default : ClusterCapabilities :=
  mkClusterCapabilities
    [] [] [] false false.

(** Capacity and pressure evidence published by a cluster agent. *)
Record ClusterCapacity := mkClusterCapacity {
  cp_total_logical_bytes : Z;
  cp_used_logical_bytes : Z;
  cp_inbound_bytes_per_tick : Z;
  cp_free_transfer_slots : Z;
  cp_utilization_per_mille : Z
}.

#[export] Instance ClusterCapacity_eta : Eta ClusterCapacity := λ r,
  mkClusterCapacity
    (cp_total_logical_bytes r) (cp_used_logical_bytes r) (cp_inbound_bytes_per_tick r)
    (cp_free_transfer_slots r) (cp_utilization_per_mille r).

Definition ClusterCapacity_default : ClusterCapacity :=
  mkClusterCapacity
    0 0 0 0 0.

(** Where a cluster physically lives. The descriptor is a bounded human label; all governed decisions use the typed identities. *)
Record ClusterLocation := mkClusterLocation {
  clo_region : Z;
  clo_site : Z;
  clo_failure_domain : Z;
  clo_descriptor : string
}.

#[export] Instance ClusterLocation_eta : Eta ClusterLocation := λ r,
  mkClusterLocation
    (clo_region r) (clo_site r) (clo_failure_domain r) (clo_descriptor r).

Definition ClusterLocation_default : ClusterLocation :=
  mkClusterLocation
    0 0 0 "".

(** Evidence generations published by a cluster. Coordinator restart or cluster reincarnation marks this evidence as requiring revalidation; it is never silently treated as current. *)
Record ClusterEvidence := mkClusterEvidence {
  ce_capability_generation : Z;
  ce_health_generation : Z;
  ce_topology_generation : Z;
  ce_cost_generation : Z;
  ce_evidence_generation : Z;
  ce_published_at : Z;
  ce_coordinator_epoch : Z;
  ce_revalidation_required : bool;
  ce_present : bool
}.

#[export] Instance ClusterEvidence_eta : Eta ClusterEvidence := λ r,
  mkClusterEvidence
    (ce_capability_generation r) (ce_health_generation r) (ce_topology_generation r)
    (ce_cost_generation r) (ce_evidence_generation r) (ce_published_at r)
    (ce_coordinator_epoch r) (ce_revalidation_required r) (ce_present r).

Definition ClusterEvidence_default : ClusterEvidence :=
  mkClusterEvidence
    0 0 0 0 0 0 0 false false.

(** Input to register_cluster / reinstate_cluster. *)
Record ClusterRegistration := mkClusterRegistration {
  crg_cluster_id : Z;
  crg_region : Z;
  crg_site : Z;
  crg_failure_domain : Z;
  crg_location_descriptor : string;
  crg_worker_id : Z;
  crg_worker_boot_id : Z;
  crg_capabilities : ClusterCapabilities;
  crg_capacity : ClusterCapacity;
  crg_health : ClusterHealthState;
  crg_expected_coordinator_epoch : Z;
  crg_force_reincarnation : bool
}.

#[export] Instance ClusterRegistration_eta : Eta ClusterRegistration := λ r,
  mkClusterRegistration
    (crg_cluster_id r) (crg_region r) (crg_site r) (crg_failure_domain r)
    (crg_location_descriptor r) (crg_worker_id r) (crg_worker_boot_id r)
    (crg_capabilities r) (crg_capacity r) (crg_health r) (crg_expected_coordinator_epoch r)
    (crg_force_reincarnation r).

Definition ClusterRegistration_default : ClusterRegistration :=
  mkClusterRegistration
    0 0 0 0 "" 0 0 ClusterCapabilities_default ClusterCapacity_default CH.HEALTHY 0 false.

(** Input to publish_cluster_evidence. *)
Record ClusterEvidenceUpdate := mkClusterEvidenceUpdate {
  ceu_cluster_id : Z;
  ceu_incarnation : Z;
  ceu_health : ClusterHealthState;
  ceu_capabilities : ClusterCapabilities;
  ceu_capacity : ClusterCapacity;
  ceu_has_capabilities : bool;
  ceu_has_capacity : bool;
  ceu_expected_coordinator_epoch : Z;
  ceu_worker_boot_id : Z
}.

#[export] Instance ClusterEvidenceUpdate_eta : Eta ClusterEvidenceUpdate := λ r,
  mkClusterEvidenceUpdate
    (ceu_cluster_id r) (ceu_incarnation r) (ceu_health r) (ceu_capabilities r)
    (ceu_capacity r) (ceu_has_capabilities r) (ceu_has_capacity r)
    (ceu_expected_coordinator_epoch r) (ceu_worker_boot_id r).

Definition ClusterEvidenceUpdate_default : ClusterEvidenceUpdate :=
  mkClusterEvidenceUpdate
    0 0 CH.HEALTHY ClusterCapabilities_default ClusterCapacity_default false false 0 0.

(** The durable record of one cluster incarnation. *)
Record ClusterRecord := mkClusterRecord {
  cl_cluster_id : Z;
  cl_incarnation : Z;
  cl_lifecycle : ClusterLifecycle;
  cl_health : ClusterHealthState;
  cl_location : ClusterLocation;
  cl_worker_id : Z;
  cl_worker_boot_id : Z;
  cl_capabilities : ClusterCapabilities;
  cl_capacity : ClusterCapacity;
  cl_evidence : ClusterEvidence;
  cl_registered_epoch : Z;
  cl_last_evidence_epoch : Z;
  cl_registered_at : Z;
  cl_updated_at : Z;
  cl_incarnation_started_at : Z;
  cl_live_authority : bool;
  cl_hosted_replica_count : Z;
  cl_historical_replica_count : Z;
  cl_reincarnation_count : Z
}.

#[export] Instance ClusterRecord_eta : Eta ClusterRecord := λ r,
  mkClusterRecord
    (cl_cluster_id r) (cl_incarnation r) (cl_lifecycle r) (cl_health r) (cl_location r)
    (cl_worker_id r) (cl_worker_boot_id r) (cl_capabilities r) (cl_capacity r)
    (cl_evidence r) (cl_registered_epoch r) (cl_last_evidence_epoch r) (cl_registered_at r)
    (cl_updated_at r) (cl_incarnation_started_at r) (cl_live_authority r)
    (cl_hosted_replica_count r) (cl_historical_replica_count r) (cl_reincarnation_count r).

Definition ClusterRecord_default : ClusterRecord :=
  mkClusterRecord
    0 0 CL.REGISTERED CH.UNKNOWN ClusterLocation_default 0 0 ClusterCapabilities_default
    ClusterCapacity_default ClusterEvidence_default 0 0 0 0 0 false 0 0 0.


(** ** [include/ccsf/replica.hpp] *)

(** Where a replica physically lives, with the incarnation that hosted it. *)
Record ReplicaLocation := mkReplicaLocation {
  rlo_cluster_id : Z;
  rlo_cluster_incarnation : Z;
  rlo_region : Z;
  rlo_site : Z;
  rlo_failure_domain : Z;
  rlo_descriptor : string
}.

#[export] Instance ReplicaLocation_eta : Eta ReplicaLocation := λ r,
  mkReplicaLocation
    (rlo_cluster_id r) (rlo_cluster_incarnation r) (rlo_region r) (rlo_site r)
    (rlo_failure_domain r) (rlo_descriptor r).

Definition ReplicaLocation_default : ReplicaLocation :=
  mkReplicaLocation
    0 0 0 0 0 "".

(** Verification evidence attached to a replica. *)
Record ReplicaEvidence := mkReplicaEvidence {
  re_integrity_generation : Z;
  re_compatibility_generation : Z;
  re_evidence_generation : Z;
  re_capability_generation : Z;
  re_health_generation : Z;
  re_verification_id : Z;
  re_verified_at : Z;
  re_coordinator_epoch : Z;
  re_revalidation_required : bool;
  re_integrity_evidence_present : bool;
  re_compatibility_evidence_present : bool
}.

#[export] Instance ReplicaEvidence_eta : Eta ReplicaEvidence := λ r,
  mkReplicaEvidence
    (re_integrity_generation r) (re_compatibility_generation r) (re_evidence_generation r)
    (re_capability_generation r) (re_health_generation r) (re_verification_id r)
    (re_verified_at r) (re_coordinator_epoch r) (re_revalidation_required r)
    (re_integrity_evidence_present r) (re_compatibility_evidence_present r).

Definition ReplicaEvidence_default : ReplicaEvidence :=
  mkReplicaEvidence
    0 0 0 0 0 0 0 0 false false false.

(** The durable record of one replica. *)
Record ReplicaRecord := mkReplicaRecord {
  rp_replica_id : Z;
  rp_replica_generation : Z;
  rp_state_id : Z;
  rp_state_generation : Z;
  rp_replica_set_id : Z;
  rp_replica_set_generation : Z;
  rp_location : ReplicaLocation;
  rp_lifecycle : ReplicaLifecycle;
  rp_integrity : ReplicaIntegrityState;
  rp_compatibility : ReplicaCompatibilityState;
  rp_durability : ReplicaDurabilityState;
  rp_availability : ReplicaAvailabilityState;
  rp_authority : ReplicaAuthorityState;
  rp_content_digest : Digest;
  rp_measured_digest : Digest;
  rp_digest_algorithm : IntegrityAlgorithm;
  rp_compatibility_id : Z;
  rp_compatibility_generation : Z;
  rp_compatibility_descriptor : CompatibilityDescriptor;
  rp_logical_size : SizeValue;
  rp_transferred_bytes : SizeValue;
  rp_provenance : StateProvenance;
  rp_evidence : ReplicaEvidence;
  rp_worker_id : Z;
  rp_worker_boot_id : Z;
  rp_created_epoch : Z;
  rp_last_epoch : Z;
  rp_created_at : Z;
  rp_updated_at : Z;
  rp_transfer_id : Z;
  rp_transfer_generation : Z;
  rp_operation_id : Z;
  rp_operation_generation : Z;
  rp_commit_id : Z;
  rp_attempt_count : Z;
  rp_last_error : string;
  rp_commit_recorded : bool;
  rp_counts_toward_factor : bool
}.

#[export] Instance ReplicaRecord_eta : Eta ReplicaRecord := λ r,
  mkReplicaRecord
    (rp_replica_id r) (rp_replica_generation r) (rp_state_id r) (rp_state_generation r)
    (rp_replica_set_id r) (rp_replica_set_generation r) (rp_location r) (rp_lifecycle r)
    (rp_integrity r) (rp_compatibility r) (rp_durability r) (rp_availability r)
    (rp_authority r) (rp_content_digest r) (rp_measured_digest r) (rp_digest_algorithm r)
    (rp_compatibility_id r) (rp_compatibility_generation r) (rp_compatibility_descriptor r)
    (rp_logical_size r) (rp_transferred_bytes r) (rp_provenance r) (rp_evidence r)
    (rp_worker_id r) (rp_worker_boot_id r) (rp_created_epoch r) (rp_last_epoch r)
    (rp_created_at r) (rp_updated_at r) (rp_transfer_id r) (rp_transfer_generation r)
    (rp_operation_id r) (rp_operation_generation r) (rp_commit_id r) (rp_attempt_count r)
    (rp_last_error r) (rp_commit_recorded r) (rp_counts_toward_factor r).

Definition ReplicaRecord_default : ReplicaRecord :=
  mkReplicaRecord
    0 0 0 0 0 0 ReplicaLocation_default RL.PLANNED RI.UNKNOWN RCS.UNKNOWN RD.UNKNOWN
    RA.UNKNOWN RAS.NONE Digest_default Digest_default IA.SHA256 0 0
    CompatibilityDescriptor_default SizeValue_default SizeValue_default
    StateProvenance_default ReplicaEvidence_default 0 0 0 0 0 0 0 0 0 0 0 0 "" false false.

(** Input to register_replica. *)
Record ReplicaRegistration := mkReplicaRegistration {
  rrg_replica_id : Z;
  rrg_state_id : Z;
  rrg_state_generation : Z;
  rrg_replica_set_id : Z;
  rrg_replica_set_generation : Z;
  rrg_replica_generation : Z;
  rrg_lifecycle : ReplicaLifecycle;
  rrg_durability : DurabilityClass;
  rrg_logical_size : SizeValue;
  rrg_content_digest : Digest;
  rrg_digest_algorithm : IntegrityAlgorithm;
  rrg_compatibility_id : Z;
  rrg_compatibility_generation : Z;
  rrg_compatibility_descriptor : CompatibilityDescriptor;
  rrg_location : ReplicaLocation;
  rrg_worker_id : Z;
  rrg_worker_boot_id : Z;
  rrg_expected_coordinator_epoch : Z;
  rrg_provenance : StateProvenance;
  rrg_transfer_id : Z;
  rrg_transfer_generation : Z;
  rrg_operation_id : Z;
  rrg_operation_generation : Z
}.

#[export] Instance ReplicaRegistration_eta : Eta ReplicaRegistration := λ r,
  mkReplicaRegistration
    (rrg_replica_id r) (rrg_state_id r) (rrg_state_generation r) (rrg_replica_set_id r)
    (rrg_replica_set_generation r) (rrg_replica_generation r) (rrg_lifecycle r)
    (rrg_durability r) (rrg_logical_size r) (rrg_content_digest r) (rrg_digest_algorithm r)
    (rrg_compatibility_id r) (rrg_compatibility_generation r)
    (rrg_compatibility_descriptor r) (rrg_location r) (rrg_worker_id r)
    (rrg_worker_boot_id r) (rrg_expected_coordinator_epoch r) (rrg_provenance r)
    (rrg_transfer_id r) (rrg_transfer_generation r) (rrg_operation_id r)
    (rrg_operation_generation r).

Definition ReplicaRegistration_default : ReplicaRegistration :=
  mkReplicaRegistration
    0 0 0 0 0 0 RL.PLANNED DC.STANDARD SizeValue_default Digest_default IA.SHA256 0 0
    CompatibilityDescriptor_default ReplicaLocation_default 0 0 0 StateProvenance_default 0
    0 0 0.

(** Input to record_transfer_progress. *)
Record TransferProgress := mkTransferProgress {
  tp_transfer_id : Z;
  tp_transfer_generation : Z;
  tp_replica_id : Z;
  tp_replica_generation : Z;
  tp_operation_id : Z;
  tp_operation_generation : Z;
  tp_cluster_id : Z;
  tp_cluster_incarnation : Z;
  tp_worker_boot_id : Z;
  tp_expected_coordinator_epoch : Z;
  tp_bytes_transferred : Z;
  tp_failed : bool;
  tp_failure_reason : string
}.

#[export] Instance TransferProgress_eta : Eta TransferProgress := λ r,
  mkTransferProgress
    (tp_transfer_id r) (tp_transfer_generation r) (tp_replica_id r)
    (tp_replica_generation r) (tp_operation_id r) (tp_operation_generation r)
    (tp_cluster_id r) (tp_cluster_incarnation r) (tp_worker_boot_id r)
    (tp_expected_coordinator_epoch r) (tp_bytes_transferred r) (tp_failed r)
    (tp_failure_reason r).

Definition TransferProgress_default : TransferProgress :=
  mkTransferProgress
    0 0 0 0 0 0 0 0 0 0 0 false "".

(** Input to record_transfer_completion. *)
Record TransferCompletion := mkTransferCompletion {
  tc_transfer_id : Z;
  tc_transfer_generation : Z;
  tc_replica_id : Z;
  tc_replica_generation : Z;
  tc_operation_id : Z;
  tc_operation_generation : Z;
  tc_cluster_id : Z;
  tc_cluster_incarnation : Z;
  tc_worker_boot_id : Z;
  tc_expected_coordinator_epoch : Z;
  tc_bytes_transferred : Z;
  tc_measured_digest : Digest;
  tc_digest_algorithm : IntegrityAlgorithm;
  tc_transfer_complete : bool;
  tc_detail : string
}.

#[export] Instance TransferCompletion_eta : Eta TransferCompletion := λ r,
  mkTransferCompletion
    (tc_transfer_id r) (tc_transfer_generation r) (tc_replica_id r)
    (tc_replica_generation r) (tc_operation_id r) (tc_operation_generation r)
    (tc_cluster_id r) (tc_cluster_incarnation r) (tc_worker_boot_id r)
    (tc_expected_coordinator_epoch r) (tc_bytes_transferred r) (tc_measured_digest r)
    (tc_digest_algorithm r) (tc_transfer_complete r) (tc_detail r).

Definition TransferCompletion_default : TransferCompletion :=
  mkTransferCompletion
    0 0 0 0 0 0 0 0 0 0 0 Digest_default IA.SHA256 true "".

(** Input to verify_replica. *)
Record ReplicaVerification := mkReplicaVerification {
  rvf_verification_id : Z;
  rvf_replica_id : Z;
  rvf_replica_generation : Z;
  rvf_operation_id : Z;
  rvf_operation_generation : Z;
  rvf_cluster_id : Z;
  rvf_cluster_incarnation : Z;
  rvf_worker_boot_id : Z;
  rvf_expected_coordinator_epoch : Z;
  rvf_integrity_verified : bool;
  rvf_measured_digest : Digest;
  rvf_digest_algorithm : IntegrityAlgorithm;
  rvf_compatibility_verified : bool;
  rvf_compatibility_id : Z;
  rvf_compatibility_generation : Z;
  rvf_compatibility_descriptor : CompatibilityDescriptor;
  rvf_established_durability : DurabilityClass;
  rvf_verified_bytes : Z;
  rvf_detail : string
}.

#[export] Instance ReplicaVerification_eta : Eta ReplicaVerification := λ r,
  mkReplicaVerification
    (rvf_verification_id r) (rvf_replica_id r) (rvf_replica_generation r)
    (rvf_operation_id r) (rvf_operation_generation r) (rvf_cluster_id r)
    (rvf_cluster_incarnation r) (rvf_worker_boot_id r) (rvf_expected_coordinator_epoch r)
    (rvf_integrity_verified r) (rvf_measured_digest r) (rvf_digest_algorithm r)
    (rvf_compatibility_verified r) (rvf_compatibility_id r)
    (rvf_compatibility_generation r) (rvf_compatibility_descriptor r)
    (rvf_established_durability r) (rvf_verified_bytes r) (rvf_detail r).

Definition ReplicaVerification_default : ReplicaVerification :=
  mkReplicaVerification
    0 0 0 0 0 0 0 0 0 false Digest_default IA.SHA256 false 0 0
    CompatibilityDescriptor_default DC.STANDARD 0 "".

(** Input to commit_replica. *)
Record ReplicaCommit := mkReplicaCommit {
  rc_replica_id : Z;
  rc_replica_generation : Z;
  rc_commit_id : Z;
  rc_operation_id : Z;
  rc_operation_generation : Z;
  rc_expected_coordinator_epoch : Z;
  rc_expected_replica_set_generation : Z;
  rc_make_authoritative_owner : bool;
  rc_add_to_replica_set : bool;
  rc_require_integrity_verified : bool;
  rc_require_compatibility_verified : bool
}.

#[export] Instance ReplicaCommit_eta : Eta ReplicaCommit := λ r,
  mkReplicaCommit
    (rc_replica_id r) (rc_replica_generation r) (rc_commit_id r) (rc_operation_id r)
    (rc_operation_generation r) (rc_expected_coordinator_epoch r)
    (rc_expected_replica_set_generation r) (rc_make_authoritative_owner r)
    (rc_add_to_replica_set r) (rc_require_integrity_verified r)
    (rc_require_compatibility_verified r).

Definition ReplicaCommit_default : ReplicaCommit :=
  mkReplicaCommit
    0 0 0 0 0 0 0 false true true true.

(** Input to retire_replica / quarantine_replica / revalidate_replica. *)
Record ReplicaTransition := mkReplicaTransition {
  rt_replica_id : Z;
  rt_replica_generation : Z;
  rt_operation_id : Z;
  rt_operation_generation : Z;
  rt_expected_coordinator_epoch : Z;
  rt_cluster_incarnation : Z;
  rt_worker_boot_id : Z;
  rt_reason : string
}.

#[export] Instance ReplicaTransition_eta : Eta ReplicaTransition := λ r,
  mkReplicaTransition
    (rt_replica_id r) (rt_replica_generation r) (rt_operation_id r)
    (rt_operation_generation r) (rt_expected_coordinator_epoch r)
    (rt_cluster_incarnation r) (rt_worker_boot_id r) (rt_reason r).

Definition ReplicaTransition_default : ReplicaTransition :=
  mkReplicaTransition
    0 0 0 0 0 0 0 "".


(** ** [include/ccsf/replica_set.hpp] *)

(** One member of a replica set generation. *)
Record ReplicaSetMember := mkReplicaSetMember {
  rm_replica_id : Z;
  rm_replica_generation : Z;
  rm_cluster_id : Z;
  rm_cluster_incarnation : Z;
  rm_region : Z;
  rm_failure_domain : Z;
  rm_authoritative : bool;
  rm_lifecycle : ReplicaLifecycle;
  rm_integrity : ReplicaIntegrityState;
  rm_compatibility : ReplicaCompatibilityState;
  rm_authority : ReplicaAuthorityState;
  rm_commit_id : Z;
  rm_joined_at : Z
}.

#[export] Instance ReplicaSetMember_eta : Eta ReplicaSetMember := λ r,
  mkReplicaSetMember
    (rm_replica_id r) (rm_replica_generation r) (rm_cluster_id r)
    (rm_cluster_incarnation r) (rm_region r) (rm_failure_domain r) (rm_authoritative r)
    (rm_lifecycle r) (rm_integrity r) (rm_compatibility r) (rm_authority r)
    (rm_commit_id r) (rm_joined_at r).

Definition ReplicaSetMember_default : ReplicaSetMember :=
  mkReplicaSetMember
    0 0 0 0 0 0 false RL.PLANNED RI.UNKNOWN RCS.UNKNOWN RAS.NONE 0 0.

(** A replica set generation: the authoritative membership for one state generation under one set of replication requirements. *)
Record ReplicaSetRecord := mkReplicaSetRecord {
  rs_replica_set_id : Z;
  rs_generation : Z;
  rs_state_id : Z;
  rs_state_generation : Z;
  rs_state : ReplicaSetState;
  rs_requirements : ReplicationRequirements;
  rs_authoritative_members : list ReplicaSetMember;
  rs_degraded_members : list ReplicaSetMember;
  rs_authoritative_count : Z;
  rs_degraded_count : Z;
  rs_distinct_clusters : Z;
  rs_distinct_regions : Z;
  rs_distinct_failure_domains : Z;
  rs_placement_id : Z;
  rs_placement_generation : Z;
  rs_epoch : Z;
  rs_last_commit : Z;
  rs_created_at : Z;
  rs_updated_at : Z;
  rs_revalidation_required : bool
}.

#[export] Instance ReplicaSetRecord_eta : Eta ReplicaSetRecord := λ r,
  mkReplicaSetRecord
    (rs_replica_set_id r) (rs_generation r) (rs_state_id r) (rs_state_generation r)
    (rs_state r) (rs_requirements r) (rs_authoritative_members r) (rs_degraded_members r)
    (rs_authoritative_count r) (rs_degraded_count r) (rs_distinct_clusters r)
    (rs_distinct_regions r) (rs_distinct_failure_domains r) (rs_placement_id r)
    (rs_placement_generation r) (rs_epoch r) (rs_last_commit r) (rs_created_at r)
    (rs_updated_at r) (rs_revalidation_required r).

Definition ReplicaSetRecord_default : ReplicaSetRecord :=
  mkReplicaSetRecord
    0 0 0 0 RSS.NO_AUTHORITATIVE_REPLICA ReplicationRequirements_default [] [] 0 0 0 0 0 0
    0 0 0 0 0 false.

(** Result of reconciling a replica set against its current membership. *)
Record ReplicaSetReconciliation := mkReplicaSetReconciliation {
  rsr_replica_set : ReplicaSetRecord;
  rsr_under_replicated : bool;
  rsr_over_replicated : bool;
  rsr_authoritative_shortfall : Z;
  rsr_clusters_missing : Z;
  rsr_regions_missing : Z;
  rsr_excluded_replicas : list Z;
  rsr_findings : list string
}.

#[export] Instance ReplicaSetReconciliation_eta : Eta ReplicaSetReconciliation := λ r,
  mkReplicaSetReconciliation
    (rsr_replica_set r) (rsr_under_replicated r) (rsr_over_replicated r)
    (rsr_authoritative_shortfall r) (rsr_clusters_missing r) (rsr_regions_missing r)
    (rsr_excluded_replicas r) (rsr_findings r).

Definition ReplicaSetReconciliation_default : ReplicaSetReconciliation :=
  mkReplicaSetReconciliation
    ReplicaSetRecord_default false false 0 0 0 [] [].


(** ** [include/ccsf/authority.hpp] *)

(** Everything authority assessment is allowed to consult. *)
Record AuthorityContext := mkAuthorityContext {
  ac_state : option StateGenerationRecord;
  ac_cluster : option ClusterRecord;
  ac_replica_set : option ReplicaSetRecord;
  ac_policy : option ReplicationPolicyRecord;
  ac_current_epoch : Z;
  ac_now : Z
}.

#[export] Instance AuthorityContext_eta : Eta AuthorityContext := λ r,
  mkAuthorityContext
    (ac_state r) (ac_cluster r) (ac_replica_set r) (ac_policy r) (ac_current_epoch r)
    (ac_now r).

Definition AuthorityContext_default : AuthorityContext :=
  mkAuthorityContext
    None None None None 0 0.

(** The full authority answer for one replica. Every field is evaluated independently and never inferred from another. *)
Record ReplicaAuthorityAssessment := mkReplicaAuthorityAssessment {
  ra_physically_present : bool;
  ra_transfer_complete : bool;
  ra_integrity_verified : bool;
  ra_compatibility_verified : bool;
  ra_current_for_state_generation : bool;
  ra_member_of_current_replica_set_generation : bool;
  ra_cluster_incarnation_current : bool;
  ra_coordinator_epoch_current : bool;
  ra_evidence_current : bool;
  ra_authoritative_for_reuse : bool;
  ra_authoritative_as_replication_source : bool;
  ra_authoritative_for_migration_source_retirement : bool;
  ra_historical_only : bool;
  ra_fenced : bool;
  ra_code : ErrorCode;
  ra_reason : string
}.

#[export] Instance ReplicaAuthorityAssessment_eta : Eta ReplicaAuthorityAssessment := λ r,
  mkReplicaAuthorityAssessment
    (ra_physically_present r) (ra_transfer_complete r) (ra_integrity_verified r)
    (ra_compatibility_verified r) (ra_current_for_state_generation r)
    (ra_member_of_current_replica_set_generation r) (ra_cluster_incarnation_current r)
    (ra_coordinator_epoch_current r) (ra_evidence_current r) (ra_authoritative_for_reuse r)
    (ra_authoritative_as_replication_source r)
    (ra_authoritative_for_migration_source_retirement r) (ra_historical_only r)
    (ra_fenced r) (ra_code r) (ra_reason r).

Definition ReplicaAuthorityAssessment_default : ReplicaAuthorityAssessment :=
  mkReplicaAuthorityAssessment
    false false false false false false false false false false false false false false
    EC.OK "".

(** Single-writer ownership record for mutable state. Exactly one active record may exist per (state id, state generation) at a time. *)
Record OwnershipRecord := mkOwnershipRecord {
  ow_state_id : Z;
  ow_state_generation : Z;
  ow_owner_replica : Z;
  ow_owner_replica_generation : Z;
  ow_owner_cluster : Z;
  ow_owner_incarnation : Z;
  ow_epoch : Z;
  ow_commit : Z;
  ow_placement_id : Z;
  ow_placement_generation : Z;
  ow_established_at : Z;
  ow_active : bool
}.

#[export] Instance OwnershipRecord_eta : Eta OwnershipRecord := λ r,
  mkOwnershipRecord
    (ow_state_id r) (ow_state_generation r) (ow_owner_replica r)
    (ow_owner_replica_generation r) (ow_owner_cluster r) (ow_owner_incarnation r)
    (ow_epoch r) (ow_commit r) (ow_placement_id r) (ow_placement_generation r)
    (ow_established_at r) (ow_active r).

Definition OwnershipRecord_default : OwnershipRecord :=
  mkOwnershipRecord
    0 0 0 0 0 0 0 0 0 0 0 true.


(** ** [include/ccsf/migration.hpp] *)

(** Request to replicate a state generation into another cluster. *)
Record ReplicationRequest := mkReplicationRequest {
  rq_state_id : Z;
  rq_state_generation : Z;
  rq_destination_cluster : Z;
  rq_source_cluster : Z;
  rq_placement_policy : PlacementPolicyRecord;
  rq_replication_policy : ReplicationPolicyRecord;
  rq_expected_coordinator_epoch : Z;
  rq_desired_replicas_override : Z
}.

#[export] Instance ReplicationRequest_eta : Eta ReplicationRequest := λ r,
  mkReplicationRequest
    (rq_state_id r) (rq_state_generation r) (rq_destination_cluster r)
    (rq_source_cluster r) (rq_placement_policy r) (rq_replication_policy r)
    (rq_expected_coordinator_epoch r) (rq_desired_replicas_override r).

Definition ReplicationRequest_default : ReplicationRequest :=
  mkReplicationRequest
    0 0 0 0 PlacementPolicyRecord_default ReplicationPolicyRecord_default 0 0.

(** Request to migrate a state generation to another cluster. A migration moves authority; it retires the source only when the request asks for it and the destination commit is already durable. *)
Record MigrationRequest := mkMigrationRequest {
  mq_state_id : Z;
  mq_state_generation : Z;
  mq_destination_cluster : Z;
  mq_source_cluster : Z;
  mq_retire_source_after_commit : bool;
  mq_allow_source_retirement_before_commit : bool;
  mq_placement_policy : PlacementPolicyRecord;
  mq_replication_policy : ReplicationPolicyRecord;
  mq_expected_coordinator_epoch : Z
}.

#[export] Instance MigrationRequest_eta : Eta MigrationRequest := λ r,
  mkMigrationRequest
    (mq_state_id r) (mq_state_generation r) (mq_destination_cluster r)
    (mq_source_cluster r) (mq_retire_source_after_commit r)
    (mq_allow_source_retirement_before_commit r) (mq_placement_policy r)
    (mq_replication_policy r) (mq_expected_coordinator_epoch r).

Definition MigrationRequest_default : MigrationRequest :=
  mkMigrationRequest
    0 0 0 0 false false PlacementPolicyRecord_default ReplicationPolicyRecord_default 0.

(** Request to hand mutable ownership to another replica. *)
Record OwnershipTransferRequest := mkOwnershipTransferRequest {
  oq_state_id : Z;
  oq_state_generation : Z;
  oq_expected_current_owner : Z;
  oq_new_owner_replica : Z;
  oq_new_owner_replica_generation : Z;
  oq_new_owner_cluster : Z;
  oq_handoff_commit : Z;
  oq_expected_operation_generation : Z;
  oq_expected_coordinator_epoch : Z
}.

#[export] Instance OwnershipTransferRequest_eta : Eta OwnershipTransferRequest := λ r,
  mkOwnershipTransferRequest
    (oq_state_id r) (oq_state_generation r) (oq_expected_current_owner r)
    (oq_new_owner_replica r) (oq_new_owner_replica_generation r) (oq_new_owner_cluster r)
    (oq_handoff_commit r) (oq_expected_operation_generation r)
    (oq_expected_coordinator_epoch r).

Definition OwnershipTransferRequest_default : OwnershipTransferRequest :=
  mkOwnershipTransferRequest
    0 0 0 0 0 0 0 0 0.

(** The authority a planned operation carries into its execution steps. *)
Record TransferAuthorization := mkTransferAuthorization {
  ta_operation_id : Z;
  ta_operation_generation : Z;
  ta_kind : OperationKind;
  ta_migration_id : Z;
  ta_migration_generation : Z;
  ta_transfer_id : Z;
  ta_transfer_generation : Z;
  ta_reservation_id : Z;
  ta_reservation_generation : Z;
  ta_state_id : Z;
  ta_state_generation : Z;
  ta_replica_set_id : Z;
  ta_replica_set_generation : Z;
  ta_source_replica : Z;
  ta_source_replica_generation : Z;
  ta_source_cluster : Z;
  ta_source_incarnation : Z;
  ta_destination_replica : Z;
  ta_destination_replica_generation : Z;
  ta_destination_cluster : Z;
  ta_destination_incarnation : Z;
  ta_placement_id : Z;
  ta_placement_generation : Z;
  ta_coordinator_epoch : Z;
  ta_transfer_bytes : SizeValue;
  ta_expected_digest : Digest;
  ta_digest_algorithm : IntegrityAlgorithm;
  ta_reservation_expires_at : Z;
  ta_authorized_at : Z;
  ta_destructive_move : bool
}.

#[export] Instance TransferAuthorization_eta : Eta TransferAuthorization := λ r,
  mkTransferAuthorization
    (ta_operation_id r) (ta_operation_generation r) (ta_kind r) (ta_migration_id r)
    (ta_migration_generation r) (ta_transfer_id r) (ta_transfer_generation r)
    (ta_reservation_id r) (ta_reservation_generation r) (ta_state_id r)
    (ta_state_generation r) (ta_replica_set_id r) (ta_replica_set_generation r)
    (ta_source_replica r) (ta_source_replica_generation r) (ta_source_cluster r)
    (ta_source_incarnation r) (ta_destination_replica r)
    (ta_destination_replica_generation r) (ta_destination_cluster r)
    (ta_destination_incarnation r) (ta_placement_id r) (ta_placement_generation r)
    (ta_coordinator_epoch r) (ta_transfer_bytes r) (ta_expected_digest r)
    (ta_digest_algorithm r) (ta_reservation_expires_at r) (ta_authorized_at r)
    (ta_destructive_move r).

Definition TransferAuthorization_default : TransferAuthorization :=
  mkTransferAuthorization
    0 0 OpK.REPLICATION 0 0 0 0 0 0 0 0 0 0 0 0 0 0 0 0 0 0 0 0 0 SizeValue_default
    Digest_default IA.SHA256 0 0 false.

(** The durable record of one governed operation. *)
Record OperationRecord := mkOperationRecord {
  op_operation_id : Z;
  op_operation_generation : Z;
  op_kind : OperationKind;
  op_state : OperationState;
  op_state_id : Z;
  op_state_generation : Z;
  op_source_replica : Z;
  op_source_replica_generation : Z;
  op_source_cluster : Z;
  op_source_incarnation : Z;
  op_destination_replica : Z;
  op_destination_replica_generation : Z;
  op_destination_cluster : Z;
  op_destination_incarnation : Z;
  op_migration_id : Z;
  op_migration_generation : Z;
  op_transfer_id : Z;
  op_transfer_generation : Z;
  op_reservation_id : Z;
  op_reservation_generation : Z;
  op_replication_policy_id : Z;
  op_replication_policy_generation_recorded : Z;
  op_placement_policy_id : Z;
  op_source_replica_set_generation : Z;
  op_committed_replica_set_generation : Z;
  op_placement_generation : Z;
  op_placement_policy_generation : Z;
  op_replication_policy_generation : Z;
  op_planned_epoch : Z;
  op_last_epoch : Z;
  op_commit_id : Z;
  op_transfer_bytes : SizeValue;
  op_transferred_bytes : SizeValue;
  op_expected_digest : Digest;
  op_measured_digest : Digest;
  op_failure_action : OperationFailureAction;
  op_cancellation : CancellationOutcome;
  op_planned_at : Z;
  op_updated_at : Z;
  op_reservation_expires_at : Z;
  op_destructive_move : bool;
  op_source_retired : bool;
  op_destination_verified : bool;
  op_destination_committed : bool;
  op_recovery_required : bool;
  op_reason : string;
  op_last_error : string;
  op_journal : list string
}.

#[export] Instance OperationRecord_eta : Eta OperationRecord := λ r,
  mkOperationRecord
    (op_operation_id r) (op_operation_generation r) (op_kind r) (op_state r)
    (op_state_id r) (op_state_generation r) (op_source_replica r)
    (op_source_replica_generation r) (op_source_cluster r) (op_source_incarnation r)
    (op_destination_replica r) (op_destination_replica_generation r)
    (op_destination_cluster r) (op_destination_incarnation r) (op_migration_id r)
    (op_migration_generation r) (op_transfer_id r) (op_transfer_generation r)
    (op_reservation_id r) (op_reservation_generation r) (op_replication_policy_id r)
    (op_replication_policy_generation_recorded r) (op_placement_policy_id r)
    (op_source_replica_set_generation r) (op_committed_replica_set_generation r)
    (op_placement_generation r) (op_placement_policy_generation r)
    (op_replication_policy_generation r) (op_planned_epoch r) (op_last_epoch r)
    (op_commit_id r) (op_transfer_bytes r) (op_transferred_bytes r) (op_expected_digest r)
    (op_measured_digest r) (op_failure_action r) (op_cancellation r) (op_planned_at r)
    (op_updated_at r) (op_reservation_expires_at r) (op_destructive_move r)
    (op_source_retired r) (op_destination_verified r) (op_destination_committed r)
    (op_recovery_required r) (op_reason r) (op_last_error r) (op_journal r).

Definition OperationRecord_default : OperationRecord :=
  mkOperationRecord
    0 0 OpK.REPLICATION OS.PLANNED 0 0 0 0 0 0 0 0 0 0 0 0 0 0 0 0 0 0 0 0 0 0 0 0 0 0 0
    SizeValue_default SizeValue_default Digest_default Digest_default
    OFA.ABANDON_DESTINATION CO.OUTCOME_UNKNOWN 0 0 0 false false false false false "" "" [].

(** Commit request for a prepared migration or replication. *)
Record OperationCommit := mkOperationCommit {
  oc_operation_id : Z;
  oc_operation_generation : Z;
  oc_commit_id : Z;
  oc_expected_coordinator_epoch : Z;
  oc_retire_source : bool
}.

#[export] Instance OperationCommit_eta : Eta OperationCommit := λ r,
  mkOperationCommit
    (oc_operation_id r) (oc_operation_generation r) (oc_commit_id r)
    (oc_expected_coordinator_epoch r) (oc_retire_source r).

Definition OperationCommit_default : OperationCommit :=
  mkOperationCommit
    0 0 0 0 false.

(** Cancellation request for an in-flight operation. *)
Record OperationCancellation := mkOperationCancellation {
  ocn_operation_id : Z;
  ocn_operation_generation : Z;
  ocn_expected_coordinator_epoch : Z;
  ocn_reason : string
}.

#[export] Instance OperationCancellation_eta : Eta OperationCancellation := λ r,
  mkOperationCancellation
    (ocn_operation_id r) (ocn_operation_generation r) (ocn_expected_coordinator_epoch r)
    (ocn_reason r).

Definition OperationCancellation_default : OperationCancellation :=
  mkOperationCancellation
    0 0 0 "".


(** ** [include/ccsf/economics.hpp] *)

(** Inputs to the transfer-versus-reconstruction decision. *)
Record EconomicInputs := mkEconomicInputs {
  ei_transfer_bytes : SizeValue;
  ei_transfer_cost : CostValue;
  ei_egress_cost : CostValue;
  ei_reconstruction_cost : CostValue;
  ei_storage_cost : CostValue;
  ei_compute_cost : CostValue;
  ei_expected_reuse : ReuseValue;
  ei_reconstruction_available : bool;
  ei_reconstruction_deterministic : bool;
  ei_destination_capacity_sufficient : bool;
  ei_source_healthy : bool;
  ei_destination_healthy : bool;
  ei_destination_adds_diversity : bool;
  ei_predicted_transfer_ticks : Z;
  ei_maximum_transfer_ticks : Z;
  ei_expected_reuse_count : Z
}.

#[export] Instance EconomicInputs_eta : Eta EconomicInputs := λ r,
  mkEconomicInputs
    (ei_transfer_bytes r) (ei_transfer_cost r) (ei_egress_cost r)
    (ei_reconstruction_cost r) (ei_storage_cost r) (ei_compute_cost r)
    (ei_expected_reuse r) (ei_reconstruction_available r)
    (ei_reconstruction_deterministic r) (ei_destination_capacity_sufficient r)
    (ei_source_healthy r) (ei_destination_healthy r) (ei_destination_adds_diversity r)
    (ei_predicted_transfer_ticks r) (ei_maximum_transfer_ticks r)
    (ei_expected_reuse_count r).

Definition EconomicInputs_default : EconomicInputs :=
  mkEconomicInputs
    SizeValue_default CostValue_default CostValue_default CostValue_default
    CostValue_default CostValue_default ReuseValue_default false false true true true false
    0 0 0.

(** Result of the economic decision, with a structured explanation. *)
Record EconomicDecision := mkEconomicDecision {
  ed_kind : DecisionKind;
  ed_transfer_total : CostValue;
  ed_reconstruction_total : CostValue;
  ed_repair_total : CostValue;
  ed_factors : list string;
  ed_reason : string
}.

#[export] Instance EconomicDecision_eta : Eta EconomicDecision := λ r,
  mkEconomicDecision
    (ed_kind r) (ed_transfer_total r) (ed_reconstruction_total r) (ed_repair_total r)
    (ed_factors r) (ed_reason r).

Definition EconomicDecision_default : EconomicDecision :=
  mkEconomicDecision
    DK.UNKNOWN CostValue_default CostValue_default CostValue_default [] "".


(** ** [include/ccsf/placement.hpp] *)

(** Evidence about one candidate destination. Nothing here is authority; it is the input the deterministic policy engine ranks. *)
Record PlacementCandidate := mkPlacementCandidate {
  pcd_cluster_id : Z;
  pcd_cluster_incarnation : Z;
  pcd_region : Z;
  pcd_failure_domain : Z;
  pcd_health : ClusterHealthState;
  pcd_capabilities : ClusterCapabilities;
  pcd_capacity : ClusterCapacity;
  pcd_evidence : ClusterEvidence;
  pcd_already_hosts_current_replica : bool;
  pcd_compatibility : CompatibilityResult;
  pcd_integrity_evidence_available : bool;
  pcd_logical_size : SizeValue;
  pcd_transfer_bytes : SizeValue;
  pcd_transfer_cost : CostValue;
  pcd_reconstruction_cost : CostValue;
  pcd_storage_cost : CostValue;
  pcd_compute_cost : CostValue;
  pcd_expected_reuse : ReuseValue;
  pcd_predicted_transfer_ticks : Z;
  pcd_predicted_wait_ticks : Z;
  pcd_existing_replica_count : Z;
  pcd_in_flight_operations : Z;
  pcd_affinity_score : Z;
  pcd_region_affinity : Z;
  pcd_expected_future_demand : Z;
  pcd_source_cluster_healthy : bool;
  pcd_achievable_durability : ReplicaDurabilityState
}.

#[export] Instance PlacementCandidate_eta : Eta PlacementCandidate := λ r,
  mkPlacementCandidate
    (pcd_cluster_id r) (pcd_cluster_incarnation r) (pcd_region r) (pcd_failure_domain r)
    (pcd_health r) (pcd_capabilities r) (pcd_capacity r) (pcd_evidence r)
    (pcd_already_hosts_current_replica r) (pcd_compatibility r)
    (pcd_integrity_evidence_available r) (pcd_logical_size r) (pcd_transfer_bytes r)
    (pcd_transfer_cost r) (pcd_reconstruction_cost r) (pcd_storage_cost r)
    (pcd_compute_cost r) (pcd_expected_reuse r) (pcd_predicted_transfer_ticks r)
    (pcd_predicted_wait_ticks r) (pcd_existing_replica_count r)
    (pcd_in_flight_operations r) (pcd_affinity_score r) (pcd_region_affinity r)
    (pcd_expected_future_demand r) (pcd_source_cluster_healthy r)
    (pcd_achievable_durability r).

Definition PlacementCandidate_default : PlacementCandidate :=
  mkPlacementCandidate
    0 0 0 0 CH.UNKNOWN ClusterCapabilities_default ClusterCapacity_default
    ClusterEvidence_default false CRes.UNKNOWN false SizeValue_default SizeValue_default
    CostValue_default CostValue_default CostValue_default CostValue_default
    ReuseValue_default 0 0 0 0 0 0 0 false RD.UNKNOWN.

(** A single placement decision request. *)
Record PlacementRequest := mkPlacementRequest {
  pr_state_id : Z;
  pr_state_generation : Z;
  pr_policy : PlacementPolicyRecord;
  pr_replication_policy : ReplicationPolicyRecord;
  pr_candidates : list PlacementCandidate;
  pr_preferred_source : Z;
  pr_destination_is_new_replica : bool;
  pr_intent : DecisionKind;
  pr_now : Z;
  pr_current_clusters : list Z;
  pr_current_regions : list Z;
  pr_current_failure_domains : list Z
}.

#[export] Instance PlacementRequest_eta : Eta PlacementRequest := λ r,
  mkPlacementRequest
    (pr_state_id r) (pr_state_generation r) (pr_policy r) (pr_replication_policy r)
    (pr_candidates r) (pr_preferred_source r) (pr_destination_is_new_replica r)
    (pr_intent r) (pr_now r) (pr_current_clusters r) (pr_current_regions r)
    (pr_current_failure_domains r).

Definition PlacementRequest_default : PlacementRequest :=
  mkPlacementRequest
    0 0 PlacementPolicyRecord_default ReplicationPolicyRecord_default [] 0 true
    DK.REPLICATE 0 [] [] [].

(** A candidate rejected by a hard constraint. *)
Record PlacementRejection := mkPlacementRejection {
  pj_cluster_id : Z;
  pj_constraint : string;
  pj_detail : string;
  pj_code : ErrorCode
}.

#[export] Instance PlacementRejection_eta : Eta PlacementRejection := λ r,
  mkPlacementRejection
    (pj_cluster_id r) (pj_constraint r) (pj_detail r) (pj_code r).

Definition PlacementRejection_default : PlacementRejection :=
  mkPlacementRejection
    0 "" "" EC.INVALID_ARGUMENT.

(** One ranked candidate with its full factor breakdown. *)
Record RankedCandidate := mkRankedCandidate {
  rkc_cluster_id : Z;
  rkc_score : Z;
  rkc_contributions : list RankingContribution
}.

#[export] Instance RankedCandidate_eta : Eta RankedCandidate := λ r,
  mkRankedCandidate
    (rkc_cluster_id r) (rkc_score r) (rkc_contributions r).

Definition RankedCandidate_default : RankedCandidate :=
  mkRankedCandidate
    0 0 [].

(** The deterministic output of evaluate_placement. *)
Record PlacementEvaluation := mkPlacementEvaluation {
  pe_state_id : Z;
  pe_state_generation : Z;
  pe_placement_policy_id : Z;
  pe_placement_policy_generation : Z;
  pe_decision : DecisionKind;
  pe_chosen_cluster : Z;
  pe_chosen_score : Z;
  pe_rejected : list PlacementRejection;
  pe_ranked : list RankedCandidate;
  pe_reasons : list string
}.

#[export] Instance PlacementEvaluation_eta : Eta PlacementEvaluation := λ r,
  mkPlacementEvaluation
    (pe_state_id r) (pe_state_generation r) (pe_placement_policy_id r)
    (pe_placement_policy_generation r) (pe_decision r) (pe_chosen_cluster r)
    (pe_chosen_score r) (pe_rejected r) (pe_ranked r) (pe_reasons r).

Definition PlacementEvaluation_default : PlacementEvaluation :=
  mkPlacementEvaluation
    0 0 0 0 DK.UNKNOWN 0 0 [] [] [].

(** Evaluates hard constraints for one candidate. Returns OK when the candidate satisfies every constraint, otherwise the specific rejection. *)
Record ConstraintOutcome := mkConstraintOutcome {
  co_accepted : bool;
  co_constraint : string;
  co_detail : string;
  co_code : ErrorCode
}.

#[export] Instance ConstraintOutcome_eta : Eta ConstraintOutcome := λ r,
  mkConstraintOutcome
    (co_accepted r) (co_constraint r) (co_detail r) (co_code r).

Definition ConstraintOutcome_default : ConstraintOutcome :=
  mkConstraintOutcome
    false "" "" EC.OK.


(** ** [include/ccsf/snapshot.hpp] *)

(** Runtime accounting. Every completed operation must return these counters to their baseline; the counters are the evidence for resource-leak tests. *)
Record FabricCounters := mkFabricCounters {
  fc_states_registered : Z;
  fc_generations_registered : Z;
  fc_generations_committed : Z;
  fc_generations_superseded : Z;
  fc_clusters_registered : Z;
  fc_cluster_reincarnations : Z;
  fc_cluster_incarnations_fenced : Z;
  fc_replicas_registered : Z;
  fc_replicas_committed : Z;
  fc_replicas_retired : Z;
  fc_replicas_quarantined : Z;
  fc_replicas_abandoned : Z;
  fc_replicas_fenced : Z;
  fc_operations_planned : Z;
  fc_operations_reserved : Z;
  fc_operations_committed : Z;
  fc_operations_failed : Z;
  fc_operations_cancelled : Z;
  fc_operations_abandoned : Z;
  fc_operations_recovered : Z;
  fc_transfers_started : Z;
  fc_transfers_completed : Z;
  fc_bytes_transferred : Z;
  fc_integrity_verifications : Z;
  fc_integrity_failures : Z;
  fc_compatibility_rejections : Z;
  fc_stale_rejections : Z;
  fc_conflicts_rejected : Z;
  fc_durable_commits : Z;
  fc_journal_records_applied : Z;
  fc_snapshots_written : Z;
  fc_ownership_transfers : Z;
  fc_active_operations : Z;
  fc_active_transfers : Z;
  fc_reserved_bytes : Z;
  fc_reserved_transfer_slots : Z
}.

#[export] Instance FabricCounters_eta : Eta FabricCounters := λ r,
  mkFabricCounters
    (fc_states_registered r) (fc_generations_registered r) (fc_generations_committed r)
    (fc_generations_superseded r) (fc_clusters_registered r) (fc_cluster_reincarnations r)
    (fc_cluster_incarnations_fenced r) (fc_replicas_registered r) (fc_replicas_committed r)
    (fc_replicas_retired r) (fc_replicas_quarantined r) (fc_replicas_abandoned r)
    (fc_replicas_fenced r) (fc_operations_planned r) (fc_operations_reserved r)
    (fc_operations_committed r) (fc_operations_failed r) (fc_operations_cancelled r)
    (fc_operations_abandoned r) (fc_operations_recovered r) (fc_transfers_started r)
    (fc_transfers_completed r) (fc_bytes_transferred r) (fc_integrity_verifications r)
    (fc_integrity_failures r) (fc_compatibility_rejections r) (fc_stale_rejections r)
    (fc_conflicts_rejected r) (fc_durable_commits r) (fc_journal_records_applied r)
    (fc_snapshots_written r) (fc_ownership_transfers r) (fc_active_operations r)
    (fc_active_transfers r) (fc_reserved_bytes r) (fc_reserved_transfer_slots r).

Definition FabricCounters_default : FabricCounters :=
  mkFabricCounters
    0 0 0 0 0 0 0 0 0 0 0 0 0 0 0 0 0 0 0 0 0 0 0 0 0 0 0 0 0 0 0 0 0 0 0 0.

(** An immutable point-in-time view of the durable control plane. *)
Record FabricSnapshot := mkFabricSnapshot {
  fs_coordinator_id : Z;
  fs_coordinator_epoch : Z;
  fs_logical_time : Z;
  fs_durable_sequence : Z;
  fs_journal_records : Z;
  fs_replay_generation : Z;
  fs_states : list StateGenerationRecord;
  fs_clusters : list ClusterRecord;
  fs_replicas : list ReplicaRecord;
  fs_replica_sets : list ReplicaSetRecord;
  fs_operations : list OperationRecord;
  fs_ownership : list OwnershipRecord;
  fs_compatibility_records : list CompatibilityRecord;
  fs_active_authorizations : list TransferAuthorization;
  fs_counters : FabricCounters
}.

#[export] Instance FabricSnapshot_eta : Eta FabricSnapshot := λ r,
  mkFabricSnapshot
    (fs_coordinator_id r) (fs_coordinator_epoch r) (fs_logical_time r)
    (fs_durable_sequence r) (fs_journal_records r) (fs_replay_generation r) (fs_states r)
    (fs_clusters r) (fs_replicas r) (fs_replica_sets r) (fs_operations r) (fs_ownership r)
    (fs_compatibility_records r) (fs_active_authorizations r) (fs_counters r).

Definition FabricSnapshot_default : FabricSnapshot :=
  mkFabricSnapshot
    0 0 0 0 0 0 [] [] [] [] [] [] [] [] FabricCounters_default.


(** ** [include/ccsf/fabric.hpp] *)

(** Construction parameters for a Fabric runtime. *)
Record FabricConfig := mkFabricConfig {
  cfg_coordinator_id : Z;
  cfg_home_cluster : Z;
  cfg_persistence_directory : string;
  cfg_require_durable_commits : bool;
  cfg_journal_records_before_snapshot : Z;
  cfg_maximum_records : Z;
  cfg_maximum_payload_bytes : Z;
  cfg_logical_start : Z;
  cfg_epoch_start : Z;
  cfg_default_placement_policy : PlacementPolicyRecord;
  cfg_default_replication_policy : ReplicationPolicyRecord
}.

#[export] Instance FabricConfig_eta : Eta FabricConfig := λ r,
  mkFabricConfig
    (cfg_coordinator_id r) (cfg_home_cluster r) (cfg_persistence_directory r)
    (cfg_require_durable_commits r) (cfg_journal_records_before_snapshot r)
    (cfg_maximum_records r) (cfg_maximum_payload_bytes r) (cfg_logical_start r)
    (cfg_epoch_start r) (cfg_default_placement_policy r) (cfg_default_replication_policy r).

Definition FabricConfig_default : FabricConfig :=
  mkFabricConfig
    0 0 "" false 4096 250000 8388608 0 0 PlacementPolicyRecord_default
    ReplicationPolicyRecord_default.

(** Summary of the current runtime. *)
Record FabricStatus := mkFabricStatus {
  fst_coordinator_id : Z;
  fst_coordinator_epoch : Z;
  fst_logical_time : Z;
  fst_durable_sequence : Z;
  fst_journal_records : Z;
  fst_replay_generation : Z;
  fst_persistence_enabled : bool;
  fst_persistence_healthy : bool;
  fst_recovered_from_durable_state : bool;
  fst_journal_tail_discarded : bool;
  fst_persistence_detail : string;
  fst_state_generations : Z;
  fst_clusters : Z;
  fst_replicas : Z;
  fst_replica_sets : Z;
  fst_operations : Z;
  fst_counters : FabricCounters
}.

#[export] Instance FabricStatus_eta : Eta FabricStatus := λ r,
  mkFabricStatus
    (fst_coordinator_id r) (fst_coordinator_epoch r) (fst_logical_time r)
    (fst_durable_sequence r) (fst_journal_records r) (fst_replay_generation r)
    (fst_persistence_enabled r) (fst_persistence_healthy r)
    (fst_recovered_from_durable_state r) (fst_journal_tail_discarded r)
    (fst_persistence_detail r) (fst_state_generations r) (fst_clusters r) (fst_replicas r)
    (fst_replica_sets r) (fst_operations r) (fst_counters r).

Definition FabricStatus_default : FabricStatus :=
  mkFabricStatus
    0 0 0 0 0 0 false false false false "" 0 0 0 0 0 FabricCounters_default.

(** Answer to "may this state generation be reused in this cluster right now". *)
Record ReuseEvaluation := mkReuseEvaluation {
  rev_state_id : Z;
  rev_state_generation : Z;
  rev_cluster_id : Z;
  rev_decision : DecisionKind;
  rev_replica : Z;
  rev_replica_generation : Z;
  rev_assessment : ReplicaAuthorityAssessment;
  rev_code : ErrorCode;
  rev_reason : string;
  rev_findings : list string
}.

#[export] Instance ReuseEvaluation_eta : Eta ReuseEvaluation := λ r,
  mkReuseEvaluation
    (rev_state_id r) (rev_state_generation r) (rev_cluster_id r) (rev_decision r)
    (rev_replica r) (rev_replica_generation r) (rev_assessment r) (rev_code r)
    (rev_reason r) (rev_findings r).

Definition ReuseEvaluation_default : ReuseEvaluation :=
  mkReuseEvaluation
    0 0 0 DK.REJECT 0 0 ReplicaAuthorityAssessment_default EC.NO_AUTHORITATIVE_REPLICA ""
    [].


(** ** [include/ccsf/explain.hpp] *)

(** A structured explanation. Lines are appended in a fixed, documented order so that the same canonical inputs always render the same text. *)
Record Explanation := mkExplanation {
  ex_title : string;
  ex_lines : list string
}.

#[export] Instance Explanation_eta : Eta Explanation := λ r,
  mkExplanation
    (ex_title r) (ex_lines r).

Definition Explanation_default : Explanation :=
  mkExplanation
    "" [].


(** ** [src/detail/control_plane.hpp] *)

(** In-memory image of the durable control plane. *)
Record ControlPlane := mkControlPlane {
  pl_coordinator_id : Z;
  pl_coordinator_epoch : Z;
  pl_logical_time : Z;
  pl_durable_sequence : Z;
  pl_counters : FabricCounters;
  pl_states : gmap (Z * Z) StateGenerationRecord;
  pl_clusters : gmap Z ClusterRecord;
  pl_replicas : gmap Z ReplicaRecord;
  pl_replica_sets : gmap (Z * Z) ReplicaSetRecord;
  pl_operations : gmap Z OperationRecord;
  pl_authorizations : gmap Z TransferAuthorization;
  pl_ownership : gmap (Z * Z) OwnershipRecord;
  pl_compatibility_records : gmap Z CompatibilityRecord;
  pl_placement_policies : gmap Z PlacementPolicyRecord;
  pl_replication_policies : gmap Z ReplicationPolicyRecord;
  pl_next_id : Z;
  pl_replay_generation : Z;
  pl_journal_records : Z;
  pl_journal_tail_truncated : Z;
  pl_snapshots_written : Z;
  pl_recovered : bool;
  pl_persistence_enabled : bool;
  pl_persistence_healthy : bool;
  pl_persistence_detail : string
}.

#[export] Instance ControlPlane_eta : Eta ControlPlane := λ r,
  mkControlPlane
    (pl_coordinator_id r) (pl_coordinator_epoch r) (pl_logical_time r)
    (pl_durable_sequence r) (pl_counters r) (pl_states r) (pl_clusters r) (pl_replicas r)
    (pl_replica_sets r) (pl_operations r) (pl_authorizations r) (pl_ownership r)
    (pl_compatibility_records r) (pl_placement_policies r) (pl_replication_policies r)
    (pl_next_id r) (pl_replay_generation r) (pl_journal_records r)
    (pl_journal_tail_truncated r) (pl_snapshots_written r) (pl_recovered r)
    (pl_persistence_enabled r) (pl_persistence_healthy r) (pl_persistence_detail r).

Definition ControlPlane_default : ControlPlane :=
  mkControlPlane
    0 0 0 0 FabricCounters_default ∅ ∅ ∅ ∅ ∅ ∅ ∅ ∅ ∅ ∅ 1 1 0 0 0 false false true "".
