(* ===== verification/Bytes.v ===== *)
(** * Checked binary encoding ([bytes.hpp] / [bytes.cpp])

    A byte is an integer in [0, 256) and a byte string a [list Z].  [ByteWriter]
    only ever appends, so each of its methods is the list of bytes it appends.
    [ByteReader] is a record with the data, the position and the sticky error; each
    accessor is a [Reader], a state passing function whose [None] is the source's
    [return false].  [reads] is the contract between the two: a reader placed on
    an encoding returns the encoded value and moves past it. *)

From S2P Require Import Prelude Taxonomy.

Local Open Scope Z_scope.

(** ** Checked arithmetic *)

Definition checked_add (a b : Z) : option Z :=
  if a >? u64_max - b then None else Some (a + b).

Definition checked_mul (a b : Z) : option Z :=
  if negb (a =? 0) && (b >? u64_max / a) then None else Some (a * b).

(** ** Characters and bytes *)

Definition char_byte (c : Ascii.ascii) : Z := Z.of_N (Ascii.N_of_ascii c).
Definition byte_char (b : Z) : Ascii.ascii := Ascii.ascii_of_N (Z.to_N b).

Fixpoint as_bytes (text : string) : list Z :=
  match text with
  | EmptyString => []
  | String c rest => char_byte c :: as_bytes rest
  end.

Fixpoint bytes_to_string (bytes : list Z) : string :=
  match bytes with
  | [] => EmptyString
  | b :: rest => String (byte_char b) (bytes_to_string rest)
  end.

Definition is_byte (b : Z) : Prop := 0 ≤ b < 256.

(** ** ByteWriter *)

Module ByteWriter.

Definition byte_at (value shift : Z) : Z := Z.land (Z.shiftr value shift) 255.

Definition u8 (value : Z) : list Z := [value].

Definition u16 (value : Z) : list Z := [byte_at value 8; byte_at value 0].

Definition u32 (value : Z) : list Z :=
  [byte_at value 24; byte_at value 16; byte_at value 8; byte_at value 0].

Definition u64 (value : Z) : list Z :=
  [byte_at value 56; byte_at value 48; byte_at value 40; byte_at value 32;
   byte_at value 24; byte_at value 16; byte_at value 8; byte_at value 0].

(** [static_cast<uint64_t>] of a signed value is its residue. *)
Definition i64 (value : Z) : list Z := u64 (Prelude.u64 value).

Definition boolean (value : bool) : list Z := u8 (if value then 1 else 0).

Definition raw (bytes : list Z) : list Z := bytes.

Definition u32_max : Z := 4294967295.

(** Longer inputs are truncated to the largest length the prefix can state. *)
Definition blob (bytes : list Z) : list Z :=
  if Z.of_nat (length bytes) >? u32_max
  then u32 u32_max ++ raw (take (Z.to_nat u32_max) bytes)
  else u32 (Z.of_nat (length bytes)) ++ raw bytes.

Definition str (text : string) : list Z := blob (as_bytes text).

End ByteWriter.

(** ** ByteReader *)

Record ByteReader := mkByteReader {
  br_data : list Z;
  br_position : nat;
  br_ok : bool;
  br_error : ErrorCode
}.

#[export] Instance ByteReader_eta : Eta ByteReader := λ r,
  mkByteReader (br_data r) (br_position r) (br_ok r) (br_error r).

Definition make_reader (data : list Z) : ByteReader := mkByteReader data 0 true EC.OK.

Definition Reader (A : Type) : Type := ByteReader → option A * ByteReader.

Definition rret {A} (a : A) : Reader A := λ r, (Some a, r).
Definition rbind {A B} (m : Reader A) (f : A → Reader B) : Reader B := λ r,
  match m r with
  | (Some a, r') => f a r'
  | (None, r') => (None, r')
  end.

Declare Scope reader_scope.
Delimit Scope reader_scope with reader.
Notation "x <- m ;; k" := (rbind m (λ x, k))
  (at level 100, m at next level, k at level 200, right associativity) : reader_scope.

Module Reader.
Local Open Scope reader_scope.

Definition remaining (r : ByteReader) : nat :=
  if br_ok r then (length (br_data r) - br_position r)%nat else 0%nat.

Definition at_end (r : ByteReader) : bool :=
  br_ok r && (br_position r =? length (br_data r))%nat.

(** The first failure sticks. *)
Definition fail {A} (code : ErrorCode) : Reader A := λ r,
  (None, if br_ok r then r <| br_ok := false |> <| br_error := code |> else r).

(** [n]-byte big-endian accumulation, truncated to the accumulator's width as the
    C++ shifts are. *)
Definition accumulate (n : nat) (bytes : list Z) : Z :=
  fold_left (λ value b, Z.lor (Z.shiftl value 8 mod 2 ^ (8 * Z.of_nat n)) b) bytes 0.

Definition fixed (n : nat) : Reader Z := λ r,
  if negb (br_ok r) then (None, r)
  else if (length (br_data r) <? br_position r + n)%nat then fail EC.INVALID_ARGUMENT r
  else (Some (accumulate n (take n (drop (br_position r) (br_data r)))),
        r <| br_position ::= λ p, (p + n)%nat |>).

Definition u8 : Reader Z := fixed 1.
Definition u16 : Reader Z := fixed 2.
Definition u32 : Reader Z := fixed 4.
Definition u64 : Reader Z := fixed 8.

Definition i64 : Reader Z := value <- u64;; rret (Prelude.i64 value).

Definition boolean : Reader bool :=
  value <- u8;;
  if value >? 1 then fail EC.INVALID_ARGUMENT else rret (value =? 1).

Definition raw (count : Z) : Reader (list Z) := λ r,
  if negb (br_ok r) then (None, r)
  else match checked_add (Z.of_nat (br_position r)) count with
       | Some stop =>
           if stop >? Z.of_nat (length (br_data r)) then fail EC.INVALID_ARGUMENT r
           else (Some (take (Z.to_nat count) (drop (br_position r) (br_data r))),
                 r <| br_position ::= λ p, (p + Z.to_nat count)%nat |>)
       | None => fail EC.INVALID_ARGUMENT r
       end.

Definition blob (max_length : Z) : Reader (list Z) :=
  length <- u32;;
  if length >? max_length then fail EC.RESOURCE_EXHAUSTED
  else raw length.

Definition str (max_length : Z) : Reader string :=
  length <- u32;;
  if length >? max_length then fail EC.RESOURCE_EXHAUSTED
  else view <- raw length;; rret (bytes_to_string view).

Definition require_end : Reader unit := λ r,
  if negb (br_ok r) then (None, r)
  else if (br_position r =? length (br_data r))%nat then (Some tt, r)
  else fail EC.INVALID_ARGUMENT r.

End Reader.

(** ** The codec contract

    [reads m v enc]: wherever [enc] lies in the data, reading it with [m] returns
    [v] and leaves the reader just past it.  The data is addressable: its size
    fits [std::size_t]. *)
Definition reads {A} (m : Reader A) (v : A) (enc : list Z) : Prop :=
  ∀ pre post e, Z.of_nat (length (pre ++ enc ++ post)) ≤ u64_max →
    m (mkByteReader (pre ++ enc ++ post) (length pre) true e) =
    (Some v, mkByteReader (pre ++ enc ++ post) (length pre + length enc) true e).

Lemma reads_ret {A} (v : A) : reads (rret v) v [].
Proof. intros pre post e _. unfold rret. simpl. by rewrite Nat.add_0_r. Qed.

Lemma reads_bind {A B} (m : Reader A) (f : A → Reader B) a b enc1 enc2 :
  reads m a enc1 → reads (f a) b enc2 → reads (rbind m f) b (enc1 ++ enc2).
Proof.
  intros Hm Hf pre post e Hsize. unfold rbind.
  rewrite <-(assoc_L (++)) in Hsize |- *. rewrite (Hm pre (enc2 ++ post) e Hsize).
  specialize (Hf (pre ++ enc1) post e).
  rewrite <-!(assoc_L (++)) in Hf. specialize (Hf Hsize).
  rewrite (length_app pre enc1) in Hf. rewrite Hf.
  by rewrite length_app, Nat.add_assoc.
Qed.

(** A bind whose continuation consumes nothing more. *)
Lemma reads_map {A B} (m : Reader A) (f : A → Reader B) a b enc :
  reads m a enc → reads (f a) b [] → reads (rbind m f) b enc.
Proof. intros. rewrite <-(app_nil_r enc). by eapply reads_bind. Qed.

(** ** Fixed-width integers *)

Lemma lor_byte_add a b : 0 ≤ b < 256 → Z.lor (Z.shiftl a 8) b = a * 256 + b.
Proof.
  intros Hb. assert (Z.land (Z.shiftl a 8) b = 0) as Hl.
  { apply Z.bits_inj'. intros n Hn. rewrite Z.land_spec, Z.bits_0.
    destruct (decide (n < 8)).
    - by rewrite Z.shiftl_spec_low.
    - rewrite (Z.bits_above_log2 b n), andb_false_r; [done|lia|].
      destruct (decide (b = 0)) as [->|]; [simpl; lia|].
      apply Z.log2_lt_pow2; [lia|]. apply Z.lt_le_trans with (2 ^ 8); [lia|].
      apply Z.pow_le_mono_r; lia. }
  pose proof (Z.add_lor_land (Z.shiftl a 8) b). rewrite Hl, Z.shiftl_mul_pow2 in *; lia.
Qed.

(** The [n] low bytes of a value, most significant first. *)
Fixpoint be_bytes (n : nat) (value : Z) : list Z :=
  match n with
  | O => []
  | S k => ByteWriter.byte_at value (8 * Z.of_nat k) :: be_bytes k value
  end.

Lemma length_be_bytes n value : length (be_bytes n value) = n.
Proof. induction n; simpl; lia. Qed.

Lemma byte_at_mod value shift :
  0 ≤ shift → ByteWriter.byte_at value shift = (value / 2 ^ shift) mod 256.
Proof.
  intros. unfold ByteWriter.byte_at. change 255 with (Z.ones 8).
  rewrite Z.land_ones, Z.shiftr_div_pow2 by lia. done.
Qed.

Lemma byte_at_range value shift : 0 ≤ shift → is_byte (ByteWriter.byte_at value shift).
Proof. intros. rewrite byte_at_mod by done. apply Z.mod_pos_bound. lia. Qed.

Lemma be_bytes_are_bytes n value : Forall is_byte (be_bytes n value).
Proof. induction n; simpl; constructor; [apply byte_at_range; lia|done]. Qed.

Lemma be_bytes_step value k :
  value mod 2 ^ (8 * Z.of_nat (S k)) =
  (value / 2 ^ (8 * Z.of_nat k)) mod 256 * 2 ^ (8 * Z.of_nat k) + value mod 2 ^ (8 * Z.of_nat k).
Proof.
  replace (8 * Z.of_nat (S k)) with (8 * Z.of_nat k + 8) by lia.
  rewrite Z.pow_add_r by lia. change (2 ^ 8) with 256.
  rewrite Z.rem_mul_r by lia. lia.
Qed.

Lemma accumulate_be_bytes_aux width n value acc :
  (n ≤ width)%nat → 0 ≤ acc < 2 ^ (8 * Z.of_nat (width - n)) →
  fold_left (λ v b, Z.lor (Z.shiftl v 8 mod 2 ^ (8 * Z.of_nat width)) b) (be_bytes n value) acc =
  acc * 2 ^ (8 * Z.of_nat n) + value mod 2 ^ (8 * Z.of_nat n).
Proof.
  revert acc. induction n as [|n IH]; intros acc Hn Hacc; simpl fold_left.
  { change (8 * Z.of_nat 0) with 0. rewrite Z.pow_0_r, Z.mod_1_r. lia. }
  pose proof (byte_at_range value (8 * Z.of_nat n) ltac:(lia)) as Hb. unfold is_byte in Hb.
  assert (2 ^ (8 * Z.of_nat (width - n)) = 256 * 2 ^ (8 * Z.of_nat (width - S n))) as Hp.
  { change 256 with (2 ^ 8). rewrite <-Z.pow_add_r by lia. f_equal. lia. }
  rewrite (Z.mod_small (Z.shiftl acc 8)).
  2: { rewrite Z.shiftl_mul_pow2 by lia. change (2 ^ 8) with 256.
       split; [lia|]. apply Z.lt_le_trans with (2 ^ (8 * Z.of_nat (width - n))); [lia|].
       apply Z.pow_le_mono_r; lia. }
  rewrite lor_byte_add, IH by lia. rewrite be_bytes_step, <-byte_at_mod by lia.
  replace (8 * Z.of_nat (S n)) with (8 + 8 * Z.of_nat n) by lia.
  rewrite Z.pow_add_r by lia. lia.
Qed.

Lemma accumulate_be_bytes n value :
  Reader.accumulate n (be_bytes n value) = value mod 2 ^ (8 * Z.of_nat n).
Proof.
  unfold Reader.accumulate. rewrite accumulate_be_bytes_aux; [lia|lia|].
  rewrite Nat.sub_diag. simpl. lia.
Qed.

Lemma reads_fixed n value :
  reads (Reader.fixed n) (value mod 2 ^ (8 * Z.of_nat n)) (be_bytes n value).
Proof.
  intros pre post e _. unfold Reader.fixed. simpl. pose proof (length_be_bytes n value) as Hl.
  destruct (Nat.ltb_spec (length (pre ++ be_bytes n value ++ post)) (length pre + n)) as [H|_].
  { rewrite !length_app in H. lia. }
  rewrite drop_app_length, take_app_length' by done.
  by rewrite accumulate_be_bytes, Hl.
Qed.

Lemma reads_u8 v : is_byte v → reads Reader.u8 v (ByteWriter.u8 v).
Proof.
  intros Hv. unfold is_byte in Hv. pose proof (reads_fixed 1 v) as H.
  cbn [be_bytes] in H. rewrite byte_at_mod in H by lia.
  change (2 ^ (8 * Z.of_nat 0)) with 1 in H. rewrite Z.div_1_r, !Z.mod_small in H; [done|lia..].
Qed.

Lemma reads_u16 v : 0 ≤ v < 2 ^ 16 → reads Reader.u16 v (ByteWriter.u16 v).
Proof. intros. pose proof (reads_fixed 2 v) as H'. by rewrite Z.mod_small in H'. Qed.

Lemma reads_u32 v : 0 ≤ v < 2 ^ 32 → reads Reader.u32 v (ByteWriter.u32 v).
Proof. intros. pose proof (reads_fixed 4 v) as H'. by rewrite Z.mod_small in H'. Qed.

Lemma reads_u64 v : 0 ≤ v < 2 ^ 64 → reads Reader.u64 v (ByteWriter.u64 v).
Proof. intros. pose proof (reads_fixed 8 v) as H'. by rewrite Z.mod_small in H'. Qed.

Lemma reads_i64 v : i64_min ≤ v ≤ i64_max → reads Reader.i64 v (ByteWriter.i64 v).
Proof.
  intros Hv. eapply reads_map; [apply reads_u64, u64_range|].
  replace (Prelude.i64 (Prelude.u64 v)) with v; [apply reads_ret|].
  unfold Prelude.i64, Prelude.u64. rewrite Zplus_mod_idemp_l.
  symmetry. by apply i64_id.
Qed.

Lemma reads_boolean v : reads Reader.boolean v (ByteWriter.boolean v).
Proof.
  eapply reads_map; [apply reads_u8; unfold is_byte; destruct v; lia|].
  destruct v; apply reads_ret.
Qed.

(** ** Byte strings *)

Lemma reads_raw bytes : reads (Reader.raw (Z.of_nat (length bytes))) bytes bytes.
Proof.
  intros pre post e Hsize. unfold Reader.raw, checked_add. simpl.
  rewrite !length_app in *.
  destruct (Z.gtb_spec (Z.of_nat (length pre)) (u64_max - Z.of_nat (length bytes))); [lia|].
  destruct (Z.gtb_spec (Z.of_nat (length pre) + Z.of_nat (length bytes))
    (Z.of_nat (length pre + (length bytes + length post)))); [lia|].
  by rewrite drop_app_length, Nat2Z.id, take_app_length.
Qed.

Lemma blob_small bytes :
  Z.of_nat (length bytes) < 2 ^ 32 →
  ByteWriter.blob bytes = ByteWriter.u32 (Z.of_nat (length bytes)) ++ bytes.
Proof.
  intros. unfold ByteWriter.blob, ByteWriter.u32_max.
  destruct (Z.gtb_spec (Z.of_nat (length bytes)) 4294967295); [lia|done].
Qed.

(** A blob within the reader's bound is read back as it was written. *)
Lemma reads_blob max bytes :
  Z.of_nat (length bytes) ≤ max → Z.of_nat (length bytes) < 2 ^ 32 →
  reads (Reader.blob max) bytes (ByteWriter.blob bytes).
Proof.
  intros Hmax Hlen. rewrite blob_small by done.
  eapply reads_bind; [apply reads_u32; lia|].
  destruct (Z.gtb_spec (Z.of_nat (length bytes)) max); [lia|]. apply reads_raw.
Qed.

Lemma char_byte_range c : is_byte (char_byte c).
Proof.
  unfold char_byte, is_byte. pose proof (Ascii.N_ascii_bounded c). lia.
Qed.

Lemma byte_char_byte c : byte_char (char_byte c) = c.
Proof. unfold byte_char, char_byte. by rewrite N2Z.id, Ascii.ascii_N_embedding. Qed.

Lemma as_bytes_are_bytes text : Forall is_byte (as_bytes text).
Proof. induction text; simpl; constructor; [apply char_byte_range|done]. Qed.

Lemma bytes_to_string_as_bytes text : bytes_to_string (as_bytes text) = text.
Proof. induction text as [|c text IH]; simpl; [done|]. by rewrite byte_char_byte, IH. Qed.

Lemma length_as_bytes text : length (as_bytes text) = String.length text.
Proof. induction text; simpl; congruence. Qed.

Lemma as_bytes_inj a b : as_bytes a = as_bytes b → a = b.
Proof.
  intros H. by rewrite <-(bytes_to_string_as_bytes a), H, bytes_to_string_as_bytes.
Qed.

Lemma reads_str max text :
  Z.of_nat (String.length text) ≤ max → Z.of_nat (String.length text) < 2 ^ 32 →
  reads (Reader.str max) text (ByteWriter.str text).
Proof.
  rewrite <-length_as_bytes. intros Hmax Hlen.
  unfold ByteWriter.str. rewrite blob_small by done.
  eapply reads_bind; [apply reads_u32; lia|].
  destruct (Z.gtb_spec (Z.of_nat (length (as_bytes text))) max); [lia|].
  eapply reads_map; [apply reads_raw|]. rewrite bytes_to_string_as_bytes. apply reads_ret.
Qed.

#[export] Hint Resolve reads_u8 reads_u16 reads_u32 reads_u64 reads_i64 reads_boolean
  reads_raw reads_blob reads_str : ccsf.

(** ** Safety of the reader

    Whatever the bytes are, an accessor keeps the position inside the data, never
    moves it backwards and reports failure exactly when it clears [ok]; on a reader
    that already failed it does nothing. *)
Definition reader_ok (r : ByteReader) : Prop := (br_position r ≤ length (br_data r))%nat.

Record reader_advance {A} (r : ByteReader) (o : option A) (r' : ByteReader) : Prop := {
  ra_inside : reader_ok r';
  ra_data : br_data r' = br_data r;
  ra_forward : (br_position r ≤ br_position r')%nat;
  ra_status : br_ok r' = bool_decide (is_Some o)
}.

Definition reader_safe {A} (m : Reader A) : Prop :=
  ∀ r o r', m r = (o, r') → reader_ok r → br_ok r = true → reader_advance r o r'.

Definition reader_sticky {A} (m : Reader A) : Prop :=
  ∀ r, br_ok r = false → m r = (None, r).

Lemma safe_ret {A} (a : A) : reader_safe (rret a).
Proof. intros r o r' [= <- <-] Hr Hok. by split. Qed.

Lemma safe_fail {A} code : reader_safe (Reader.fail (A:=A) code).
Proof. intros r o r' [= <- <-] Hr ->. by split. Qed.

Lemma safe_fixed n : reader_safe (Reader.fixed n).
Proof.
  intros r o r' H Hr Hok. unfold Reader.fixed in H. rewrite Hok in H. simpl in H.
  destruct (Nat.ltb_spec (length (br_data r)) (br_position r + n)).
  - by eapply safe_fail.
  - simplify_eq/=. split; unfold reader_ok in *; simpl; [lia|done|lia|done].
Qed.

Lemma safe_raw n : reader_safe (Reader.raw n).
Proof.
  intros r o r' H Hr Hok. unfold Reader.raw in H. rewrite Hok in H. simpl in H.
  destruct (checked_add _ _) as [stop|] eqn:Ec; [|by eapply safe_fail].
  destruct (Z.gtb_spec stop (Z.of_nat (length (br_data r)))); [by eapply safe_fail|].
  unfold checked_add in Ec. case_match; simplify_eq/=.
  unfold reader_ok in *. split; unfold reader_ok; simpl; [lia|done|lia|done].
Qed.

Lemma safe_bind {A B} (m : Reader A) (f : A → Reader B) :
  reader_safe m → (∀ a, reader_safe (f a)) → reader_safe (rbind m f).
Proof.
  intros Hm Hf r o r' H Hr Hok. unfold rbind in H.
  destruct (m r) as [[a|] r1] eqn:E1.
  - destruct (Hm _ _ _ E1 Hr Hok) as [Hr1 Hd Hp Hok1].
    destruct (Hf a _ _ _ H Hr1 Hok1) as [? Hd' ? ?].
    split; [done|congruence|lia|done].
  - simplify_eq. by destruct (Hm _ _ _ E1 Hr Hok).
Qed.

Lemma sticky_bind {A B} (m : Reader A) (f : A → Reader B) :
  reader_sticky m → reader_sticky (rbind m f).
Proof. intros Hm r Hok. unfold rbind. by rewrite (Hm r Hok). Qed.

Lemma sticky_fixed n : reader_sticky (Reader.fixed n).
Proof. intros r Hok. unfold Reader.fixed. by rewrite Hok. Qed.

Lemma sticky_raw n : reader_sticky (Reader.raw n).
Proof. intros r Hok. unfold Reader.raw. by rewrite Hok. Qed.

Lemma safe_require_end : reader_safe Reader.require_end.
Proof.
  intros r o r' H Hr Hok. unfold Reader.require_end in H. rewrite Hok in H. simpl in H.
  case_match; [by simplify_eq|by eapply safe_fail].
Qed.

#[export] Hint Resolve safe_ret safe_fail safe_fixed safe_raw safe_bind sticky_bind sticky_fixed
  sticky_raw safe_require_end : ccsf.

(** Splits a composite reader into the accessors it is built from. *)
Ltac reader_auto :=
  repeat first
    [ progress intros
    | apply safe_bind
    | apply sticky_bind
    | solve [auto with ccsf]
    | match goal with
      | |- reader_safe (if ?b then _ else _) => destruct b
      | |- reader_safe (match ?o with Some _ => _ | None => _ end) => destruct o
      end ].

(** Reading is memory safe on arbitrary bytes.  Each accessor of the
    byte reader, on any data and any position inside it, leaves the position inside the
    data and never moves it back, reports success exactly when the
    reader is still usable, and does nothing at all once the reader has failed. *)
Theorem reader_accessors_are_safe (max : Z) :
  (reader_safe Reader.u8 ∧ reader_safe Reader.u16 ∧ reader_safe Reader.u32 ∧
   reader_safe Reader.u64 ∧ reader_safe Reader.i64 ∧ reader_safe Reader.boolean ∧
   reader_safe (Reader.raw max) ∧ reader_safe (Reader.blob max) ∧ reader_safe (Reader.str max) ∧
   reader_safe Reader.require_end) ∧
  (reader_sticky Reader.u8 ∧ reader_sticky Reader.u16 ∧ reader_sticky Reader.u32 ∧
   reader_sticky Reader.u64 ∧ reader_sticky Reader.i64 ∧ reader_sticky Reader.boolean ∧
   reader_sticky (Reader.raw max) ∧ reader_sticky (Reader.blob max) ∧
   reader_sticky (Reader.str max)).
Proof.
  unfold Reader.i64, Reader.boolean, Reader.blob, Reader.str, Reader.u8, Reader.u16, Reader.u32,
    Reader.u64. split_and!; reader_auto.
Qed.
