(* ===== verification/Digest.v ===== *)
(** * Content digests ([digest.hpp] / [digest.cpp])

    [Digest] itself is in [Model] (32 bytes); here are its text forms and the
    incremental SHA-256 of the program, with 32-bit words as integers whose
    additions and shifts wrap.  The incremental object ([reset], [update],
    [finalize]) is related to a one-shot definition on the padded message. *)

From S2P Require Import Prelude Taxonomy Model Bytes.

Local Open Scope Z_scope.

(** ** Digest text *)

Definition is_zero (d : Digest) : bool := forallb (λ b, b =? 0) (dg_bytes d).

(** [Digest::valid]: the all-zero digest means absent. *)
Definition digest_valid (d : Digest) : bool := negb (is_zero d).

Definition kSha256Length : nat := 32.

(** [kHex[n]] for a nibble. *)
Definition hex_char (n : Z) : Ascii.ascii :=
  if n <? 10 then byte_char (48 + n) else byte_char (97 + n - 10).

Fixpoint hex_bytes (bytes : list Z) : string :=
  match bytes with
  | [] => EmptyString
  | b :: rest =>
      String (hex_char (Z.land (Z.shiftr b 4) 15))
        (String (hex_char (Z.land b 15)) (hex_bytes rest))
  end.

Definition hex (d : Digest) : string := hex_bytes (dg_bytes d).

(** The [hex_value] lambda of [Digest::from_hex]; [None] is its [-1]. *)
Definition hex_value (c : Ascii.ascii) : option Z :=
  let v := char_byte c in
  if (48 <=? v) && (v <=? 57) then Some (v - 48)
  else if (97 <=? v) && (v <=? 102) then Some (v - 97 + 10)
  else if (65 <=? v) && (v <=? 70) then Some (v - 65 + 10)
  else None.

Fixpoint parse_hex_pairs (text : string) : option (list Z) :=
  match text with
  | EmptyString => Some []
  | String h (String l rest) =>
      match hex_value h, hex_value l with
      | Some high, Some low =>
          match parse_hex_pairs rest with
          | Some bytes => Some (Z.lor (Z.shiftl high 4) low :: bytes)
          | None => None
          end
      | _, _ => None
      end
  | _ => None
  end.

Definition from_hex (text : string) : Result Digest :=
  if negb (String.length text =? kSha256Length * 2)%nat then Err EC.INVALID_ARGUMENT
  else match parse_hex_pairs text with
       | Some bytes => Ok (mkDigest bytes)
       | None => Err EC.INVALID_ARGUMENT
       end.

(** ** SHA-256 *)

Module Sha256.

Definition kRoundConstants : list Z :=
  concat [
    [0x428a2f98; 0x71374491; 0xb5c0fbcf; 0xe9b5dba5; 0x3956c25b; 0x59f111f1; 0x923f82a4];
    [0xab1c5ed5; 0xd807aa98; 0x12835b01; 0x243185be; 0x550c7dc3; 0x72be5d74; 0x80deb1fe];
    [0x9bdc06a7; 0xc19bf174; 0xe49b69c1; 0xefbe4786; 0x0fc19dc6; 0x240ca1cc; 0x2de92c6f];
    [0x4a7484aa; 0x5cb0a9dc; 0x76f988da; 0x983e5152; 0xa831c66d; 0xb00327c8; 0xbf597fc7];
    [0xc6e00bf3; 0xd5a79147; 0x06ca6351; 0x14292967; 0x27b70a85; 0x2e1b2138; 0x4d2c6dfc];
    [0x53380d13; 0x650a7354; 0x766a0abb; 0x81c2c92e; 0x92722c85; 0xa2bfe8a1; 0xa81a664b];
    [0xc24b8b70; 0xc76c51a3; 0xd192e819; 0xd6990624; 0xf40e3585; 0x106aa070; 0x19a4c116];
    [0x1e376c08; 0x2748774c; 0x34b0bcb5; 0x391c0cb3; 0x4ed8aa4a; 0x5b9cca4f; 0x682e6ff3];
    [0x748f82ee; 0x78a5636f; 0x84c87814; 0x8cc70208; 0x90befffa; 0xa4506ceb; 0xbef9a3f7];
    [0xc67178f2]
  ].

Definition kInitialState : list Z :=
  [0x6a09e667; 0xbb67ae85; 0x3c6ef372; 0xa54ff53a;
   0x510e527f; 0x9b05688c; 0x1f83d9ab; 0x5be0cd19].

Definition rotr (value shift : Z) : Z :=
  Z.lor (Z.shiftr value shift) (u32 (Z.shiftl value (32 - shift))).

Record Hasher := mkHasher {
  h_state : list Z;
  h_buffer : list Z;
  h_buffered : nat;
  h_total_bytes : Z;
  h_finalized : bool
}.

#[export] Instance Hasher_eta : Eta Hasher := λ r,
  mkHasher (h_state r) (h_buffer r) (h_buffered r) (h_total_bytes r) (h_finalized r).

(** [Sha256::reset], which the constructor runs. *)
Definition reset : Hasher := mkHasher kInitialState (replicate 64 0) 0 0 false.

Definition word_at (block : list Z) (offset : nat) : Z :=
  Z.lor (Z.lor (Z.lor
    (u32 (Z.shiftl (block !!! offset) 24))
    (Z.shiftl (block !!! (offset + 1)%nat) 16))
    (Z.shiftl (block !!! (offset + 2)%nat) 8))
    (block !!! (offset + 3)%nat).

(** One entry of the message schedule past the sixteenth; [schedule] holds the
    entries below [index]. *)
Definition schedule_word (schedule : list Z) (index : nat) : Z :=
  let w15 := schedule !!! (index - 15)%nat in
  let w2 := schedule !!! (index - 2)%nat in
  let s0 := Z.lxor (Z.lxor (rotr w15 7) (rotr w15 18)) (Z.shiftr w15 3) in
  let s1 := Z.lxor (Z.lxor (rotr w2 17) (rotr w2 19)) (Z.shiftr w2 10) in
  u32 (schedule !!! (index - 16)%nat + s0 + schedule !!! (index - 7)%nat + s1).

Definition make_schedule (block : list Z) : list Z :=
  fold_left (λ schedule index, schedule ++ [schedule_word schedule index]) (seq 16 48)
    (map (λ index, word_at block (index * 4)) (seq 0 16)).

Definition round (schedule : list Z) (w : Z * Z * Z * Z * Z * Z * Z * Z) (index : nat)
    : Z * Z * Z * Z * Z * Z * Z * Z :=
  let '(a, b, c, d, e, f, g, h) := w in
  let sigma1 := Z.lxor (Z.lxor (rotr e 6) (rotr e 11)) (rotr e 25) in
  let choose := Z.lxor (Z.land e f) (Z.land (u32 (Z.lnot e)) g) in
  let temp1 := u32 (h + sigma1 + choose + kRoundConstants !!! index + schedule !!! index) in
  let sigma0 := Z.lxor (Z.lxor (rotr a 2) (rotr a 13)) (rotr a 22) in
  let majority := Z.lxor (Z.lxor (Z.land a b) (Z.land a c)) (Z.land b c) in
  let temp2 := u32 (sigma0 + majority) in
  (u32 (temp1 + temp2), a, b, c, u32 (d + temp1), e, f, g).

Definition compress (state block : list Z) : list Z :=
  let schedule := make_schedule block in
  let s := λ i : nat, state !!! i in
  let '(a, b, c, d, e, f, g, h) :=
    fold_left (round schedule) (seq 0 64)
      (s 0%nat, s 1%nat, s 2%nat, s 3%nat, s 4%nat, s 5%nat, s 6%nat, s 7%nat) in
  [u32 (s 0%nat + a); u32 (s 1%nat + b); u32 (s 2%nat + c); u32 (s 3%nat + d);
   u32 (s 4%nat + e); u32 (s 5%nat + f); u32 (s 6%nat + g); u32 (s 7%nat + h)].

(** [memcpy(buffer + at, bytes)]. *)
Definition write_at (buffer : list Z) (at_ : nat) (bytes : list Z) : list Z :=
  take at_ buffer ++ bytes ++ drop (at_ + length bytes) buffer.

(** The [while] loop of [Sha256::update]; each turn consumes at least one byte, so
    the length of the data bounds the turns. *)
Fixpoint update_loop (fuel : nat) (h : Hasher) (data : list Z) : Hasher :=
  match fuel with
  | O => h
  | S fuel =>
      match data with
      | [] => h
      | _ =>
          let space := (64 - h_buffered h)%nat in
          let take_ := if (length data <? space)%nat then length data else space in
          let buffer := write_at (h_buffer h) (h_buffered h) (take take_ data) in
          let buffered := (h_buffered h + take_)%nat in
          let h' :=
            if (buffered =? 64)%nat
            then h <| h_buffer := buffer |> <| h_state ::= λ s, compress s buffer |>
                   <| h_buffered := 0%nat |>
            else h <| h_buffer := buffer |> <| h_buffered := buffered |> in
          update_loop fuel h' (drop take_ data)
      end
  end.

Definition update (h : Hasher) (data : list Z) : Hasher :=
  if h_finalized h then h
  else update_loop (length data)
         (h <| h_total_bytes ::= λ t, u64 (t + Z.of_nat (length data)) |>) data.

(** The buffer after the [0x80] byte and the zero fill, with the compression that
    runs when the length does not fit. *)
Definition finish_buffer (h : Hasher) : list Z * list Z :=
  let buffer := write_at (h_buffer h) (h_buffered h) [0x80] in
  let buffered := S (h_buffered h) in
  if (56 <? buffered)%nat
  then let full := write_at buffer buffered (replicate (64 - buffered) 0) in
       (compress (h_state h) full, write_at full 0 (replicate 56 0))
  else (h_state h, write_at buffer buffered (replicate (56 - buffered) 0)).

Definition state_bytes (state : list Z) : list Z := concat (map ByteWriter.u32 state).

Definition finalize (h : Hasher) : Digest * Hasher :=
  if h_finalized h then (Digest_default, h)
  else
    let bit_length := u64 (Z.shiftl (h_total_bytes h) 3) in
    let '(state, buffer) := finish_buffer h in
    let final := write_at buffer 56 (ByteWriter.u64 bit_length) in
    let state' := compress state final in
    (mkDigest (state_bytes state'),
     mkHasher state' final 0 (h_total_bytes h) true).

Definition sha256 (data : list Z) : Digest := (finalize (update reset data)).1.

End Sha256.

Example sha256_abc :
  hex (Sha256.sha256 (as_bytes "abc")) =
  "ba7816bf8f01cfea414140de5dae2223b00361a396177a9cb410ff61f20015ad".
Proof. vm_compute. reflexivity. Qed.

Example sha256_empty :
  hex (Sha256.sha256 []) =
  "e3b0c44298fc1c149afbf4c8996fb92427ae41e4649b934ca495991b7852b855".
Proof. vm_compute. reflexivity. Qed.

(** ** The one-shot reference

    FIPS 180-4: pad the message with [0x80], zeros up to 56 modulo 64 and the
    64-bit length in bits, then fold the compression over 64-byte blocks. *)
Module Reference.

Fixpoint hash_blocks (n : nat) (state data : list Z) : list Z :=
  match n with
  | O => state
  | S k => hash_blocks k (Sha256.compress state (take 64 data)) (drop 64 data)
  end.

Definition absorb (state data : list Z) : list Z := hash_blocks (length data / 64) state data.

Definition zero_fill (n : nat) : nat := ((119 - n mod 64) mod 64)%nat.

Definition pad (message : list Z) : list Z :=
  message ++ [0x80] ++ replicate (zero_fill (length message)) 0 ++
  ByteWriter.u64 (u64 (Z.of_nat (length message) * 8)).

Definition sha256 (message : list Z) : Digest :=
  mkDigest (Sha256.state_bytes (absorb Sha256.kInitialState (pad message))).

End Reference.

Section streaming.
Import Sha256 Reference.

Lemma hash_blocks_app n k state a b :
  length a = (64 * n)%nat → hash_blocks (n + k) state (a ++ b) = hash_blocks k (hash_blocks n state a) b.
Proof.
  revert state a. induction n as [|n IH]; intros state a Ha; simpl.
  { destruct a; [done|simpl in Ha; lia]. }
  rewrite take_app_le, drop_app_le by lia. apply IH. rewrite length_drop. lia.
Qed.

(** Absorbing whole blocks first and the rest later is absorbing everything. *)
Lemma absorb_app n state a b :
  length a = (64 * n)%nat → absorb state (a ++ b) = absorb (absorb state a) b.
Proof.
  intros Ha. unfold absorb. rewrite length_app, Ha.
  replace (64 * n / 64)%nat with n by (rewrite Nat.mul_comm, Nat.div_mul; lia).
  rewrite (Nat.mul_comm 64 n), Nat.div_add_l by lia. by apply hash_blocks_app.
Qed.

Lemma absorb_block state block :
  length block = 64%nat → absorb state block = compress state block.
Proof.
  intros Hl. unfold absorb. rewrite Hl. change (64 / 64)%nat with 1%nat. simpl.
  by rewrite take_ge by lia.
Qed.

(** [rep_parts h message full rest]: the hasher has been fed [message], whose
    full blocks are in the state and whose remainder is a prefix of the buffer. *)
Record rep_parts (h : Hasher) (message full rest : list Z) : Prop := {
  rep_split : message = full ++ rest;
  rep_aligned : ∃ n, length full = (64 * n)%nat;
  rep_short : (length rest < 64)%nat;
  rep_state : h_state h = absorb kInitialState full;
  rep_buffer : ∃ tail, h_buffer h = rest ++ tail ∧ (length rest + length tail = 64)%nat;
  rep_buffered : h_buffered h = length rest;
  rep_live : h_finalized h = false
}.

Definition represents (h : Hasher) (message : list Z) : Prop :=
  ∃ full rest, rep_parts h message full rest.

Lemma represents_reset : represents reset [].
Proof.
  exists [], []. split; try done; [by exists 0%nat|simpl; lia|].
  by exists (replicate 64 0).
Qed.

Lemma write_at_tail rest tail bytes :
  write_at (rest ++ tail) (length rest) bytes = rest ++ bytes ++ drop (length bytes) tail.
Proof.
  unfold write_at. rewrite take_app_length, drop_app_ge by lia. do 3 f_equal. lia.
Qed.

(** Filling the buffer completes a block. *)
Lemma represents_full h message chunk tail full rest buffer :
  rep_parts h message full rest → h_buffer h = rest ++ tail →
  buffer = rest ++ chunk ++ drop (length chunk) tail →
  (length rest + length chunk = 64)%nat →
  (length rest + length tail = 64)%nat →
  represents (h <| h_buffer := buffer |> <| h_state ::= λ s, compress s buffer |>
                <| h_buffered := 0%nat |>) (message ++ chunk).
Proof.
  intros [Hsplit [n Hn] Hshort Hst _ _ Hlive] Hb -> H64 Ht.
  exists (message ++ chunk), []. split; simpl; try done.
  - by rewrite app_nil_r.
  - exists (S n). rewrite Hsplit, !length_app. lia.
  - lia.
  - rewrite Hst, Hsplit, <-(assoc_L (++)), (absorb_app n) by done.
    rewrite (drop_ge tail), app_nil_r by lia.
    rewrite (absorb_block _ (rest ++ chunk)); [done|]. rewrite length_app. lia.
  - eexists. split; [reflexivity|]. rewrite !length_app, length_drop. lia.
Qed.

(** A shorter chunk extends the remainder. *)
Lemma represents_partial h message chunk tail full rest buffer :
  rep_parts h message full rest → h_buffer h = rest ++ tail →
  buffer = rest ++ chunk ++ drop (length chunk) tail →
  (length rest + length chunk < 64)%nat →
  (length rest + length tail = 64)%nat →
  represents (h <| h_buffer := buffer |>
                <| h_buffered := (length rest + length chunk)%nat |>) (message ++ chunk).
Proof.
  intros [Hsplit [n Hn] Hshort Hst _ _ Hlive] Hb -> H64 Ht.
  exists full, (rest ++ chunk). split; simpl; try done.
  - by rewrite Hsplit, (assoc_L (++)).
  - by exists n.
  - rewrite length_app. lia.
  - exists (drop (length chunk) tail).
    rewrite (assoc_L (++)), length_app, length_drop. split; [done|lia].
  - by rewrite length_app.
Qed.

(** The loop of [update] feeds every byte of its input, within its fuel. *)
Lemma update_loop_represents fuel h message data :
  represents h message → (length data ≤ fuel)%nat →
  represents (update_loop fuel h data) (message ++ data) ∧
  h_total_bytes (update_loop fuel h data) = h_total_bytes h.
Proof.
  revert h message data. induction fuel as [|fuel IH]; intros h message data Hr Hf.
  { destruct data; [|simpl in Hf; lia]. by rewrite app_nil_r. }
  destruct data as [|b data]; [by rewrite app_nil_r|].
  assert (0 < length (b :: data))%nat by (simpl; lia).
  cbn [update_loop]. set (bytes := b :: data) in *. clearbody bytes.
  destruct Hr as (full&rest&Hr). pose proof Hr as [_ _ Hshort _ (tail&Hbuf&Htail) Hbd _].
  rewrite Hbd. set (k := if (length bytes <? _)%nat then _ else _).
  assert (Hk : (0 < k ≤ length bytes ∧ k ≤ 64 - length rest)%nat).
  { unfold k. destruct (Nat.ltb_spec (length bytes) (64 - length rest)); lia. }
  clearbody k. assert (length (take k bytes) = k) as Hlk by (rewrite length_take; lia).
  assert (message ++ bytes = (message ++ take k bytes) ++ drop k bytes) as ->
    by by rewrite <-(assoc_L (++)), take_drop.
  assert (write_at (h_buffer h) (length rest) (take k bytes) =
    rest ++ take k bytes ++ drop (length (take k bytes)) tail) as Hw
    by by rewrite Hbuf, write_at_tail.
  assert (length (drop k bytes) ≤ fuel)%nat by (rewrite length_drop; lia).
  destruct (Nat.eqb_spec (length rest + k) 64) as [H64|H64].
  - edestruct IH as [H1 H2]; [|done|split; [exact H1|exact H2]].
    eapply represents_full; eauto; lia.
  - replace (length rest + k)%nat with (length rest + length (take k bytes))%nat by lia.
    edestruct IH as [H1 H2]; [|done|split; [exact H1|exact H2]].
    eapply represents_partial; eauto; lia.
Qed.

Lemma update_represents h message data :
  represents h message →
  represents (update h data) (message ++ data) ∧
  h_total_bytes (update h data) = u64 (h_total_bytes h + Z.of_nat (length data)).
Proof.
  intros (full&rest&Hr). pose proof (rep_live _ _ _ _ Hr) as Hlive. unfold update. rewrite Hlive.
  destruct (update_loop_represents (length data)
    (h <| h_total_bytes ::= λ t, u64 (t + Z.of_nat (length data)) |>) message data)
    as [H1 H2]; [|done|by split].
  exists full, rest. by destruct Hr.
Qed.

(** Feeding chunks one after the other is feeding their concatenation. *)
Lemma updates_represent chunks h message :
  represents h message → h_total_bytes h = u64 (Z.of_nat (length message)) →
  represents (fold_left update chunks h) (message ++ concat chunks) ∧
  h_total_bytes (fold_left update chunks h) =
    u64 (Z.of_nat (length (message ++ concat chunks))).
Proof.
  revert h message. induction chunks as [|c chunks IH]; intros h message Hr Ht; simpl.
  { by rewrite app_nil_r. }
  destruct (update_represents h message c Hr) as [Hr' Ht'].
  rewrite (assoc_L (++)). apply IH; [done|].
  rewrite Ht', Ht, length_app, Nat2Z.inj_add. unfold u64. by rewrite Zplus_mod_idemp_l.
Qed.

Lemma zero_fill_rest (full rest : list Z) n :
  length full = (64 * n)%nat → (length rest < 64)%nat →
  zero_fill (length (full ++ rest)) =
    (if (56 <? S (length rest))%nat then 119 - length rest else 55 - length rest)%nat.
Proof.
  intros Hn Hs. unfold zero_fill.
  replace (length (full ++ rest) mod 64)%nat with (length rest).
  2: { rewrite length_app, Hn, Nat.add_comm, Nat.mul_comm, Nat.Div0.mod_add.
       by rewrite Nat.mod_small. }
  destruct (Nat.ltb_spec 56 (S (length rest))).
  - apply Nat.mod_small. lia.
  - replace (119 - length rest)%nat with (55 - length rest + 1 * 64)%nat by lia.
    rewrite Nat.Div0.mod_add. apply Nat.mod_small. lia.
Qed.

(** Overwriting the buffer from a position on keeps what is before it. *)
Lemma write_at_prefix a tail at_ bytes :
  at_ = length a → write_at (a ++ tail) at_ bytes = (a ++ bytes) ++ drop (length bytes) tail.
Proof. intros ->. by rewrite write_at_tail, (assoc_L (++)). Qed.

Lemma write_at_all a tail at_ bytes :
  at_ = length a → length bytes = length tail → write_at (a ++ tail) at_ bytes = a ++ bytes.
Proof. intros. rewrite write_at_prefix, drop_ge by (done || lia). apply app_nil_r. Qed.

(** The padding of [finalize] is the padding of the reference. *)
Lemma finish_buffer_pad h message full rest len :
  rep_parts h message full rest → length len = 8%nat →
  compress (finish_buffer h).1 (write_at (finish_buffer h).2 56 len) =
  absorb kInitialState (message ++ [0x80] ++ replicate (zero_fill (length message)) 0 ++ len).
Proof.
  intros [Hsplit [n Hn] Hshort Hst (tail&Hbuf&Htail) Hbd _] Hlen.
  unfold finish_buffer. rewrite Hbd, Hbuf, Hst, write_at_prefix by done.
  rewrite Hsplit, (zero_fill_rest full rest n), <-(assoc_L (++) full rest), (absorb_app n _ full) by done.
  set (tail1 := drop (length [128]) tail).
  assert (length tail1 = 63 - length rest)%nat as Ht1
    by (unfold tail1; rewrite length_drop; simpl; lia).
  assert (length (rest ++ [128]) = S (length rest)) as Hl1 by (rewrite length_app; simpl; lia).
  destruct (Nat.ltb_spec 56 (S (length rest))) as [H56|H56]; cbn [fst snd].
  - rewrite (write_at_all (rest ++ [128])) by (rewrite ?length_replicate; lia).
    set (block := (rest ++ [128]) ++ replicate (64 - S (length rest)) 0).
    assert (length block = 64)%nat as Hb
      by (unfold block; rewrite length_app, length_replicate; lia).
    replace (119 - length rest)%nat with (64 - S (length rest) + 56)%nat by lia.
    rewrite replicate_add. rewrite <-(assoc_L (++)), !(assoc_L (++) rest).
    rewrite (assoc_L (++) (rest ++ [128])). fold block.
    rewrite (absorb_app 1 _ block), (absorb_block _ block) by done.
    change (write_at block 0 (replicate 56 0)) with (replicate 56 0 ++ drop 56 block).
    rewrite (write_at_all (replicate 56 0)) by (rewrite ?length_replicate, ?length_drop; lia).
    rewrite (absorb_block _ (_ ++ len)); [done|]. rewrite length_app, length_replicate. lia.
  - rewrite (write_at_prefix (rest ++ [128])) by lia. rewrite length_replicate.
    rewrite write_at_all
      by (rewrite ?length_drop, ?length_app, ?length_replicate; simpl; lia).
    replace (56 - S (length rest))%nat with (55 - length rest)%nat by lia.
    rewrite (absorb_block _ (rest ++ _)); [by rewrite <-!(assoc_L (++))|].
    rewrite !length_app, length_replicate. simpl. lia.
Qed.

Lemma finalize_represents h message :
  represents h message → h_total_bytes h = u64 (Z.of_nat (length message)) →
  (finalize h).1 = Reference.sha256 message.
Proof.
  intros (full&rest&Hr) Ht. pose proof (rep_live _ _ _ _ Hr) as Hlive.
  unfold finalize. rewrite Hlive, Ht, Z.shiftl_mul_pow2 by lia.
  unfold u64 at 1 2. rewrite Zmult_mod_idemp_l. fold (u64 (Z.of_nat (length message) * 2 ^ 3)).
  pose proof (finish_buffer_pad h message full rest
    (ByteWriter.u64 (u64 (Z.of_nat (length message) * 2 ^ 3))) Hr eq_refl) as Hf.
  destruct (finish_buffer h) as [state buffer]. simpl in Hf |- *. by rewrite Hf.
Qed.
End streaming.

(** [hex] and [from_hex] *)

Lemma hex_value_hex_char n : 0 ≤ n < 16 → hex_value (hex_char n) = Some n.
Proof.
  intros Hn. assert (∃ k : nat, n = Z.of_nat k ∧ (k < 16)%nat) as (k&->&Hk).
  { exists (Z.to_nat n). lia. }
  do 16 (destruct k as [|k]; [vm_compute; reflexivity|]). lia.
Qed.

Lemma nibbles b : is_byte b → Z.lor (Z.shiftl (Z.land (Z.shiftr b 4) 15) 4) (Z.land b 15) = b.
Proof.
  intros Hb. apply Z.bits_inj'. intros i Hi. change 15 with (Z.ones 4).
  rewrite Z.lor_spec, Z.land_spec. destruct (decide (i < 4)).
  - rewrite Z.shiftl_spec_low, Z.ones_spec_low by lia. by rewrite andb_true_r.
  - rewrite Z.shiftl_spec, Z.land_spec, Z.shiftr_spec by lia.
    rewrite (Z.ones_spec_high 4 i), andb_false_r, orb_false_r by lia.
    replace (i - 4 + 4) with i by lia. destruct (decide (i < 8)).
    + rewrite Z.ones_spec_low by lia. apply andb_true_r.
    + rewrite Z.ones_spec_high, andb_false_r by lia. unfold is_byte in Hb.
      symmetry. destruct (decide (b = 0)) as [->|]; [apply Z.bits_0|].
      apply Z.bits_above_log2; [lia|]. apply Z.log2_lt_pow2; [lia|].
      apply Z.lt_le_trans with (2 ^ 8); [lia|]. apply Z.pow_le_mono_r; lia.
Qed.

Lemma land_15_range a : 0 ≤ Z.land a 15 < 16.
Proof.
  change 15 with (Z.ones 4). rewrite Z.land_ones by lia. apply Z.mod_pos_bound. lia.
Qed.

Lemma parse_hex_bytes bytes :
  Forall is_byte bytes → parse_hex_pairs (hex_bytes bytes) = Some bytes.
Proof.
  induction 1 as [|b bytes Hb _ IH]; [done|]. cbn [hex_bytes parse_hex_pairs].
  by rewrite !hex_value_hex_char, IH, nibbles by apply land_15_range || done.
Qed.

Lemma length_hex_bytes bytes : String.length (hex_bytes bytes) = (length bytes * 2)%nat.
Proof. induction bytes; simpl; congruence. Qed.

(** A digest value: 32 bytes. *)
Definition digest_wf (d : Digest) : Prop :=
  length (dg_bytes d) = kSha256Length ∧ Forall is_byte (dg_bytes d).

Lemma from_hex_hex d : digest_wf d → from_hex (hex d) = Ok d.
Proof.
  intros [Hl Hb]. unfold from_hex, hex. rewrite length_hex_bytes, Hl. simpl.
  rewrite parse_hex_bytes by done. by destruct d.
Qed.

(** ** The state of a hasher *)

(** The hasher has seen exactly the bytes. *)
Definition hashes (h : Sha256.Hasher) (bytes : list Z) : Prop :=
  represents h bytes ∧ Sha256.h_total_bytes h = u64 (Z.of_nat (length bytes)).

Lemma hashes_reset : hashes Sha256.reset [].
Proof. by split; [apply represents_reset|]. Qed.

Lemma hashes_update h bytes chunk : hashes h bytes → hashes (Sha256.update h chunk) (bytes ++ chunk).
Proof.
  intros [Hr Ht]. destruct (updates_represent [chunk] h bytes Hr Ht) as [Hr' Ht'].
  cbn [fold_left concat] in *. rewrite app_nil_r in *. by split.
Qed.

Lemma hashes_finalize h bytes : hashes h bytes → (Sha256.finalize h).1 = Reference.sha256 bytes.
Proof. intros [Hr Ht]. by apply finalize_represents. Qed.

Lemma sha256_reference bytes : Sha256.sha256 bytes = Reference.sha256 bytes.
Proof. apply hashes_finalize. exact (hashes_update _ [] bytes hashes_reset). Qed.

(** ** A digest is 32 bytes *)

Lemma length_compress state block : length (Sha256.compress state block) = 8%nat.
Proof.
  unfold Sha256.compress. destruct (fold_left _ _ _) as [[[[[[[a b] c] d] e] f] g] h]. done.
Qed.

Lemma length_hash_blocks n state data :
  length state = 8%nat → length (Reference.hash_blocks n state data) = 8%nat.
Proof.
  revert state data. induction n as [|n IH]; intros state data Hs; cbn [Reference.hash_blocks]; [done|].
  apply IH, length_compress.
Qed.

Lemma state_bytes_wf state :
  length (Sha256.state_bytes state) = (4 * length state)%nat ∧
  Forall is_byte (Sha256.state_bytes state).
Proof.
  unfold Sha256.state_bytes. induction state as [|w state [Hl Hb]]; [by split; [|constructor]|].
  cbn [map concat]. rewrite length_app, Hl. split; [cbn; lia|].
  apply Forall_app. split; [|done]. repeat constructor; apply byte_at_range; lia.
Qed.

Lemma sha256_digest_wf bytes : digest_wf (Reference.sha256 bytes).
Proof.
  unfold Reference.sha256, digest_wf. cbn [dg_bytes].
  pose proof (length_hash_blocks (length (Reference.pad bytes) / 64) Sha256.kInitialState
    (Reference.pad bytes) eq_refl) as Hl.
  fold (Reference.absorb Sha256.kInitialState (Reference.pad bytes)) in Hl. revert Hl.
  generalize (Reference.absorb Sha256.kInitialState (Reference.pad bytes)). intros state Hl.
  destruct (state_bytes_wf state) as [-> Hb]. by rewrite Hl.
Qed.

Lemma hex_injective d d' : digest_wf d → digest_wf d' → hex d = hex d' → d = d'.
Proof. intros Hd Hd' E. apply from_hex_hex in Hd, Hd'. rewrite E in Hd. congruence. Qed.

(** C36: the streaming hasher computes SHA-256.  However the message is cut into
    chunks, feeding them to [update] and calling [finalize] gives the digest of the
    padded message processed block by block. *)
Theorem streaming_hash_is_sha256 (chunks : list (list Z)) :
  (Sha256.finalize (fold_left Sha256.update chunks Sha256.reset)).1 =
  Reference.sha256 (concat chunks).
Proof.
  destruct (updates_represent chunks Sha256.reset [] represents_reset eq_refl) as [Hr Ht].
  by apply finalize_represents.
Qed.

(** A digest printed in hexadecimal reads back as itself. *)
Theorem digest_hex_round_trip (d : Digest) : digest_wf d → from_hex (hex d) = Ok d.
Proof. apply from_hex_hex. Qed.

Lemma digest_hex_round_trip_witness :
  from_hex (hex (mkDigest (repeat 0xAB 32))) = Ok (mkDigest (repeat 0xAB 32)).
Proof.
  apply (digest_hex_round_trip (mkDigest (repeat 0xAB 32))).
  split; [reflexivity|]. repeat constructor; unfold is_byte; lia.
Defined.
