(* ===== verification/Crc.v ===== *)
(** * CRC-32C ([crc32c.hpp] / [crc32c.cpp])

    The table-driven checksum that guards every journal record, snapshot and frame,
    and its equivalence with the bit-at-a-time division by the Castagnoli
    polynomial. *)

From S2P Require Import Prelude Bytes.

Local Open Scope Z_scope.

Module Crc32c.

Definition kPolynomial : Z := 0x82F63B78.

(** The body of the inner loop of [make_table]. *)
Definition reduce_bit (value : Z) : Z :=
  if negb (Z.land value 1 =? 0) then Z.lxor (Z.shiftr value 1) kPolynomial else Z.shiftr value 1.

Definition reduce_byte (value : Z) : Z := Nat.iter 8 reduce_bit value.

Definition make_table : list Z := map (λ index, reduce_byte (Z.of_nat index)) (seq 0 256).

Definition kTable : list Z := Eval vm_compute in make_table.

Definition kInitial : Z := 0xFFFFFFFF.

Definition crc_step (crc raw : Z) : Z :=
  let index := Z.land (Z.lxor crc raw) 255 in
  Z.lxor (kTable !!! Z.to_nat index) (Z.shiftr crc 8).

Definition crc32c_extend (previous : Z) (data : list Z) : Z :=
  Z.lxor (fold_left crc_step data (Z.lxor previous kInitial)) kInitial.

Definition crc32c (data : list Z) : Z := crc32c_extend 0 data.

(** Bit-at-a-time reference: divide the message by the polynomial. *)
Definition reference (data : list Z) : Z :=
  Z.lxor (fold_left (λ crc raw, reduce_byte (Z.lxor crc raw)) data kInitial) kInitial.

End Crc32c.

Import Crc32c.

Example crc32c_check : crc32c (as_bytes "123456789") = 0xE3069283.
Proof. vm_compute. reflexivity. Qed.

Lemma reduce_bit_alt v :
  reduce_bit v = Z.lxor (Z.shiftr v 1) (if Z.testbit v 0 then kPolynomial else 0).
Proof.
  unfold reduce_bit. change 1 with (Z.ones 1) at 1. rewrite Z.land_ones by lia.
  change (2 ^ 1) with 2. rewrite Zmod_odd, <-Z.bit0_odd.
  destruct (Z.testbit v 0); simpl; [done|]. by rewrite Z.lxor_0_r.
Qed.

(** Division by the polynomial is linear over exclusive or. *)
Lemma reduce_bit_lxor a b : reduce_bit (Z.lxor a b) = Z.lxor (reduce_bit a) (reduce_bit b).
Proof.
  rewrite !reduce_bit_alt, Z.shiftr_lxor, Z.lxor_spec.
  rewrite !Z.lxor_assoc. f_equal.
  rewrite <-!Z.lxor_assoc, (Z.lxor_comm _ (Z.shiftr b 1)), !Z.lxor_assoc. f_equal.
  by destruct (Z.testbit a 0), (Z.testbit b 0); vm_compute.
Qed.

Lemma reduce_byte_lxor a b : reduce_byte (Z.lxor a b) = Z.lxor (reduce_byte a) (reduce_byte b).
Proof.
  unfold reduce_byte. generalize 8%nat. intros k. induction k as [|n IH]; [done|].
  by rewrite !Nat.iter_succ, IH, reduce_bit_lxor.
Qed.

Lemma iter_reduce_shiftl n hi :
  Nat.iter n reduce_bit (Z.shiftl hi (Z.of_nat n)) = hi.
Proof.
  revert hi. induction n as [|n IH]; intros hi; [by rewrite Z.shiftl_0_r|].
  rewrite Nat.iter_succ_r, reduce_bit_alt, Z.shiftl_spec_low by lia.
  rewrite Z.lxor_0_r, Z.shiftr_shiftl_l by lia.
  replace (Z.of_nat (S n) - 1) with (Z.of_nat n) by lia. apply IH.
Qed.

Lemma split_low_byte v : v = Z.lxor (Z.land v 255) (Z.shiftl (Z.shiftr v 8) 8).
Proof.
  apply Z.bits_inj'. intros i Hi. change 255 with (Z.ones 8).
  rewrite Z.lxor_spec, Z.land_spec. destruct (decide (i < 8)).
  - rewrite Z.shiftl_spec_low, Z.ones_spec_low by lia. by rewrite andb_true_r, xorb_false_r.
  - rewrite Z.ones_spec_high, Z.shiftl_spec, Z.shiftr_spec by lia.
    rewrite andb_false_r, xorb_false_l. f_equal. lia.
Qed.

Lemma kTable_lookup i : 0 ≤ i < 256 → kTable !!! Z.to_nat i = reduce_byte i.
Proof.
  intros Hi. change kTable with make_table. unfold make_table.
  apply list_lookup_total_correct.
  rewrite list_lookup_fmap, lookup_seq_lt by lia. simpl. f_equal. f_equal. lia.
Qed.

Lemma shiftr_byte b : is_byte b → Z.shiftr b 8 = 0.
Proof. intros. rewrite Z.shiftr_div_pow2 by lia. apply Z.div_small. done. Qed.

Lemma crc_step_reduce crc raw : is_byte raw → crc_step crc raw = reduce_byte (Z.lxor crc raw).
Proof.
  intros Hb. unfold crc_step. set (v := Z.lxor crc raw).
  assert (Z.shiftr crc 8 = Z.shiftr v 8) as ->.
  { unfold v. by rewrite Z.shiftr_lxor, (shiftr_byte raw), Z.lxor_0_r. }
  rewrite kTable_lookup.
  2: { change 255 with (Z.ones 8). rewrite Z.land_ones by lia. apply Z.mod_pos_bound. lia. }
  rewrite (split_low_byte v) at 3. rewrite reduce_byte_lxor. f_equal.
  symmetry. exact (iter_reduce_shiftl 8 _).
Qed.

Lemma fold_crc_step data crc :
  Forall is_byte data →
  fold_left crc_step data crc = fold_left (λ crc raw, reduce_byte (Z.lxor crc raw)) data crc.
Proof.
  intros Hd. revert crc. induction Hd as [|b data Hb _ IH]; intros crc; [done|]. simpl.
  by rewrite crc_step_reduce, IH.
Qed.

Lemma crc32c_extend_app previous a b :
  crc32c_extend (crc32c_extend previous a) b = crc32c_extend previous (a ++ b).
Proof.
  unfold crc32c_extend. rewrite fold_left_app. do 2 f_equal.
  by rewrite Z.lxor_assoc, Z.lxor_nilpotent, Z.lxor_0_r.
Qed.

(** A checksum is a 32-bit word whatever the data. *)
Lemma lxor_range n a b : 0 ≤ n → 0 ≤ a < 2 ^ n → 0 ≤ b < 2 ^ n → 0 ≤ Z.lxor a b < 2 ^ n.
Proof.
  intros Hn Ha Hb. assert (0 ≤ Z.lxor a b) as H0 by (apply Z.lxor_nonneg; lia).
  split; [done|]. destruct (decide (Z.lxor a b = 0)) as [->|]; [lia|].
  apply Z.log2_lt_pow2; [lia|]. pose proof (Z.log2_lxor a b ltac:(lia) ltac:(lia)) as Hl.
  destruct (decide (n = 0)) as [->|].
  { assert (a = 0) as -> by (simpl in *; lia). assert (b = 0) as -> by (simpl in *; lia). done. }
  assert (∀ v, 0 ≤ v < 2 ^ n → Z.log2 v < n) as Hv.
  { intros v Hv. destruct (decide (v = 0)) as [->|]; [simpl; lia|]. apply Z.log2_lt_pow2; lia. }
  pose proof (Hv a Ha). pose proof (Hv b Hb). lia.
Qed.

Lemma crc_step_range crc raw : 0 ≤ crc < 2 ^ 32 → 0 ≤ crc_step crc raw < 2 ^ 32.
Proof.
  intros Hc. unfold crc_step. apply lxor_range; [lia| |].
  - assert (Forall (λ v, 0 ≤ v < 2 ^ 32) kTable) as Hf.
    { apply list.Forall_forall. intros v Hv.
      assert (forallb (λ v, (0 <=? v) && (v <? 2 ^ 32)) kTable = true) as Hb by (vm_compute; done).
      rewrite forallb_forall in Hb. apply list_elem_of_In, Hb, andb_true_iff in Hv as [? ?].
      apply Z.leb_le in H. apply Z.ltb_lt in H0. lia. }
    set (i := Z.to_nat _). destruct (kTable !! i) as [v|] eqn:E.
    + rewrite (list_lookup_total_correct _ _ _ E). exact (Forall_lookup_1 _ _ _ _ Hf E).
    + rewrite list_lookup_total_alt, E. simpl. lia.
  - rewrite Z.shiftr_div_pow2 by lia. split; [apply Z.div_pos; lia|].
    apply Z.le_lt_trans with crc; [|lia]. apply Z.div_le_upper_bound; lia.
Qed.

Lemma crc32c_range data : 0 ≤ crc32c data < 2 ^ 32.
Proof.
  unfold crc32c, crc32c_extend. apply lxor_range; [lia| |unfold kInitial; lia].
  assert (0 ≤ Z.lxor 0 kInitial < 2 ^ 32) as H by (vm_compute; split; [discriminate|done]).
  revert H. generalize (Z.lxor 0 kInitial). induction data as [|b data IH]; intros c Hc; simpl; [done|].
  apply IH, crc_step_range, Hc.
Qed.

(** C37: the table-driven checksum is the polynomial division.  On any bytes the
    checksum equals the bit-at-a-time remainder, and extending the checksum of a
    prefix by the rest gives the checksum of the whole. *)
Theorem table_checksum_is_division (a b : list Z) :
  Forall is_byte a → Forall is_byte b →
  crc32c (a ++ b) = reference (a ++ b) ∧ crc32c_extend (crc32c a) b = reference (a ++ b).
Proof.
  intros Ha Hb. unfold crc32c. rewrite crc32c_extend_app.
  assert (crc32c_extend 0 (a ++ b) = reference (a ++ b)) as ->; [|done].
  unfold crc32c_extend, reference. rewrite Z.lxor_0_l, fold_crc_step; [done|]. by apply Forall_app.
Qed.

Lemma table_checksum_is_division_witness :
  crc32c_extend (crc32c (as_bytes "1234")) (as_bytes "56789") =
  reference (as_bytes "1234" ++ as_bytes "56789").
Proof.
  apply (table_checksum_is_division (as_bytes "1234") (as_bytes "56789")); apply as_bytes_are_bytes.
Defined.
