(* ===== verification/Cost.v ===== *)
(** * Costs, sizes and expected reuse ([cost.hpp] / [cost.cpp])

    Integer economics with explicit provenance.  Signed 64-bit products wrap
    ([Prelude.i64]), which is the behaviour the overflow guards of the source rely
    on; divisions truncate towards zero ([Z.quot]). *)

From S2P Require Import Prelude Taxonomy Model.

Local Open Scope Z_scope.

(** ** Definitions *)

(** [CostValue::known] and its named constructors. *)
Definition cost_known (c : CostValue) : bool := bool_decide (cv_source c ≠ CS.UNKNOWN).
Definition cost_unknown : CostValue := mkCostValue CS.UNKNOWN 0.
Definition cost_from_policy (micro_units : Z) : CostValue := mkCostValue CS.POLICY micro_units.
Definition cost_measured (micro_units : Z) : CostValue := mkCostValue CS.MEASURED micro_units.

Definition size_known (s : SizeValue) : bool := sz_present s.
Definition size_of (bytes : Z) : SizeValue := mkSizeValue true bytes.

Definition reuse_known (r : ReuseValue) : bool := bool_decide (rv_source r ≠ CS.UNKNOWN).

Definition source_rank (source : CostSource) : Z :=
  match source with
  | CS.UNKNOWN => 0 | CS.ESTIMATED => 1 | CS.POLICY => 2 | CS.MEASURED => 3
  end.

Definition saturating_add (a b : Z) : Z :=
  if (b >? 0) && (a >? i64_max - b) then i64_max
  else if (b <? 0) && (a <? i64_min - b) then i64_min
  else a + b.

Definition saturating_mul (a b : Z) : Z :=
  if (a =? 0) || (b =? 0) then 0
  else if (a =? -1) && (b =? i64_min) then i64_max
  else if (b =? -1) && (a =? i64_min) then i64_max
  else
    let product := i64 (a * b) in
    if negb (Z.quot product b =? a)
    then (if eqb (a >? 0) (b >? 0) then i64_max else i64_min)
    else product.

Definition kMicroUnitsPerUnit : Z := 1000000.

Fixpoint zeros (n : nat) : string :=
  match n with O => "" | S k => ("0" ++ zeros k)%string end.

(** [describe(const CostValue&, unit_label)] *)
Definition describe_cost_in (value : CostValue) (unit_label : string) : string :=
  if negb (cost_known value) then ("UNKNOWN " ++ unit_label)%string
  else
    let negative := cv_micro_units value <? 0 in
    let magnitude :=
      if negative then u64 (u64 (- (cv_micro_units value + 1)) + 1) else cv_micro_units value in
    let whole := magnitude / kMicroUnitsPerUnit in
    let fraction := magnitude mod kMicroUnitsPerUnit in
    let digits := to_string_u64 fraction in
    (to_string (cv_source value) ++ " " ++ (if negative then "-" else "") ++
     to_string_u64 whole ++ "." ++ zeros (6 - String.length digits) ++ digits ++ " " ++
     unit_label)%string.

Definition describe_cost (value : CostValue) : string := describe_cost_in value "units".

Definition cost_add (a b : CostValue) : CostValue :=
  if negb (cost_known a) || negb (cost_known b) then cost_unknown
  else
    let combined :=
      if source_rank (cv_source a) <=? source_rank (cv_source b) then cv_source a else cv_source b in
    mkCostValue combined (saturating_add (cv_micro_units a) (cv_micro_units b)).

Definition cost_sum (a b : CostValue) : CostValue :=
  let present_a := cost_known a || negb (cv_micro_units a =? 0) in
  let present_b := cost_known b || negb (cv_micro_units b =? 0) in
  if negb present_a then b
  else if negb present_b then a
  else cost_add a b.

Definition cost_scale (value : CostValue) (numerator denominator : Z) : CostValue :=
  if negb (cost_known value) then cost_unknown
  else if denominator =? 0 then cost_unknown
  else if numerator =? 0 then mkCostValue (cv_source value) 0
  else
    let limit := i64_max in
    let magnitude :=
      u64 (if cv_micro_units value <? 0 then i64 (- cv_micro_units value) else cv_micro_units value) in
    if magnitude >? limit / numerator then cost_unknown
    else
      let scaled := i64 (cv_micro_units value * i64 numerator) in
      mkCostValue (cv_source value) (Z.quot scaled (i64 denominator)).

Definition cost_compare (a b : CostValue) : Z :=
  if negb (cost_known a) && negb (cost_known b) then 0
  else if negb (cost_known a) then 1
  else if negb (cost_known b) then -1
  else if cv_micro_units a <? cv_micro_units b then -1
  else if cv_micro_units a >? cv_micro_units b then 1
  else
    let rank_a := source_rank (cv_source a) in
    let rank_b := source_rank (cv_source b) in
    if rank_a =? rank_b then 0 else if rank_a >? rank_b then -1 else 1.

Definition describe_size (value : SizeValue) : string :=
  if negb (size_known value) then "UNKNOWN bytes"
  else (to_string_u64 (sz_bytes value) ++ " bytes")%string.

Definition expected_value_milli (r : ReuseValue) : Z :=
  let count := rv_expected_reuse_count r in
  let probability := rv_probability_per_mille r in
  if negb (count =? 0) && negb (probability =? 0) && (count >? u64_max / probability)
  then u64_max
  else u64 (count * probability).

Definition describe_reuse (value : ReuseValue) : string :=
  if negb (reuse_known value) then "UNKNOWN expected reuse"
  else
    let whole := rv_probability_per_mille value / 10 in
    let fraction := rv_probability_per_mille value mod 10 in
    (to_string (rv_source value) ++ " expected reuse " ++
     to_string_u64 (rv_expected_reuse_count value) ++ " at " ++ to_string_u64 whole ++ "." ++
     to_string_u64 fraction ++ " probability")%string.

(** ** Saturation

    The reference: the exact integer result, clamped to the 64-bit range. *)
Definition clamp_i64 (z : Z) : Z := Z.max i64_min (Z.min i64_max z).

Definition is_i64 (z : Z) : Prop := i64_min ≤ z ≤ i64_max.

Lemma saturating_add_clamp a b :
  is_i64 a → is_i64 b → saturating_add a b = clamp_i64 (a + b).
Proof.
  unfold saturating_add, clamp_i64, is_i64, i64_min, i64_max. intros Ha Hb.
  destruct (Z.gtb_spec b 0), (Z.ltb_spec b 0); simpl; try lia;
    repeat case_match; lia.
Qed.

Lemma i64_range z : is_i64 (i64 z).
Proof.
  unfold is_i64, i64, i64_min, i64_max.
  pose proof (Z.mod_pos_bound (z + 2 ^ 63) (2 ^ 64) ltac:(lia)). lia.
Qed.

Lemma i64_congruent z : ∃ k, i64 z = z + k * 2 ^ 64.
Proof.
  unfold i64. pose proof (Z_div_mod_eq_full (z + 2 ^ 63) (2 ^ 64)).
  exists (- ((z + 2 ^ 63) / 2 ^ 64)). lia.
Qed.

(** Dividing the wrapped product back reveals an overflow. *)
Lemma wrapped_product_divides a b :
  is_i64 a → is_i64 b → b ≠ 0 → Z.quot (i64 (a * b)) b = a → i64 (a * b) = a * b.
Proof.
  intros Ha Hb Hb0 Hq. destruct (i64_congruent (a * b)) as [k Hk].
  pose proof (Z.quot_rem (i64 (a * b)) b Hb0) as Hqr. rewrite Hq in Hqr.
  pose proof (Z.rem_bound_abs (i64 (a * b)) b Hb0).
  assert (Z.abs b ≤ 2 ^ 63) by (unfold is_i64, i64_min, i64_max in *; lia).
  assert (k = 0) by nia. lia.
Qed.

Lemma mul_pos_sign a b : a ≠ 0 → b ≠ 0 → eqb (a >? 0) (b >? 0) = (a * b >? 0).
Proof.
  intros. destruct (Z.gtb_spec a 0), (Z.gtb_spec b 0), (Z.gtb_spec (a * b) 0); simpl; nia.
Qed.

Lemma saturating_mul_clamp a b :
  is_i64 a → is_i64 b → saturating_mul a b = clamp_i64 (a * b).
Proof.
  intros Ha Hb. unfold saturating_mul, clamp_i64.
  destruct (Z.eqb_spec a 0) as [->|Ha0]; [by vm_compute|].
  destruct (Z.eqb_spec b 0) as [->|Hb0]; [rewrite Z.mul_0_r; by vm_compute|]. simpl.
  unfold is_i64 in *.
  destruct (Z.eqb_spec a (-1)) as [->|]; simpl.
  { destruct (Z.eqb_spec b i64_min) as [->|Hm]; [by vm_compute|].
    assert (i64 (-1 * b) = -1 * b) as Hi
      by (apply i64_id; unfold i64_min, i64_max in *; lia).
    rewrite andb_false_r by (unfold i64_min; lia). rewrite Hi.
    replace (Z.quot (-1 * b) b) with (-1) by (rewrite Z.quot_mul; lia). simpl.
    unfold i64_min, i64_max in *; lia. }
  destruct (Z.eqb_spec b (-1)) as [->|]; simpl.
  { destruct (Z.eqb_spec a i64_min) as [->|Hm]; [by vm_compute|].
    rewrite i64_id by (unfold i64_min, i64_max in *; lia).
    rewrite Z.quot_mul, Z.eqb_refl by lia. simpl. unfold i64_min, i64_max in *. lia. }
  destruct (Z.eqb_spec (Z.quot (i64 (a * b)) b) a) as [Hq|Hq]; simpl.
  - pose proof (i64_range (a * b)) as Hr. unfold is_i64 in Hr.
    rewrite wrapped_product_divides in * by done. lia.
  - rewrite mul_pos_sign by done.
    assert (¬ (i64_min ≤ a * b ≤ i64_max)) as Hout.
    { intros Hin. apply Hq. rewrite i64_id by done. by apply Z.quot_mul. }
    unfold i64_min, i64_max in *. destruct (Z.gtb_spec (a * b) 0); lia.
Qed.

Lemma expected_value_milli_clamp r :
  0 ≤ rv_expected_reuse_count r ≤ u64_max → 0 ≤ rv_probability_per_mille r < 2 ^ 32 →
  expected_value_milli r = Z.min u64_max (rv_expected_reuse_count r * rv_probability_per_mille r).
Proof.
  intros Hc Hp. unfold expected_value_milli.
  set (c := rv_expected_reuse_count r) in *. set (p := rv_probability_per_mille r) in *.
  destruct (Z.eqb_spec c 0) as [->|]; [done|].
  destruct (Z.eqb_spec p 0) as [->|]; [by rewrite Z.mul_0_r|]. simpl.
  pose proof (Z.div_mod u64_max p ltac:(lia)). pose proof (Z.mod_pos_bound u64_max p ltac:(lia)).
  destruct (Z.gtb_spec c (u64_max / p)).
  - rewrite Z.min_l; [done|]. nia.
  - assert (c * p ≤ u64_max) by nia. rewrite Z.min_r by lia.
    apply u64_id. unfold u64_max in *. nia.
Qed.

(** ** Provenance *)

Lemma cost_known_source c : cost_known c = true ↔ cv_source c ≠ CS.UNKNOWN.
Proof. unfold cost_known. apply bool_decide_eq_true. Qed.

(** An absent price is never zero: a total is known only when both parts are, and
    then carries the weaker provenance. *)
Lemma cost_add_known a b :
  cost_known (cost_add a b) = cost_known a && cost_known b.
Proof.
  unfold cost_add. destruct (cost_known a) eqn:Ha, (cost_known b) eqn:Hb; simpl; try done.
  apply cost_known_source. simpl. apply cost_known_source in Ha, Hb. by case_match.
Qed.

Lemma cost_add_rank a b :
  cost_known a = true → cost_known b = true →
  source_rank (cv_source (cost_add a b)) =
    Z.min (source_rank (cv_source a)) (source_rank (cv_source b)).
Proof.
  intros Ha Hb. unfold cost_add. rewrite Ha, Hb. simpl.
  destruct (Z.leb_spec (source_rank (cv_source a)) (source_rank (cv_source b))); lia.
Qed.

(** ** Ordering

    [cost_compare] is the three-way comparison of a total preorder in which an
    unknown cost is above every known one. *)
Definition cost_key (c : CostValue) : Z * Z * Z :=
  if cost_known c then (0, cv_micro_units c, - source_rank (cv_source c)) else (1, 0, 0).

Definition key_compare (a b : Z * Z * Z) : Z :=
  let '(a1, a2, a3) := a in
  let '(b1, b2, b3) := b in
  if a1 <? b1 then -1 else if a1 >? b1 then 1
  else if a2 <? b2 then -1 else if a2 >? b2 then 1
  else if a3 <? b3 then -1 else if a3 >? b3 then 1 else 0.

Lemma cost_compare_key a b : cost_compare a b = key_compare (cost_key a) (cost_key b).
Proof.
  unfold cost_compare, cost_key, key_compare.
  destruct (cost_known a), (cost_known b); simpl; try done.
  repeat case_match; bool_simpl; try done; lia.
Qed.

Lemma key_compare_antisym a b : key_compare a b = - key_compare b a.
Proof.
  destruct a as [[a1 a2] a3], b as [[b1 b2] b3]. simpl.
  repeat case_match; bool_simpl; lia.
Qed.

Lemma key_compare_trans a b c :
  key_compare a b ≤ 0 → key_compare b c ≤ 0 → key_compare a c ≤ 0.
Proof.
  destruct a as [[a1 a2] a3], b as [[b1 b2] b3], c as [[c1 c2] c3]. simpl.
  repeat case_match; bool_simpl; lia.
Qed.

(** Cost arithmetic saturates.  On 64-bit operands the sum and the product are
    the exact integer results clamped to the signed 64-bit range. *)
Theorem cost_arithmetic_saturates (a b : Z) :
  is_i64 a → is_i64 b →
  saturating_add a b = clamp_i64 (a + b) ∧ saturating_mul a b = clamp_i64 (a * b).
Proof. intros. split; [by apply saturating_add_clamp|by apply saturating_mul_clamp]. Qed.

Lemma cost_arithmetic_saturates_witness :
  saturating_add i64_max 1 = i64_max ∧ saturating_mul i64_min (-1) = i64_max.
Proof.
  destruct (cost_arithmetic_saturates i64_max 1) as [-> _]; [unfold is_i64, i64_min, i64_max; lia..|].
  destruct (cost_arithmetic_saturates i64_min (-1)) as [_ ->];
    [unfold is_i64, i64_min, i64_max; lia..|].
  split; reflexivity.
Defined.

(** An absent price is never treated as zero.  A total is known exactly when
    both parts are and carries the weaker provenance of the two, and the
    comparison is the three-way comparison of a total preorder: antisymmetric,
    transitive, and placing every unknown cost above every known one. *)
Theorem unknown_costs_are_absorbing (a b c : CostValue) :
  cost_known (cost_add a b) = cost_known a && cost_known b ∧
  (cost_known (cost_add a b) = true →
     source_rank (cv_source (cost_add a b)) =
       Z.min (source_rank (cv_source a)) (source_rank (cv_source b))) ∧
  cost_compare a b = - cost_compare b a ∧
  (cost_compare a b ≤ 0 → cost_compare b c ≤ 0 → cost_compare a c ≤ 0) ∧
  (cost_known a = false → cost_known b = true → cost_compare a b = 1).
Proof.
  split_and!.
  - apply cost_add_known.
  - rewrite cost_add_known. intros [? ?]%andb_true_iff. by apply cost_add_rank.
  - rewrite !cost_compare_key. apply key_compare_antisym.
  - rewrite !cost_compare_key. apply key_compare_trans.
  - unfold cost_compare. by intros -> ->.
Qed.
