(* ===== verification/Economics.v ===== *)
(** * Transfer versus reconstruction ([economics.hpp] / [economics.cpp])

    [decide_action] with its factors and reasons, and the facts that make it safe:
    economics never legitimises an illegal move, unknown evidence fails closed, and
    otherwise the cheaper known path is taken. *)

From S2P Require Import Prelude Taxonomy Model Cost.

Local Open Scope Z_scope.

Definition decide_action (inputs : EconomicInputs) : EconomicDecision :=
  let transfer_total := cost_sum (ei_transfer_cost inputs) (ei_egress_cost inputs) in
  let reconstruction_total := cost_sum (ei_reconstruction_cost inputs) (ei_compute_cost inputs) in
  let factors :=
    ["transfer cost: " +:+ describe_cost transfer_total;
     "reconstruction cost: " +:+ describe_cost reconstruction_total;
     "expected reuse: " +:+ describe_reuse (ei_expected_reuse inputs);
     "transfer bytes: " +:+ describe_size (ei_transfer_bytes inputs)] in
  let decision (kind : DecisionKind) (reason : string) (extra : list string) :=
    mkEconomicDecision kind transfer_total reconstruction_total (ei_storage_cost inputs)
      (factors ++ extra) reason in
  let diversity :=
    if ei_destination_adds_diversity inputs
    then ["destination adds failure-domain diversity"] else [] in
  let deterministic :=
    if ei_reconstruction_deterministic inputs
    then ["reconstruction identity is marked deterministic"] else [] in
  let transfer_known := cost_known transfer_total in
  let reconstruction_known := cost_known reconstruction_total in
  if negb (ei_destination_healthy inputs)
  then decision DK.REJECT "destination cluster is not healthy" []
  else if negb (ei_source_healthy inputs)
  then decision DK.REJECT "source cluster is not healthy" []
  else if negb (ei_destination_capacity_sufficient inputs)
  then decision DK.REJECT "destination has insufficient capacity for the state" []
  else if negb (ei_maximum_transfer_ticks inputs =? 0) &&
          (ei_predicted_transfer_ticks inputs >? ei_maximum_transfer_ticks inputs)
  then decision DK.DEFER "predicted transfer duration exceeds the policy horizon" []
  else if negb (reuse_known (ei_expected_reuse inputs))
  then decision DK.DEFER "expected reuse value is unknown; the transfer cannot be justified" []
  else if expected_value_milli (ei_expected_reuse inputs) =? 0
  then decision DK.REJECT "expected reuse value is zero; moving the state would be waste" []
  else if negb (ei_reconstruction_available inputs) then
    if negb transfer_known
    then decision DK.DEFER
           "neither transfer nor reconstruction has known cost evidence; failing closed" []
    else decision DK.REPLICATE "reconstruction is unavailable; transfer is the only legal path"
           diversity
  else if negb transfer_known && negb reconstruction_known
  then decision DK.DEFER "both transfer and reconstruction cost evidence are unknown" []
  else if negb transfer_known && reconstruction_known
  then decision DK.RECONSTRUCT
         "transfer cost evidence is unknown while reconstruction cost is known" []
  else if transfer_known && negb reconstruction_known
  then decision DK.REPLICATE
         "reconstruction cost evidence is unknown while transfer cost is known" []
  else
    let comparison := cost_compare transfer_total reconstruction_total in
    if comparison <? 0
    then decision DK.REPLICATE "legal destination and transfer is cheaper than reconstruction"
           (diversity ++ deterministic)
    else if comparison >? 0
    then decision DK.RECONSTRUCT "reconstruction is cheaper than transfer to a legal destination"
           (diversity ++ deterministic)
    else decision DK.REPLICATE
           "costs are equal; transfer is chosen to preserve the exact state bytes"
           (diversity ++ deterministic).

(** The hard preconditions of a move. *)
Definition move_is_legal (inputs : EconomicInputs) : bool :=
  ei_destination_healthy inputs && ei_source_healthy inputs &&
  ei_destination_capacity_sufficient inputs &&
  ((ei_maximum_transfer_ticks inputs =? 0) ||
   (ei_predicted_transfer_ticks inputs <=? ei_maximum_transfer_ticks inputs)) &&
  reuse_known (ei_expected_reuse inputs) &&
  negb (expected_value_milli (ei_expected_reuse inputs) =? 0).

(** What the decision promises, as a specification on the two totals. *)
Definition action_spec (inputs : EconomicInputs) (kind : DecisionKind) : Prop :=
  let t := cost_sum (ei_transfer_cost inputs) (ei_egress_cost inputs) in
  let r := cost_sum (ei_reconstruction_cost inputs) (ei_compute_cost inputs) in
  match kind with
  | DK.REPLICATE =>
      move_is_legal inputs = true ∧ cost_known t = true ∧
      (ei_reconstruction_available inputs = true → cost_compare t r ≤ 0)
  | DK.RECONSTRUCT =>
      move_is_legal inputs = true ∧ ei_reconstruction_available inputs = true ∧
      cost_known r = true ∧ 0 < cost_compare t r
  | DK.DEFER =>
      move_is_legal inputs = false ∨
      (cost_known t = false ∧ (ei_reconstruction_available inputs = true → cost_known r = false))
  | DK.REJECT => move_is_legal inputs = false
  | _ => False
  end.

Lemma cost_compare_unknown_left t r :
  cost_known t = false → cost_known r = true → cost_compare t r = 1.
Proof. intros Ht Hr. unfold cost_compare. by rewrite Ht, Hr. Qed.

Lemma cost_compare_unknown_right t r :
  cost_known t = true → cost_known r = false → cost_compare t r = -1.
Proof. intros Ht Hr. unfold cost_compare. by rewrite Ht, Hr. Qed.

Lemma decide_action_illegal inputs :
  move_is_legal inputs = false →
  ed_kind (decide_action inputs) = DK.REJECT ∨ ed_kind (decide_action inputs) = DK.DEFER.
Proof.
  unfold move_is_legal, decide_action.
  destruct (ei_destination_healthy inputs), (ei_source_healthy inputs),
    (ei_destination_capacity_sufficient inputs); simpl; auto.
  destruct (Z.eqb_spec (ei_maximum_transfer_ticks inputs) 0); simpl;
    [|destruct (Z.leb_spec (ei_predicted_transfer_ticks inputs) (ei_maximum_transfer_ticks inputs)),
       (Z.gtb_spec (ei_predicted_transfer_ticks inputs) (ei_maximum_transfer_ticks inputs));
       simpl; try lia; auto];
  destruct (reuse_known _); simpl; auto; case_match; simpl; by auto.
Qed.

Lemma decide_action_meets_spec inputs :
  action_spec inputs (ed_kind (decide_action inputs)).
Proof.
  destruct (move_is_legal inputs) eqn:Hl.
  2: { destruct (decide_action_illegal inputs Hl) as [-> | ->]; simpl; auto. }
  pose proof Hl as Hl'. unfold move_is_legal in Hl'. bool_simpl.
  destruct Hl' as [[[[[Hd Hs] Hc] Ht] Hr] Hv].
  unfold decide_action. rewrite Hd, Hs, Hc, Hr. simpl.
  replace (negb (ei_maximum_transfer_ticks inputs =? 0) && _) with false by lia.
  destruct (Z.eqb_spec (expected_value_milli (ei_expected_reuse inputs)) 0) as [|_]; [lia|].
  set (t := cost_sum (ei_transfer_cost _) _). set (r := cost_sum (ei_reconstruction_cost _) _).
  destruct (ei_reconstruction_available inputs) eqn:Ha; simpl.
  - destruct (cost_known t) eqn:Kt, (cost_known r) eqn:Kr; simpl.
    + destruct (Z.ltb_spec (cost_compare t r) 0); simpl; fold t r;
        [split_and!; (done || (intros; lia))|].
      destruct (Z.gtb_spec (cost_compare t r) 0); simpl; fold t r;
        split_and!; (done || (intros; lia)).
    + fold t r. rewrite cost_compare_unknown_right by done. split_and!; (done || lia).
    + fold t r. rewrite cost_compare_unknown_left by done. split_and!; (done || lia).
    + fold t r. auto.
  - destruct (cost_known t) eqn:Kt; simpl; fold t r; rewrite ?Ha; [|right; by split].
    split_and!; done.
Qed.

(** The economic decision is the one the totals justify.  The engine replicates
    only when the move is legal, its cost known and reconstruction not strictly
    cheaper; it reconstructs only when that is available, known and strictly
    cheaper; it defers or rejects only when the move is illegal or no cost is
    known. *)
Theorem economic_decision_is_justified (inputs : EconomicInputs) :
  action_spec inputs (ed_kind (decide_action inputs)).
Proof. apply decide_action_meets_spec. Qed.
