(* ===== verification/Compatibility.v ===== *)
(** * Compatibility gating ([compatibility.hpp] / [compatibility.cpp])

    A descriptor is an ordered attribute map; a candidate is compatible only when
    every required attribute is evidenced.  The canonical encoding round trips and
    determines the descriptor, so equal encodings mean equal content. *)

From S2P Require Import Prelude Taxonomy Model Bytes Digest.

Local Open Scope Z_scope.

Definition kMaxCompatibilityAttributes : Z := 256.
Definition kMaxCompatibilityKeyLength : Z := 128.
Definition kMaxCompatibilityValueLength : Z := 512.
Definition kWildcard : string := "*".

Definition string_size (s : string) : Z := Z.of_nat (String.length s).

(** [CompatibilityDescriptor::set]: the descriptor after the call and the result. *)
Definition cd_set (d : CompatibilityDescriptor) (key value : string)
    : CompatibilityDescriptor * bool :=
  if (string_size key =? 0) || (string_size key >? kMaxCompatibilityKeyLength) then (d, false)
  else if string_size value >? kMaxCompatibilityValueLength then (d, false)
  else match cd_attributes d !! key with
       | Some _ => (mkCompatibilityDescriptor (<[key := value]> (cd_attributes d)), true)
       | None =>
           if Z.of_nat (size (cd_attributes d)) >=? kMaxCompatibilityAttributes then (d, false)
           else (mkCompatibilityDescriptor (<[key := value]> (cd_attributes d)), true)
       end.

Definition cd_find (d : CompatibilityDescriptor) (key : string) : option string :=
  cd_attributes d !! key.

Definition encode_attribute (entry : string * string) : list Z :=
  ByteWriter.str entry.1 ++ ByteWriter.str entry.2.

Definition cd_encode (d : CompatibilityDescriptor) : list Z :=
  ByteWriter.u32 (u32 (Z.of_nat (size (cd_attributes d)))) ++
  concat (map encode_attribute (entries (cd_attributes d))).

Local Open Scope reader_scope.

(** The loop of [CompatibilityDescriptor::decode], one turn per declared
    attribute. *)
Fixpoint cd_decode_loop (count : nat) (attributes : gmap string string)
    : Reader (gmap string string) :=
  match count with
  | O => rret attributes
  | S count =>
      key <- Reader.str kMaxCompatibilityKeyLength;;
      value <- Reader.str kMaxCompatibilityValueLength;;
      if string_size key =? 0 then Reader.fail EC.INVALID_ARGUMENT
      else if Z.of_nat (size attributes) >=? kMaxCompatibilityAttributes
      then Reader.fail EC.RESOURCE_EXHAUSTED
      else match attributes !! key with
           | Some _ => Reader.fail EC.INVALID_ARGUMENT
           | None => cd_decode_loop count (<[key := value]> attributes)
           end
  end.

Definition cd_decode : Reader CompatibilityDescriptor :=
  count <- Reader.u32;;
  if count >? kMaxCompatibilityAttributes then Reader.fail EC.RESOURCE_EXHAUSTED
  else attributes <- cd_decode_loop (Z.to_nat count) ∅;;
       rret (mkCompatibilityDescriptor attributes).

Definition fingerprint (d : CompatibilityDescriptor) : string :=
  hex (Sha256.sha256 (ByteWriter.str "ccsf.compat.v1" ++ cd_encode d)).

(** The attribute loop of [evaluate_compatibility]. *)
Fixpoint evaluate_attributes (required : list (string * string))
    (candidate : CompatibilityDescriptor) (any_unknown : bool) : CompatibilityResult :=
  match required with
  | [] => if any_unknown then CRes.UNKNOWN else CRes.COMPATIBLE
  | (key, value) :: rest =>
      match cd_find candidate key with
      | None => evaluate_attributes rest candidate true
      | Some actual =>
          if bool_decide (value = kWildcard) then evaluate_attributes rest candidate any_unknown
          else if bool_decide (actual ≠ value) then CRes.INCOMPATIBLE
          else evaluate_attributes rest candidate any_unknown
      end
  end.

Definition evaluate_compatibility (requirement : CompatibilityRequirement)
    (candidate : option CompatibilityDescriptor) (candidate_generation : Z)
    (candidate_revalidation_required : bool) : CompatibilityResult :=
  match candidate with
  | None => CRes.UNKNOWN
  | Some candidate =>
      if candidate_revalidation_required then CRes.REVALIDATION_REQUIRED
      else if candidate_generation <? cq_generation requirement then CRes.REVALIDATION_REQUIRED
      else evaluate_attributes (entries (cd_attributes (cq_required requirement))) candidate false
  end.

(** The overload on a published record. *)
Definition evaluate_compatibility_record (requirement : CompatibilityRequirement)
    (candidate : option CompatibilityRecord) : CompatibilityResult :=
  match candidate with
  | None => CRes.UNKNOWN
  | Some candidate =>
      if negb (cr_compatibility_id candidate =? cq_compatibility_id requirement)
      then CRes.UNKNOWN
      else evaluate_compatibility requirement (Some (cr_descriptor candidate))
             (cr_generation candidate) (cr_revalidation_required candidate)
  end.

Definition describe_compatibility (requirement : CompatibilityRequirement)
    (result : CompatibilityResult) (candidate : option CompatibilityDescriptor) : string :=
  "compatibility " +:+ to_string result +:+ " for identity " +:+
  id_to_string (cq_compatibility_id requirement) +:+ " generation " +:+
  id_to_string (cq_generation requirement) +:+
  match candidate with
  | None => " (no candidate evidence published)"
  | Some d => " (candidate fingerprint " +:+ fingerprint d +:+ ")"
  end.

(** ** The gate *)

(** One required attribute is evidenced by the candidate. *)
Definition attribute_evidenced (candidate : CompatibilityDescriptor) (key value : string) : Prop :=
  ∃ actual, cd_find candidate key = Some actual ∧ (value = kWildcard ∨ actual = value).

(** One required attribute is contradicted by the candidate. *)
Definition attribute_contradicted (candidate : CompatibilityDescriptor) (key value : string) : Prop :=
  ∃ actual, cd_find candidate key = Some actual ∧ value ≠ kWildcard ∧ actual ≠ value.

Lemma evaluate_attributes_compatible required candidate u :
  evaluate_attributes required candidate u = CRes.COMPATIBLE ↔
  u = false ∧ ∀ key value, (key, value) ∈ required → attribute_evidenced candidate key value.
Proof.
  revert u. induction required as [|[k v] rest IH]; intros u; simpl.
  { destruct u; split; [done|by intros [? ?]|intros _|done].
    split; [done|]. by intros ?? ?%elem_of_nil. }
  setoid_rewrite elem_of_cons.
  destruct (cd_find candidate k) as [actual|] eqn:Hf.
  - case_bool_decide as Hw; [|case_bool_decide as Ha].
    + rewrite IH. split; intros [-> H]; (split; [done|]); [|by eauto].
      intros key value [?|?]; simplify_eq; [|by eauto]. exists actual. eauto.
    + split; [done|]. intros [_ H].
      destruct (H k v (or_introl eq_refl)) as (?&?&[?|?]); congruence.
    + rewrite IH. split; intros [-> H]; (split; [done|]); [|by eauto].
      intros key value [?|?]; simplify_eq; [|by eauto].
      eexists. split; [exact Hf|]. auto.
  - rewrite IH. split; [by intros [? ?]|]. intros [_ H].
    destruct (H k v (or_introl eq_refl)) as (?&?&?). congruence.
Qed.

Lemma evaluate_attributes_incompatible required candidate u :
  evaluate_attributes required candidate u = CRes.INCOMPATIBLE ↔
  ∃ key value, (key, value) ∈ required ∧ attribute_contradicted candidate key value.
Proof.
  revert u. induction required as [|[k v] rest IH]; intros u; simpl.
  { destruct u; split; try done; intros (?&?&?%elem_of_nil&_); done. }
  setoid_rewrite elem_of_cons.
  destruct (cd_find candidate k) as [actual|] eqn:Hf.
  - case_bool_decide as Hw; [|case_bool_decide as Ha].
    + rewrite IH. split; [naive_solver|]. intros (?&?&[?|?]&Hc); [|naive_solver].
      simplify_eq. destruct Hc as (?&?&?&?). congruence.
    + split; [|done]. intros _. exists k, v. split; [auto|]. exists actual. auto.
    + rewrite IH. split; [naive_solver|]. intros (?&?&[?|?]&Hc); [|naive_solver].
      simplify_eq. destruct Hc as (?&?&?&?). congruence.
  - rewrite IH. split; [naive_solver|]. intros (?&?&[?|?]&Hc); [|naive_solver].
    simplify_eq. destruct Hc as (?&?&?&?). congruence.
Qed.

Lemma evaluate_attributes_cases required candidate u :
  evaluate_attributes required candidate u = CRes.COMPATIBLE ∨
  evaluate_attributes required candidate u = CRes.INCOMPATIBLE ∨
  evaluate_attributes required candidate u = CRes.UNKNOWN.
Proof.
  revert u. induction required as [|[k v] rest IH]; intros u; simpl; [destruct u; auto|].
  destruct (cd_find candidate k); [|done]. repeat case_bool_decide; auto.
Qed.

Lemma evaluate_compatible requirement candidate generation revalidation :
  evaluate_compatibility requirement candidate generation revalidation = CRes.COMPATIBLE ↔
  ∃ d, candidate = Some d ∧ revalidation = false ∧ cq_generation requirement ≤ generation ∧
    ∀ key value, cd_attributes (cq_required requirement) !! key = Some value →
      attribute_evidenced d key value.
Proof.
  unfold evaluate_compatibility. setoid_rewrite <-elem_of_entries.
  destruct candidate as [d|]; [|naive_solver].
  destruct revalidation; [naive_solver|].
  destruct (Z.ltb_spec generation (cq_generation requirement)).
  - split; [done|]. intros (?&?&?&?&?). lia.
  - rewrite evaluate_attributes_compatible. naive_solver.
Qed.

(** ** The canonical encoding *)

(** Descriptors [cd_set] builds and [cd_decode] accepts. *)
Definition descriptor_wf (d : CompatibilityDescriptor) : Prop :=
  Z.of_nat (size (cd_attributes d)) ≤ kMaxCompatibilityAttributes ∧
  map_Forall (λ key value, 0 < string_size key ≤ kMaxCompatibilityKeyLength ∧
    string_size value ≤ kMaxCompatibilityValueLength) (cd_attributes d).

Lemma cd_set_wf d key value : descriptor_wf d → descriptor_wf (cd_set d key value).1.
Proof.
  intros [Hs Hf]. unfold cd_set.
  destruct (Z.eqb_spec (string_size key) 0); [done|].
  destruct (Z.gtb_spec (string_size key) kMaxCompatibilityKeyLength); [done|]. simpl.
  destruct (Z.gtb_spec (string_size value) kMaxCompatibilityValueLength); [done|].
  assert (0 < string_size key) by (unfold string_size in *; lia).
  destruct (cd_attributes d !! key) as [v|] eqn:Hk; simpl.
  - split; simpl; [by rewrite map_size_insert_Some|]. by apply map_Forall_insert_2.
  - destruct (Z.geb_spec (Z.of_nat (size (cd_attributes d))) kMaxCompatibilityAttributes); [done|].
    split; simpl; [rewrite map_size_insert_None by done; lia|]. by apply map_Forall_insert_2.
Qed.

Lemma reads_cd_decode_loop l m :
  NoDup l.*1 → (∀ key, key ∈ l.*1 → m !! key = None) →
  Z.of_nat (size m + length l) ≤ kMaxCompatibilityAttributes →
  Forall (λ e : string * string, 0 < string_size e.1 ≤ kMaxCompatibilityKeyLength ∧
    string_size e.2 ≤ kMaxCompatibilityValueLength) l →
  reads (cd_decode_loop (length l) m) (list_to_map l ∪ m) (concat (map encode_attribute l)).
Proof.
  revert m. induction l as [|[k v] l IH]; intros m Hnd Hfresh Hsize Hwf; simpl.
  { rewrite (left_id_L ∅ (∪)). apply reads_ret. }
  rewrite fmap_cons in Hnd, Hfresh. cbn [fst] in Hnd, Hfresh.
  apply list.Forall_cons in Hwf as [[Hk Hv] Hwf]. simpl in Hk, Hv.
  apply list.NoDup_cons in Hnd as [Hnin Hnd]. simpl in Hsize.
  unfold encode_attribute at 1. simpl fst. simpl snd. rewrite <-(assoc_L (++)).
  eapply reads_bind;
    [apply reads_str; fold (string_size k); unfold kMaxCompatibilityKeyLength in *; lia|].
  eapply reads_bind;
    [apply reads_str; fold (string_size v); unfold kMaxCompatibilityValueLength in *; lia|].
  destruct (Z.eqb_spec (string_size k) 0) as [E|_]; [lia|].
  destruct (Z.geb_spec (Z.of_nat (size m)) kMaxCompatibilityAttributes); [lia|].
  rewrite (Hfresh k) by set_solver.
  rewrite <-insert_union_l, insert_union_r by (by apply not_elem_of_list_to_map).
  apply IH; [done| | |done].
  - intros key Hin. rewrite lookup_insert_ne; [apply Hfresh; set_solver|by intros ->].
  - rewrite map_size_insert_None by (apply Hfresh; set_solver). lia.
Qed.

Lemma list_to_map_entries {K} `{Countable K} `{KeyOrder K} {V} (m : gmap K V) :
  list_to_map (entries m) = m.
Proof.
  apply map_eq. intros key. apply option_eq. intros value.
  rewrite <-elem_of_list_to_map by apply NoDup_entries_keys. apply elem_of_entries.
Qed.

Lemma length_entries {K} `{Countable K} `{KeyOrder K} {V} (m : gmap K V) :
  length (entries m) = size m.
Proof. by rewrite entries_perm, length_map_to_list. Qed.

Lemma reads_cd d : descriptor_wf d → reads cd_decode d (cd_encode d).
Proof.
  intros [Hs Hf]. unfold cd_encode, cd_decode.
  assert (u32 (Z.of_nat (size (cd_attributes d))) = Z.of_nat (size (cd_attributes d))) as ->
    by (unfold u32, kMaxCompatibilityAttributes in *; rewrite Z.mod_small; lia).
  eapply reads_bind; [apply reads_u32; unfold kMaxCompatibilityAttributes in *; lia|].
  destruct (Z.gtb_spec (Z.of_nat (size (cd_attributes d))) kMaxCompatibilityAttributes); [lia|].
  rewrite Nat2Z.id, <-length_entries.
  eapply reads_map; [apply reads_cd_decode_loop|].
  - apply NoDup_entries_keys.
  - intros. apply lookup_empty.
  - by rewrite length_entries, map_size_empty.
  - apply list.Forall_forall. intros [k v] Hin. apply elem_of_entries in Hin. by apply (Hf k v).
  - rewrite (right_id_L ∅ (∪)), list_to_map_entries. destruct d. apply reads_ret.
Qed.

(** Equal encodings come from equal descriptors. *)
Lemma reads_inj {A} (m : Reader A) a b enc :
  Z.of_nat (length enc) ≤ u64_max → reads m a enc → reads m b enc → a = b.
Proof.
  intros Hlen Ha Hb. specialize (Ha [] [] EC.OK). specialize (Hb [] [] EC.OK).
  rewrite app_nil_r in Ha, Hb. simpl in *. rewrite (Ha Hlen) in Hb. specialize (Hb Hlen). congruence.
Qed.

Lemma length_encode_attribute e :
  Z.of_nat (String.length e.1) < 2 ^ 32 → Z.of_nat (String.length e.2) < 2 ^ 32 →
  length (encode_attribute e) = (8 + String.length e.1 + String.length e.2)%nat.
Proof.
  intros H1 H2. unfold encode_attribute, ByteWriter.str. rewrite <-!length_as_bytes in *.
  rewrite !blob_small by done. rewrite !length_app. simpl. lia.
Qed.

Lemma length_encode_attributes l :
  Forall (λ e : string * string, 0 < string_size e.1 ≤ kMaxCompatibilityKeyLength ∧
    string_size e.2 ≤ kMaxCompatibilityValueLength) l →
  (length (concat (map encode_attribute l)) ≤ 648 * length l)%nat.
Proof.
  induction 1 as [|e l [Hk Hv] _ IH]; simpl; [lia|].
  unfold string_size, kMaxCompatibilityKeyLength, kMaxCompatibilityValueLength in *.
  rewrite length_app, length_encode_attribute by lia. lia.
Qed.

Lemma length_cd_encode d : descriptor_wf d → Z.of_nat (length (cd_encode d)) ≤ 200000.
Proof.
  intros [Hs Hf]. unfold cd_encode. rewrite length_app. simpl.
  pose proof (length_encode_attributes (entries (cd_attributes d))) as Hl.
  rewrite length_entries in Hl. unfold kMaxCompatibilityAttributes in Hs.
  enough (length (concat (map encode_attribute (entries (cd_attributes d)))) ≤
    648 * size (cd_attributes d))%nat by lia.
  apply Hl, list.Forall_forall. intros [k v] Hin. apply elem_of_entries in Hin. by apply (Hf k v).
Qed.

(** The compatibility gate opens on evidence only.  A candidate is COMPATIBLE
    exactly when a descriptor was published, needs no revalidation, is recent enough
    and evidences every required attribute; it is INCOMPATIBLE exactly when, in the same
    situation, some required attribute is contradicted; absence of a descriptor is
    UNKNOWN. *)
Theorem compatibility_needs_evidence requirement candidate generation revalidation :
  let result := evaluate_compatibility requirement candidate generation revalidation in
  (result = CRes.COMPATIBLE ↔
     ∃ d, candidate = Some d ∧ revalidation = false ∧ cq_generation requirement ≤ generation ∧
       ∀ key value, cd_attributes (cq_required requirement) !! key = Some value →
         attribute_evidenced d key value) ∧
  (result = CRes.INCOMPATIBLE ↔
     ∃ d, candidate = Some d ∧ revalidation = false ∧ cq_generation requirement ≤ generation ∧
       ∃ key value, cd_attributes (cq_required requirement) !! key = Some value ∧
         attribute_contradicted d key value) ∧
  (candidate = None → result = CRes.UNKNOWN).
Proof.
  intros result. split; [apply evaluate_compatible|]. split; [|by unfold result; intros ->].
  unfold result, evaluate_compatibility. setoid_rewrite <-elem_of_entries.
  destruct candidate as [d|]; [|naive_solver].
  destruct revalidation; [naive_solver|].
  destruct (Z.ltb_spec generation (cq_generation requirement)).
  - split; [done|]. intros (?&?&?&?&?). lia.
  - rewrite evaluate_attributes_incompatible. naive_solver.
Qed.

(** The canonical encoding of a descriptor is faithful.  Setting an attribute
    keeps a descriptor within the limits; wherever its encoding lies
    in a byte string, decoding returns the descriptor and stops just past it; and two
    descriptors with the same encoding are equal. *)
Theorem descriptor_round_trip (d : CompatibilityDescriptor) :
  descriptor_wf d →
  (∀ key value, descriptor_wf (cd_set d key value).1) ∧
  reads cd_decode d (cd_encode d) ∧
  (∀ d', descriptor_wf d' → cd_encode d' = cd_encode d → d' = d).
Proof.
  intros Hd. split_and!; [by intros; apply cd_set_wf|by apply reads_cd|].
  intros d' Hd' He. eapply (reads_inj cd_decode _ _ (cd_encode d)).
  - pose proof (length_cd_encode d Hd). unfold u64_max. lia.
  - rewrite <-He. by apply reads_cd.
  - by apply reads_cd.
Qed.

Lemma descriptor_round_trip_witness :
  let d := (cd_set (mkCompatibilityDescriptor ∅) "arch" "sm90").1 in
  reads cd_decode d (cd_encode d).
Proof.
  intros d. apply (descriptor_round_trip d). apply cd_set_wf.
  split; [vm_compute; discriminate|apply map_Forall_empty].
Defined.
