(* ===== verification/ModelOps.v ===== *)
(** * Operations of the data model ([model.cpp] and inline methods of the headers)

    Cluster admission, policy normalisation, pricing, replica and operation
    predicates, replica-set derivation, and the queries of an exported snapshot. *)

From S2P Require Import Prelude Taxonomy Model Cost.

Local Open Scope Z_scope.

(** ** Clusters *)

Definition capabilities_canonicalize (c : ClusterCapabilities) : ClusterCapabilities :=
  c <| cc_tags ::= sort_unique |> <| cc_storage_classes ::= sort_unique |>
    <| cc_accelerator_architectures ::= sort_unique |>.

Definition has_tag (c : ClusterCapabilities) (tag : string) : bool := list_contains (cc_tags c) tag.

Definition has_storage_class (c : ClusterCapabilities) (storage_class : string) : bool :=
  list_contains (cc_storage_classes c) storage_class.

Definition has_accelerator (c : ClusterCapabilities) (architecture : string) : bool :=
  list_contains (cc_accelerator_architectures c) architecture.

Definition free_logical_bytes (c : ClusterCapacity) : Z :=
  if cp_used_logical_bytes c >=? cp_total_logical_bytes c then 0
  else cp_total_logical_bytes c - cp_used_logical_bytes c.

Definition has_room_for (c : ClusterCapacity) (bytes : Z) : bool := free_logical_bytes c >=? bytes.

Definition cluster_evidence_is_current (r : ClusterRecord) : bool :=
  ce_present (cl_evidence r) && negb (ce_revalidation_required (cl_evidence r)) &&
  cl_live_authority r.

Definition cluster_admits_new_authority (r : ClusterRecord) (required_health : ClusterHealthState)
    (maximum_evidence_staleness_ticks now : Z) : bool :=
  if negb (cl_live_authority r) then false
  else if negb (ce_present (cl_evidence r)) then false
  else if negb (match cl_health r with CH.HEALTHY | CH.DEGRADED => true | _ => false end) then false
  else if bool_decide (required_health = CH.HEALTHY) && bool_decide (cl_health r ≠ CH.HEALTHY)
  then false
  else if negb (maximum_evidence_staleness_ticks =? 0) &&
          ((now >? ce_published_at (cl_evidence r)) &&
           (now - ce_published_at (cl_evidence r) >? maximum_evidence_staleness_ticks))
  then false
  else true.

Definition accepts_traffic (r : ClusterRecord) (candidate : Z) : bool :=
  cl_live_authority r && (candidate =? cl_incarnation r).

(** ** Policy *)

Definition constraints_canonicalize (c : PlacementConstraints) : PlacementConstraints :=
  c <| pc_legal_clusters ::= sort_unique |> <| pc_legal_regions ::= sort_unique |>
    <| pc_prohibited_clusters ::= sort_unique |> <| pc_prohibited_regions ::= sort_unique |>
    <| pc_required_capabilities ::= sort_unique |>
    <| pc_required_storage_classes ::= sort_unique |>
    <| pc_required_sovereignty_tags ::= sort_unique |> <| pc_locality_clusters ::= sort_unique |>.

Definition eligibility_canonicalize (e : EligibilityRules) : EligibilityRules :=
  e <| er_allowed_clusters ::= sort_unique |> <| er_denied_clusters ::= sort_unique |>.

Definition weight_of (w : RankingWeights) (factor : RankingFactor) : Z :=
  match factor with
  | RF.EXPECTED_REUSE_VALUE => rw_expected_reuse_value w
  | RF.TRANSFER_COST => rw_transfer_cost w
  | RF.RECONSTRUCTION_COST => rw_reconstruction_cost w
  | RF.AVAILABLE_BANDWIDTH => rw_available_bandwidth w
  | RF.PREDICTED_TRANSFER_DURATION => rw_predicted_transfer_duration w
  | RF.STORAGE_COST => rw_storage_cost w
  | RF.COMPUTE_COST => rw_compute_cost w
  | RF.REGION_AFFINITY => rw_region_affinity w
  | RF.WORKLOAD_AFFINITY => rw_workload_affinity w
  | RF.EXISTING_REPLICA_PROXIMITY => rw_existing_replica_proximity w
  | RF.FAILURE_DOMAIN_DIVERSITY => rw_failure_domain_diversity w
  | RF.EXPECTED_FUTURE_DEMAND => rw_expected_future_demand w
  | RF.SOURCE_HEALTH => rw_source_health w
  | RF.DESTINATION_HEALTH => rw_destination_health w
  | RF.PRESSURE => rw_pressure w
  | RF.UTILIZATION => rw_utilization w
  end.

Definition set_weight (w : RankingWeights) (factor : RankingFactor) (weight : Z) : RankingWeights :=
  match factor with
  | RF.EXPECTED_REUSE_VALUE => w <| rw_expected_reuse_value := weight |>
  | RF.TRANSFER_COST => w <| rw_transfer_cost := weight |>
  | RF.RECONSTRUCTION_COST => w <| rw_reconstruction_cost := weight |>
  | RF.AVAILABLE_BANDWIDTH => w <| rw_available_bandwidth := weight |>
  | RF.PREDICTED_TRANSFER_DURATION => w <| rw_predicted_transfer_duration := weight |>
  | RF.STORAGE_COST => w <| rw_storage_cost := weight |>
  | RF.COMPUTE_COST => w <| rw_compute_cost := weight |>
  | RF.REGION_AFFINITY => w <| rw_region_affinity := weight |>
  | RF.WORKLOAD_AFFINITY => w <| rw_workload_affinity := weight |>
  | RF.EXISTING_REPLICA_PROXIMITY => w <| rw_existing_replica_proximity := weight |>
  | RF.FAILURE_DOMAIN_DIVERSITY => w <| rw_failure_domain_diversity := weight |>
  | RF.EXPECTED_FUTURE_DEMAND => w <| rw_expected_future_demand := weight |>
  | RF.SOURCE_HEALTH => w <| rw_source_health := weight |>
  | RF.DESTINATION_HEALTH => w <| rw_destination_health := weight |>
  | RF.PRESSURE => w <| rw_pressure := weight |>
  | RF.UTILIZATION => w <| rw_utilization := weight |>
  end.

Definition kMib : Z := 1024 * 1024.

Definition price_bytes (p : CostPolicy) (micro_per_mib : Z) (bytes : SizeValue) : CostValue :=
  if bool_decide (cpo_source p = CS.UNKNOWN) then cost_unknown
  else if micro_per_mib =? 0 then mkCostValue (cpo_source p) 0
  else if negb (size_known bytes) then cost_unknown
  else cost_scale (mkCostValue (cpo_source p) micro_per_mib) (sz_bytes bytes) kMib.

(** The clamping that ends [effective_requirements]. *)
Definition clamp_requirements (e : ReplicationRequirements) : ReplicationRequirements :=
  let e := if rr_maximum_replicas e =? 0 then e <| rr_maximum_replicas := 1 |> else e in
  let e := if rr_minimum_authoritative_replicas e =? 0
           then e <| rr_minimum_authoritative_replicas := 1 |> else e in
  let e := if rr_minimum_authoritative_replicas e >? rr_maximum_replicas e
           then e <| rr_minimum_authoritative_replicas := rr_maximum_replicas e |> else e in
  let e := if rr_desired_replicas e <? rr_minimum_authoritative_replicas e
           then e <| rr_desired_replicas := rr_minimum_authoritative_replicas e |> else e in
  if rr_desired_replicas e >? rr_maximum_replicas e
  then e <| rr_desired_replicas := rr_maximum_replicas e |> else e.

Definition effective_requirements (p : ReplicationPolicyRecord) : ReplicationRequirements :=
  let requirements := rpp_requirements p in
  let effective :=
    match rr_form requirements with
    | RPF.SINGLE =>
        requirements <| rr_minimum_authoritative_replicas := 1 |> <| rr_desired_replicas := 1 |>
          <| rr_maximum_replicas := 1 |> <| rr_region_diversity := 0 |>
          <| rr_cluster_diversity := 0 |> <| rr_failure_domain_diversity := 0 |>
    | RPF.N_REPLICAS => requirements
    | RPF.CLUSTER_DIVERSE => requirements <| rr_cluster_diversity ::= λ d, Z.max d 2 |>
    | RPF.REGION_DIVERSE =>
        requirements <| rr_region_diversity ::= λ d, Z.max d 2 |>
          <| rr_cluster_diversity ::= λ d, Z.max d 2 |>
    | RPF.POLICY_CUSTOM => requirements
    end in
  clamp_requirements effective.

Definition make_replication_policy (id generation : Z) (form : ReplicationPolicyForm)
    (replica_count : Z) : ReplicationPolicyRecord :=
  let with_counts (minimum desired maximum : Z) (r : ReplicationRequirements) :=
    r <| rr_minimum_authoritative_replicas := minimum |> <| rr_desired_replicas := desired |>
      <| rr_maximum_replicas := maximum |> in
  let count := if replica_count =? 0 then 1 else replica_count in
  let two := Z.max replica_count 2 in
  let requirements := ReplicationRequirements_default <| rr_form := form |> in
  let requirements :=
    match form with
    | RPF.SINGLE => with_counts 1 1 1 requirements
    | RPF.N_REPLICAS => with_counts count count (Z.max count count) requirements
    | RPF.CLUSTER_DIVERSE =>
        (with_counts two two (u32 (two + 2)) requirements) <| rr_cluster_diversity := 2 |>
    | RPF.REGION_DIVERSE =>
        (with_counts two two (u32 (two + 2)) requirements)
          <| rr_region_diversity := 2 |> <| rr_cluster_diversity := 2 |>
    | RPF.POLICY_CUSTOM => with_counts count count count requirements
    end in
  ReplicationPolicyRecord_default <| rpp_replication_policy_id := id |>
    <| rpp_generation := generation |> <| rpp_requirements := requirements |>.

(** ** State generations *)

Definition is_current (r : StateGenerationRecord) : bool :=
  bool_decide (sg_lifecycle r = SGL.CURRENT).

Definition is_reusable_generation (r : StateGenerationRecord) : bool :=
  bool_decide (sg_lifecycle r = SGL.CURRENT) || bool_decide (sg_lifecycle r = SGL.HISTORICAL).

Definition reconstruction_available (r : ReconstructionIdentity) : bool :=
  valid (ri_reconstruction_id r).

Definition lineage_find (v : LineageView) (generation : Z) : option StateGenerationRecord :=
  find (λ r, sg_generation r =? generation) (lv_generations v).

Definition state_generation_label (state_id generation : Z) : string :=
  "S" +:+ id_to_string state_id +:+ " g" +:+ id_to_string generation.

(** ** Replicas *)

Definition replica_is_terminal (r : ReplicaRecord) : bool :=
  bool_decide (rp_lifecycle r = RL.RETIRED) || bool_decide (rp_lifecycle r = RL.ABANDONED).

Definition replica_counts_toward_replication_factor (r : ReplicaRecord) : bool :=
  if negb (rp_commit_recorded r) || negb (rp_counts_toward_factor r) then false
  else if bool_decide (rp_integrity r ≠ RI.VERIFIED) then false
  else if bool_decide (rp_compatibility r ≠ RCS.COMPATIBLE) then false
  else match rp_lifecycle r with
       | RL.AUTHORITATIVE | RL.DEGRADED => true
       | _ => false
       end.

Definition replica_survives_cluster_loss (r : ReplicaRecord) : bool :=
  if replica_is_terminal r then false
  else match rp_durability r with
       | RD.DURABLE | RD.ARCHIVAL => rp_commit_recorded r
       | _ => false
       end.

(** ** Replica sets *)

Definition meets_requirements (r : ReplicaSetRecord) : bool :=
  let effective := rs_requirements r in
  if rs_authoritative_count r <? rr_minimum_authoritative_replicas effective then false
  else if rs_distinct_clusters r <? rr_cluster_diversity effective then false
  else if rs_distinct_regions r <? rr_region_diversity effective then false
  else if rs_distinct_failure_domains r <? rr_failure_domain_diversity effective then false
  else true.

Definition has_authoritative_owner (r : ReplicaSetRecord) : bool :=
  existsb (λ m, bool_decide (rm_authority m = RAS.AUTHORITATIVE_OWNER)) (rs_authoritative_members r).

(** The size of the [std::set] of the listed identities. *)
Definition distinct (ids : list Z) : Z := Z.of_nat (size (list_to_set ids : gset Z)).

Definition set_state_is_explicit (s : ReplicaSetState) : bool :=
  match s with
  | RSS.SPLIT_BRAIN_RISK | RSS.REBUILDING | RSS.RETIRING => true
  | _ => false
  end.

Definition recompute_replica_set (record : ReplicaSetRecord) : ReplicaSetRecord :=
  let members := List.filter rm_authoritative (rs_authoritative_members record) in
  let authoritative := u32 (Z.of_nat (length members)) in
  let clusters := distinct (map rm_cluster_id members) in
  let regions := distinct (map rm_region members) in
  let domains := distinct (List.filter valid (map rm_failure_domain members)) in
  let any_corrupt :=
    existsb (λ m, bool_decide (rm_integrity m = RI.CORRUPT) ||
                  bool_decide (rm_integrity m = RI.MISMATCH)) members in
  let any_incompatible :=
    existsb (λ m, bool_decide (rm_compatibility m = RCS.INCOMPATIBLE)) members in
  let any_unverified :=
    existsb (λ m, bool_decide (rm_integrity m ≠ RI.VERIFIED) ||
                  bool_decide (rm_compatibility m ≠ RCS.COMPATIBLE)) members in
  let record :=
    record <| rs_authoritative_count := authoritative |>
      <| rs_degraded_count := u32 (Z.of_nat (length (rs_degraded_members record))) |>
      <| rs_distinct_clusters := u32 clusters |>
      <| rs_distinct_regions := u32 regions |>
      <| rs_distinct_failure_domains := u32 domains |> in
  if set_state_is_explicit (rs_state record) then record
  else if authoritative =? 0 then record <| rs_state := RSS.NO_AUTHORITATIVE_REPLICA |>
  else if any_incompatible || any_corrupt then record <| rs_state := RSS.CORRUPT |>
  else if rs_revalidation_required record || any_unverified
  then record <| rs_state := RSS.REVALIDATION_REQUIRED |>
  else if authoritative >? rr_maximum_replicas (rs_requirements record)
  then record <| rs_state := RSS.OVER_REPLICATED |>
  else if authoritative <? rr_minimum_authoritative_replicas (rs_requirements record)
  then record <| rs_state := RSS.UNDER_REPLICATED |>
  else if negb (meets_requirements record) then record <| rs_state := RSS.DEGRADED |>
  else record <| rs_state := RSS.HEALTHY |>.

Definition explain_replica_set (record : ReplicaSetRecord) : list string :=
  let requirements := rs_requirements record in
  ["state: " +:+ state_generation_label (rs_state_id record) (rs_state_generation record);
   "replica set generation: " +:+ id_to_string (rs_generation record);
   "replica set state: " +:+ to_string (rs_state record);
   "authoritative replicas: " +:+ to_string_u64 (rs_authoritative_count record) +:+
     " (minimum " +:+ to_string_u64 (rr_minimum_authoritative_replicas requirements) +:+
     ", desired " +:+ to_string_u64 (rr_desired_replicas requirements) +:+
     ", maximum " +:+ to_string_u64 (rr_maximum_replicas requirements) +:+ ")";
   "distinct clusters: " +:+ to_string_u64 (rs_distinct_clusters record) +:+
     " (required " +:+ to_string_u64 (rr_cluster_diversity requirements) +:+ ")";
   "distinct regions: " +:+ to_string_u64 (rs_distinct_regions record) +:+
     " (required " +:+ to_string_u64 (rr_region_diversity requirements) +:+ ")";
   "distinct failure domains: " +:+ to_string_u64 (rs_distinct_failure_domains record) +:+
     " (required " +:+ to_string_u64 (rr_failure_domain_diversity requirements) +:+ ")";
   "degraded members excluded from the factor: " +:+ to_string_u64 (rs_degraded_count record)] ++
  (if rs_authoritative_count record <? rr_minimum_authoritative_replicas requirements
   then ["shortfall: " +:+ to_string_u64
           (rr_minimum_authoritative_replicas requirements - rs_authoritative_count record) +:+
         " authoritative replica(s) required to satisfy the minimum"] else []) ++
  (if bool_decide (rs_state record = RSS.CORRUPT)
   then ["finding: a member reports corrupt or incompatible state"] else []) ++
  (if bool_decide (rs_state record = RSS.REVALIDATION_REQUIRED)
   then ["finding: verification evidence is stale or absent for a member"] else []) ++
  (if bool_decide (rs_state record = RSS.SPLIT_BRAIN_RISK)
   then ["finding: more than one ownership claim was observed for this generation"] else []) ++
  (if rs_revalidation_required record
   then ["finding: the replica set itself requires revalidation"] else []).

(** ** Authority and operations *)

Definition requires_single_authoritative_owner (mode : ConsistencyMode) : bool :=
  match mode with
  | CM.SINGLE_WRITER | CM.SNAPSHOT | CM.APPEND_ONLY => true
  | CM.IMMUTABLE | CM.OPAQUE_EXTERNAL_CONSISTENCY => false
  end.

Definition operation_state_is_terminal (s : OperationState) : bool :=
  match s with
  | OS.COMPLETE | OS.FAILED | OS.ABANDONED | OS.CANCELLED => true
  | _ => false
  end.

Definition operation_is_terminal (r : OperationRecord) : bool :=
  operation_state_is_terminal (op_state r).

Definition operation_is_active (r : OperationRecord) : bool :=
  match op_state r with
  | OS.PLANNED | OS.RESERVED | OS.STAGING_DESTINATION | OS.TRANSFERRING | OS.TRANSFERRED
  | OS.VERIFYING | OS.PREPARED | OS.COMMITTED | OS.ADDED_TO_REPLICA_SET | OS.SOURCE_RETIRING
  | OS.OUTCOME_UNKNOWN => true
  | _ => false
  end.

Definition yes_no (b : bool) : string := if b then "yes" else "no".

Definition explain_operation (r : OperationRecord) : list string :=
  ["operation: " +:+ id_to_string (op_operation_id r);
   "kind: " +:+ to_string (op_kind r);
   "state: " +:+ to_string (op_state r);
   "state generation: " +:+ state_generation_label (op_state_id r) (op_state_generation r);
   "source cluster: " +:+ id_to_string (op_source_cluster r);
   "source replica: " +:+ id_to_string (op_source_replica r);
   "destination cluster: " +:+ id_to_string (op_destination_cluster r);
   "destination replica: " +:+ id_to_string (op_destination_replica r);
   "coordinator epoch: " +:+ id_to_string (op_planned_epoch r);
   "replica set generation: " +:+ id_to_string (op_committed_replica_set_generation r);
   "destructive move: " +:+ yes_no (op_destructive_move r);
   "destination verified: " +:+ yes_no (op_destination_verified r);
   "destination committed: " +:+ yes_no (op_destination_committed r);
   "source retired: " +:+ yes_no (op_source_retired r)] ++
  (if bool_decide (op_reason r ≠ "") then ["reason: " +:+ op_reason r] else []) ++
  (if bool_decide (op_last_error r ≠ "") then ["last error: " +:+ op_last_error r] else []) ++
  map (λ entry, "journal: " +:+ entry) (op_journal r).

Definition newline : string := String (Ascii.ascii_of_nat 10) "".

Definition add_labeled (e : Explanation) (label value : string) : Explanation :=
  e <| ex_lines ::= λ l, l ++ [label +:+ ": " +:+ value] |>.

Definition render (e : Explanation) : string :=
  let title := if bool_decide (ex_title e ≠ "") then ex_title e +:+ newline else "" in
  fold_left (λ text line, text +:+ line +:+ newline) (ex_lines e) title.

(** ** Snapshot queries *)

Module Snapshot.

Definition find_state (s : FabricSnapshot) (state_id generation : Z)
    : option StateGenerationRecord :=
  find (λ r, (sg_state_id r =? state_id) && (sg_generation r =? generation)) (fs_states s).

Definition current_generation (s : FabricSnapshot) (state_id : Z) : option StateGenerationRecord :=
  find (λ r, (sg_state_id r =? state_id) && is_current r) (fs_states s).

Definition find_cluster (s : FabricSnapshot) (cluster_id : Z) : option ClusterRecord :=
  find (λ r, cl_cluster_id r =? cluster_id) (fs_clusters s).

Definition find_replica (s : FabricSnapshot) (replica_id : Z) : option ReplicaRecord :=
  find (λ r, rp_replica_id r =? replica_id) (fs_replicas s).

Definition find_replica_set (s : FabricSnapshot) (state_id generation : Z)
    : option ReplicaSetRecord :=
  find (λ r, (rs_state_id r =? state_id) && (rs_state_generation r =? generation))
    (fs_replica_sets s).

Definition find_operation (s : FabricSnapshot) (operation_id : Z) : option OperationRecord :=
  find (λ r, op_operation_id r =? operation_id) (fs_operations s).

Definition replicas_of (s : FabricSnapshot) (state_id generation : Z) : list ReplicaRecord :=
  List.filter (λ r, (rp_state_id r =? state_id) && (rp_state_generation r =? generation))
    (fs_replicas s).

Definition authoritative_replica_count (s : FabricSnapshot) (state_id generation : Z) : Z :=
  u32 (Z.of_nat (length (List.filter
    (λ r, (rp_state_id r =? state_id) && (rp_state_generation r =? generation) &&
          replica_counts_toward_replication_factor r) (fs_replicas s)))).

End Snapshot.

(** ** Replication requirements *)

(** The counts of a stored policy are unsigned. *)
Definition requirements_unsigned (r : ReplicationRequirements) : Prop :=
  0 ≤ rr_minimum_authoritative_replicas r ∧ 0 ≤ rr_desired_replicas r ∧ 0 ≤ rr_maximum_replicas r.

Lemma clamp_requirements_spec e :
  requirements_unsigned e →
  let c := clamp_requirements e in
  rr_maximum_replicas c = Z.max 1 (rr_maximum_replicas e) ∧
  rr_minimum_authoritative_replicas c =
    Z.min (Z.max 1 (rr_minimum_authoritative_replicas e)) (rr_maximum_replicas c) ∧
  rr_desired_replicas c =
    Z.min (Z.max (rr_desired_replicas e) (rr_minimum_authoritative_replicas c))
      (rr_maximum_replicas c) ∧
  rr_cluster_diversity c = rr_cluster_diversity e ∧
  rr_region_diversity c = rr_region_diversity e.
Proof.
  destruct e as [? mn de mx ? ? ? ? ?]. unfold requirements_unsigned, clamp_requirements. simpl.
  intros (Hmn & Hde & Hmx).
  destruct (Z.eqb_spec mx 0) as [->|]; simpl;
  (destruct (Z.eqb_spec mn 0) as [->|]; simpl);
  repeat (case_match; simpl in *); lia.
Qed.

(** A replication policy always yields a satisfiable requirement.  Whatever counts
    a policy declares, the effective ones satisfy
    1 <= minimum <= desired <= maximum; the declared maximum is only ever raised to
    one; SINGLE means exactly one replica, and the diverse forms ask for at least
    two clusters or regions. *)
Theorem effective_requirements_are_ordered (p : ReplicationPolicyRecord) :
  requirements_unsigned (rpp_requirements p) →
  let e := effective_requirements p in
  1 ≤ rr_minimum_authoritative_replicas e ≤ rr_desired_replicas e ∧
  rr_desired_replicas e ≤ rr_maximum_replicas e ∧
  match rr_form (rpp_requirements p) with
  | RPF.SINGLE => rr_maximum_replicas e = 1
  | RPF.CLUSTER_DIVERSE => 2 ≤ rr_cluster_diversity e ∧
      rr_maximum_replicas e = Z.max 1 (rr_maximum_replicas (rpp_requirements p))
  | RPF.REGION_DIVERSE => 2 ≤ rr_region_diversity e ∧ 2 ≤ rr_cluster_diversity e ∧
      rr_maximum_replicas e = Z.max 1 (rr_maximum_replicas (rpp_requirements p))
  | _ => rr_maximum_replicas e = Z.max 1 (rr_maximum_replicas (rpp_requirements p))
  end.
Proof.
  intros Hu e. unfold e, effective_requirements. destruct (rr_form (rpp_requirements p));
  match goal with |- context [clamp_requirements ?r] =>
    destruct (clamp_requirements_spec r) as (H1 & H2 & H3 & H4 & H5);
      [unfold requirements_unsigned in *; simpl; lia|] end;
  rewrite ?H4, ?H5; simpl in *; split_and!; try lia.
Qed.

Lemma effective_requirements_are_ordered_witness :
  let p := make_replication_policy 1 1 RPF.CLUSTER_DIVERSE 0 in
  2 ≤ rr_cluster_diversity (effective_requirements p).
Proof.
  intros p. apply (effective_requirements_are_ordered p). split_and!; vm_compute; discriminate.
Defined.
