(* ===== verification/Process.v ===== *)
(** * Child processes ([process.hpp] / [process.cpp])

    The command line a child is started with, and the lines its output is split
    into.  The command line is read back by the rules the platform documents for
    splitting one; spawning and waiting are operating-system calls. *)

From Stdlib Require Import Ascii.
From S2P Require Import Prelude Taxonomy Model ModelOps.

Local Open Scope Z_scope.
Local Open Scope char_scope.

(** ** Quoting *)

Definition kBackslash : ascii := "\".
Definition kQuote : ascii := ascii_of_nat 34.
Definition kTab : ascii := ascii_of_nat 9.
Definition kNewline : ascii := ascii_of_nat 10.
Definition kVerticalTab : ascii := ascii_of_nat 11.
Definition kReturn : ascii := ascii_of_nat 13.

(** The characters that [find_first_of] looks for. *)
Definition forces_quotes (c : ascii) : bool :=
  bool_decide (c = " ") || bool_decide (c = kTab) || bool_decide (c = kNewline) ||
  bool_decide (c = kVerticalTab) || bool_decide (c = kQuote).

Definition text : Type := list ascii.

Definition backslashes (n : nat) : text := replicate n kBackslash.

(** The loop of [quote_argument]: what is appended to [quoted], the backslashes seen
    since the last other character being held back. *)
Fixpoint quote_loop (held : nat) (argument : text) : text :=
  match argument with
  | [] => backslashes (held * 2) ++ [kQuote]
  | c :: rest =>
      if bool_decide (c = kBackslash) then quote_loop (held + 1) rest
      else if bool_decide (c = kQuote)
      then backslashes (held * 2 + 1) ++ [kQuote] ++ quote_loop 0 rest
      else backslashes held ++ [c] ++ quote_loop 0 rest
  end.

Definition quote_argument (argument : text) : text :=
  match argument with
  | [] => [kQuote; kQuote]
  | _ => if existsb forces_quotes argument then kQuote :: quote_loop 0 argument else argument
  end.

Definition build_command_line (executable : text) (arguments : list text) : text :=
  fold_left (λ command argument, command ++ [" "] ++ quote_argument argument) arguments
    (quote_argument executable).

(** ** The captured output *)

(** [ChildProcess::OutputState] without its mutex and condition. *)
Record OutputState := mkOutputState {
  os_pending : list text;
  os_transcript : list text;
  os_ended : bool;
  os_partial : text
}.

#[export] Instance OutputState_eta : Eta OutputState := λ s,
  mkOutputState (os_pending s) (os_transcript s) (os_ended s) (os_partial s).

Definition OutputState_default : OutputState := mkOutputState [] [] false [].

(** [partial.pop_back()] when the partial line ends with a return. *)
Fixpoint strip_return (line : text) : text :=
  match line with
  | [] => []
  | [c] => if bool_decide (c = kReturn) then [] else [c]
  | c :: rest => c :: strip_return rest
  end.

Definition push_line (line : text) (s : OutputState) : OutputState :=
  s <| os_pending ::= λ l, l ++ [line] |> <| os_transcript ::= λ l, l ++ [line] |>
    <| os_partial := [] |>.

(** One character of the reader's buffer. *)
Definition feed (s : OutputState) (c : ascii) : OutputState :=
  if bool_decide (c = kNewline) then push_line (strip_return (os_partial s)) s
  else s <| os_partial ::= λ l, l ++ [c] |>.

(** One successful [ReadFile]. *)
Definition read_chunk (s : OutputState) (buffer : text) : OutputState := fold_left feed buffer s.

(** The end of the pipe. *)
Definition finish_output (s : OutputState) : OutputState :=
  (match os_partial s with [] => s | line => push_line line s end) <| os_ended := true |>.

(** The reader thread over everything it reads. *)
Definition reader (chunks : list text) : OutputState :=
  finish_output (fold_left read_chunk chunks OutputState_default).

Fixpoint take_matching (predicate : text → bool) (pending : list text) : option (text * list text) :=
  match pending with
  | [] => None
  | line :: rest =>
      if predicate line then Some (line, rest)
      else match take_matching predicate rest with
           | Some (matched, rest) => Some (matched, line :: rest)
           | None => None
           end
  end.

(** What one look of [wait_for_line] at the state does. *)
Inductive Look := Matched (line : text) | Closed | Waits.

Definition wait_for_line (predicate : text → bool) (s : OutputState) : Look * OutputState :=
  match take_matching predicate (os_pending s) with
  | Some (line, pending) => (Matched line, s <| os_pending := pending |>)
  | None =>
      if os_ended s && match os_pending s with [] => true | _ => false end
      then (Closed, s) else (Waits, s)
  end.

Definition try_read_line (s : OutputState) : option text * OutputState :=
  match os_pending s with
  | [] => (None, s)
  | line :: pending => (Some line, s <| os_pending := pending |>)
  end.

(** ** Splitting a command line

    The documented rules for the arguments after the program name: blanks outside quotes
    separate; [2n] backslashes before a quote are [n] backslashes and the quote opens or
    closes; [2n + 1] are [n] backslashes and the quote itself; other backslashes stand
    for themselves. *)

Definition blank (c : ascii) : bool := bool_decide (c = " ") || bool_decide (c = kTab).

Definition argument_so_far (current : option text) (held : nat) : option text :=
  match current, held with
  | None, O => None
  | _, _ => Some (default [] current ++ backslashes held)
  end.

Fixpoint split_arguments (line : text) (held : nat) (quoted : bool) (current : option text)
    : list text :=
  match line with
  | [] => option_list (argument_so_far current held)
  | c :: rest =>
      if bool_decide (c = kBackslash) then split_arguments rest (held + 1) quoted current
      else if bool_decide (c = kQuote) then
        let before := default [] current ++ backslashes (held / 2) in
        if Nat.odd held then split_arguments rest 0 quoted (Some (before ++ [kQuote]))
        else split_arguments rest 0 (negb quoted) (Some before)
      else if blank c && negb quoted then
        option_list (argument_so_far current held) ++ split_arguments rest 0 false None
      else split_arguments rest 0 quoted (Some (default [] current ++ backslashes held ++ [c]))
  end.

(** The program name: up to the closing quote when it starts with one, and otherwise up
    to a blank; backslashes stand for themselves. *)
Fixpoint split_until (stop : ascii → bool) (line : text) : text * text :=
  match line with
  | [] => ([], [])
  | c :: rest =>
      if stop c then ([], rest)
      else let '(name, rest) := split_until stop rest in (c :: name, rest)
  end.

Definition split_command_line (line : text) : text * list text :=
  let '(name, rest) :=
    match line with
    | c :: rest =>
        if bool_decide (c = kQuote) then split_until (λ c, bool_decide (c = kQuote)) rest
        else split_until blank line
    | [] => ([], [])
    end in
  (name, split_arguments rest 0 false None).

(** ** An argument is read back *)

Lemma backslashes_app n m : backslashes n ++ backslashes m = backslashes (n + m).
Proof. unfold backslashes. by rewrite replicate_add. Qed.

Lemma split_backslashes n rest held quoted current :
  split_arguments (backslashes n ++ rest) held quoted current =
  split_arguments rest (held + n) quoted current.
Proof.
  revert held. induction n as [|n IH]; intros held; [by rewrite Nat.add_0_r|].
  cbn [backslashes replicate app split_arguments]. rewrite bool_decide_true by done.
  rewrite IH. f_equal. lia.
Qed.

Lemma split_quote rest held quoted current :
  split_arguments (kQuote :: rest) held quoted current =
  if Nat.odd held
  then split_arguments rest 0 quoted (Some (default [] current ++ backslashes (held / 2) ++ [kQuote]))
  else split_arguments rest 0 (negb quoted) (Some (default [] current ++ backslashes (held / 2))).
Proof. cbn [split_arguments]. rewrite bool_decide_false, bool_decide_true by done. by rewrite <-(assoc_L (++)). Qed.

Lemma split_ordinary c rest held quoted current :
  c ≠ kBackslash → c ≠ kQuote → quoted || negb (blank c) = true →
  split_arguments (c :: rest) held quoted current =
  split_arguments rest 0 quoted (Some (default [] current ++ backslashes held ++ [c])).
Proof.
  intros Hb Hq Ho. cbn [split_arguments]. rewrite !bool_decide_false by done.
  by destruct quoted, (blank c).
Qed.

(** The quoted part of an argument, up to and with its closing quote. *)
Lemma split_quoted argument held current rest :
  split_arguments (quote_loop held argument ++ rest) 0 true (Some current) =
  split_arguments rest 0 false (Some (current ++ backslashes held ++ argument)).
Proof.
  revert held current. induction argument as [|c argument IH]; intros held current; cbn [quote_loop].
  - rewrite <-(assoc_L (++)), split_backslashes. cbn [app]. rewrite split_quote, app_nil_r.
    replace (0 + held * 2)%nat with (2 * held)%nat by lia.
    rewrite Nat.odd_mul. cbn [Nat.odd Nat.even negb andb].
    by rewrite (Nat.mul_comm 2), Nat.div_mul.
  - case_bool_decide as Eb.
    { subst c. rewrite IH. f_equal. f_equal. f_equal.
      change (kBackslash :: argument) with (backslashes 1 ++ argument).
      by rewrite (assoc_L (++)), backslashes_app. }
    case_bool_decide as Eq.
    + subst c. rewrite <-!(assoc_L (++)), split_backslashes. cbn [app]. rewrite split_quote.
      assert (Nat.odd (0 + (held * 2 + 1)) = true) as ->.
      { replace (0 + (held * 2 + 1))%nat with (S (2 * held)) by lia. rewrite Nat.odd_succ.
        by rewrite Nat.even_mul. }
      replace ((0 + (held * 2 + 1)) / 2)%nat with held
        by (apply (Nat.div_unique _ _ _ 1); lia).
      rewrite IH. cbn [default backslashes replicate app]. f_equal. f_equal.
      by rewrite <-!(assoc_L (++)).
    + rewrite <-!(assoc_L (++)), split_backslashes. cbn [app].
      rewrite split_ordinary by done. rewrite IH. cbn [default backslashes replicate app Nat.add].
      f_equal. f_equal. by rewrite <-!(assoc_L (++)).
Qed.

(** An argument without a character that forces quotes. *)
Lemma split_plain argument held current rest :
  existsb forces_quotes argument = false →
  (rest = [] ∨ ∃ more, rest = " " :: more) →
  is_Some (argument_so_far current held) ∨ argument ≠ [] →
  split_arguments (argument ++ rest) held false current =
  (default [] current ++ backslashes held ++ argument) ::
  match rest with [] => [] | _ :: more => split_arguments more 0 false None end.
Proof.
  revert held current. induction argument as [|c argument IH]; intros held current Hf Hr Ha.
  - destruct Ha as [[a Ha]|]; [|done]. cbn [app]. rewrite app_nil_r.
    assert (argument_so_far current held = Some (default [] current ++ backslashes held)) as Hs.
    { unfold argument_so_far in *. by destruct current, held. }
    destruct Hr as [-> |[more ->]]; cbn [split_arguments]; rewrite Hs; [done|].
    by rewrite !bool_decide_false.
  - cbn [existsb] in Hf. apply orb_false_iff in Hf as [Hc Hf]. cbn [app].
    destruct (decide (c = kBackslash)) as [->|Hb].
    + cbn [split_arguments]. rewrite bool_decide_true by done. rewrite IH; [|done|done|].
      * f_equal. f_equal. change (kBackslash :: argument) with (backslashes 1 ++ argument).
        by rewrite (assoc_L (++)), backslashes_app.
      * left. replace (held + 1)%nat with (S held) by lia. unfold argument_so_far.
        destruct current; by eexists.
    + unfold forces_quotes in Hc.
      repeat match goal with H : _ || _ = false |- _ => apply orb_false_iff in H as [? ?] end.
      repeat match goal with H : bool_decide _ = false |- _ => apply bool_decide_eq_false_1 in H end.
      rewrite split_ordinary; [|done|done|].
      * rewrite IH; [|done|done|left; by eexists]. cbn [default backslashes replicate app].
        f_equal. unfold id. by rewrite <-!(assoc_L (++)).
      * unfold blank. by rewrite !bool_decide_false.
Qed.

Lemma split_argument argument rest :
  (rest = [] ∨ ∃ more, rest = " " :: more) →
  split_arguments (quote_argument argument ++ rest) 0 false None =
  argument :: match rest with [] => [] | _ :: more => split_arguments more 0 false None end.
Proof.
  intros Hr. assert (∀ (a : text), split_arguments rest 0 false (Some a) =
    a :: match rest with [] => [] | _ :: more => split_arguments more 0 false None end) as Hend.
  { intros a. pose proof (split_plain [] 0 (Some a) rest eq_refl Hr) as H. cbn in H.
    rewrite app_nil_r in H. apply H. left. by eexists. }
  unfold quote_argument. destruct argument as [|c argument].
  - cbn [app]. rewrite split_quote. cbn [Nat.odd Nat.even negb default]. rewrite split_quote.
    cbn [Nat.odd Nat.even negb default]. apply Hend.
  - destruct (existsb forces_quotes (c :: argument)) eqn:Ef.
    + change ((kQuote :: ?l) ++ rest) with (kQuote :: (l ++ rest)). rewrite split_quote.
      cbn [Nat.odd Nat.even negb default]. rewrite split_quoted, Hend. done.
    + rewrite split_plain; [done|done|done|by right].
Qed.

Lemma build_command_line_app executable arguments :
  build_command_line executable arguments =
  quote_argument executable ++ concat (map (λ argument, " " :: quote_argument argument) arguments).
Proof.
  unfold build_command_line. generalize (quote_argument executable). intros command. revert command.
  induction arguments as [|argument arguments IH]; intros command; cbn [fold_left map concat].
  - by rewrite app_nil_r.
  - rewrite IH. by rewrite <-!(assoc_L (++)).
Qed.

Lemma split_arguments_built arguments :
  match concat (map (λ argument, " " :: quote_argument argument) arguments) with
  | [] => arguments = []
  | c :: line => c = " " ∧ split_arguments line 0 false None = arguments
  end.
Proof.
  induction arguments as [|argument arguments IH]; cbn [map concat app]; [done|]. split; [done|].
  rewrite split_argument.
  - destruct (concat _) as [|c line]; [by subst|]. by destruct IH as [_ ->].
  - destruct (concat _) as [|c line]; [by left|]. destruct IH as [-> _]. right. by eexists.
Qed.

(** ** The program name is read back *)

(** A name the rules for the first word of a command line can express. *)
Definition plain_name (executable : text) : bool :=
  negb (existsb (λ c, bool_decide (c = kQuote)) executable) &&
  match list.last executable with
  | None => false
  | Some c => negb (bool_decide (c = kBackslash)) || negb (existsb forces_quotes executable)
  end.

Lemma split_until_stop stop name c rest :
  existsb stop name = false → stop c = true → split_until stop (name ++ c :: rest) = (name, rest).
Proof.
  intros Hn Hc. induction name as [|a name IH]; cbn [app split_until]; [by rewrite Hc|].
  cbn [existsb] in Hn. apply orb_false_iff in Hn as [-> Hn]. by rewrite IH.
Qed.

Lemma split_until_end stop name : existsb stop name = false → split_until stop name = (name, []).
Proof.
  intros Hn. induction name as [|a name IH]; cbn [split_until]; [done|].
  cbn [existsb] in Hn. apply orb_false_iff in Hn as [-> Hn]. by rewrite IH.
Qed.

(** Without a quote, and without a backslash at the end, the loop copies. *)
Lemma quote_loop_plain held argument :
  existsb (λ c, bool_decide (c = kQuote)) argument = false →
  (∃ c, list.last argument = Some c ∧ c ≠ kBackslash) ∨ (argument = [] ∧ held = O) →
  quote_loop held argument = backslashes held ++ argument ++ [kQuote].
Proof.
  revert held. induction argument as [|c argument IH]; intros held Hq Hl; cbn [quote_loop].
  - destruct Hl as [(c & Hc & _)|[_ ->]]; done.
  - cbn [existsb] in Hq. apply orb_false_iff in Hq as [Hc Hq].
    apply bool_decide_eq_false_1 in Hc. rewrite (bool_decide_false (c = kQuote)) by done.
    assert (∀ h, argument ≠ [] ∨ h = O → (∃ d, list.last argument = Some d ∧ d ≠ kBackslash) ∨
      (argument = [] ∧ h = O)) as Htail.
    { intros h Hh. destruct Hl as [(d & Hd & Hne)|[? _]]; [|done].
      destruct argument as [|b argument]; [|left; by exists d]. destruct Hh; [done|by right]. }
    case_bool_decide as Eb.
    + subst c. rewrite IH; [|done|].
      * by rewrite <-(backslashes_app held 1), <-(assoc_L (++)).
      * apply Htail. left. intros ->. destruct Hl as [(d & [= <-] & ?)|[? _]]; done.
    + rewrite (IH 0%nat Hq); [reflexivity|]. apply Htail. by right.
Qed.

Lemma plain_not_blank name : existsb forces_quotes name = false → existsb blank name = false.
Proof.
  induction name as [|c name IH]; cbn [existsb]; [done|]. intros [Hc Hn]%orb_false_iff.
  rewrite (IH Hn), orb_false_r. unfold forces_quotes in Hc. unfold blank.
  by destruct (bool_decide (c = " ")), (bool_decide (c = kTab)).
Qed.

Lemma split_name executable rest :
  plain_name executable = true → (rest = [] ∨ ∃ more, rest = " " :: more) →
  split_command_line (quote_argument executable ++ rest) =
  (executable, match rest with [] => [] | _ :: more => split_arguments more 0 false None end).
Proof.
  unfold plain_name. intros [Hq Hl]%andb_true_iff Hr. apply negb_true_iff in Hq.
  destruct (list.last executable) as [c|] eqn:El; [|done].
  assert (executable ≠ []) as Hne by by intros ->.
  unfold quote_argument, split_command_line.
  destruct executable as [|a name] eqn:Ex; [done|]. rewrite <-Ex in *. clear Ex Hne.
  destruct (existsb forces_quotes executable) eqn:Ef.
  - rewrite orb_false_r in Hl. apply negb_true_iff, bool_decide_eq_false_1 in Hl.
    rewrite quote_loop_plain by eauto. cbn [app backslashes replicate].
    rewrite bool_decide_true by done. rewrite <-(assoc_L (++)). cbn [app].
    rewrite split_until_stop by (done || by rewrite bool_decide_true).
    by destruct Hr as [-> |[more ->]].
  - destruct executable as [|b rest'] eqn:Ex; [done|]. cbn [app].
    cbn [existsb] in Hq. apply orb_false_iff in Hq as [-> _].
    change (b :: rest' ++ rest) with ((b :: rest') ++ rest). apply plain_not_blank in Ef.
    destruct Hr as [-> |[more ->]].
    + by rewrite app_nil_r, split_until_end.
    + by rewrite split_until_stop.
Qed.

(** ** Lines *)

Lemma read_chunks_concat chunks s : fold_left read_chunk chunks s = read_chunk s (concat chunks).
Proof.
  revert s. induction chunks as [|chunk chunks IH]; intros s; cbn [fold_left concat]; [done|].
  rewrite IH. unfold read_chunk. by rewrite fold_left_app.
Qed.

Lemma read_plain line s :
  existsb (λ c, bool_decide (c = kNewline)) line = false →
  read_chunk s line = s <| os_partial ::= λ l, l ++ line |>.
Proof.
  revert s. induction line as [|c line IH]; intros s Hl; cbn [read_chunk fold_left].
  - destruct s. cbn. by rewrite app_nil_r.
  - cbn [existsb] in Hl. apply orb_false_iff in Hl as [Hc Hl]. unfold feed at 2. rewrite Hc.
    fold (read_chunk (s <| os_partial ::= λ l, l ++ [c] |>) line). rewrite IH by done.
    destruct s. cbn. by rewrite <-(assoc_L (++)).
Qed.

(** A line as a child prints it, with either line ending. *)
Definition printed (line : text * bool) : text :=
  line.1 ++ (if line.2 then [kReturn; kNewline] else [kNewline]).

Definition printable (line : text * bool) : bool :=
  negb (existsb (λ c, bool_decide (c = kNewline)) line.1) &&
  (line.2 || negb (bool_decide (list.last line.1 = Some kReturn))).

Lemma strip_return_last line :
  list.last line ≠ Some kReturn → strip_return line = line.
Proof.
  induction line as [|c line IH]; intros Hl; [done|]. cbn [strip_return].
  destruct line as [|b line]; [by rewrite bool_decide_false by (intros ->; by apply Hl)|].
  f_equal. by apply IH.
Qed.

Lemma strip_return_snoc line : strip_return (line ++ [kReturn]) = line.
Proof.
  induction line as [|c line IH]; [done|]. cbn [app strip_return].
  destruct (line ++ [kReturn]) eqn:E; [by destruct line|]. by rewrite IH.
Qed.

Lemma feed_newline s : feed s kNewline = push_line (strip_return (os_partial s)) s.
Proof. done. Qed.

Lemma feed_return s : feed s kReturn = s <| os_partial ::= λ l, l ++ [kReturn] |>.
Proof. done. Qed.

Lemma read_printed line s :
  printable line = true → os_partial s = [] →
  read_chunk s (printed line) = push_line line.1 s.
Proof.
  intros [Hn Hr]%andb_true_iff Hs. apply negb_true_iff in Hn. unfold printed, read_chunk.
  rewrite fold_left_app. fold (read_chunk s line.1). rewrite read_plain by done.
  destruct s as [pending transcript ended partial]. cbn in Hs. subst partial.
  destruct line as [line []]; cbn [fst snd] in *; cbn [fold_left]; rewrite ?feed_return, feed_newline.
  - cbn. by rewrite strip_return_snoc.
  - cbn. rewrite strip_return_last; [done|].
    apply negb_true_iff, bool_decide_eq_false_1 in Hr. done.
Qed.

Lemma read_lines lines s :
  forallb printable lines = true → os_partial s = [] →
  read_chunk s (concat (map printed lines)) =
  s <| os_pending ::= λ l, l ++ map fst lines |> <| os_transcript ::= λ l, l ++ map fst lines |>.
Proof.
  revert s. induction lines as [|line lines IH]; intros s Hl Hs; cbn [map concat forallb] in *.
  - destruct s. cbn. by rewrite !app_nil_r.
  - apply andb_true_iff in Hl as [Hp Hl]. unfold read_chunk. rewrite fold_left_app.
    fold (read_chunk s (printed line)). rewrite read_printed by done.
    fold (read_chunk (push_line line.1 s) (concat (map printed lines))). rewrite IH by done.
    destruct s. cbn in Hs |- *. subst. by rewrite <-!(assoc_L (++)).
Qed.

(** ** Properties *)

(** A command line carries its arguments.  Splitting the line built for an executable
    and any list of arguments, however many blanks, quotes and backslashes they hold, by
    the documented rules gives back the executable and exactly those arguments, the
    executable being a name without quotes that does not end in a backslash where it
    needs quoting. *)
Theorem command_line_round_trip (executable : text) (arguments : list text) :
  plain_name executable = true →
  split_command_line (build_command_line executable arguments) = (executable, arguments).
Proof.
  intros Hp. rewrite build_command_line_app. pose proof (split_arguments_built arguments) as Ha.
  destruct (concat _) as [|c line]; rewrite split_name by (done || (left; done) || (right; destruct Ha as [-> _]; by eexists)).
  - by rewrite Ha.
  - by destruct Ha as [_ ->].
Qed.

(** At work: blanks, a trailing backslash and quotes. *)
Lemma command_line_round_trip_witness :
  let executable := String.list_ascii_of_string "/opt/ccsf agent"%string in
  let arguments := [String.list_ascii_of_string "a b\"%string; []; String.list_ascii_of_string "c\"%string ++ [kQuote; kQuote]] in
  split_command_line (build_command_line executable arguments) = (executable, arguments).
Proof. apply command_line_round_trip. vm_compute. reflexivity. Defined.

(** The transcript is what the child printed, whatever pieces the pipe delivers it in and
    whichever line ending it uses. *)
Theorem transcript_is_what_was_printed (chunks : list text) (lines : list (text * bool)) :
  forallb printable lines = true → concat chunks = concat (map printed lines) →
  os_transcript (reader chunks) = map fst lines ∧ os_pending (reader chunks) = map fst lines ∧
  os_ended (reader chunks) = true.
Proof.
  intros Hl Hc. unfold reader. rewrite read_chunks_concat, Hc, read_lines by done. done.
Qed.

(** Once the output has ended, a caller waiting for a line that is not among the pending
    ones waits for ever: the state tells it neither a match nor the end. *)
Theorem unmatched_line_waits (predicate : text → bool) (s : OutputState) :
  os_ended s = true → os_pending s ≠ [] → take_matching predicate (os_pending s) = None →
  wait_for_line predicate s = (Waits, s).
Proof. unfold wait_for_line. intros -> Hp ->. by destruct (os_pending s). Qed.
