(* ===== verification/ChildProcess.v ===== *)
(** * Starting and stopping children ([ChildProcess] of [process.cpp], Windows branch)

    The handles a child process holds, from [spawn] to the destructor.  What the
    platform answers is an argument of each call; on other platforms every call
    reports that it is not supported. *)

From Stdlib Require Import Ascii.
From S2P Require Import Prelude Taxonomy Model ModelOps Process.

Local Open Scope Z_scope.

Record ProcessOptions := mkProcessOptions {
  po_executable : text;
  po_arguments : list text;
  po_working_directory : text;
  po_capture_output : bool;
  po_environment : list text
}.

(** The handles of this process that a child is about. *)
Inductive Handle := ReadEnd | WriteEnd | ProcessHandle | ThreadHandle.

#[export] Instance Handle_eq_dec : EqDecision Handle.
Proof. solve_decision. Defined.

Definition CloseHandle (handle : Handle) (handles : list Handle) : list Handle :=
  List.filter (λ other, negb (bool_decide (other = handle))) handles.

(** What the platform answers to the calls of [spawn]: whether a pipe is made, how text is
    converted to wide characters, and the number of the process that is created. *)
Record Platform := mkPlatform {
  pf_create_pipe : bool;
  pf_convert : text → option (list Z);
  pf_create_process : option Z
}.

Definition to_wide (platform : Platform) (line : text) : list Z :=
  match line with [] => [] | _ => default [] (pf_convert platform line) end.

(** A [char] that becomes a [wchar_t]: 16 bits, with the sign of the byte. *)
Definition widen (c : ascii) : Z :=
  let code := Z.of_N (N_of_ascii c) in if code <? 128 then code else code + 65280.

(** What [CreateProcessW] is given. *)
Record Launch := mkLaunch {
  la_executable : list Z;
  la_command_line : list Z;
  la_inherit_handles : bool;
  la_environment : option (list Z);
  la_directory : option (list Z)
}.

Definition launch_of (platform : Platform) (options : ProcessOptions) : Launch :=
  mkLaunch (to_wide platform (po_executable options))
    (map widen (build_command_line (po_executable options) (po_arguments options)))
    (po_capture_output options) None
    (match to_wide platform (po_working_directory options) with
     | [] => None
     | directory => Some directory
     end).

Record ChildProcess := mkChildProcess {
  ch_process_handle : bool;
  ch_thread_handle : bool;
  ch_pipe_read : bool;
  ch_process_id : Z;
  ch_output : option OutputState
}.

(** The child, what was launched, and the handles that are open afterwards. *)
Definition spawn (platform : Platform) (options : ProcessOptions) (handles : list Handle)
    : Result ChildProcess * option Launch * list Handle :=
  let capture := po_capture_output options in
  match po_executable options with
  | [] => (Err EC.INVALID_ARGUMENT, None, handles)
  | _ =>
      if capture && negb (pf_create_pipe platform) then (Err EC.INTERNAL_ERROR, None, handles)
      else
        let handles := if capture then ReadEnd :: WriteEnd :: handles else handles in
        match to_wide platform (po_executable options) with
        | [] =>
            (Err EC.INVALID_ARGUMENT, None,
             if capture then CloseHandle WriteEnd (CloseHandle ReadEnd handles) else handles)
        | _ =>
            let launch := launch_of platform options in
            let closed := if capture then CloseHandle WriteEnd handles else handles in
            match pf_create_process platform with
            | None =>
                (Err EC.INTERNAL_ERROR, Some launch,
                 if capture then CloseHandle ReadEnd closed else closed)
            | Some process_id =>
                (Ok (mkChildProcess true true capture process_id
                       (if capture then Some OutputState_default else None)),
                 Some launch, ProcessHandle :: ThreadHandle :: closed)
            end
        end
  end.

(** Whether the child still runs, by what the platform says. *)
Definition running (alive : bool) (child : ChildProcess) : bool := ch_process_handle child && alive.

(** [wait]: the exit code, a [DWORD] that is cast to [int]. *)
Definition wait (exit_code : option Z) (child : ChildProcess) : Result Z :=
  if negb (ch_process_handle child) then Err EC.INVALID_ARGUMENT
  else match exit_code with
       | None => Err EC.INTERNAL_ERROR
       | Some code => Ok (if code <? 2 ^ 31 then code else code - 2 ^ 32)
       end.

Definition kill (terminated : bool) (child : ChildProcess) : Result unit :=
  if negb (ch_process_handle child) then Err EC.INVALID_ARGUMENT
  else if terminated then Ok tt else Err EC.INTERNAL_ERROR.

(** [transcript], [wait_for_line] and [try_read_line] of a child whose output may not be
    captured. *)
Definition transcript (child : ChildProcess) : list text :=
  match ch_output child with None => [] | Some state => os_transcript state end.

Definition child_wait_for_line (predicate : option (text → bool)) (child : ChildProcess)
    : Result Look * ChildProcess :=
  match ch_output child with
  | None => (Err EC.NOT_SUPPORTED, child)
  | Some state =>
      let '(look, state) := wait_for_line (default (λ _, true) predicate) state in
      (Ok look, mkChildProcess (ch_process_handle child) (ch_thread_handle child)
                  (ch_pipe_read child) (ch_process_id child) (Some state))
  end.

Definition child_try_read_line (child : ChildProcess) : option text * ChildProcess :=
  match ch_output child with
  | None => (None, child)
  | Some state =>
      let '(line, state) := try_read_line state in
      (line, mkChildProcess (ch_process_handle child) (ch_thread_handle child)
               (ch_pipe_read child) (ch_process_id child) (Some state))
  end.

(** [wait_for_output_end] looks at the state it finds each time it is woken, and returns at the
    first one whose output has ended; [None] when it still waits. *)
Fixpoint ended_after (woken : list OutputState) : option OutputState :=
  match woken with
  | [] => None
  | state :: woken => if os_ended state then Some state else ended_after woken
  end.

Definition wait_for_output_end (woken : list OutputState) (child : ChildProcess)
    : option (option OutputState) :=
  match ch_output child with
  | None => Some None
  | Some state => Some <$> ended_after (state :: woken)
  end.

(** The states the reader thread leaves under the lock: one for each chunk it reads, and the
    last one when the pipe is closed. *)
Fixpoint reader_states (chunks : list text) (state : OutputState) : list OutputState :=
  match chunks with
  | [] => [finish_output state]
  | chunk :: chunks => let state := read_chunk state chunk in state :: reader_states chunks state
  end.

(** The destructor, once the child has ended and the reader thread is joined. *)
Definition destroy (child : ChildProcess) (handles : list Handle) : list Handle :=
  let handles := if ch_thread_handle child then CloseHandle ThreadHandle handles else handles in
  let handles := if ch_process_handle child then CloseHandle ProcessHandle handles else handles in
  if ch_pipe_read child then CloseHandle ReadEnd handles else handles.

(** ** Other platforms *)

Module Fallback.
Definition spawn (options : ProcessOptions) : Result ChildProcess := Err EC.NOT_SUPPORTED.
Definition wait_for_line (predicate : option (text → bool)) (child : ChildProcess) : Result text :=
  Err EC.NOT_SUPPORTED.
Definition try_read_line (child : ChildProcess) : option text := None.
Definition wait_for_output_end (child : ChildProcess) : ChildProcess := child.
Definition wait (child : ChildProcess) : Result Z := Err EC.NOT_SUPPORTED.
Definition running (child : ChildProcess) : bool := false.
Definition kill (child : ChildProcess) : Result unit := Err EC.NOT_SUPPORTED.
Definition transcript (child : ChildProcess) : list text := [].
End Fallback.

(** ** Handles *)

(** No handle is leaked: a failed [spawn] leaves none of its handles open, and those of a
    child are closed by its destructor. *)
Theorem handles_are_not_leaked platform options :
  let '(result, launch, handles) := spawn platform options [] in
  match result with
  | Err _ => handles = []
  | Ok child => destroy child handles = [] ∧ WriteEnd ∉ handles ∧ is_Some launch
  end.
Proof.
  unfold spawn, to_wide, destroy. cbv zeta.
  repeat (case_match; simplify_eq; try done); cbn in *; simplify_eq; try done;
    (split; [reflexivity|split; [|by eexists]]); apply (bool_decide_unpack _); by vm_compute.
Qed.

(** The extra environment of the options never reaches the child. *)
Theorem environment_is_ignored platform options environment handles :
  spawn platform options handles =
  spawn platform (mkProcessOptions (po_executable options) (po_arguments options)
    (po_working_directory options) (po_capture_output options) environment) handles.
Proof. done. Qed.

(** Text outside ASCII is not converted on the command line: its bytes become characters
    of their own. *)
Lemma accented_argument_is_mangled :
  map widen (quote_argument [ascii_of_nat 195; ascii_of_nat 169]) = [65475; 65449].
Proof. vm_compute. reflexivity. Qed.

(** ** The end of the output *)

Lemma reader_not_ended chunk state : os_ended state = false → os_ended (read_chunk state chunk) = false.
Proof.
  unfold read_chunk. revert state. induction chunk as [|c chunk IH]; intros state H; cbn; [done|].
  apply IH. unfold feed, push_line. destruct (bool_decide (c = kNewline)); done.
Qed.

Lemma ended_after_reader chunks state :
  os_ended state = false →
  ended_after (reader_states chunks state) = Some (finish_output (fold_left read_chunk chunks state)).
Proof.
  revert state. induction chunks as [|chunk chunks IH]; intros state H; cbn.
  - by destruct (os_partial state).
  - rewrite reader_not_ended by done. apply IH. by apply reader_not_ended.
Qed.

(** Once the pipe of a child that was just started is closed, the wait for the end of its output
    returns, and what it finds is everything the child printed. *)
Lemma output_end_is_complete chunks child :
  ch_output child = Some OutputState_default →
  wait_for_output_end (reader_states chunks OutputState_default) child = Some (Some (reader chunks)).
Proof.
  intros H. unfold wait_for_output_end. rewrite H. cbn [ended_after os_ended OutputState_default].
  by rewrite ended_after_reader.
Qed.
