(* ===== verification/Authority.v ===== *)
(** * Replica authority ([authority.hpp] / [authority.cpp])

    The single assessment every reuse, replication-source and retirement decision
    goes through.  [assess_facts] is the evidence the function gathers,
    [assess_denial] its cascade of early returns in source order. *)

From S2P Require Import Prelude Taxonomy Model Cost ModelOps.

Local Open Scope Z_scope.

Definition lifecycle_is (r : ReplicaRecord) (l : ReplicaLifecycle) : bool :=
  bool_decide (rp_lifecycle r = l).

(** [staging] of the source. *)
Definition replica_is_staging (r : ReplicaRecord) : bool :=
  lifecycle_is r RL.PLANNED || lifecycle_is r RL.RESERVED || lifecycle_is r RL.STAGING.

Definition assess_facts (replica : ReplicaRecord) (context : AuthorityContext)
    : ReplicaAuthorityAssessment :=
  let terminal := replica_is_terminal replica in
  let staging := replica_is_staging replica in
  let current :=
    match ac_state context with
    | Some state =>
        (sg_generation state =? rp_state_generation replica) &&
        (sg_state_id state =? rp_state_id replica) && is_current state &&
        negb (sg_revalidation_required state) && negb (lifecycle_is replica RL.SUPERSEDED)
    | None => false
    end in
  ReplicaAuthorityAssessment_default
    <| ra_physically_present :=
         negb terminal && negb staging && bool_decide (rp_availability replica ≠ RA.ABSENT) |>
    <| ra_transfer_complete :=
         negb terminal &&
         (lifecycle_is replica RL.TRANSFERRED || lifecycle_is replica RL.VERIFYING ||
          lifecycle_is replica RL.PREPARED || lifecycle_is replica RL.AUTHORITATIVE ||
          lifecycle_is replica RL.DEGRADED || rp_commit_recorded replica) |>
    <| ra_integrity_verified :=
         bool_decide (rp_integrity replica = RI.VERIFIED) &&
         re_integrity_evidence_present (rp_evidence replica) |>
    <| ra_compatibility_verified := bool_decide (rp_compatibility replica = RCS.COMPATIBLE) |>
    <| ra_cluster_incarnation_current :=
         match ac_cluster context with
         | Some cluster =>
             (cl_incarnation cluster =? rlo_cluster_incarnation (rp_location replica)) &&
             cl_live_authority cluster
         | None => false
         end |>
    <| ra_coordinator_epoch_current :=
         negb (valid (rp_last_epoch replica)) ||
         (rp_last_epoch replica <=? ac_current_epoch context) |>
    <| ra_evidence_current :=
         negb (re_revalidation_required (rp_evidence replica)) &&
         valid (re_evidence_generation (rp_evidence replica)) &&
         match ac_cluster context with
         | Some cluster => cluster_evidence_is_current cluster
         | None => true
         end |>
    <| ra_current_for_state_generation := current |>
    <| ra_member_of_current_replica_set_generation :=
         match ac_replica_set context with
         | Some set =>
             valid (rp_replica_set_id replica) &&
             (rp_replica_set_id replica =? rs_replica_set_id set) &&
             (rs_state_generation set =? rp_state_generation replica) &&
             rp_commit_recorded replica && rp_counts_toward_factor replica
         | None => false
         end |>
    <| ra_fenced :=
         bool_decide (rp_authority replica = RAS.FENCED) ||
         lifecycle_is replica RL.QUARANTINED || lifecycle_is replica RL.STALE ||
         match ac_cluster context with
         | Some cluster => negb (cl_live_authority cluster)
         | None => false
         end |>
    <| ra_historical_only := negb terminal && negb current |>.

(** The five policy gates; a missing policy opens them all. *)
Definition gate (policy : option ReplicationPolicyRecord)
    (required : ReplicationPolicyRecord → bool) (fact : bool) : bool :=
  match policy with
  | None => true
  | Some p => negb (required p) || fact
  end.

Definition assess_denial (replica : ReplicaRecord) (context : AuthorityContext)
    (a : ReplicaAuthorityAssessment) : option (ErrorCode * string) :=
  let id := "replica " +:+ id_to_string (rp_replica_id replica) in
  let lifecycle := to_string (rp_lifecycle replica) in
  let policy := ac_policy context in
  if replica_is_terminal replica then
    Some (EC.NOT_FOUND, id +:+ " is " +:+ lifecycle +:+ " and holds no authority")
  else if replica_is_staging replica then
    Some (EC.AUTHORITY_NOT_ESTABLISHED,
          id +:+ " is still " +:+ lifecycle +:+ " and has not been committed")
  else if ra_fenced a then
    Some (EC.FENCED,
          id +:+ " is fenced: its cluster incarnation or lifecycle no longer holds authority")
  else match ac_cluster context with
  | None =>
    Some (EC.UNKNOWN_CLUSTER, "cluster " +:+ id_to_string (rlo_cluster_id (rp_location replica)) +:+
          " is not registered")
  | Some cluster =>
  if negb (ra_cluster_incarnation_current a) then
    Some (EC.STALE_CLUSTER_INCARNATION,
          id +:+ " was written under cluster incarnation " +:+
          id_to_string (rlo_cluster_incarnation (rp_location replica)) +:+ " but cluster " +:+
          id_to_string (rlo_cluster_id (rp_location replica)) +:+ " is now at incarnation " +:+
          id_to_string (cl_incarnation cluster))
  else if negb (ra_coordinator_epoch_current a) then
    Some (EC.STALE_EPOCH,
          id +:+ " carries coordinator epoch " +:+ id_to_string (rp_last_epoch replica) +:+
          " ahead of the current epoch " +:+ id_to_string (ac_current_epoch context))
  else if lifecycle_is replica RL.REVALIDATION_REQUIRED ||
          re_revalidation_required (rp_evidence replica) then
    Some (EC.REVALIDATION_REQUIRED,
          id +:+ " requires revalidation of its live evidence before reuse")
  else if negb (ra_physically_present a) then
    Some (EC.NO_AUTHORITATIVE_REPLICA,
          id +:+ " is not physically present (availability " +:+
          to_string (rp_availability replica) +:+ ")")
  else match ac_state context with
  | None =>
    Some (EC.UNKNOWN_STATE, "state generation " +:+ id_to_string (rp_state_generation replica) +:+
          " is not registered")
  | Some state =>
  if negb (sg_state_id state =? rp_state_id replica) ||
     negb (sg_generation state =? rp_state_generation replica) then
    Some (EC.STALE_STATE_GENERATION,
          id +:+ " does not reference the requested state generation")
  else if lifecycle_is replica RL.SUPERSEDED then
    Some (EC.STALE_STATE_GENERATION, id +:+ " is superseded")
  else if lifecycle_is replica RL.CORRUPT || bool_decide (rp_integrity replica = RI.CORRUPT) then
    Some (EC.INTEGRITY_MISMATCH, id +:+ " is corrupt")
  else if bool_decide (rp_integrity replica = RI.MISMATCH) then
    Some (EC.INTEGRITY_MISMATCH, id +:+ " failed integrity verification")
  else if bool_decide (rp_compatibility replica = RCS.INCOMPATIBLE) then
    Some (EC.INCOMPATIBLE, id +:+ " is incompatible with the state requirement")
  else if lifecycle_is replica RL.RETIRING then
    Some (EC.FENCED, id +:+ " is retiring and may not serve reuse")
  else if negb (gate policy (λ p, rar_require_verified_integrity (rpp_reuse_rules p))
                  (ra_integrity_verified a)) then
    Some (EC.INTEGRITY_UNKNOWN,
          id +:+ " has no verified integrity evidence for the required generation")
  else if negb (gate policy (λ p, rar_require_verified_compatibility (rpp_reuse_rules p))
                  (ra_compatibility_verified a)) then
    Some (EC.COMPATIBILITY_UNKNOWN, id +:+ " has no verified compatibility evidence")
  else if negb (gate policy (λ p, rar_require_current_state_generation (rpp_reuse_rules p))
                  (ra_current_for_state_generation a)) then
    Some (EC.STALE_STATE_GENERATION,
          id +:+ " is not current for the authoritative state generation")
  else if negb (gate policy (λ p, rar_require_replica_set_membership (rpp_reuse_rules p))
                  (ra_member_of_current_replica_set_generation a)) then
    Some (EC.STALE_REPLICA_SET_GENERATION,
          id +:+ " is not a member of the current replica set generation")
  else if negb (gate policy (λ p, rvr_require_fresh_health_evidence (rpp_revalidation p) ||
                                  rvr_require_fresh_capability_evidence (rpp_revalidation p))
                  (ra_evidence_current a)) then
    Some (EC.REVALIDATION_REQUIRED,
          id +:+ " has stale dynamic evidence and must be revalidated")
  else if negb (lifecycle_is replica RL.AUTHORITATIVE) && negb (lifecycle_is replica RL.DEGRADED) then
    Some (EC.AUTHORITY_NOT_ESTABLISHED,
          id +:+ " is in lifecycle " +:+ lifecycle +:+ " and holds no committed authority")
  else None
  end end.

Definition assess_replica_authority (replica : ReplicaRecord) (context : AuthorityContext)
    : ReplicaAuthorityAssessment :=
  let a := assess_facts replica context in
  match assess_denial replica context a with
  | Some (code, reason) => a <| ra_code := code |> <| ra_reason := reason |>
  | None =>
      a <| ra_authoritative_for_reuse := true |>
        <| ra_authoritative_as_replication_source := true |>
        <| ra_authoritative_for_migration_source_retirement := rp_commit_recorded replica |>
        <| ra_code := EC.OK |>
        <| ra_reason := "replica " +:+ id_to_string (rp_replica_id replica) +:+
             " is authoritative for reuse of " +:+
             state_generation_label (rp_state_id replica) (rp_state_generation replica) |>
  end.

Definition assessment_permits_reuse (a : ReplicaAuthorityAssessment) : bool :=
  ra_authoritative_for_reuse a && bool_decide (ra_code a = EC.OK).

Definition describe_authority (replica : ReplicaRecord) (a : ReplicaAuthorityAssessment) : string :=
  "replica " +:+ id_to_string (rp_replica_id replica) +:+ " in cluster " +:+
  id_to_string (rlo_cluster_id (rp_location replica)) +:+ ": " +:+ to_string (ra_code a) +:+
  " - " +:+ ra_reason a.

(** ** What an authoritative assessment implies *)

Lemma lifecycle_is_true r l : lifecycle_is r l = true ↔ rp_lifecycle r = l.
Proof. apply bool_decide_eq_true. Qed.

Lemma lifecycle_is_false r l : lifecycle_is r l = false ↔ rp_lifecycle r ≠ l.
Proof. apply bool_decide_eq_false. Qed.

#[export] Hint Rewrite lifecycle_is_true lifecycle_is_false : ccsf_rw.

(** Facts that hold of every replica the program calls authoritative, whatever
    the policy. *)
Record authority_core (replica : ReplicaRecord) (context : AuthorityContext) : Prop := {
  core_cluster : ∃ cluster, ac_cluster context = Some cluster ∧ cl_live_authority cluster = true ∧
    cl_incarnation cluster = rlo_cluster_incarnation (rp_location replica);
  core_state : ∃ state, ac_state context = Some state ∧
    sg_state_id state = rp_state_id replica ∧ sg_generation state = rp_state_generation replica;
  core_epoch : rp_last_epoch replica = 0 ∨ rp_last_epoch replica ≤ ac_current_epoch context;
  core_lifecycle : rp_lifecycle replica = RL.AUTHORITATIVE ∨ rp_lifecycle replica = RL.DEGRADED;
  core_unfenced : rp_authority replica ≠ RAS.FENCED;
  core_evidence : re_revalidation_required (rp_evidence replica) = false;
  core_present : rp_availability replica ≠ RA.ABSENT;
  core_integrity : rp_integrity replica ≠ RI.CORRUPT ∧ rp_integrity replica ≠ RI.MISMATCH;
  core_compatibility : rp_compatibility replica ≠ RCS.INCOMPATIBLE
}.

(** Facts the policy's gates add. *)
Record authority_gates (p : ReplicationPolicyRecord) (a : ReplicaAuthorityAssessment) : Prop := {
  gate_integrity : rar_require_verified_integrity (rpp_reuse_rules p) = true →
    ra_integrity_verified a = true;
  gate_compatibility : rar_require_verified_compatibility (rpp_reuse_rules p) = true →
    ra_compatibility_verified a = true;
  gate_generation : rar_require_current_state_generation (rpp_reuse_rules p) = true →
    ra_current_for_state_generation a = true;
  gate_membership : rar_require_replica_set_membership (rpp_reuse_rules p) = true →
    ra_member_of_current_replica_set_generation a = true;
  gate_evidence :
    rvr_require_fresh_health_evidence (rpp_revalidation p) = true ∨
    rvr_require_fresh_capability_evidence (rpp_revalidation p) = true →
    ra_evidence_current a = true
}.

Lemma gate_true policy required fact p :
  gate policy required fact = true → policy = Some p → required p = true → fact = true.
Proof. intros Hg -> Hr. unfold gate in Hg. by rewrite Hr in Hg. Qed.

(** Reads one early return that was not taken. *)
Ltac not_denied H :=
  match type of H with
  | (if ?b then _ else _) = None => let E := fresh "N" in destruct b eqn:E; [discriminate H|]
  | match ?o with Some _ => _ | None => _ end = None =>
      let E := fresh "N" in destruct o eqn:E; [|discriminate H]
  end.

Lemma undenied_core replica context :
  assess_denial replica context (assess_facts replica context) = None →
  authority_core replica context ∧
  (∀ p, ac_policy context = Some p → authority_gates p (assess_facts replica context)).
Proof.
  intros H. unfold assess_denial in H. repeat not_denied H. clear H.
  repeat match goal with
    | N : negb (gate _ _ _) = false |- _ => apply negb_false_iff in N
    end.
  split; cycle 1.
  { intros p Hp. split; intros.
    - by eapply gate_true in N14.
    - by eapply gate_true in N15.
    - by eapply gate_true in N16.
    - by eapply gate_true in N17.
    - eapply gate_true in N18; [done|done|]. by apply orb_true_iff. }
  assert (rp_lifecycle replica = RL.AUTHORITATIVE ∨ rp_lifecycle replica = RL.DEGRADED) as Hlife.
  { apply andb_false_iff in N19. rewrite !negb_false_iff, !lifecycle_is_true in N19. tauto. }
  unfold assess_facts in N1, N3, N4, N6. simpl in N1, N3, N4, N6.
  rewrite N2 in *. bool_simpl.
  split; try tauto.
  - exists c. naive_solver.
  - exists s. naive_solver.
Qed.

Lemma denial_code_not_ok replica context a code reason :
  assess_denial replica context a = Some (code, reason) → code ≠ EC.OK.
Proof.
  unfold assess_denial. intros H ->.
  repeat match type of H with
    | (if ?b then _ else _) = Some _ => destruct b; [injection H as H _; discriminate H|]
    | match ?o with Some _ => _ | None => _ end = Some _ =>
        destruct o; [|injection H as H _; discriminate H]
    end.
  discriminate H.
Qed.

Lemma assess_reuse_iff replica context :
  ra_authoritative_for_reuse (assess_replica_authority replica context) = true ↔
  assess_denial replica context (assess_facts replica context) = None.
Proof.
  unfold assess_replica_authority.
  by destruct (assess_denial _ _ _) as [[code reason]|] eqn:E.
Qed.

(** The flags of the result are the gathered facts. *)
Lemma assess_keeps_facts replica context :
  ra_integrity_verified (assess_replica_authority replica context) =
    ra_integrity_verified (assess_facts replica context) ∧
  ra_compatibility_verified (assess_replica_authority replica context) =
    ra_compatibility_verified (assess_facts replica context) ∧
  ra_current_for_state_generation (assess_replica_authority replica context) =
    ra_current_for_state_generation (assess_facts replica context) ∧
  ra_member_of_current_replica_set_generation (assess_replica_authority replica context) =
    ra_member_of_current_replica_set_generation (assess_facts replica context) ∧
  ra_evidence_current (assess_replica_authority replica context) =
    ra_evidence_current (assess_facts replica context).
Proof.
  unfold assess_replica_authority. generalize (assess_facts replica context). intros a.
  destruct (assess_denial replica context a) as [[code reason]|]; destruct a; repeat split.
Qed.

(** The same authority in three readings: the flag, the code and the source flag
    never disagree. *)
Lemma assess_flags_agree replica context :
  let a := assess_replica_authority replica context in
  (ra_authoritative_for_reuse a = true ↔ ra_code a = EC.OK) ∧
  ra_authoritative_as_replication_source a = ra_authoritative_for_reuse a ∧
  (ra_authoritative_for_migration_source_retirement a = true →
     ra_authoritative_for_reuse a = true ∧ rp_commit_recorded replica = true) ∧
  assessment_permits_reuse a = ra_authoritative_for_reuse a.
Proof.
  intros a. unfold a, assess_replica_authority, assessment_permits_reuse.
  assert (ra_authoritative_for_reuse (assess_facts replica context) = false ∧
    ra_authoritative_as_replication_source (assess_facts replica context) = false ∧
    ra_authoritative_for_migration_source_retirement (assess_facts replica context) = false)
    as (H1&H2&H3) by done.
  clear a. revert H1 H2 H3. generalize (assess_facts replica context). intros a H1 H2 H3.
  destruct (assess_denial replica context a) as [[code reason]|] eqn:E; simpl.
  - apply denial_code_not_ok in E. rewrite H1, H2, H3. naive_solver.
  - naive_solver.
Qed.

Lemma authoritative_core replica context :
  ra_authoritative_for_reuse (assess_replica_authority replica context) = true →
  authority_core replica context ∧
  (∀ p, ac_policy context = Some p →
     authority_gates p (assess_replica_authority replica context)).
Proof.
  rewrite assess_reuse_iff. intros H. apply undenied_core in H as [Hc Hg]. split; [done|].
  intros p Hp. destruct (Hg p Hp) as [G1 G2 G3 G4 G5].
  destruct (assess_keeps_facts replica context) as (E1&E2&E3&E4&E5).
  split; [rewrite E1|rewrite E2|rewrite E3|rewrite E4|rewrite E5]; done.
Qed.

(** Conversely, the core facts and the gates of the policy are enough. *)
Lemma core_undenied replica context :
  authority_core replica context →
  (∀ p, ac_policy context = Some p → authority_gates p (assess_facts replica context)) →
  assess_denial replica context (assess_facts replica context) = None.
Proof.
  intros [(c & Ec & Hlive & Hinc) (s & Es & Hs1 & Hs2) Hep Hlife Hfen Hev Hpres [Hi1 Hi2] Hcomp] Hg.
  assert (∀ l, l ≠ RL.AUTHORITATIVE → l ≠ RL.DEGRADED → lifecycle_is replica l = false) as Hl.
  { intros l ??. apply lifecycle_is_false. destruct Hlife; congruence. }
  assert (replica_is_terminal replica = false) as Ht.
  { unfold replica_is_terminal. destruct Hlife as [E|E]; by rewrite E. }
  assert (replica_is_staging replica = false) as Hst.
  { unfold replica_is_staging. by rewrite !Hl. }
  assert (∀ required fact, (∀ p, ac_policy context = Some p → required p = true → fact = true) →
    gate (ac_policy context) required fact = true) as Hgate.
  { intros required fact Hf. unfold gate. destruct (ac_policy context) as [p|]; [|done].
    destruct (required p) eqn:E; [|done]. simpl. by eapply Hf. }
  set (a := assess_facts replica context) in *.
  assert (ra_fenced a = false) as Ef.
  { simpl. rewrite Ec, Hlive, !Hl by done. by rewrite bool_decide_eq_false_2. }
  assert (ra_cluster_incarnation_current a = true) as Ei.
  { simpl. rewrite Ec, Hinc, Hlive, Z.eqb_refl. done. }
  assert (ra_coordinator_epoch_current a = true) as Eep.
  { simpl. bool_simpl. unfold valid. destruct Hep; [left|right]; lia. }
  assert (ra_physically_present a = true) as Ep.
  { simpl. rewrite Ht, Hst. by rewrite bool_decide_eq_true_2. }
  unfold assess_denial. rewrite Ht, Hst, Ef, Ec, Ei, Eep, Ep, Es, Hev.
  rewrite (Hl RL.REVALIDATION_REQUIRED), (Hl RL.SUPERSEDED), (Hl RL.CORRUPT), (Hl RL.RETIRING) by done.
  rewrite Hs1, Hs2, !Z.eqb_refl. rewrite (bool_decide_eq_false_2 _ Hi1).
  rewrite (bool_decide_eq_false_2 _ Hi2), (bool_decide_eq_false_2 _ Hcomp).
  rewrite !Hgate; cycle 1.
  1-5: intros p Hp Hr; destruct (Hg p Hp); auto. { apply orb_true_iff in Hr. auto. }
  cbn [negb orb].
  assert (lifecycle_is replica RL.AUTHORITATIVE = true ∨ lifecycle_is replica RL.DEGRADED = true) as [E|E]
    by (rewrite !lifecycle_is_true; done); rewrite E; cbn [negb andb]; [done|].
  by rewrite andb_false_r.
Qed.

(** ** Properties *)

(** C32: authority is earned and complete.  A replica is assessed authoritative for
    reuse exactly when the code is [OK], exactly when it is committed-lifecycle,
    unfenced, present, uncorrupted, compatible, on a live cluster at the
    incarnation it was written under, bound to the state generation in question,
    not ahead of the epoch, with no pending revalidation, and passes every gate of
    the policy in force; the source and retirement flags never exceed it. *)
Theorem authority_is_exactly_earned (replica : ReplicaRecord) (context : AuthorityContext) :
  let a := assess_replica_authority replica context in
  (ra_authoritative_for_reuse a = true ↔
     authority_core replica context ∧ ∀ p, ac_policy context = Some p → authority_gates p a) ∧
  (ra_authoritative_for_reuse a = true ↔ ra_code a = EC.OK) ∧
  ra_authoritative_as_replication_source a = ra_authoritative_for_reuse a ∧
  (ra_authoritative_for_migration_source_retirement a = true →
     ra_authoritative_for_reuse a = true ∧ rp_commit_recorded replica = true).
Proof.
  intros a. destruct (assess_flags_agree replica context) as (H1 & H2 & H3 & _).
  split; [|done]. split; [apply authoritative_core|].
  intros [Hc Hg]. apply assess_reuse_iff, core_undenied; [done|]. intros p Hp.
  destruct (Hg p Hp) as [G1 G2 G3 G4 G5].
  destruct (assess_keeps_facts replica context) as (E1&E2&E3&E4&E5).
  split; rewrite <-?E1, <-?E2, <-?E3, <-?E4, <-?E5; done.
Qed.
