(* ===== verification/ControlPlane.v ===== *)
(** * The control plane image ([detail/control_plane.hpp] / [.cpp])

    Redo effects, their application to the in-memory image, the structural
    validation every load runs, replica-set derivation from replica records, and
    the exported snapshot. *)

From S2P Require Import Prelude Taxonomy Model Cost ModelOps.

Local Open Scope Z_scope.

(** One redo effect; a C++ [Effect] carries a kind and the payload of that kind. *)
Inductive Effect :=
  | PUT_STATE (record : StateGenerationRecord)
  | PUT_CLUSTER (record : ClusterRecord)
  | PUT_REPLICA (record : ReplicaRecord)
  | PUT_REPLICA_SET (record : ReplicaSetRecord)
  | PUT_OPERATION (record : OperationRecord)
  | PUT_AUTHORIZATION (record : TransferAuthorization)
  | PUT_OWNERSHIP (record : OwnershipRecord)
  | PUT_COMPATIBILITY (record : CompatibilityRecord)
  | PUT_PLACEMENT_POLICY (record : PlacementPolicyRecord)
  | PUT_REPLICATION_POLICY (record : ReplicationPolicyRecord)
  | PUT_COUNTERS (counters : FabricCounters)
  | SET_EPOCH (epoch : Z)
  | SET_NEXT_ID (next_id : Z).

(** The [bump] lambda of [ControlPlane::apply]. *)
Definition bump (next_id value : Z) : Z := if value >=? next_id then u64 (value + 1) else next_id.

(** Every identity an effect's [case] bumps, in order. *)
Definition effect_ids (effect : Effect) : list Z :=
  match effect with
  | PUT_STATE r =>
      [sg_state_id r; sg_generation r; sg_compatibility_id r; sg_replica_set_id r;
       ri_reconstruction_id (sg_reconstruction r)]
  | PUT_CLUSTER r => [cl_cluster_id r; cl_incarnation r; cl_worker_id r; cl_worker_boot_id r]
  | PUT_REPLICA r => [rp_replica_id r; rp_replica_generation r; rp_transfer_id r; rp_operation_id r]
  | PUT_REPLICA_SET r => [rs_replica_set_id r; rs_generation r]
  | PUT_OPERATION r => [op_operation_id r; op_migration_id r; op_transfer_id r; op_reservation_id r]
  | PUT_AUTHORIZATION r => [ta_operation_id r; ta_transfer_id r; ta_reservation_id r]
  | PUT_OWNERSHIP r => [ow_commit r]
  | PUT_COMPATIBILITY r => [cr_compatibility_id r; cr_generation r]
  | PUT_PLACEMENT_POLICY r => [pp_placement_policy_id r; pp_generation r]
  | PUT_REPLICATION_POLICY r => [rpp_replication_policy_id r; rpp_generation r]
  | PUT_COUNTERS _ | SET_EPOCH _ | SET_NEXT_ID _ => []
  end.

Definition state_key (r : StateGenerationRecord) : Z * Z := (sg_state_id r, sg_generation r).
Definition replica_state_key (r : ReplicaRecord) : Z * Z := (rp_state_id r, rp_state_generation r).
Definition set_key (r : ReplicaSetRecord) : Z * Z := (rs_state_id r, rs_state_generation r).
Definition operation_state_key (r : OperationRecord) : Z * Z :=
  (op_state_id r, op_state_generation r).
Definition ownership_key (r : OwnershipRecord) : Z * Z := (ow_state_id r, ow_state_generation r).

Definition apply (plane : ControlPlane) (effect : Effect) : ControlPlane :=
  let plane := plane <| pl_next_id ::= λ n, fold_left bump (effect_ids effect) n |> in
  match effect with
  | PUT_STATE r => plane <| pl_states ::= <[state_key r := r]> |>
  | PUT_CLUSTER r => plane <| pl_clusters ::= <[cl_cluster_id r := r]> |>
  | PUT_REPLICA r => plane <| pl_replicas ::= <[rp_replica_id r := r]> |>
  | PUT_REPLICA_SET r => plane <| pl_replica_sets ::= <[set_key r := r]> |>
  | PUT_OPERATION r => plane <| pl_operations ::= <[op_operation_id r := r]> |>
  | PUT_AUTHORIZATION r => plane <| pl_authorizations ::= <[ta_operation_id r := r]> |>
  | PUT_OWNERSHIP r => plane <| pl_ownership ::= <[ownership_key r := r]> |>
  | PUT_COMPATIBILITY r =>
      plane <| pl_compatibility_records ::= <[cr_compatibility_id r := r]> |>
  | PUT_PLACEMENT_POLICY r =>
      plane <| pl_placement_policies ::= <[pp_placement_policy_id r := r]> |>
  | PUT_REPLICATION_POLICY r =>
      plane <| pl_replication_policies ::= <[rpp_replication_policy_id r := r]> |>
  | PUT_COUNTERS c => plane <| pl_counters := c |>
  | SET_EPOCH e =>
      if e >? pl_coordinator_epoch plane then plane <| pl_coordinator_epoch := e |> else plane
  | SET_NEXT_ID n =>
      if n >? pl_next_id plane then plane <| pl_next_id := n |> else plane
  end.

Definition apply_all (plane : ControlPlane) (effects : list Effect) : ControlPlane :=
  fold_left apply effects plane.

Definition record_count (plane : ControlPlane) : Z :=
  Z.of_nat (size (pl_states plane) + size (pl_clusters plane) + size (pl_replicas plane) +
    size (pl_replica_sets plane) + size (pl_operations plane) + size (pl_authorizations plane) +
    size (pl_ownership plane) + size (pl_compatibility_records plane) +
    size (pl_placement_policies plane) + size (pl_replication_policies plane)).

(** The accounting loop shared by [recompute_derived_counters],
    [collect_snapshot] and [status]: active operations, active transfers and
    reserved bytes. *)
Definition account_operation (acc : Z * Z * Z) (operation : OperationRecord) : Z * Z * Z :=
  let '(active_operations, active_transfers, reserved_bytes) := acc in
  if operation_is_terminal operation then acc
  else
    (u64 (active_operations + 1),
     if bool_decide (op_state operation = OS.TRANSFERRING) ||
        bool_decide (op_state operation = OS.STAGING_DESTINATION)
     then u64 (active_transfers + 1) else active_transfers,
     if size_known (op_transfer_bytes operation)
     then u64 (reserved_bytes + sz_bytes (op_transfer_bytes operation)) else reserved_bytes).

Definition derived_counters (plane : ControlPlane) (counters : FabricCounters) : FabricCounters :=
  let '(active_operations, active_transfers, reserved_bytes) :=
    fold_left account_operation (values (pl_operations plane)) (0, 0, 0) in
  counters <| fc_active_operations := active_operations |>
    <| fc_active_transfers := active_transfers |>
    <| fc_reserved_bytes := reserved_bytes |>
    <| fc_reserved_transfer_slots := active_transfers |>.

Definition recompute_derived_counters (plane : ControlPlane) : ControlPlane :=
  plane <| pl_counters ::= derived_counters plane |>.

Definition has_key {K V} `{Countable K} (m : gmap K V) (key : K) : bool :=
  bool_decide (is_Some (m !! key)).

Definition validate_replica (plane : ControlPlane) (entry : Z * ReplicaRecord) : bool :=
  let replica := entry.2 in
  (rp_replica_id replica =? entry.1) &&
  has_key (pl_states plane) (replica_state_key replica) &&
  has_key (pl_clusters plane) (rlo_cluster_id (rp_location replica)) &&
  (negb (valid (rp_replica_set_id replica)) ||
   has_key (pl_replica_sets plane) (replica_state_key replica)).

Definition validate_replica_set (plane : ControlPlane) (entry : (Z * Z) * ReplicaSetRecord) : bool :=
  has_key (pl_states plane) entry.1 &&
  forallb (λ m, has_key (pl_replicas plane) (rm_replica_id m))
    (rs_authoritative_members entry.2) &&
  forallb (λ m, has_key (pl_replicas plane) (rm_replica_id m))
    (rs_degraded_members entry.2).

Definition validate (plane : ControlPlane) : bool :=
  forallb (validate_replica plane) (entries (pl_replicas plane)) &&
  forallb (validate_replica_set plane) (entries (pl_replica_sets plane)) &&
  forallb (λ entry, has_key (pl_states plane) (operation_state_key entry.2))
    (entries (pl_operations plane)) &&
  forallb (λ entry : (Z * Z) * OwnershipRecord, has_key (pl_states plane) entry.1)
    (entries (pl_ownership plane)) &&
  forallb (λ entry : (Z * Z) * StateGenerationRecord,
             (sg_state_id entry.2 =? entry.1.1) && (sg_generation entry.2 =? entry.1.2))
    (entries (pl_states plane)).

Definition make_member (replica : ReplicaRecord) : ReplicaSetMember :=
  let location := rp_location replica in
  mkReplicaSetMember (rp_replica_id replica) (rp_replica_generation replica)
    (rlo_cluster_id location) (rlo_cluster_incarnation location)
    (rlo_region location) (rlo_failure_domain location)
    (replica_counts_toward_replication_factor replica)
    (rp_lifecycle replica) (rp_integrity replica) (rp_compatibility replica)
    (rp_authority replica) (rp_commit_id replica) (rp_updated_at replica).

(** The replicas of a generation in identity order. *)
Definition generation_replicas (plane : ControlPlane) (key : Z * Z) : list ReplicaRecord :=
  List.filter (λ r, bool_decide (replica_state_key r = key)) (values (pl_replicas plane)).

Definition live_members (plane : ControlPlane) (key : Z * Z) : list ReplicaRecord :=
  List.filter (λ r, negb (replica_is_terminal r)) (generation_replicas plane key).

Definition rebuild_replica_set (plane : ControlPlane) (set : ReplicaSetRecord) : ReplicaSetRecord :=
  let live := live_members plane (set_key set) in
  recompute_replica_set
    (set <| rs_authoritative_members :=
              map make_member (List.filter replica_counts_toward_replication_factor live) |>
         <| rs_degraded_members :=
              map make_member
                (List.filter (λ r, negb (replica_counts_toward_replication_factor r)) live) |>).

(** [collect_snapshot] overwrites every field it sets; [journal_records] is not
    one of them. *)
Definition collect_snapshot (plane : ControlPlane) (snapshot : FabricSnapshot) : FabricSnapshot :=
  let counters :=
    derived_counters plane
      ((pl_counters plane) <| fc_durable_commits := pl_durable_sequence plane |>
         <| fc_journal_records_applied := pl_journal_records plane |>
         <| fc_snapshots_written := pl_snapshots_written plane |>) in
  snapshot <| fs_coordinator_id := pl_coordinator_id plane |>
    <| fs_coordinator_epoch := pl_coordinator_epoch plane |>
    <| fs_logical_time := pl_logical_time plane |>
    <| fs_durable_sequence := pl_durable_sequence plane |>
    <| fs_replay_generation := pl_replay_generation plane |>
    <| fs_counters := counters |>
    <| fs_states := values (pl_states plane) |>
    <| fs_clusters := values (pl_clusters plane) |>
    <| fs_replicas := values (pl_replicas plane) |>
    <| fs_replica_sets := map (rebuild_replica_set plane) (values (pl_replica_sets plane)) |>
    <| fs_operations := values (pl_operations plane) |>
    <| fs_ownership := values (pl_ownership plane) |>
    <| fs_compatibility_records := values (pl_compatibility_records plane) |>
    <| fs_active_authorizations := values (pl_authorizations plane) |>.
