(* ===== verification/Placement.v ===== *)
(** * Deterministic placement ([placement.hpp] / [placement.cpp])

    Hard constraints in source order, fixed-point scoring of sixteen named factors,
    ranking with its tie breaks, and the decision with its reasons. *)

From S2P Require Import Prelude Taxonomy Model Cost ModelOps.

Local Open Scope Z_scope.

Definition kFixedOne : Z := 1000000.
Definition kReuseCapMilli : Z := 1000000.
Definition kCostCapMicro : Z := 100000000.
Definition kBandwidthCapBytesPerTick : Z := 10 * 1024 * 1024 * 1024.
Definition kDurationCapTicks : Z := 1000000.

Definition normalize_u64 (value cap : Z) : Z :=
  if cap =? 0 then 0
  else if value >=? cap then kFixedOne
  else i64 (u64 (value * kFixedOne) / cap).

Definition normalize_cost (value : CostValue) : Z :=
  if negb (cost_known value) then 0
  else
    let magnitude :=
      if cv_micro_units value <? 0 then i64 (- cv_micro_units value) else cv_micro_units value in
    if magnitude >=? kCostCapMicro then kFixedOne
    else Z.quot (i64 (magnitude * kFixedOne)) kCostCapMicro.

Definition health_score (health : ClusterHealthState) : Z :=
  match health with
  | CH.HEALTHY => kFixedOne
  | CH.DEGRADED => kFixedOne / 2
  | CH.DRAINING => kFixedOne / 4
  | CH.UNKNOWN | CH.UNREACHABLE | CH.FAILED => 0
  end.

Definition diversity_score (already_present : bool) (present_count required : Z) : Z :=
  if negb already_present then kFixedOne
  else if required =? 0 then kFixedOne / 4
  else if present_count >=? required then kFixedOne / 4 else 0.

(** ** Hard constraints *)

Definition reject (constraint detail : string) (code : ErrorCode) : ConstraintOutcome :=
  mkConstraintOutcome false constraint detail code.

Definition accept : ConstraintOutcome := mkConstraintOutcome true "none" "" EC.OK.

(** [contains_cluster], [contains_region] and [contains_domain]. *)
Definition contains_id (values : list Z) (value : Z) : bool := list_contains values value.

Definition durability_sufficient (minimum : DurabilityClass) (achievable : ReplicaDurabilityState)
    : bool :=
  bool_decide (achievable = RD.DURABLE) || bool_decide (achievable = RD.ARCHIVAL) ||
  ((enum_value minimum <=? enum_value DC.STANDARD) && bool_decide (achievable = RD.STANDARD)).

Definition count32 {A} (l : list A) : Z := u32 (Z.of_nat (length l)).

(** Constraints on capacity, freshness, diversity and cost. *)
Definition evaluate_resource_constraints (candidate : PlacementCandidate)
    (request : PlacementRequest) : ConstraintOutcome :=
  let constraints := pp_constraints (pr_policy request) in
  let id := "cluster " +:+ id_to_string (pcd_cluster_id candidate) in
  let capacity := pcd_capacity candidate in
  if size_known (pc_required_free_capacity constraints) &&
     negb (has_room_for capacity (sz_bytes (pc_required_free_capacity constraints))) then
    reject "capacity"
      (id +:+ " has " +:+ to_string_u64 (free_logical_bytes capacity) +:+
       " free bytes, below the required " +:+
       to_string_u64 (sz_bytes (pc_required_free_capacity constraints)))
      EC.CAPACITY_INSUFFICIENT
  else if size_known (pcd_logical_size candidate) && (cp_total_logical_bytes capacity >? 0) &&
          negb (has_room_for capacity (sz_bytes (pcd_logical_size candidate))) then
    reject "capacity" (id +:+ " cannot hold the state's logical size") EC.CAPACITY_INSUFFICIENT
  else if negb (pc_maximum_evidence_staleness_ticks constraints =? 0) &&
          (negb (ce_present (pcd_evidence candidate)) ||
           ce_revalidation_required (pcd_evidence candidate)) then
    reject "evidence_freshness" (id +:+ " has no current evidence publication") EC.STALE_EVIDENCE
  else if negb (pc_maximum_evidence_staleness_ticks constraints =? 0) &&
          (ce_published_at (pcd_evidence candidate) <? pr_now request) &&
          (pr_now request - ce_published_at (pcd_evidence candidate) >?
           pc_maximum_evidence_staleness_ticks constraints) then
    reject "evidence_freshness" (id +:+ " evidence is stale") EC.STALE_EVIDENCE
  else if (pc_minimum_cluster_diversity constraints >? 0) &&
          (count32 (pr_current_clusters request) <? pc_minimum_cluster_diversity constraints) &&
          contains_id (pr_current_clusters request) (pcd_cluster_id candidate) then
    reject "cluster_diversity" (id +:+ " does not improve cluster diversity")
      EC.DESTINATION_INELIGIBLE
  else if (pc_minimum_region_diversity constraints >? 0) &&
          (count32 (pr_current_regions request) <? pc_minimum_region_diversity constraints) &&
          contains_id (pr_current_regions request) (pcd_region candidate) then
    reject "region_diversity"
      ("region " +:+ id_to_string (pcd_region candidate) +:+ " does not improve region diversity")
      EC.DESTINATION_INELIGIBLE
  else if (pc_minimum_failure_domain_diversity constraints >? 0) &&
          (count32 (pr_current_failure_domains request) <?
           pc_minimum_failure_domain_diversity constraints) &&
          contains_id (pr_current_failure_domains request) (pcd_failure_domain candidate) then
    reject "failure_domain_diversity"
      ("failure domain " +:+ id_to_string (pcd_failure_domain candidate) +:+
       " does not improve failure domain diversity")
      EC.DESTINATION_INELIGIBLE
  else if cost_known (pc_maximum_transfer_cost constraints) &&
          negb (cost_known (pcd_transfer_cost candidate)) then
    reject "maximum_transfer_cost"
      (id +:+ " has no known transfer cost while policy bounds transfer cost")
      EC.DESTINATION_INELIGIBLE
  else if cost_known (pc_maximum_transfer_cost constraints) &&
          (cost_compare (pcd_transfer_cost candidate) (pc_maximum_transfer_cost constraints) >? 0)
  then
    reject "maximum_transfer_cost" (id +:+ " transfer cost exceeds the policy bound")
      EC.POLICY_VIOLATION
  else accept.

(** Constraints on capabilities, compatibility, integrity and durability. *)
Definition evaluate_capability_constraints (candidate : PlacementCandidate)
    (request : PlacementRequest) : ConstraintOutcome :=
  let constraints := pp_constraints (pr_policy request) in
  let id := "cluster " +:+ id_to_string (pcd_cluster_id candidate) in
  let capabilities := pcd_capabilities candidate in
  match find (λ c, negb (has_tag capabilities c)) (pc_required_capabilities constraints) with
  | Some capability =>
      reject "required_capability" (id +:+ " lacks capability " +:+ capability)
        EC.DESTINATION_INELIGIBLE
  | None =>
  match find (λ c, negb (has_storage_class capabilities c))
          (pc_required_storage_classes constraints) with
  | Some storage_class =>
      reject "required_storage_class" (id +:+ " lacks storage class " +:+ storage_class)
        EC.DESTINATION_INELIGIBLE
  | None =>
  match find (λ c, negb (has_tag capabilities c)) (pc_required_sovereignty_tags constraints) with
  | Some tag =>
      reject "required_sovereignty_tag" (id +:+ " lacks data sovereignty tag " +:+ tag)
        EC.DESTINATION_INELIGIBLE
  | None =>
  if pc_require_encryption_at_rest constraints && negb (cc_encryption_at_rest capabilities) then
    reject "required_encryption" (id +:+ " cannot attest encryption at rest")
      EC.DESTINATION_INELIGIBLE
  else if pc_require_attestation constraints && negb (cc_attestation capabilities) then
    reject "required_attestation" (id +:+ " cannot attest its platform") EC.DESTINATION_INELIGIBLE
  else if pc_require_compatibility_verification constraints &&
          bool_decide (pcd_compatibility candidate = CRes.INCOMPATIBLE) then
    reject "compatibility" (id +:+ " is incompatible with the state compatibility identity")
      EC.INCOMPATIBLE
  else if pc_require_compatibility_verification constraints &&
          bool_decide (pcd_compatibility candidate ≠ CRes.COMPATIBLE) then
    reject "compatibility"
      (id +:+ " compatibility evidence is " +:+ to_string (pcd_compatibility candidate))
      EC.COMPATIBILITY_UNKNOWN
  else if pc_require_integrity_verification constraints &&
          negb (pcd_integrity_evidence_available candidate) then
    reject "integrity_evidence" (id +:+ " has no available integrity evidence for this generation")
      EC.INTEGRITY_UNKNOWN
  else if bool_decide (pc_minimum_durability constraints ≠ DC.UNKNOWN) &&
          negb (durability_sufficient (pc_minimum_durability constraints)
                  (pcd_achievable_durability candidate)) then
    reject "minimum_durability"
      (id +:+ " cannot establish the required durability class " +:+
       to_string (pc_minimum_durability constraints)) EC.DESTINATION_INELIGIBLE
  else evaluate_resource_constraints candidate request
  end end end.

Definition unhealthy (health : ClusterHealthState) : bool :=
  match health with CH.UNREACHABLE | CH.FAILED | CH.UNKNOWN => true | _ => false end.

Definition evaluate_hard_constraints (candidate : PlacementCandidate) (request : PlacementRequest)
    (state : option StateGenerationRecord) : ConstraintOutcome :=
  let constraints := pp_constraints (pr_policy request) in
  let destination_rules := rpp_destination_rules (pr_replication_policy request) in
  let cluster := pcd_cluster_id candidate in
  let region := pcd_region candidate in
  let id := "cluster " +:+ id_to_string cluster in
  match state with
  | None =>
      reject "state_known" "no governed state generation record is available" EC.UNKNOWN_STATE
  | Some _ =>
  if negb (valid cluster) then
    reject "cluster_identity" "candidate has no cluster identity" EC.INVALID_ARGUMENT
  else if negb (valid (pcd_cluster_incarnation candidate)) then
    reject "cluster_incarnation"
      ("candidate cluster has no live incarnation for " +:+ id_to_string cluster)
      EC.STALE_CLUSTER_INCARNATION
  else if contains_id (pc_prohibited_clusters constraints) cluster then
    reject "prohibited_cluster" (id +:+ " is prohibited by policy") EC.DESTINATION_INELIGIBLE
  else if negb (bool_decide (pc_legal_clusters constraints = [])) &&
          negb (contains_id (pc_legal_clusters constraints) cluster) then
    reject "legal_cluster" (id +:+ " is not in the legal cluster set") EC.DESTINATION_INELIGIBLE
  else if negb (bool_decide (pc_legal_regions constraints = [])) &&
          negb (contains_id (pc_legal_regions constraints) region) then
    reject "legal_region" ("region " +:+ id_to_string region +:+ " is not in the legal region set")
      EC.DESTINATION_INELIGIBLE
  else if contains_id (pc_prohibited_regions constraints) region then
    reject "prohibited_region" ("region " +:+ id_to_string region +:+ " is prohibited by policy")
      EC.DESTINATION_INELIGIBLE
  else if pc_require_locality constraints &&
          negb (contains_id (pc_locality_clusters constraints) cluster) then
    reject "required_locality" (id +:+ " is outside the required locality") EC.DESTINATION_INELIGIBLE
  else if contains_id (er_denied_clusters destination_rules) cluster then
    reject "destination_denied" (id +:+ " is denied by replication policy")
      EC.DESTINATION_INELIGIBLE
  else if negb (bool_decide (er_allowed_clusters destination_rules = [])) &&
          negb (contains_id (er_allowed_clusters destination_rules) cluster) then
    reject "destination_not_allowed" (id +:+ " is not an allowed destination")
      EC.DESTINATION_INELIGIBLE
  else if pcd_already_hosts_current_replica candidate &&
          negb (er_allow_same_cluster destination_rules) then
    reject "duplicate_destination"
      (id +:+ " already hosts a current replica of this generation") EC.DUPLICATE_CONFLICT
  else if er_require_healthy_destination destination_rules && unhealthy (pcd_health candidate) then
    reject "destination_health" (id +:+ " health is " +:+ to_string (pcd_health candidate))
      EC.DESTINATION_INELIGIBLE
  else if bool_decide (pc_required_health constraints = CH.HEALTHY) &&
          bool_decide (pcd_health candidate ≠ CH.HEALTHY) then
    reject "required_health" (id +:+ " does not meet the required health floor")
      EC.DESTINATION_INELIGIBLE
  else evaluate_capability_constraints candidate request
  end.

(** ** Scoring *)

Record FactorInput := mkFactorInput {
  fi_factor : RankingFactor;
  fi_unknown : bool;
  fi_normalized : Z;
  fi_evidence : string
}.

Definition cost_factor (factor : RankingFactor) (cost : CostValue) (label name : string)
    : FactorInput :=
  if cost_known cost then mkFactorInput factor false (normalize_cost cost) (describe_cost_in cost label)
  else mkFactorInput factor true 0 ("UNKNOWN " +:+ name).

Definition reuse_factor (candidate : PlacementCandidate) (state : option StateGenerationRecord)
    : FactorInput :=
  let unknown := mkFactorInput RF.EXPECTED_REUSE_VALUE true 0 "UNKNOWN expected reuse" in
  if reuse_known (pcd_expected_reuse candidate) then
    mkFactorInput RF.EXPECTED_REUSE_VALUE false
      (normalize_u64 (expected_value_milli (pcd_expected_reuse candidate)) kReuseCapMilli)
      (describe_reuse (pcd_expected_reuse candidate))
  else match state with
       | Some s =>
           if reuse_known (sg_expected_reuse s) then
             mkFactorInput RF.EXPECTED_REUSE_VALUE false
               (normalize_u64 (expected_value_milli (sg_expected_reuse s)) kReuseCapMilli)
               ("state " +:+ describe_reuse (sg_expected_reuse s))
           else unknown
       | None => unknown
       end.

Definition present_new (present : bool) : string := if present then "present" else "new".

Definition diversity_factor (candidate : PlacementCandidate) (request : PlacementRequest)
    : FactorInput :=
  let requirements := rpp_requirements (pr_replication_policy request) in
  let cluster_present := contains_id (pr_current_clusters request) (pcd_cluster_id candidate) in
  let region_present := contains_id (pr_current_regions request) (pcd_region candidate) in
  let domain_present :=
    contains_id (pr_current_failure_domains request) (pcd_failure_domain candidate) in
  let cluster_score :=
    diversity_score cluster_present (count32 (pr_current_clusters request))
      (rr_cluster_diversity requirements) in
  let region_score :=
    diversity_score region_present (count32 (pr_current_regions request))
      (rr_region_diversity requirements) in
  let domain_score :=
    diversity_score domain_present (count32 (pr_current_failure_domains request))
      (rr_failure_domain_diversity requirements) in
  mkFactorInput RF.FAILURE_DOMAIN_DIVERSITY false
    (Z.min (Z.min cluster_score region_score) domain_score)
    ("cluster " +:+ present_new cluster_present +:+ ", region " +:+ present_new region_present +:+
     ", failure domain " +:+ present_new domain_present).

(** The sixteen factors in their fixed evaluation order. *)
Definition factor_inputs (candidate : PlacementCandidate) (request : PlacementRequest)
    (state : option StateGenerationRecord) : list FactorInput :=
  let label := cpo_unit_label (pp_cost_policy (pr_policy request)) in
  let capacity := pcd_capacity candidate in
  let utilization := Z.min (cp_utilization_per_mille capacity) 1000 in
  let in_flight := Z.min (pcd_in_flight_operations candidate) 1000 in
  [reuse_factor candidate state;
   cost_factor RF.TRANSFER_COST (pcd_transfer_cost candidate) label "transfer cost";
   cost_factor RF.RECONSTRUCTION_COST (pcd_reconstruction_cost candidate) label
     "reconstruction cost";
   mkFactorInput RF.AVAILABLE_BANDWIDTH false
     (normalize_u64 (cp_inbound_bytes_per_tick capacity) kBandwidthCapBytesPerTick)
     (to_string_u64 (cp_inbound_bytes_per_tick capacity) +:+ " bytes per tick inbound");
   mkFactorInput RF.PREDICTED_TRANSFER_DURATION false
     (normalize_u64 (pcd_predicted_transfer_ticks candidate) kDurationCapTicks)
     (to_string_u64 (pcd_predicted_transfer_ticks candidate) +:+ " ticks predicted");
   cost_factor RF.STORAGE_COST (pcd_storage_cost candidate) label "storage cost";
   cost_factor RF.COMPUTE_COST (pcd_compute_cost candidate) label "compute cost";
   mkFactorInput RF.REGION_AFFINITY false (Z.min (pcd_region_affinity candidate) kFixedOne)
     ("policy supplied region affinity " +:+ to_string_u64 (pcd_region_affinity candidate));
   mkFactorInput RF.WORKLOAD_AFFINITY false (Z.min (pcd_affinity_score candidate) kFixedOne)
     ("policy supplied workload affinity " +:+ to_string_u64 (pcd_affinity_score candidate));
   mkFactorInput RF.EXISTING_REPLICA_PROXIMITY false
     (if pcd_existing_replica_count candidate >? 0 then kFixedOne else 0)
     (to_string_u64 (pcd_existing_replica_count candidate) +:+
      " existing replica(s) of this state in the cluster");
   diversity_factor candidate request;
   mkFactorInput RF.EXPECTED_FUTURE_DEMAND false
     (Z.min (pcd_expected_future_demand candidate) kFixedOne)
     ("policy supplied future demand " +:+ to_string_u64 (pcd_expected_future_demand candidate));
   mkFactorInput RF.SOURCE_HEALTH false (if pcd_source_cluster_healthy candidate then kFixedOne else 0)
     (if pcd_source_cluster_healthy candidate then "source cluster healthy"
      else "source cluster not healthy");
   mkFactorInput RF.DESTINATION_HEALTH false (health_score (pcd_health candidate))
     ("destination health " +:+ to_string (pcd_health candidate));
   mkFactorInput RF.PRESSURE false (kFixedOne - Z.quot (utilization * kFixedOne) 1000)
     ("cluster utilization " +:+ to_string_i64 utilization +:+ " per mille");
   mkFactorInput RF.UTILIZATION false (kFixedOne - Z.quot (in_flight * kFixedOne) 1000)
     (to_string_u64 (pcd_in_flight_operations candidate) +:+
      " in-flight operation(s) in the cluster")].

(** Absent evidence is scored as the worst value the weight could prefer. *)
Definition contribution_of (weights : RankingWeights) (input : FactorInput) : RankingContribution :=
  let weight := weight_of weights (fi_factor input) in
  let normalized :=
    if fi_unknown input then (if weight >=? 0 then 0 else kFixedOne) else fi_normalized input in
  mkRankingContribution (fi_factor input) weight normalized (fi_unknown input)
    (saturating_mul weight normalized) (fi_evidence input).

Definition score_candidate (candidate : PlacementCandidate) (request : PlacementRequest)
    (state : option StateGenerationRecord) : RankedCandidate :=
  let contributions :=
    map (contribution_of (pp_weights (pr_policy request))) (factor_inputs candidate request state) in
  mkRankedCandidate (pcd_cluster_id candidate)
    (fold_left (λ score c, saturating_add score (rk_contribution c)) contributions 0)
    contributions.

(** ** Ranking *)

Definition value_of_factor (factor : RankingFactor) (c : RankedCandidate) : Z :=
  match find (λ k, bool_decide (rk_factor k = factor)) (rkc_contributions c) with
  | Some k => rk_normalized_value k
  | None => 0
  end.

(** The comparator of the ranking sort. *)
Definition rank_before (a b : RankedCandidate) : bool :=
  if negb (rkc_score a =? rkc_score b) then rkc_score a >? rkc_score b
  else if negb (value_of_factor RF.FAILURE_DOMAIN_DIVERSITY a =?
                value_of_factor RF.FAILURE_DOMAIN_DIVERSITY b)
  then value_of_factor RF.FAILURE_DOMAIN_DIVERSITY a >? value_of_factor RF.FAILURE_DOMAIN_DIVERSITY b
  else if negb (value_of_factor RF.REGION_AFFINITY a =? value_of_factor RF.REGION_AFFINITY b)
  then value_of_factor RF.REGION_AFFINITY a >? value_of_factor RF.REGION_AFFINITY b
  else rkc_cluster_id a <? rkc_cluster_id b.

Definition rank_le (a b : RankedCandidate) : Prop := rank_before b a = false.

#[export] Instance rank_le_dec : RelDecision rank_le.
Proof. intros a b. unfold rank_le. apply _. Defined.

Definition string_before (a b : string) : bool := negb (string_leb b a).

(** The comparator of the rejection sort. *)
Definition rejection_before (a b : PlacementRejection) : bool :=
  if negb (pj_cluster_id a =? pj_cluster_id b) then pj_cluster_id a <? pj_cluster_id b
  else if bool_decide (pj_constraint a ≠ pj_constraint b)
  then string_before (pj_constraint a) (pj_constraint b)
  else string_before (pj_detail a) (pj_detail b).

Definition rejection_le (a b : PlacementRejection) : Prop := rejection_before b a = false.

#[export] Instance rejection_le_dec : RelDecision rejection_le.
Proof. intros a b. unfold rejection_le. apply _. Defined.

Definition contribution_line (c : RankingContribution) : string :=
  "factor " +:+ to_string (rk_factor c) +:+ ": weight " +:+ to_string_i64 (rk_weight c) +:+
  ", value " +:+ to_string_i64 (rk_normalized_value c) +:+ ", contribution " +:+
  to_string_i64 (rk_contribution c) +:+
  (if rk_unknown c then " (evidence absent; scored pessimistically)"
   else if bool_decide (rk_evidence c ≠ "") then " (" +:+ rk_evidence c +:+ ")" else "").

Definition accepts (request : PlacementRequest) (state : option StateGenerationRecord)
    (candidate : PlacementCandidate) : bool :=
  co_accepted (evaluate_hard_constraints candidate request state).

Definition rejection_of (request : PlacementRequest) (state : option StateGenerationRecord)
    (candidate : PlacementCandidate) : PlacementRejection :=
  let outcome := evaluate_hard_constraints candidate request state in
  mkPlacementRejection (pcd_cluster_id candidate) (co_constraint outcome) (co_detail outcome)
    (co_code outcome).

Definition evaluate_placement (request : PlacementRequest) (state : option StateGenerationRecord)
    : PlacementEvaluation :=
  let rejected :=
    merge_sort rejection_le
      (map (rejection_of request state)
         (List.filter (λ c, negb (accepts request state c)) (pr_candidates request))) in
  let ranked :=
    merge_sort rank_le
      (map (λ c, score_candidate c request state)
         (List.filter (accepts request state) (pr_candidates request))) in
  let evaluation :=
    PlacementEvaluation_default <| pe_state_id := pr_state_id request |>
      <| pe_state_generation := pr_state_generation request |>
      <| pe_placement_policy_id := pp_placement_policy_id (pr_policy request) |>
      <| pe_placement_policy_generation := pp_generation (pr_policy request) |>
      <| pe_rejected := rejected |> <| pe_ranked := ranked |> in
  match ranked with
  | [] =>
      evaluation <| pe_decision := DK.REJECT |>
        <| pe_reasons :=
             "no candidate satisfied every hard constraint" ::
             map (λ r, "cluster " +:+ id_to_string (pj_cluster_id r) +:+ " rejected by " +:+
                       pj_constraint r +:+ ": " +:+ pj_detail r) rejected |>
  | first :: _ =>
      evaluation <| pe_chosen_cluster := rkc_cluster_id first |>
        <| pe_chosen_score := rkc_score first |>
        <| pe_decision := pr_intent request |>
        <| pe_reasons :=
             ["cluster " +:+ id_to_string (rkc_cluster_id first) +:+
              " selected with deterministic score " +:+ to_string_i64 (rkc_score first)] ++
             map contribution_line
               (List.filter (λ c, negb (rk_weight c =? 0)) (rkc_contributions first)) ++
             (match rejected with
              | [] => []
              | _ => [to_string_u64 (Z.of_nat (length rejected)) +:+
                      " candidate(s) rejected by hard constraints"]
              end) |>
  end.

(** ** The ranking is a total order on clusters *)

Lemma rank_le_total : Total rank_le.
Proof. intros a b. unfold rank_le, rank_before. repeat case_match; bool_simpl; lia. Qed.

Lemma rank_le_trans : Transitive rank_le.
Proof. intros a b c. unfold rank_le, rank_before. repeat case_match; bool_simpl; lia. Qed.

(** Equally ranked candidates are the same cluster. *)
Lemma rank_le_antisym a b : rank_le a b → rank_le b a → rkc_cluster_id a = rkc_cluster_id b.
Proof. unfold rank_le, rank_before. repeat case_match; bool_simpl; lia. Qed.

Lemma string_before_false a b : string_before b a = false ↔ string_leb a b = true.
Proof. unfold string_before. by rewrite negb_false_iff. Qed.

(** [rejection_le] is lexicographic on cluster, constraint and detail. *)
Lemma rejection_le_lex a b :
  rejection_le a b ↔
  pj_cluster_id a < pj_cluster_id b ∨
  pj_cluster_id a = pj_cluster_id b ∧
  (pj_constraint a = pj_constraint b ∧ string_leb (pj_detail a) (pj_detail b) = true ∨
   pj_constraint a ≠ pj_constraint b ∧ string_leb (pj_constraint a) (pj_constraint b) = true).
Proof.
  unfold rejection_le, rejection_before.
  destruct (Z.eqb_spec (pj_cluster_id b) (pj_cluster_id a)) as [E|E]; simpl.
  - destruct (decide (pj_constraint b = pj_constraint a)) as [Ec|Ec].
    + rewrite bool_decide_eq_false_2 by (by intros []). rewrite string_before_false.
      naive_solver lia.
    + rewrite bool_decide_eq_true_2 by done. rewrite string_before_false. naive_solver lia.
  - split; intros; [left|]; lia.
Qed.

Lemma rejection_le_total : Total rejection_le.
Proof.
  intros a b. rewrite !rejection_le_lex.
  destruct (Z.lt_total (pj_cluster_id a) (pj_cluster_id b)) as [|[E|]]; [tauto| |tauto].
  pose proof (key_leb_total (pj_detail a) (pj_detail b)) as H1.
  pose proof (key_leb_total (pj_constraint a) (pj_constraint b)) as H2.
  simpl in H1, H2. destruct (decide (pj_constraint a = pj_constraint b)); naive_solver.
Qed.

Lemma rejection_le_trans : Transitive rejection_le.
Proof.
  intros a b c. rewrite !rejection_le_lex.
  pose proof (key_leb_trans (pj_detail a) (pj_detail b) (pj_detail c)) as H1.
  pose proof (key_leb_trans (pj_constraint a) (pj_constraint b) (pj_constraint c)) as H2.
  pose proof (key_leb_antisym (pj_constraint a) (pj_constraint b)) as H3.
  simpl in H1, H2, H3.
  intros [?|[E1 Hab]] [?|[E2 Hbc]]; [left; lia..|]. right. split; [lia|].
  destruct Hab as [[Ec Hd]|[Ec Hd]], Hbc as [[Ec' Hd']|[Ec' Hd']].
  - left. split; [congruence|auto].
  - right. by rewrite Ec.
  - right. by rewrite <-Ec'.
  - right. split; [|auto]. intros E. apply Ec, H3; [done|]. by rewrite E.
Qed.

(** Rejections of one cluster each are ordered by it. *)
Lemma rejection_le_antisym a b :
  rejection_le a b → rejection_le b a → pj_cluster_id a = pj_cluster_id b.
Proof. rewrite !rejection_le_lex. lia. Qed.

(** ** What an evaluation chooses *)

Section evaluation.
Context (request : PlacementRequest) (state : option StateGenerationRecord).

Definition score (c : PlacementCandidate) : RankedCandidate := score_candidate c request state.

Lemma ranked_sorted l : StronglySorted rank_le (merge_sort rank_le l).
Proof. apply StronglySorted_merge_sort; [apply rank_le_trans|apply rank_le_total]. Qed.

Lemma evaluate_ranked :
  pe_ranked (evaluate_placement request state) =
  merge_sort rank_le (map score (List.filter (accepts request state) (pr_candidates request))).
Proof. unfold evaluate_placement. by case_match. Qed.

Lemma evaluate_chosen :
  match pe_ranked (evaluate_placement request state) with
  | [] => pe_decision (evaluate_placement request state) = DK.REJECT ∧
          pe_chosen_cluster (evaluate_placement request state) = 0
  | first :: _ => pe_decision (evaluate_placement request state) = pr_intent request ∧
          pe_chosen_cluster (evaluate_placement request state) = rkc_cluster_id first ∧
          pe_chosen_score (evaluate_placement request state) = rkc_score first
  end.
Proof. unfold evaluate_placement. by destruct (merge_sort rank_le _). Qed.

(** The head of the ranking comes from an accepted candidate and is ranked no
    lower than any other. *)
Lemma ranked_head first rest :
  pe_ranked (evaluate_placement request state) = first :: rest →
  ∃ c, c ∈ pr_candidates request ∧ accepts request state c = true ∧ first = score c ∧
    ∀ c', c' ∈ pr_candidates request → accepts request state c' = true → rank_le first (score c').
Proof.
  rewrite evaluate_ranked.
  set (l := map score (List.filter (accepts request state) (pr_candidates request))). intros E.
  pose proof (merge_sort_Permutation rank_le l) as Hperm. pose proof (ranked_sorted l) as Hsort.
  rewrite E in Hperm, Hsort. apply StronglySorted_inv in Hsort as [_ Hall].
  assert (∀ s, s ∈ l ↔ ∃ c, c ∈ pr_candidates request ∧ accepts request state c = true ∧ s = score c)
    as Hl.
  { intros s. unfold l. rewrite list_elem_of_In, in_map_iff. setoid_rewrite filter_In.
    setoid_rewrite list_elem_of_In. naive_solver. }
  destruct (proj1 (Hl first)) as (c & Hc & Ha & ->).
  { rewrite <-Hperm. by left. }
  exists c. split_and!; try done. intros c' Hc' Ha'.
  assert (score c' ∈ score c :: rest) as [->|Hin]%elem_of_cons.
  { rewrite Hperm. apply Hl. eauto. }
  - unfold rank_le, rank_before. rewrite !Z.eqb_refl. simpl. apply Z.ltb_irrefl.
  - by apply (proj1 (list.Forall_forall _ _) Hall).
Qed.
End evaluation.

Lemma NoDup_map_inj {A} (id : A → Z) l a b :
  NoDup (map id l) → a ∈ l → b ∈ l → id a = id b → a = b.
Proof.
  induction l as [|x l IH]; [by intros _ ?%elem_of_nil|]. simpl.
  intros [Hn Hnd]%list.NoDup_cons. rewrite !elem_of_cons.
  assert (∀ y, y ∈ l → id x ≠ id y) as Hx.
  { intros y Hy E. apply Hn. rewrite E. apply list_elem_of_fmap. eauto. }
  intros [->|Ha] [->|Hb] E; [done| | |auto].
  - by apply Hx in Hb.
  - symmetry in E. by apply Hx in Ha.
Qed.

(** Sorting a permutation of pairwise different clusters gives the same list. *)
Lemma sorted_unique {A} (R : relation A) `{!RelDecision R} (id : A → Z) l k :
  Total R → Transitive R → (∀ a b, R a b → R b a → id a = id b) →
  NoDup (map id l) → l ≡ₚ k → merge_sort R l = merge_sort R k.
Proof.
  intros Ht Htr Hanti Hnd Hp.
  apply (StronglySorted_unique_strong R).
  - intros a b Ha Hb H1 H2. rewrite merge_sort_Permutation in Ha. rewrite merge_sort_Permutation, <-Hp in Hb.
    eapply NoDup_map_inj; eauto.
  - by apply StronglySorted_merge_sort.
  - by apply StronglySorted_merge_sort.
  - by rewrite !merge_sort_Permutation.
Qed.

Lemma evaluate_rejected request state :
  pe_rejected (evaluate_placement request state) =
  merge_sort rejection_le (map (rejection_of request state)
    (List.filter (λ c, negb (accepts request state c)) (pr_candidates request))).
Proof. unfold evaluate_placement. by destruct (merge_sort rank_le _). Qed.

Lemma NoDup_map_filter {A} (id : A → Z) f l :
  NoDup (map id l) → NoDup (map id (List.filter f l)).
Proof.
  induction l as [|x l IH]; [done|]. simpl. intros [Hn Hnd]%list.NoDup_cons.
  destruct (f x); [|auto]. simpl. apply list.NoDup_cons. split; [|auto].
  rewrite !list_elem_of_In, in_map_iff in *. intros (y & ? & [? _]%filter_In). apply Hn. eauto.
Qed.

Lemma Permutation_filter {A} (f : A → bool) l k : l ≡ₚ k → List.filter f l ≡ₚ List.filter f k.
Proof.
  induction 1 as [|x l k _ IH|x y l|]; simpl; [done| | |by etrans].
  - by destruct (f x); [constructor|].
  - destruct (f x), (f y); [constructor|done..].
Qed.

(** ** Properties *)

(** C34: the chosen placement is legal and best.  When an evaluation chooses a cluster,
    it is that of a candidate that passed every hard constraint, and no accepted
    candidate outranks it (score, then failure-domain diversity, then region
    affinity, then lowest cluster identity); it rejects only when no candidate
    passes. *)
Theorem placement_chooses_best_legal_candidate request state :
  let e := evaluate_placement request state in
  (pe_ranked e = [] ∧ pe_decision e = DK.REJECT ∧ pe_chosen_cluster e = 0 ∧
   ∀ c, c ∈ pr_candidates request → accepts request state c = false) ∨
  ∃ c, c ∈ pr_candidates request ∧ accepts request state c = true ∧
    pe_decision e = pr_intent request ∧ pe_chosen_cluster e = pcd_cluster_id c ∧
    pe_chosen_score e = rkc_score (score_candidate c request state) ∧
    ∀ c', c' ∈ pr_candidates request → accepts request state c' = true →
      rank_before (score_candidate c' request state) (score_candidate c request state) = false.
Proof.
  intros e. pose proof (evaluate_chosen request state) as Hc. fold e in Hc.
  destruct (pe_ranked e) as [|first rest] eqn:E.
  - left. destruct Hc as [? ?]. split_and!; try done. intros c Hin.
    apply not_true_iff_false. intros Ha. unfold e in E. rewrite evaluate_ranked in E.
    pose proof (merge_sort_Permutation rank_le (map (score request state)
      (List.filter (accepts request state) (pr_candidates request)))) as Hp.
    rewrite E in Hp. apply Permutation_nil_l in Hp. symmetry in Hp. apply map_eq_nil in Hp.
    assert (In c []) as []. rewrite <-Hp. apply filter_In. by rewrite <-list_elem_of_In.
  - right. destruct Hc as (H1 & H2 & H3).
    destruct (ranked_head request state first rest E) as (c & Hin & Ha & -> & Hbest).
    exists c. split_and!; try done.
Qed.

(** Placement is deterministic.  The evaluation of a request depends on the set of
    its candidates, one per cluster, and not on the order they are listed in. *)
Theorem placement_ignores_candidate_order request candidates state :
  NoDup (map pcd_cluster_id (pr_candidates request)) → pr_candidates request ≡ₚ candidates →
  evaluate_placement (request <| pr_candidates := candidates |>) state =
  evaluate_placement request state.
Proof.
  intros Hnd Hp. set (request' := request <| pr_candidates := candidates |>).
  assert (∀ c, accepts request' state c = accepts request state c) as Hacc by done.
  unfold evaluate_placement.
  change (pr_candidates request') with candidates.
  assert (merge_sort rank_le (map (λ c, score_candidate c request' state)
      (List.filter (accepts request' state) candidates)) =
    merge_sort rank_le (map (λ c, score_candidate c request state)
      (List.filter (accepts request state) (pr_candidates request)))) as ->.
  { symmetry. apply (sorted_unique rank_le rkc_cluster_id);
      [apply rank_le_total|apply rank_le_trans|apply rank_le_antisym| |].
    - rewrite map_map. simpl. by apply NoDup_map_filter.
    - change (λ c, score_candidate c request' state) with (λ c, score_candidate c request state).
      by apply Permutation_map, Permutation_filter. }
  assert (merge_sort rejection_le (map (rejection_of request' state)
      (List.filter (λ c, negb (accepts request' state c)) candidates)) =
    merge_sort rejection_le (map (rejection_of request state)
      (List.filter (λ c, negb (accepts request state c)) (pr_candidates request)))) as ->.
  { symmetry. apply (sorted_unique rejection_le pj_cluster_id);
      [apply rejection_le_total|apply rejection_le_trans|apply rejection_le_antisym| |].
    - rewrite map_map. simpl. by apply NoDup_map_filter.
    - change (rejection_of request' state) with (rejection_of request state).
      by apply Permutation_map, Permutation_filter. }
  reflexivity.
Qed.

Definition demo_candidate (id : Z) (health : ClusterHealthState) : PlacementCandidate :=
  PlacementCandidate_default <| pcd_cluster_id := id |> <| pcd_cluster_incarnation := 1 |>
    <| pcd_health := health |>.

Definition demo_request : PlacementRequest :=
  PlacementRequest_default <| pr_candidates := [demo_candidate 1 CH.DEGRADED; demo_candidate 2 CH.HEALTHY] |>.

Lemma placement_ignores_candidate_order_witness :
  evaluate_placement
    (demo_request <| pr_candidates := [demo_candidate 2 CH.HEALTHY; demo_candidate 1 CH.DEGRADED] |>)
    None = evaluate_placement demo_request None.
Proof.
  apply (placement_ignores_candidate_order demo_request).
  - vm_compute. apply NoDup_cons_2; [by rewrite list_elem_of_singleton|apply NoDup_singleton].
  - apply perm_swap.
Defined.

(** Absent evidence never helps.  A factor whose evidence is unknown contributes no
    more than it would with any possible normalized value, whatever the sign of
    its weight. *)
Theorem unknown_evidence_is_pessimistic (weights : RankingWeights) (input : FactorInput) (v : Z) :
  is_i64 (weight_of weights (fi_factor input)) → fi_unknown input = true → 0 ≤ v ≤ kFixedOne →
  rk_contribution (contribution_of weights input) ≤
  saturating_mul (weight_of weights (fi_factor input)) v.
Proof.
  intros Hw Hu Hv. unfold contribution_of. rewrite Hu. simpl.
  set (w := weight_of weights (fi_factor input)) in *.
  assert (is_i64 v ∧ is_i64 0 ∧ is_i64 kFixedOne) as (Hv' & H0 & H1)
    by (unfold is_i64, kFixedOne, i64_min, i64_max in *; lia).
  destruct (Z.geb_spec w 0) as [Hw0|Hw0]; rewrite !saturating_mul_clamp by done;
    unfold clamp_i64, i64_min, i64_max, kFixedOne in *; nia.
Qed.

Lemma unknown_evidence_is_pessimistic_witness :
  let weights := RankingWeights_default <| rw_transfer_cost := -3 |> in
  rk_contribution (contribution_of weights (mkFactorInput RF.TRANSFER_COST true 0 "")) ≤
  saturating_mul (-3) 500000.
Proof.
  intros weights.
  apply (unknown_evidence_is_pessimistic weights (mkFactorInput RF.TRANSFER_COST true 0 "") 500000);
    vm_compute; first [reflexivity|split; discriminate].
Defined.
