(* ===== verification/Effects.v ===== *)
(** * What a list of redo effects does to the control plane

    [apply_all] is a fold; this file says what each map of the image holds after
    it.  Every record map of the plane is the image of one selector of effects,
    so the facts are proved once for [put_all] and read off per map. *)

From S2P Require Import Prelude Taxonomy Model ModelOps ControlPlane.

Local Open Scope Z_scope.

(** ** Writing a list of records into a map *)

Section put_all.
Context {K V : Type} `{Countable K} (key : V → K).

Definition put_all (l : list V) (m : gmap K V) : gmap K V :=
  fold_left (λ m v, <[key v := v]> m) l m.

(** The record a list leaves under a key: the last one written there. *)
Definition last_put (l : list V) (k : K) : option V :=
  head (filter (λ v, key v = k) (reverse l)).

Lemma put_all_snoc l v m : put_all (l ++ [v]) m = <[key v := v]> (put_all l m).
Proof. unfold put_all. by rewrite fold_left_app. Qed.

Lemma put_all_app l1 l2 m : put_all (l1 ++ l2) m = put_all l2 (put_all l1 m).
Proof. unfold put_all. by rewrite fold_left_app. Qed.

Lemma last_put_snoc l v k :
  last_put (l ++ [v]) k = if decide (key v = k) then Some v else last_put l k.
Proof.
  unfold last_put. rewrite reverse_app. simpl. rewrite filter_cons. by case_decide.
Qed.

Lemma lookup_put_all l m k :
  put_all l m !! k = match last_put l k with Some v => Some v | None => m !! k end.
Proof.
  induction l as [|v l IH] using rev_ind; [done|].
  rewrite put_all_snoc, last_put_snoc. case_decide as E.
  - subst. by rewrite lookup_insert_eq.
  - by rewrite lookup_insert_ne.
Qed.

Lemma last_put_Some l k v : last_put l k = Some v → v ∈ l ∧ key v = k.
Proof.
  induction l as [|w l IH] using rev_ind; [done|].
  rewrite last_put_snoc. case_decide as E.
  - intros [= ->]. split; [|done]. apply elem_of_app. right. by apply list_elem_of_singleton.
  - intros [? ?]%IH. split; [|done]. apply elem_of_app. by left.
Qed.

Lemma last_put_None l k v : last_put l k = None → v ∈ l → key v ≠ k.
Proof.
  induction l as [|w l IH] using rev_ind; [by intros _ ?%elem_of_nil|].
  rewrite last_put_snoc. case_decide as E; [done|].
  intros Hl [?| ->%list_elem_of_singleton]%elem_of_app; auto.
Qed.

(** A record of the result was written by the list, or was there before and its
    key was not written. *)
Lemma lookup_put_all_inv l m k v :
  put_all l m !! k = Some v →
  (v ∈ l ∧ key v = k) ∨ (m !! k = Some v ∧ ∀ w, w ∈ l → key w ≠ k).
Proof.
  rewrite lookup_put_all. destruct (last_put l k) as [w|] eqn:E.
  - intros [= ->]. left. by apply last_put_Some.
  - right. split; [done|]. intros w. by apply last_put_None.
Qed.

Lemma put_all_is_Some l m k : is_Some (m !! k) → is_Some (put_all l m !! k).
Proof. rewrite lookup_put_all. by destruct (last_put l k). Qed.

Lemma put_all_written l m v : v ∈ l → is_Some (put_all l m !! key v).
Proof.
  intros Hv. rewrite lookup_put_all. destruct (last_put l (key v)) eqn:E; [done|].
  by eapply last_put_None in E.
Qed.

Lemma put_all_other l m k : (∀ v, v ∈ l → key v ≠ k) → put_all l m !! k = m !! k.
Proof.
  intros Hk. rewrite lookup_put_all. destruct (last_put l k) eqn:E; [|done].
  apply last_put_Some in E as [Hv <-]. by apply Hk in Hv.
Qed.

(** Writing the same list twice is writing it once. *)
Lemma put_all_idemp l m : put_all l (put_all l m) = put_all l m.
Proof. apply map_eq. intros k. rewrite !lookup_put_all. by destruct (last_put l k). Qed.
End put_all.

(** ** The records a list of effects carries *)

Definition put_state e := match e with PUT_STATE r => Some r | _ => None end.
Definition put_cluster e := match e with PUT_CLUSTER r => Some r | _ => None end.
Definition put_replica e := match e with PUT_REPLICA r => Some r | _ => None end.
Definition put_replica_set e := match e with PUT_REPLICA_SET r => Some r | _ => None end.
Definition put_operation e := match e with PUT_OPERATION r => Some r | _ => None end.
Definition put_authorization e := match e with PUT_AUTHORIZATION r => Some r | _ => None end.
Definition put_ownership e := match e with PUT_OWNERSHIP r => Some r | _ => None end.
Definition put_compatibility e := match e with PUT_COMPATIBILITY r => Some r | _ => None end.
Definition put_placement_policy e := match e with PUT_PLACEMENT_POLICY r => Some r | _ => None end.
Definition put_replication_policy e :=
  match e with PUT_REPLICATION_POLICY r => Some r | _ => None end.
Definition put_counters e := match e with PUT_COUNTERS c => Some c | _ => None end.
Definition set_epoch e := match e with SET_EPOCH n => Some n | _ => None end.

Lemma fold_apply_map {K V} `{Countable K} (field : ControlPlane → gmap K V) (key : V → K)
    (sel : Effect → option V) :
  (∀ p e, field (apply p e) =
     match sel e with Some v => <[key v := v]> (field p) | None => field p end) →
  ∀ es p, field (apply_all p es) = put_all key (omap sel es) (field p).
Proof.
  intros Hstep es. induction es as [|e es IH]; intros p; [done|].
  change (apply_all p (e :: es)) with (apply_all (apply p e) es).
  rewrite IH, Hstep. simpl. by destruct (sel e).
Qed.

Ltac apply_map := apply fold_apply_map; intros p []; simpl; repeat case_match; reflexivity.

Lemma apply_all_states es p :
  pl_states (apply_all p es) = put_all state_key (omap put_state es) (pl_states p).
Proof. revert es p. apply_map. Qed.
Lemma apply_all_clusters es p :
  pl_clusters (apply_all p es) = put_all cl_cluster_id (omap put_cluster es) (pl_clusters p).
Proof. revert es p. apply_map. Qed.
Lemma apply_all_replicas es p :
  pl_replicas (apply_all p es) = put_all rp_replica_id (omap put_replica es) (pl_replicas p).
Proof. revert es p. apply_map. Qed.
Lemma apply_all_replica_sets es p :
  pl_replica_sets (apply_all p es) = put_all set_key (omap put_replica_set es) (pl_replica_sets p).
Proof. revert es p. apply_map. Qed.
Lemma apply_all_operations es p :
  pl_operations (apply_all p es) = put_all op_operation_id (omap put_operation es) (pl_operations p).
Proof. revert es p. apply_map. Qed.
Lemma apply_all_authorizations es p :
  pl_authorizations (apply_all p es) =
  put_all ta_operation_id (omap put_authorization es) (pl_authorizations p).
Proof. revert es p. apply_map. Qed.
Lemma apply_all_ownership es p :
  pl_ownership (apply_all p es) = put_all ownership_key (omap put_ownership es) (pl_ownership p).
Proof. revert es p. apply_map. Qed.
Lemma apply_all_compatibility es p :
  pl_compatibility_records (apply_all p es) =
  put_all cr_compatibility_id (omap put_compatibility es) (pl_compatibility_records p).
Proof. revert es p. apply_map. Qed.
Lemma apply_all_placement_policies es p :
  pl_placement_policies (apply_all p es) =
  put_all pp_placement_policy_id (omap put_placement_policy es) (pl_placement_policies p).
Proof. revert es p. apply_map. Qed.
Lemma apply_all_replication_policies es p :
  pl_replication_policies (apply_all p es) =
  put_all rpp_replication_policy_id (omap put_replication_policy es) (pl_replication_policies p).
Proof. revert es p. apply_map. Qed.

Lemma apply_all_app p es fs : apply_all p (es ++ fs) = apply_all (apply_all p es) fs.
Proof. apply fold_left_app. Qed.

(** The scalar parts of the image. *)
Lemma apply_all_counters es p :
  pl_counters (apply_all p es) = default (pl_counters p) (head (omap put_counters (reverse es))).
Proof.
  revert p. induction es as [|e es IH] using rev_ind; intros p; [done|].
  rewrite apply_all_app, reverse_app. simpl.
  destruct e; simpl; try apply IH; try done; repeat case_match; apply IH.
Qed.

Definition raise_epoch (current e : Z) : Z := if e >? current then e else current.

Lemma apply_all_epoch es p :
  pl_coordinator_epoch (apply_all p es) =
  fold_left raise_epoch (omap set_epoch es) (pl_coordinator_epoch p).
Proof.
  revert p. induction es as [|e es IH]; intros p; [done|].
  change (apply_all p (e :: es)) with (apply_all (apply p e) es). rewrite IH.
  destruct e; simpl; try done; unfold raise_epoch; by repeat case_match.
Qed.

Lemma fold_raise_epoch l n :
  n ≤ fold_left raise_epoch l n ∧ (∀ e, e ∈ l → e ≤ fold_left raise_epoch l n).
Proof.
  revert n. induction l as [|e l IH]; intros n; simpl.
  - split; [lia|]. by intros ? ?%elem_of_nil.
  - destruct (IH (raise_epoch n e)) as [IH1 IH2]. unfold raise_epoch in *.
    split; [case_match; lia|].
    intros e' [->|?]%elem_of_cons; [case_match; lia|auto].
Qed.

Lemma fold_raise_epoch_above l n : (∀ e, e ∈ l → e ≤ n) → fold_left raise_epoch l n = n.
Proof.
  induction l as [|e l IH]; intros Hl; [done|]. simpl.
  assert (e ≤ n) by (apply Hl, elem_of_cons; by left).
  assert (raise_epoch n e = n) as -> by (unfold raise_epoch; case_match; lia).
  apply IH. intros e' ?. apply Hl, elem_of_cons. by right.
Qed.

(** No effect touches the clock, the durable position or the store's status. *)
Lemma apply_all_frame es p :
  pl_coordinator_id (apply_all p es) = pl_coordinator_id p ∧
  pl_logical_time (apply_all p es) = pl_logical_time p ∧
  pl_durable_sequence (apply_all p es) = pl_durable_sequence p ∧
  pl_journal_records (apply_all p es) = pl_journal_records p.
Proof.
  revert p. induction es as [|e es IH]; intros p; [done|].
  change (apply_all p (e :: es)) with (apply_all (apply p e) es).
  destruct (IH (apply p e)) as (->&->&->&->).
  destruct e; simpl; repeat case_match; done.
Qed.

(** ** Equality of the durable part of two planes

    The coarser equality a restart preserves: records, counters and epoch, not the
    clock, the statistics of the store or the identity cursor. *)
Record same_records (p q : ControlPlane) : Prop := {
  same_coordinator : pl_coordinator_id p = pl_coordinator_id q;
  same_epoch : pl_coordinator_epoch p = pl_coordinator_epoch q;
  same_counters : pl_counters p = pl_counters q;
  same_states : pl_states p = pl_states q;
  same_clusters : pl_clusters p = pl_clusters q;
  same_replicas : pl_replicas p = pl_replicas q;
  same_replica_sets : pl_replica_sets p = pl_replica_sets q;
  same_operations : pl_operations p = pl_operations q;
  same_authorizations : pl_authorizations p = pl_authorizations q;
  same_ownership : pl_ownership p = pl_ownership q;
  same_compatibility : pl_compatibility_records p = pl_compatibility_records q;
  same_placement_policies : pl_placement_policies p = pl_placement_policies q;
  same_replication_policies : pl_replication_policies p = pl_replication_policies q
}.

#[export] Instance same_records_equivalence : Equivalence same_records.
Proof.
  split.
  - intros p. by split.
  - intros p q []. by split.
  - intros p q r [] []. split; etrans; eassumption.
Qed.

Ltac rewrite_apply_all :=
  rewrite ?apply_all_states, ?apply_all_clusters, ?apply_all_replicas, ?apply_all_replica_sets,
    ?apply_all_operations, ?apply_all_authorizations, ?apply_all_ownership,
    ?apply_all_compatibility, ?apply_all_placement_policies, ?apply_all_replication_policies,
    ?apply_all_counters, ?apply_all_epoch in *.

#[export] Instance apply_all_proper : Proper (same_records ==> eq ==> same_records) apply_all.
Proof.
  intros p q [] es ? <-.
  split; rewrite_apply_all; try congruence.
  by rewrite !(proj1 (apply_all_frame es _)).
Qed.

(** Replaying effects that are already in the image changes nothing durable. *)
Lemma apply_all_idemp es p : same_records (apply_all (apply_all p es) es) (apply_all p es).
Proof.
  split; rewrite_apply_all; rewrite ?put_all_idemp; try done.
  - by rewrite !(proj1 (apply_all_frame es _)).
  - apply fold_raise_epoch_above, fold_raise_epoch.
  - by destruct (head (omap put_counters (reverse es))).
Qed.
