(* ===== verification/Consistency.v ===== *)
(** * Structural consistency of the control plane

    [validate] as a proposition, and the conditions on a list of effects under
    which it is preserved: what each record refers to must exist once the whole
    list is applied. *)

From S2P Require Import Prelude Taxonomy Model ModelOps ControlPlane Effects.

Local Open Scope Z_scope.

(** ** [validate] as a proposition *)

Record replica_bound (p : ControlPlane) (r : ReplicaRecord) : Prop := {
  bound_state : is_Some (pl_states p !! replica_state_key r);
  bound_cluster : is_Some (pl_clusters p !! rlo_cluster_id (rp_location r));
  bound_set : rp_replica_set_id r ≠ 0 → is_Some (pl_replica_sets p !! replica_state_key r)
}.

Definition known_member (p : ControlPlane) (m : ReplicaSetMember) : Prop :=
  is_Some (pl_replicas p !! rm_replica_id m).

Definition set_bound (p : ControlPlane) (key : Z * Z) (s : ReplicaSetRecord) : Prop :=
  is_Some (pl_states p !! key) ∧
  Forall (known_member p) (rs_authoritative_members s) ∧
  Forall (known_member p) (rs_degraded_members s).

Record consistent (p : ControlPlane) : Prop := {
  con_replica_id : ∀ id r, pl_replicas p !! id = Some r → rp_replica_id r = id;
  con_replica : ∀ id r, pl_replicas p !! id = Some r → replica_bound p r;
  con_set : ∀ key s, pl_replica_sets p !! key = Some s → set_bound p key s;
  con_operation : ∀ id o, pl_operations p !! id = Some o →
    is_Some (pl_states p !! operation_state_key o);
  con_ownership : ∀ key o, pl_ownership p !! key = Some o → is_Some (pl_states p !! key);
  con_state : ∀ key r, pl_states p !! key = Some r → state_key r = key
}.

Lemma forallb_entries {K V} `{Countable K} `{KeyOrder K} (f : K * V → bool) (m : gmap K V) :
  forallb f (entries m) = true ↔ ∀ k v, m !! k = Some v → f (k, v) = true.
Proof.
  rewrite forallb_forall. split.
  - intros Hf k v ?. apply Hf, list_elem_of_In, elem_of_entries. done.
  - intros Hf [k v] Hin. by apply Hf, elem_of_entries, list_elem_of_In.
Qed.

Lemma forallb_known p l :
  forallb (λ m, has_key (pl_replicas p) (rm_replica_id m)) l = true ↔ Forall (known_member p) l.
Proof.
  rewrite forallb_forall, list.Forall_forall. unfold has_key, known_member.
  setoid_rewrite bool_decide_eq_true. by setoid_rewrite list_elem_of_In.
Qed.

Lemma validate_replica_spec p id r :
  validate_replica p (id, r) = true ↔ rp_replica_id r = id ∧ replica_bound p r.
Proof.
  unfold validate_replica, has_key. simpl. bool_simpl.
  split.
  - intros [[[? ?] ?] Hs]. split; [done|]. split; [done..|]. intros ?. tauto.
  - intros [? [? ? Hs]]. repeat (split; [done|]).
    destruct (decide (rp_replica_set_id r = 0)); tauto.
Qed.

Lemma validate_replica_set_spec p key s :
  validate_replica_set p (key, s) = true ↔ set_bound p key s.
Proof.
  unfold validate_replica_set, set_bound. simpl. rewrite !andb_true_iff, !forallb_known.
  unfold has_key. rewrite bool_decide_eq_true. tauto.
Qed.

Lemma validate_consistent p : validate p = true ↔ consistent p.
Proof.
  unfold validate. rewrite !andb_true_iff, !forallb_entries. unfold has_key. split.
  - intros [[[[Hr Hs] Ho] Hw] Hst]. split.
    + intros id r Hid. by apply Hr, validate_replica_spec in Hid as [? ?].
    + intros id r Hid. by apply Hr, validate_replica_spec in Hid as [? ?].
    + intros k s Hk. by apply Hs, validate_replica_set_spec in Hk.
    + intros id o Hid. by apply Ho, bool_decide_eq_true in Hid.
    + intros k o Hk. by apply Hw, bool_decide_eq_true in Hk.
    + intros [a b] r Hk. apply Hst in Hk. simpl in Hk. unfold state_key. f_equal; lia.
  - intros []. split_and!.
    + intros id r Hid. apply validate_replica_spec. split; [auto|]. by eapply con_replica0.
    + intros k s Hk. apply validate_replica_set_spec. auto.
    + intros id o Hid. apply bool_decide_eq_true. simpl. eauto.
    + intros k o Hk. apply bool_decide_eq_true. simpl. eauto.
    + intros k r Hk. apply con_state0 in Hk. subst. simpl. lia.
Qed.

#[export] Instance consistent_dec p : Decision (consistent p).
Proof. refine (cast_if (decide (validate p = true))); by rewrite <-validate_consistent. Defined.

(** ** What survives more effects *)

(** Every record that can be referred to is still there. *)
Record plane_le (p q : ControlPlane) : Prop := {
  le_states : ∀ k, is_Some (pl_states p !! k) → is_Some (pl_states q !! k);
  le_clusters : ∀ k, is_Some (pl_clusters p !! k) → is_Some (pl_clusters q !! k);
  le_replicas : ∀ k, is_Some (pl_replicas p !! k) → is_Some (pl_replicas q !! k);
  le_replica_sets : ∀ k, is_Some (pl_replica_sets p !! k) → is_Some (pl_replica_sets q !! k)
}.

#[export] Instance plane_le_preorder : PreOrder plane_le.
Proof. split; [done|]. intros p q r [] []. split; auto. Qed.

Lemma apply_all_le es p : plane_le p (apply_all p es).
Proof. split; intros k Hk; rewrite_apply_all; by apply put_all_is_Some. Qed.

Lemma replica_bound_le p q r : plane_le p q → replica_bound p r → replica_bound q r.
Proof. intros [] []. split; auto. Qed.

Lemma set_bound_le p q key s : plane_le p q → set_bound p key s → set_bound q key s.
Proof.
  intros [] (?&?&?). split; [auto|]. unfold known_member.
  split; (eapply List.Forall_impl; [|eassumption]); simpl; auto.
Qed.

(** ** What one effect may refer to *)

Definition references (p : ControlPlane) (e : Effect) : Prop :=
  match e with
  | PUT_REPLICA r => replica_bound p r
  | PUT_REPLICA_SET s => set_bound p (set_key s) s
  | PUT_OPERATION o => is_Some (pl_states p !! operation_state_key o)
  | PUT_OWNERSHIP o => is_Some (pl_states p !! ownership_key o)
  | _ => True
  end.

Lemma references_le p q e : plane_le p q → references p e → references q e.
Proof.
  intros Hle. destruct e; simpl; auto.
  - by apply replica_bound_le.
  - by apply set_bound_le.
  - by apply (le_states _ _ Hle).
  - by apply (le_states _ _ Hle).
Qed.

Lemma elem_of_puts {V} (sel : Effect → option V) (es : list Effect) v :
  v ∈ omap sel es → ∃ e, e ∈ es ∧ sel e = Some v.
Proof. intros (e&?&?)%list_elem_of_omap. eauto. Qed.

(** Turns membership in the records of a selector into membership of the effect. *)
Ltac put_inv H :=
  let e := fresh "e" in let He := fresh "He" in let Hs := fresh "Hs" in
  apply elem_of_puts in H as (e & He & Hs); destruct e; simplify_eq/=.

Lemma consistent_apply_all p es :
  consistent p → Forall (references (apply_all p es)) es → consistent (apply_all p es).
Proof.
  intros Hp Hes. pose proof (apply_all_le es p) as Hle.
  rewrite list.Forall_forall in Hes. split.
  - intros id r. rewrite apply_all_replicas.
    intros [[_ ?]|[? _]]%lookup_put_all_inv; [done|by eapply con_replica_id].
  - intros id r Hr. rewrite apply_all_replicas in Hr.
    apply lookup_put_all_inv in Hr as [[Hin _]|[Hr _]].
    + put_inv Hin. by apply (Hes (PUT_REPLICA r)).
    + eapply replica_bound_le; [done|]. by eapply con_replica.
  - intros key s Hs. rewrite apply_all_replica_sets in Hs.
    apply lookup_put_all_inv in Hs as [[Hin <-]|[Hs _]].
    + put_inv Hin. by apply (Hes (PUT_REPLICA_SET s)).
    + eapply set_bound_le; [done|]. by eapply con_set.
  - intros id o Ho. rewrite apply_all_operations in Ho.
    apply lookup_put_all_inv in Ho as [[Hin _]|[Ho _]].
    + put_inv Hin. by apply (Hes (PUT_OPERATION o)).
    + by eapply le_states, con_operation.
  - intros key o Ho. rewrite apply_all_ownership in Ho.
    apply lookup_put_all_inv in Ho as [[Hin <-]|[Ho _]].
    + put_inv Hin. by apply (Hes (PUT_OWNERSHIP o)).
    + by eapply le_states, con_ownership.
  - intros key r. rewrite apply_all_states.
    intros [[_ ?]|[? _]]%lookup_put_all_inv; [done|by eapply con_state].
Qed.

(** References that already hold before the effects are enough. *)
Lemma consistent_apply_all_pre p es :
  consistent p → Forall (references p) es → consistent (apply_all p es).
Proof.
  intros Hp Hes. apply consistent_apply_all; [done|].
  eapply List.Forall_impl; [|exact Hes]. intros e. apply references_le, apply_all_le.
Qed.
