(* ===== verification/FabricCore.v ===== *)
(** * The mutation engine ([detail/fabric_impl.hpp], read helpers of
      [fabric_state.cpp], [persist_and_apply] of [fabric_lifecycle.cpp])

    A mutation body reads an immutable plane and a configuration and appends redo
    effects to a [FabricMutation] it holds by reference, so what it appended
    survives an error return.  [M] is that state-and-error monad.  [mutate] runs a
    body, appends its effects to the durable store and applies them, exactly as
    [Fabric::Impl::mutate] does; the store is the interface [PersistenceStore]. *)

From S2P Require Import Prelude Taxonomy Model Bytes Cost Compatibility ModelOps Authority.
From S2P Require Import ControlPlane.

Local Open Scope Z_scope.

(** ** Mutations *)

Definition kReservationWindowTicks : Z := 4096.
Definition kMaxMetadataStringBytes : Z := 4096.
Definition kMaxOperationJournalEntries : Z := 512.

Record FabricMutation := mkFabricMutation {
  mu_effects : list Effect;
  mu_tick : Z;
  mu_epoch : Z;
  mu_commit_before_return : bool
}.

#[export] Instance FabricMutation_eta : Eta FabricMutation := λ r,
  mkFabricMutation (mu_effects r) (mu_tick r) (mu_epoch r) (mu_commit_before_return r).

Definition M (A : Type) : Type := FabricMutation → Result A * FabricMutation.

Definition mret {A} (a : A) : M A := λ mu, (Ok a, mu).
Definition mbind {A B} (m : M A) (f : A → M B) : M B := λ mu,
  match m mu with
  | (Ok a, mu') => f a mu'
  | (Err code, mu') => (Err code, mu')
  end.
Definition refuse {A} (code : ErrorCode) : M A := λ mu, (Err code, mu).
Definition refuse_if (b : bool) (code : ErrorCode) : M unit :=
  if b then refuse code else mret tt.
(** Dereferences a pointer that must not be null. *)
Definition require {A} (o : option A) (code : ErrorCode) : M A :=
  match o with Some a => mret a | None => refuse code end.
Definition emit (effect : Effect) : M unit := λ mu,
  (Ok tt, mu <| mu_effects ::= λ l, l ++ [effect] |>).
Definition get_tick : M Z := λ mu, (Ok (mu_tick mu), mu).
Definition commit_before_return : M unit := λ mu,
  (Ok tt, mu <| mu_commit_before_return := true |>).

Fixpoint emit_all (effects : list Effect) : M unit :=
  match effects with
  | [] => mret tt
  | e :: rest => mbind (emit e) (λ _, emit_all rest)
  end.

Declare Scope mutation_scope.
Delimit Scope mutation_scope with mut.
Notation "'let!' x := m 'in' k" := (mbind m (λ x, k))
  (at level 200, x name, m at level 100, k at level 200,
   format "'[v' 'let!'  x  :=  m  'in' '/' k ']'") : mutation_scope.
Notation "m ;;; k" := (mbind m (λ _, k))
  (at level 100, k at level 200, right associativity,
   format "'[v' m ;;; '/' k ']'") : mutation_scope.
#[export] Set Warnings "-notation-overridden".
Open Scope mutation_scope.

(** [++counter]. *)
Definition inc (z : Z) : Z := u64 (z + 1).

(** ** Read helpers *)

Definition find_state (plane : ControlPlane) (state_id generation : Z)
    : option StateGenerationRecord := pl_states plane !! (state_id, generation).

(** The first current generation of a state in key order. *)
Definition find_current_state (plane : ControlPlane) (state_id : Z)
    : option StateGenerationRecord :=
  find (λ r, (sg_state_id r =? state_id) && is_current r) (values (pl_states plane)).

Definition find_replica_set (plane : ControlPlane) (state_id generation : Z)
    : option ReplicaSetRecord := pl_replica_sets plane !! (state_id, generation).

Definition find_cluster (plane : ControlPlane) (cluster_id : Z) : option ClusterRecord :=
  pl_clusters plane !! cluster_id.

Definition find_replica (plane : ControlPlane) (replica_id : Z) : option ReplicaRecord :=
  pl_replicas plane !! replica_id.

Definition find_operation (plane : ControlPlane) (operation_id : Z) : option OperationRecord :=
  pl_operations plane !! operation_id.

Definition find_ownership (plane : ControlPlane) (state_id generation : Z)
    : option OwnershipRecord := pl_ownership plane !! (state_id, generation).

Definition find_authorization (plane : ControlPlane) (operation_id : Z)
    : option TransferAuthorization := pl_authorizations plane !! operation_id.

Definition resolve_replication_policy (plane : ControlPlane) (config : FabricConfig) (policy_id : Z)
    : option ReplicationPolicyRecord :=
  if valid policy_id then pl_replication_policies plane !! policy_id
  else if valid (rpp_replication_policy_id (cfg_default_replication_policy config))
  then Some (cfg_default_replication_policy config)
  else None.

Definition resolve_placement_policy (plane : ControlPlane) (config : FabricConfig) (policy_id : Z)
    : option PlacementPolicyRecord :=
  if valid policy_id then pl_placement_policies plane !! policy_id
  else if valid (pp_placement_policy_id (cfg_default_placement_policy config))
  then Some (cfg_default_placement_policy config)
  else None.

Definition replicas_of_state (plane : ControlPlane) (state_id generation : Z) : list ReplicaRecord :=
  List.filter (λ r, (rp_state_id r =? state_id) && (rp_state_generation r =? generation))
    (values (pl_replicas plane)).

(** [body.find('=')] of a capability tag: what is before and after the first
    separator. *)
Fixpoint split_at_equals (text : string) : option (string * string) :=
  match text with
  | EmptyString => None
  | String c rest =>
      if bool_decide (c = Ascii.ascii_of_nat 61) then Some ("", rest)
      else match split_at_equals rest with
           | Some (before, after) => Some (String c before, after)
           | None => None
           end
  end.

Fixpoint strip_prefix (prefix text : string) : option string :=
  match prefix, text with
  | EmptyString, _ => Some text
  | String p prefix', String c text' =>
      if bool_decide (p = c) then strip_prefix prefix' text' else None
  | String _ _, EmptyString => None
  end.

Definition apply_compat_tag (descriptor : CompatibilityDescriptor) (tag : string)
    : CompatibilityDescriptor :=
  match strip_prefix "compat:" tag with
  | None => descriptor
  | Some body =>
      match split_at_equals body with
      | None => descriptor
      | Some (key, value) => if bool_decide (key = "") then descriptor else (cd_set descriptor key value).1
      end
  end.

Definition cluster_compatibility_descriptor (cluster : ClusterRecord) : CompatibilityDescriptor :=
  let capabilities := cl_capabilities cluster in
  let descriptor := CompatibilityDescriptor_default in
  let descriptor :=
    (cd_set descriptor "accelerator"
       (default "none" (head (cc_accelerator_architectures capabilities)))).1 in
  let descriptor :=
    (cd_set descriptor "storage" (default "none" (head (cc_storage_classes capabilities)))).1 in
  let descriptor :=
    (cd_set descriptor "platform"
       (if bool_decide (clo_descriptor (cl_location cluster) = "") then "unknown"
        else clo_descriptor (cl_location cluster))).1 in
  fold_left apply_compat_tag (cc_tags capabilities) descriptor.

Definition authority_context (plane : ControlPlane) (state : option StateGenerationRecord)
    (set : option ReplicaSetRecord) (policy : option ReplicationPolicyRecord) (now : Z)
    (replica : ReplicaRecord) : AuthorityContext :=
  mkAuthorityContext state (find_cluster plane (rlo_cluster_id (rp_location replica))) set policy
    (pl_coordinator_epoch plane) now.

Definition is_source (plane : ControlPlane) (state_id generation : Z)
    (policy : option ReplicationPolicyRecord) (now : Z) (replica : ReplicaRecord) : bool :=
  ra_authoritative_as_replication_source
    (assess_replica_authority replica
       (authority_context plane (find_state plane state_id generation)
          (find_replica_set plane state_id generation) policy now replica)).

(** One turn of the selection loop: preferred cluster first, then lowest
    identity. *)
Definition better_source (preferred : Z) (best : option ReplicaRecord) (replica : ReplicaRecord)
    : option ReplicaRecord :=
  match best with
  | None => Some replica
  | Some current =>
      let replica_preferred :=
        valid preferred && (rlo_cluster_id (rp_location replica) =? preferred) in
      let best_preferred :=
        valid preferred && (rlo_cluster_id (rp_location current) =? preferred) in
      if negb (eqb replica_preferred best_preferred)
      then (if replica_preferred then Some replica else Some current)
      else if rp_replica_id replica <? rp_replica_id current then Some replica
      else Some current
  end.

Definition select_source_replica (plane : ControlPlane) (state_id generation preferred : Z)
    (policy : option ReplicationPolicyRecord) (now : Z) : option ReplicaRecord :=
  fold_left (better_source preferred)
    (List.filter (is_source plane state_id generation policy now)
       (replicas_of_state plane state_id generation)) None.

Definition operation_capacity_available (plane : ControlPlane) (state_id maximum_in_flight : Z)
    : bool :=
  u32 (Z.of_nat (length (List.filter
    (λ o, (op_state_id o =? state_id) && negb (operation_is_terminal o))
    (values (pl_operations plane))))) <? maximum_in_flight.

Definition bumped_replica_set (plane : ControlPlane) (state_id generation tick epoch : Z)
    (advance_generation : bool) : ReplicaSetRecord :=
  let set :=
    match find_replica_set plane state_id generation with
    | Some existing => rebuild_replica_set plane existing
    | None =>
        ReplicaSetRecord_default <| rs_state_id := state_id |>
          <| rs_state_generation := generation |>
          <| rs_state := RSS.NO_AUTHORITATIVE_REPLICA |>
    end in
  let set :=
    if advance_generation
    then set <| rs_generation ::= λ g, if valid g then id_next g else 1 |>
    else if negb (valid (rs_generation set)) then set <| rs_generation := 1 |> else set in
  set <| rs_epoch := epoch |> <| rs_updated_at := tick |>.

Definition bump_replica_set_effect (plane : ControlPlane) (state_id generation tick epoch : Z)
    (advance_generation : bool) : Effect :=
  PUT_REPLICA_SET (bumped_replica_set plane state_id generation tick epoch advance_generation).

(** ** The durable store as an interface *)

(** An error of the store: its code and its rendered text, which the plane keeps
    in [persistence_detail]. *)
Record StoreError := mkStoreError { se_code : ErrorCode; se_text : string }.

(** [PersistenceStore] as [Fabric::Impl] uses it.  [None] is success.  The plane
    given to [write_checkpoint] is what [encode_snapshot] serialises. *)
Class PersistenceStore (S : Type) := {
  store_append : S → list Effect → Z → Z → Z → option StoreError * S;
  store_write_checkpoint : S → ControlPlane → option StoreError * S
}.

(** ** [Fabric::Impl] *)

Section engine.
Context {S : Type} `{PersistenceStore S}.

Record Impl := mkImpl {
  im_plane : ControlPlane;
  im_config : FabricConfig;
  im_store : option S;
  im_shutting_down : bool;
  im_recovered_from_durable : bool;
  im_journal_since_checkpoint : Z
}.

#[export] Instance Impl_eta : Eta Impl := λ r,
  mkImpl (im_plane r) (im_config r) (im_store r) (im_shutting_down r)
    (im_recovered_from_durable r) (im_journal_since_checkpoint r).

(** [Fabric::Impl::checkpoint_image] on the current plane, with its early return
    for a missing store taken by the caller. *)
Definition force_checkpoint_locked (im : Impl) : Result unit * Impl :=
  match im_store im with
  | None => (Err EC.NOT_SUPPORTED, im)
  | Some store =>
      match store_write_checkpoint store (im_plane im) with
      | (Some e, store') =>
          (Err (se_code e),
           im <| im_store := Some store' |>
              <| im_plane ::= λ p, p <| pl_persistence_healthy := false |>
                                     <| pl_persistence_detail := se_text e |> |>)
      | (None, store') =>
          (Ok tt,
           im <| im_store := Some store' |>
              <| im_plane ::= λ p, p <| pl_persistence_healthy := true |>
                                     <| pl_persistence_detail := "" |>
                                     <| pl_snapshots_written ::= inc |> |>
              <| im_journal_since_checkpoint := 0 |>)
      end
  end.

Definition observe_tick (tick : Z) (plane : ControlPlane) : ControlPlane :=
  if tick >? pl_logical_time plane then plane <| pl_logical_time := tick |> else plane.

(** The part of [persist_and_apply] after the append. *)
Definition apply_mutation (mu : FabricMutation) (sequence : option Z) (plane : ControlPlane)
    : ControlPlane :=
  (observe_tick (mu_tick mu) (apply_all plane (mu_effects mu)))
    <| pl_durable_sequence ::= λ s, default (u64 (s + 1)) sequence |>
    <| pl_journal_records ::= inc |>.

(** The append: [Some code] when the mutation is refused because it could not be
    made durable. *)
Definition append_mutation (mu : FabricMutation) (im : Impl) : option ErrorCode * Impl :=
  let sequence := u64 (pl_durable_sequence (im_plane im) + 1) in
  match im_store im with
  | None => (None, im)
  | Some store =>
      match store_append store (mu_effects mu) sequence (mu_tick mu) (mu_epoch mu) with
      | (None, store') => (None, im <| im_store := Some store' |>)
      | (Some e, store') =>
          if cfg_require_durable_commits (im_config im)
          then (Some (se_code e), im <| im_store := Some store' |>)
          else (None, im <| im_store := Some store' |>
                         <| im_plane ::= λ p, p <| pl_persistence_healthy := false |>
                                                <| pl_persistence_detail := se_text e |> |>)
      end
  end.

(** The effects applied to the image, with the position they were given. *)
Definition apply_locked (mu : FabricMutation) (im : Impl) : Impl :=
  let sequence := u64 (pl_durable_sequence (im_plane im) + 1) in
  im <| im_plane ::= apply_mutation mu (if im_store im then Some sequence else None) |>
     <| im_journal_since_checkpoint ::= inc |>.

(** The checkpoint that ends a mutation when the journal is long enough. *)
Definition checkpoint_if_due (im : Impl) : Result unit * Impl :=
  if (if im_store im then true else false) &&
     (im_journal_since_checkpoint im >=? cfg_journal_records_before_snapshot (im_config im))
  then match force_checkpoint_locked im with
       | (Err code, im') =>
           if cfg_require_durable_commits (im_config im') then (Err code, im') else (Ok tt, im')
       | (Ok _, im') => (Ok tt, im')
       end
  else (Ok tt, im).

Definition persist_and_apply (mu : FabricMutation) (im : Impl) : Result unit * Impl :=
  match mu_effects mu with
  | [] => (Ok tt, im <| im_plane ::= observe_tick (mu_tick mu) |>)
  | _ =>
      match append_mutation mu im with
      | (Some code, im) => (Err code, im)
      | (None, im) => checkpoint_if_due (apply_locked mu im)
      end
  end.

Definition start_mutation (plane : ControlPlane) : FabricMutation :=
  mkFabricMutation [] (u64 (pl_logical_time plane + 1)) (pl_coordinator_epoch plane) false.

Definition mutate {Response} (fn : ControlPlane → FabricConfig → M Response) (im : Impl)
    : Result Response * Impl :=
  if im_shutting_down im then (Err EC.SHUTTING_DOWN, im)
  else
    let '(status, mu) := fn (im_plane im) (im_config im) (start_mutation (im_plane im)) in
    match status with
    | Err code =>
        if negb (mu_commit_before_return mu) then (Err code, im)
        else match persist_and_apply mu im with
             | (Err persisted, im') => (Err persisted, im')
             | (Ok _, im') => (Err code, im')
             end
    | Ok response =>
        match persist_and_apply mu im with
        | (Err persisted, im') => (Err persisted, im')
        | (Ok _, im') => (Ok response, im')
        end
    end.
End engine.

Arguments Impl S : clear implicits.
