(* ===== verification/MutationLogic.v ===== *)
(** * A program logic for mutation bodies

    [emits P m Q]: whatever mutation [m] starts from, it only appends effects that
    satisfy [P], and a value it returns satisfies [Q].  The rules follow the
    combinators of [FabricCore]; [emits_auto] applies them through a whole body
    and leaves one goal per effect. *)

From S2P Require Import Prelude Taxonomy Model ModelOps ControlPlane Effects FabricCore.

Local Open Scope Z_scope.

Definition emits {A} (P : Effect → Prop) (m : M A) (Q : A → Prop) : Prop :=
  ∀ mu, ∃ es, mu_effects (m mu).2 = mu_effects mu ++ es ∧ Forall P es ∧
    ∀ a, (m mu).1 = Ok a → Q a.

Section rules.
Context (P : Effect → Prop).

Lemma emits_nothing {A} (m : M A) (Q : A → Prop) :
  (∀ mu, mu_effects (m mu).2 = mu_effects mu ∧ ∀ a, (m mu).1 = Ok a → Q a) → emits P m Q.
Proof. intros H mu. destruct (H mu) as [-> ?]. exists []. by rewrite app_nil_r. Qed.

Lemma emits_ret {A} (a : A) (Q : A → Prop) : Q a → emits P (mret a) Q.
Proof. intros. apply emits_nothing. intros mu. split; [done|]. by intros ? [= <-]. Qed.

Lemma emits_refuse {A} code (Q : A → Prop) : emits P (refuse code) Q.
Proof. by apply emits_nothing. Qed.

Lemma emits_refuse_if b code : emits P (refuse_if b code) (λ _, b = false).
Proof. destruct b; [apply emits_refuse|by apply emits_ret]. Qed.

Lemma emits_require {A} (o : option A) code : emits P (require o code) (λ a, o = Some a).
Proof. destruct o; [by apply emits_ret|apply emits_refuse]. Qed.

Lemma emits_get_tick : emits P get_tick (λ _, True).
Proof. by apply emits_nothing. Qed.

Lemma emits_commit_before_return : emits P commit_before_return (λ _, True).
Proof. by apply emits_nothing. Qed.

Lemma emits_emit e : P e → emits P (emit e) (λ _, True).
Proof. intros He mu. exists [e]. split; [done|]. split; [by constructor|done]. Qed.

Lemma emits_bind {A B} (m : M A) (f : A → M B) (Q : A → Prop) (R : B → Prop) :
  emits P m Q → (∀ a, Q a → emits P (f a) R) → emits P (mbind m f) R.
Proof.
  intros Hm Hf mu. destruct (Hm mu) as (es & Hes & HP & HQ). unfold mbind.
  destruct (m mu) as [[a|code] mu']; simpl in *.
  - destruct (Hf a (HQ a eq_refl) mu') as (fs & Hfs & HP' & HR).
    exists (es ++ fs). rewrite Hfs, Hes, app_assoc. split; [done|].
    split; [by apply Forall_app_2|done].
  - by exists es.
Qed.

Lemma emits_weaken {A} (m : M A) (Q R : A → Prop) : emits P m Q → (∀ a, Q a → R a) → emits P m R.
Proof.
  intros Hm HQR mu. destruct (Hm mu) as (es & ? & ? & ?). exists es. eauto.
Qed.

Lemma emits_true {A} (m : M A) (Q : A → Prop) : emits P m Q → emits P m (λ _, True).
Proof. intros Hm. by eapply emits_weaken. Qed.
End rules.

Lemma emits_emit_all P es : Forall P es → emits P (emit_all es) (λ _, True).
Proof.
  induction 1 as [|e es He _ IH]; simpl; [by apply emits_ret|].
  eapply emits_bind; [by apply emits_emit|]. by intros.
Qed.

Lemma emits_impl {A} (P P' : Effect → Prop) (m : M A) Q :
  (∀ e, P e → P' e) → emits P m Q → emits P' m Q.
Proof.
  intros HP Hm mu. destruct (Hm mu) as (es & ? & ? & ?). exists es.
  split; [done|]. split; [by eapply Forall_impl|done].
Qed.

(** Two predicates on the same effects. *)
Lemma emits_conj {A} (P P' : Effect → Prop) (m : M A) Q Q' :
  emits P m Q → emits P' m Q' → emits (λ e, P e ∧ P' e) m (λ a, Q a ∧ Q' a).
Proof.
  intros H1 H2 mu. destruct (H1 mu) as (es & E1 & F1 & Q1). destruct (H2 mu) as (fs & E2 & F2 & Q2).
  rewrite E1 in E2. apply app_inv_head in E2 as <-. exists es.
  split; [done|]. split; [by apply List.Forall_and|naive_solver].
Qed.

(** Rules for calls of a helper; extended by the components. *)
#[export] Hint Resolve emits_refuse emits_refuse_if emits_require emits_get_tick
  emits_commit_before_return : emits.

(** One rule.  Conditionals and lookups of a body are split with their equation. *)
Ltac emits_step :=
  match goal with
  | |- emits _ (mbind _ _) _ => eapply emits_bind; [|let H := fresh "G" in intros ? H]
  | |- emits _ (if ?b then _ else _) _ => let H := fresh "B" in destruct b eqn:H
  | |- emits _ (match ?o with Some _ => _ | None => _ end) _ =>
      let H := fresh "O" in destruct o eqn:H
  | |- emits _ (match ?x with _ => _ end) _ => let H := fresh "X" in destruct x eqn:H
  | |- emits _ (let '(_, _) := ?x in _) _ => let H := fresh "X" in destruct x eqn:H
  | |- emits _ (mret _) _ => apply emits_ret; try exact I
  | |- emits _ (emit _) _ => apply emits_emit
  | |- emits _ (emit_all _) _ => apply emits_emit_all
  | |- emits _ _ _ => solve [eauto 2 with emits nocore]
  | |- emits _ _ (λ _, True) => solve [eapply emits_true; eauto 2 with emits nocore]
  end.

Ltac emits_auto := cbv zeta; repeat (emits_step; cbv beta zeta).

(** ** From a body to the plane it leaves *)

(** The effects of a run from the empty mutation [mutate] starts with. *)
Lemma emits_run {A} P (m : M A) Q mu :
  emits P m Q → mu_effects mu = [] →
  Forall P (mu_effects (m mu).2) ∧ ∀ a, (m mu).1 = Ok a → Q a.
Proof. intros Hm Hmu. destruct (Hm mu) as (es & -> & ? & ?). by rewrite Hmu. Qed.

(** ** Successful runs

    Inversion of [m mu = (Ok a, mu')] along the combinators, for the bodies whose
    effects are needed exactly. *)

Section success.
Context {A B : Type}.

Lemma mbind_Ok (m : M A) (f : A → M B) mu b mu' :
  mbind m f mu = (Ok b, mu') → ∃ a mu1, m mu = (Ok a, mu1) ∧ f a mu1 = (Ok b, mu').
Proof. unfold mbind. destruct (m mu) as [[a|code] mu1]; [eauto|done]. Qed.

Lemma mret_Ok (a b : A) mu mu' : mret a mu = (Ok b, mu') → b = a ∧ mu' = mu.
Proof. by intros [= <- <-]. Qed.

Lemma refuse_Ok code mu (a : A) mu' : refuse code mu = (Ok a, mu') → False.
Proof. done. Qed.

Lemma refuse_if_Ok b code mu u mu' : refuse_if b code mu = (Ok u, mu') → b = false ∧ mu' = mu.
Proof. destruct b; [done|]. by intros [= <- <-]. Qed.

Lemma require_Ok (o : option A) code mu a mu' :
  require o code mu = (Ok a, mu') → o = Some a ∧ mu' = mu.
Proof. destruct o; [|done]. by intros [= <- <-]. Qed.

Lemma emit_Ok e mu u mu' :
  emit e mu = (Ok u, mu') → mu' = mu <| mu_effects ::= λ l, l ++ [e] |>.
Proof. by intros [= <-]. Qed.

Lemma get_tick_Ok mu t mu' : get_tick mu = (Ok t, mu') → t = mu_tick mu ∧ mu' = mu.
Proof. by intros [= <- <-]. Qed.
End success.

(** Reads one combinator of a successful run. *)
Ltac run_step H :=
  match type of H with
  | mbind _ _ _ = (Ok _, _) =>
      let H1 := fresh "R" in apply mbind_Ok in H as (? & ? & H1 & H); run_step H1
  | mret _ _ = (Ok _, _) => apply mret_Ok in H as [? ?]; subst
  | refuse _ _ = (Ok _, _) => destruct (refuse_Ok _ _ _ _ H)
  | refuse_if _ _ _ = (Ok _, _) => apply refuse_if_Ok in H as [H ?]; subst
  | require _ _ _ = (Ok _, _) => apply require_Ok in H as [H ?]; subst
  | emit _ _ = (Ok _, _) => apply emit_Ok in H; subst
  | get_tick _ = (Ok _, _) => apply get_tick_Ok in H as [? ?]; subst
  | (if ?b then _ else _) _ = (Ok _, _) => let E := fresh "B" in destruct b eqn:E
  | match ?o with Some _ => _ | None => _ end _ = (Ok _, _) => let E := fresh "O" in destruct o eqn:E
  | (match ?x with _ => _ end) _ = (Ok _, _) => let E := fresh "X" in destruct x eqn:E
  | _ => idtac
  end.
Ltac run_ok H := cbv zeta in H; repeat (progress run_step H; cbv beta zeta in H).

(** ** Bodies that keep nothing on an error *)

(** [quiet m]: [m] never asks for its effects to be kept when it fails. *)
Definition quiet {A} (m : M A) : Prop :=
  ∀ mu, mu_commit_before_return (m mu).2 = mu_commit_before_return mu.

Lemma quiet_bind {A B} (m : M A) (f : A → M B) :
  quiet m → (∀ a, quiet (f a)) → quiet (mbind m f).
Proof.
  intros Hm Hf mu. unfold mbind. specialize (Hm mu).
  destruct (m mu) as [[a|code] mu']; [|done]. by rewrite Hf.
Qed.

Lemma quiet_ret {A} (a : A) : quiet (mret a).
Proof. done. Qed.
Lemma quiet_refuse {A} code : quiet (refuse (A:=A) code).
Proof. done. Qed.
Lemma quiet_refuse_if b code : quiet (refuse_if b code).
Proof. by destruct b. Qed.
Lemma quiet_require {A} (o : option A) code : quiet (require o code).
Proof. by destruct o. Qed.
Lemma quiet_emit e : quiet (emit e).
Proof. done. Qed.
Lemma quiet_get_tick : quiet get_tick.
Proof. done. Qed.
Lemma quiet_emit_all es : quiet (emit_all es).
Proof. induction es; [done|]. simpl. by apply quiet_bind. Qed.

#[export] Hint Resolve quiet_ret quiet_refuse quiet_refuse_if quiet_require quiet_emit
  quiet_get_tick quiet_emit_all : quiet.

Ltac quiet_step :=
  match goal with
  | |- quiet (mbind _ _) => apply quiet_bind; [|intros ?]
  | |- quiet (if ?b then _ else _) => destruct b
  | |- quiet (match ?x with _ => _ end) => destruct x
  | |- quiet _ => solve [eauto 2 with quiet nocore]
  end.
Ltac quiet_auto := cbv zeta; repeat (quiet_step; cbv beta zeta).
