(* ===== verification/FabricState.v ===== *)
(** * States, clusters, compatibility and policy ([fabric_state.cpp])

    The bodies of the public mutations, one definition per [Fabric::] method (the
    lambda it gives to [mutate]), and the read-only queries. *)

From S2P Require Import Prelude Taxonomy Model Cost Compatibility ModelOps ControlPlane.
From S2P Require Import FabricCore.

Local Open Scope Z_scope.

#[export] Instance SizeValue_eq_dec : EqDecision SizeValue.
Proof. solve_decision. Defined.
#[export] Instance Digest_eq_dec : EqDecision Digest.
Proof. solve_decision. Defined.
#[export] Instance CompatibilityDescriptor_eq_dec : EqDecision CompatibilityDescriptor.
Proof. solve_decision. Defined.
#[export] Instance ReplicationRequirements_eq_dec : EqDecision ReplicationRequirements.
Proof. solve_decision. Defined.

(** ** Validation helpers *)

Definition validate_text (text : string) : M unit :=
  refuse_if (string_size text >? kMaxMetadataStringBytes) EC.INVALID_ARGUMENT.

Definition validate_spec (spec : StateGenerationSpec) : M unit :=
  refuse_if (negb (valid (ss_state_id spec))) EC.INVALID_ARGUMENT;;;
  refuse_if (negb (valid (ss_generation spec))) EC.INVALID_ARGUMENT;;;
  refuse_if (ss_branch spec && negb (valid (ss_branches_from spec))) EC.INVALID_ARGUMENT;;;
  refuse_if (negb (ss_branch spec) && valid (ss_branches_from spec)) EC.INVALID_ARGUMENT;;;
  refuse_if (ss_branch spec && (ss_branches_from spec =? ss_generation spec)) EC.INVALID_ARGUMENT;;;
  refuse_if (size_known (ss_logical_size spec) && (sz_bytes (ss_logical_size spec) >? 2 ^ 44))
    EC.RESOURCE_EXHAUSTED;;;
  validate_text (sp_producer (ss_provenance spec));;;
  validate_text (sp_verification (ss_provenance spec));;;
  validate_text (ri_method (ss_reconstruction spec));;;
  refuse_if (rr_maximum_replicas (ss_replication_requirements spec) =? 0) EC.INVALID_ARGUMENT;;;
  refuse_if (rr_minimum_authoritative_replicas (ss_replication_requirements spec) >?
             rr_maximum_replicas (ss_replication_requirements spec)) EC.INVALID_ARGUMENT.

Definition same_governing_content (existing candidate : StateGenerationRecord) : bool :=
  (sg_lineage existing =? sg_lineage candidate) &&
  eqb (sg_branch existing) (sg_branch candidate) &&
  (sg_branches_from existing =? sg_branches_from candidate) &&
  bool_decide (sg_state_class existing = sg_state_class candidate) &&
  bool_decide (sg_consistency existing = sg_consistency candidate) &&
  bool_decide (sg_logical_size existing = sg_logical_size candidate) &&
  bool_decide (sg_physical_size existing = sg_physical_size candidate) &&
  bool_decide (sg_content_digest existing = sg_content_digest candidate) &&
  bool_decide (sg_digest_algorithm existing = sg_digest_algorithm candidate) &&
  (sg_compatibility_id existing =? sg_compatibility_id candidate) &&
  (sg_compatibility_generation existing =? sg_compatibility_generation candidate) &&
  bool_decide (sg_compatibility_required existing = sg_compatibility_required candidate) &&
  bool_decide (sg_durability existing = sg_durability candidate) &&
  bool_decide (sg_reuse_class existing = sg_reuse_class candidate) &&
  bool_decide (sg_replication_requirements existing = sg_replication_requirements candidate).

(** The lineage a specification names; its own identity by default. *)
Definition spec_lineage (spec : StateGenerationSpec) : Z :=
  if valid (ss_lineage spec) then ss_lineage spec else ss_state_id spec.

Definition materialize (spec : StateGenerationSpec) (tick : Z) : StateGenerationRecord :=
  StateGenerationRecord_default
    <| sg_state_id := ss_state_id spec |>
    <| sg_generation := ss_generation spec |>
    <| sg_lineage := spec_lineage spec |>
    <| sg_branch := ss_branch spec |>
    <| sg_branches_from := ss_branches_from spec |>
    <| sg_state_class := ss_state_class spec |>
    <| sg_consistency := ss_consistency spec |>
    <| sg_lifecycle := SGL.STAGED |>
    <| sg_logical_size := ss_logical_size spec |>
    <| sg_physical_size := ss_physical_size spec |>
    <| sg_content_digest := ss_content_digest spec |>
    <| sg_digest_algorithm := ss_digest_algorithm spec |>
    <| sg_compatibility_id := ss_compatibility_id spec |>
    <| sg_compatibility_generation := ss_compatibility_generation spec |>
    <| sg_compatibility_required := ss_compatibility_required spec |>
    <| sg_reconstruction := ss_reconstruction spec |>
    <| sg_durability := ss_durability spec |>
    <| sg_reuse_class := ss_reuse_class spec |>
    <| sg_placement_constraints := constraints_canonicalize (ss_placement_constraints spec) |>
    <| sg_replication_requirements := ss_replication_requirements spec |>
    <| sg_provenance := ss_provenance spec |>
    <| sg_expected_reuse := ss_expected_reuse spec |>
    <| sg_transfer_cost := ss_transfer_cost spec |>
    <| sg_reconstruction_cost := ss_reconstruction_cost spec |>
    <| sg_registered_at := tick |>.

(** ** States *)

Definition register_state (spec : StateGenerationSpec) (plane : ControlPlane)
    (config : FabricConfig) : M StateGenerationRecord :=
  validate_spec spec;;;
  match find_state plane (ss_state_id spec) (ss_generation spec) with
  | Some existing =>
      let candidate := materialize spec (sg_registered_at existing) in
      refuse_if (negb (same_governing_content existing candidate)) EC.DUPLICATE_CONFLICT;;;
      mret existing
  | None =>
      let generations :=
        List.filter (λ r, sg_state_id r =? ss_state_id spec) (values (pl_states plane)) in
      refuse_if (existsb (λ r, negb (sg_lineage r =? spec_lineage spec)) generations)
        EC.INVALID_ARGUMENT;;;
      refuse_if (ss_branch spec &&
                 negb (has_key (pl_states plane) (ss_state_id spec, ss_branches_from spec)))
        EC.UNKNOWN_STATE;;;
      let! tick := get_tick in
      let next := pl_next_id plane in
      let record :=
        (materialize spec tick) <| sg_replica_set_id := next |>
          <| sg_replica_set_generation := 1 |> in
      let set :=
        ReplicaSetRecord_default <| rs_replica_set_id := next |> <| rs_generation := 1 |>
          <| rs_state_id := sg_state_id record |>
          <| rs_state_generation := sg_generation record |>
          <| rs_state := RSS.NO_AUTHORITATIVE_REPLICA |>
          <| rs_requirements := sg_replication_requirements record |>
          <| rs_epoch := pl_coordinator_epoch plane |>
          <| rs_created_at := tick |> <| rs_updated_at := tick |> in
      let counters := (pl_counters plane) <| fc_generations_registered ::= inc |> in
      let counters :=
        match generations with
        | [] => counters <| fc_states_registered ::= inc |>
        | _ => counters
        end in
      emit (PUT_STATE record);;;
      emit (PUT_REPLICA_SET set);;;
      emit (PUT_COUNTERS counters);;;
      emit (SET_NEXT_ID (u64 (next + 1)));;;
      mret record
  end.

Definition publish_state_generation (spec : StateGenerationSpec) (plane : ControlPlane)
    (config : FabricConfig) : M StateGenerationRecord :=
  validate_spec spec;;;
  let! existing := require (find_state plane (ss_state_id spec) (ss_generation spec)) EC.NOT_FOUND in
  let candidate := materialize spec (sg_registered_at existing) in
  if bool_decide (sg_lifecycle existing ≠ SGL.STAGED) then
    if same_governing_content existing candidate then mret existing
    else refuse EC.ILLEGAL_TRANSITION
  else
    let record :=
      candidate <| sg_replica_set_id := sg_replica_set_id existing |>
        <| sg_replica_set_generation := sg_replica_set_generation existing |>
        <| sg_revalidation_required := sg_revalidation_required existing |> in
    emit (PUT_STATE record);;;
    mret record.

(** The replica a superseded generation leaves behind. *)
Definition supersede_replica (plane : ControlPlane) (tick : Z) (replica : ReplicaRecord)
    : ReplicaRecord :=
  let revised :=
    match rp_lifecycle replica with
    | RL.AUTHORITATIVE | RL.DEGRADED | RL.REVALIDATION_REQUIRED =>
        replica <| rp_lifecycle := RL.SUPERSEDED |>
    | _ => replica
    end in
  revised <| rp_authority := RAS.HISTORICAL |> <| rp_counts_toward_factor := false |>
    <| rp_last_epoch := pl_coordinator_epoch plane |> <| rp_updated_at := tick |>.

(** The effects that supersede one older generation. *)
Definition supersede_effects (plane : ControlPlane) (tick : Z) (old : StateGenerationRecord)
    : list Effect :=
  [PUT_STATE (old <| sg_lifecycle := SGL.HISTORICAL |>)] ++
  map (λ replica, PUT_REPLICA (supersede_replica plane tick replica))
    (replicas_of_state plane (sg_state_id old) (sg_generation old)) ++
  match find_replica_set plane (sg_state_id old) (sg_generation old) with
  | Some old_set =>
      [PUT_REPLICA_SET
         (old_set <| rs_generation ::= id_next |> <| rs_state := RSS.RETIRING |>
            <| rs_epoch := pl_coordinator_epoch plane |> <| rs_updated_at := tick |>)]
  | None => []
  end.

(** The current generations of the same state and lineage. *)
Definition current_generations (plane : ControlPlane) (state_id lineage : Z)
    : list StateGenerationRecord :=
  List.filter (λ r, is_current r && (sg_lineage r =? lineage) && (sg_state_id r =? state_id))
    (values (pl_states plane)).

Definition commit_state_generation (state_id generation commit_id : Z) (plane : ControlPlane)
    (config : FabricConfig) : M StateGenerationRecord :=
  refuse_if (negb (valid commit_id)) EC.INVALID_ARGUMENT;;;
  let! existing := require (find_state plane state_id generation) EC.UNKNOWN_STATE in
  match sg_lifecycle existing with
  | SGL.CURRENT =>
      if sg_commit existing =? commit_id then mret existing else refuse EC.DUPLICATE_CONFLICT
  | SGL.INVALID | SGL.CORRUPT | SGL.RETIRED | SGL.REVALIDATION_REQUIRED =>
      refuse EC.ILLEGAL_TRANSITION
  | _ =>
      let current := current_generations plane state_id (sg_lineage existing) in
      let other_current_non_branch :=
        u32 (Z.of_nat (length (List.filter (λ r, negb (sg_branch r)) current))) in
      let superseded := if sg_branch existing then [] else current in
      refuse_if (negb (sg_branch existing) && (other_current_non_branch >? 1))
        EC.SPLIT_BRAIN_RISK;;;
      let! tick := get_tick in
      let record :=
        existing <| sg_lifecycle := SGL.CURRENT |> <| sg_commit := commit_id |>
          <| sg_committed_epoch := pl_coordinator_epoch plane |>
          <| sg_committed_at := tick |> <| sg_revalidation_required := false |> in
      let superseded :=
        List.filter (λ old, negb (sg_generation old =? sg_generation record)) superseded in
      let counters :=
        (pl_counters plane) <| fc_generations_committed ::= inc |>
          <| fc_generations_superseded ::= Nat.iter (length superseded) inc |> in
      emit_all (concat (map (supersede_effects plane tick) superseded));;;
      emit (PUT_STATE record);;;
      emit (PUT_COUNTERS counters);;;
      mret record
  end.

Definition query_state (plane : ControlPlane) (state_id generation : Z)
    : Result StateGenerationRecord :=
  match find_state plane state_id generation with
  | Some record => Ok record
  | None => Err EC.UNKNOWN_STATE
  end.

Definition current_state (plane : ControlPlane) (state_id : Z) : Result StateGenerationRecord :=
  match find_current_state plane state_id with
  | Some record => Ok record
  | None => Err EC.NO_AUTHORITATIVE_REPLICA
  end.

Definition generation_le (a b : StateGenerationRecord) : Prop := sg_generation a ≤ sg_generation b.

#[export] Instance generation_le_dec : RelDecision generation_le.
Proof. intros a b. unfold generation_le. apply _. Defined.

Definition query_lineage (plane : ControlPlane) (state_id : Z) : Result LineageView :=
  let recorded := List.filter (λ r, sg_state_id r =? state_id) (values (pl_states plane)) in
  match recorded with
  | [] => Err EC.UNKNOWN_STATE
  | _ =>
      let generations := merge_sort generation_le recorded in
      let current := List.filter is_current generations in
      let trunk := List.filter (λ r, negb (sg_branch r)) current in
      Ok (mkLineageView state_id
            (default 0 (option_map sg_lineage (head (reverse recorded))))
            generations
            (default 0 (option_map sg_generation (head (reverse trunk))))
            (existsb sg_branch recorded)
            (map sg_generation (List.filter sg_branch current)))
  end.

Definition list_states (plane : ControlPlane) : list StateGenerationRecord :=
  values (pl_states plane).

(** ** Clusters *)

Definition kMaxClusterTagCount : Z := 128.

Definition capability_counts_exceed (c : ClusterCapabilities) : bool :=
  (Z.of_nat (length (cc_tags c)) >? kMaxClusterTagCount) ||
  (Z.of_nat (length (cc_storage_classes c)) >? kMaxClusterTagCount) ||
  (Z.of_nat (length (cc_accelerator_architectures c)) >? kMaxClusterTagCount).

(** [*set] with its generation advanced, as every fence writes it. *)
Definition fenced_set_effects (plane : ControlPlane) (tick : Z) (replica : ReplicaRecord)
    : list Effect :=
  match find_replica_set plane (rp_state_id replica) (rp_state_generation replica) with
  | Some set =>
      [PUT_REPLICA_SET
         (set <| rs_generation ::= id_next |> <| rs_epoch := pl_coordinator_epoch plane |>
            <| rs_updated_at := tick |>)]
  | None => []
  end.

(** The fields every fence writes; the lifecycle an authoritative replica falls
    to, the availability and the text differ. *)
Definition fence_replica (lifecycle : ReplicaLifecycle) (availability : ReplicaAvailabilityState)
    (text : string) (tick : Z) (replica : ReplicaRecord) : ReplicaRecord :=
  let revised :=
    replica <| rp_authority := RAS.FENCED |> <| rp_counts_toward_factor := false |>
      <| rp_availability := availability |>
      <| rp_evidence ::= λ e, e <| re_revalidation_required := true |> |>
      <| rp_last_error := text |> <| rp_updated_at := tick |> in
  match rp_lifecycle replica with
  | RL.AUTHORITATIVE | RL.DEGRADED => revised <| rp_lifecycle := lifecycle |>
  | _ => revised
  end.

Definition fence_effects (plane : ControlPlane) (revise : ReplicaRecord → ReplicaRecord)
    (tick : Z) (replicas : list ReplicaRecord) : list Effect :=
  concat (map (λ replica, PUT_REPLICA (revise replica) :: fenced_set_effects plane tick replica)
    replicas).

(** The identity part of a registration: incarnation, worker and boot identities,
    the next free identity and whether the cluster reincarnated. *)
Definition register_identity (registration : ClusterRegistration) (existing : option ClusterRecord)
    (epoch tick next : Z) (counters : FabricCounters)
    : ClusterRecord * bool * Z * FabricCounters :=
  match existing with
  | None =>
      let record :=
        ClusterRecord_default <| cl_cluster_id := crg_cluster_id registration |>
          <| cl_incarnation := next |> in
      let next := u64 (next + 1) in
      let '(worker, next) :=
        if valid (crg_worker_id registration) then (crg_worker_id registration, next)
        else (next, u64 (next + 1)) in
      let '(boot, next) :=
        if valid (crg_worker_boot_id registration) then (crg_worker_boot_id registration, next)
        else (next, u64 (next + 1)) in
      (record <| cl_worker_id := worker |> <| cl_worker_boot_id := boot |>
         <| cl_registered_epoch := epoch |> <| cl_registered_at := tick |>
         <| cl_incarnation_started_at := tick |>,
       false, next, counters <| fc_clusters_registered ::= inc |>)
  | Some existing =>
      let reincarnated :=
        crg_force_reincarnation registration ||
        (valid (cl_worker_boot_id existing) && valid (crg_worker_boot_id registration) &&
         negb (cl_worker_boot_id existing =? crg_worker_boot_id registration)) in
      let '(record, next, counters) :=
        if reincarnated
        then (existing <| cl_incarnation := next |> <| cl_incarnation_started_at := tick |>
                <| cl_reincarnation_count ::= λ n, u32 (n + 1) |>,
              u64 (next + 1),
              counters <| fc_cluster_reincarnations ::= inc |>
                <| fc_cluster_incarnations_fenced ::= inc |>)
        else (existing, next, counters) in
      let record := record <| cl_registered_epoch := epoch |> <| cl_registered_at := tick |> in
      let '(record, next) :=
        if valid (crg_worker_id registration)
        then (record <| cl_worker_id := crg_worker_id registration |>, next)
        else if negb (valid (cl_worker_id record))
        then (record <| cl_worker_id := next |>, u64 (next + 1))
        else (record, next) in
      let '(record, next) :=
        if valid (crg_worker_boot_id registration)
        then (record <| cl_worker_boot_id := crg_worker_boot_id registration |>, next)
        else if reincarnated || negb (valid (cl_worker_boot_id record))
        then (record <| cl_worker_boot_id := next |>, u64 (next + 1))
        else (record, next) in
      (record, reincarnated, next, counters)
  end.

(** The evidence a registration publishes: five fresh generations. *)
Definition registered_evidence (next tick epoch : Z) : ClusterEvidence :=
  mkClusterEvidence next (u64 (next + 1)) (u64 (next + 2)) (u64 (next + 3)) (u64 (next + 4))
    tick epoch false true.

Definition register_cluster (registration : ClusterRegistration) (plane : ControlPlane)
    (config : FabricConfig) : M ClusterRecord :=
  refuse_if (negb (valid (crg_cluster_id registration))) EC.INVALID_ARGUMENT;;;
  refuse_if (valid (crg_expected_coordinator_epoch registration) &&
             negb (crg_expected_coordinator_epoch registration =? pl_coordinator_epoch plane))
    EC.STALE_EPOCH;;;
  validate_text (crg_location_descriptor registration);;;
  refuse_if (capability_counts_exceed (crg_capabilities registration)) EC.RESOURCE_EXHAUSTED;;;
  let! tick := get_tick in
  let epoch := pl_coordinator_epoch plane in
  let '(record, reincarnated, next, counters) :=
    register_identity registration (find_cluster plane (crg_cluster_id registration)) epoch tick
      (pl_next_id plane) (pl_counters plane) in
  let record :=
    record
      <| cl_location := mkClusterLocation (crg_region registration) (crg_site registration)
           (crg_failure_domain registration) (crg_location_descriptor registration) |>
      <| cl_capabilities := capabilities_canonicalize (crg_capabilities registration) |>
      <| cl_capacity := crg_capacity registration |>
      <| cl_health := crg_health registration |>
      <| cl_lifecycle := if reincarnated then CL.REINCARNATED else CL.ACTIVE |>
      <| cl_live_authority := true |>
      <| cl_updated_at := tick |>
      <| cl_evidence := registered_evidence next tick epoch |>
      <| cl_last_evidence_epoch := epoch |> in
  let next := u64 (next + 5) in
  let fenced :=
    if reincarnated
    then List.filter (λ r, (rlo_cluster_id (rp_location r) =? cl_cluster_id record) &&
                           negb (replica_is_terminal r) &&
                           negb (rlo_cluster_incarnation (rp_location r) =? cl_incarnation record))
           (values (pl_replicas plane))
    else [] in
  let counters := counters <| fc_replicas_fenced ::= Nat.iter (length fenced) inc |> in
  emit (PUT_CLUSTER record);;;
  emit_all (fence_effects plane
    (fence_replica RL.REVALIDATION_REQUIRED RA.UNKNOWN
       ("fenced by cluster reincarnation to incarnation " +:+ id_to_string (cl_incarnation record))
       tick) tick fenced);;;
  emit (PUT_COUNTERS counters);;;
  emit (SET_NEXT_ID next);;;
  mret record.

Definition publish_cluster_evidence (update : ClusterEvidenceUpdate) (plane : ControlPlane)
    (config : FabricConfig) : M ClusterRecord :=
  let! existing := require (find_cluster plane (ceu_cluster_id update)) EC.UNKNOWN_CLUSTER in
  refuse_if (valid (ceu_expected_coordinator_epoch update) &&
             negb (ceu_expected_coordinator_epoch update =? pl_coordinator_epoch plane))
    EC.STALE_EPOCH;;;
  refuse_if (negb (cl_live_authority existing) ||
             negb (ceu_incarnation update =? cl_incarnation existing))
    EC.STALE_CLUSTER_INCARNATION;;;
  refuse_if (valid (ceu_worker_boot_id update) && valid (cl_worker_boot_id existing) &&
             negb (ceu_worker_boot_id update =? cl_worker_boot_id existing))
    EC.STALE_WORKER;;;
  let! tick := get_tick in
  let next := pl_next_id plane in
  let record := existing <| cl_health := ceu_health update |> in
  let '(record, next) :=
    if ceu_has_capabilities update
    then (record <| cl_capabilities := capabilities_canonicalize (ceu_capabilities update) |>
            <| cl_evidence ::= λ e, e <| ce_capability_generation := next |> |>, u64 (next + 1))
    else (record, next) in
  let record :=
    if ceu_has_capacity update then record <| cl_capacity := ceu_capacity update |> else record in
  let record :=
    record
      <| cl_evidence ::= λ e, e <| ce_health_generation := next |>
           <| ce_evidence_generation := u64 (next + 1) |> <| ce_published_at := tick |>
           <| ce_coordinator_epoch := pl_coordinator_epoch plane |>
           <| ce_revalidation_required := false |> <| ce_present := true |> |>
      <| cl_last_evidence_epoch := pl_coordinator_epoch plane |>
      <| cl_updated_at := tick |> in
  let record :=
    match cl_lifecycle record with
    | CL.SUSPECT | CL.UNREACHABLE | CL.REINCARNATED => record <| cl_lifecycle := CL.ACTIVE |>
    | _ => record
    end in
  emit (PUT_CLUSTER record);;;
  emit (SET_NEXT_ID (u64 (next + 2)));;;
  mret record.

(** The live replicas of one cluster incarnation. *)
Definition hosted_replicas (plane : ControlPlane) (cluster_id incarnation : Z)
    : list ReplicaRecord :=
  List.filter (λ r, (rlo_cluster_id (rp_location r) =? cluster_id) &&
                    (rlo_cluster_incarnation (rp_location r) =? incarnation) &&
                    negb (replica_is_terminal r)) (values (pl_replicas plane)).

Definition mark_cluster_unreachable (cluster_id incarnation : Z) (reason : string)
    (plane : ControlPlane) (config : FabricConfig) : M ClusterRecord :=
  let! existing := require (find_cluster plane cluster_id) EC.UNKNOWN_CLUSTER in
  refuse_if (negb (incarnation =? cl_incarnation existing)) EC.STALE_CLUSTER_INCARNATION;;;
  if negb (cl_live_authority existing) then mret existing
  else
    validate_text reason;;;
    let! tick := get_tick in
    let record :=
      existing <| cl_live_authority := false |> <| cl_lifecycle := CL.UNREACHABLE |>
        <| cl_health := CH.UNREACHABLE |>
        <| cl_evidence ::= λ e, e <| ce_present := false |> <| ce_revalidation_required := true |> |>
        <| cl_updated_at := tick |> in
    let fenced := hosted_replicas plane cluster_id incarnation in
    let counters :=
      (pl_counters plane) <| fc_replicas_fenced ::= Nat.iter (length fenced) inc |> in
    emit (PUT_CLUSTER record);;;
    emit_all (fence_effects plane
      (fence_replica RL.STALE RA.UNREACHABLE
         ("cluster incarnation " +:+ id_to_string incarnation +:+ " is unreachable: " +:+ reason)
         tick) tick fenced);;;
    emit (PUT_COUNTERS counters);;;
    mret record.

Definition retire_cluster (cluster_id incarnation : Z) (plane : ControlPlane)
    (config : FabricConfig) : M ClusterRecord :=
  let! existing := require (find_cluster plane cluster_id) EC.UNKNOWN_CLUSTER in
  refuse_if (negb (incarnation =? cl_incarnation existing)) EC.STALE_CLUSTER_INCARNATION;;;
  let! tick := get_tick in
  let record :=
    existing <| cl_live_authority := false |> <| cl_lifecycle := CL.RETIRED |>
      <| cl_health := CH.FAILED |>
      <| cl_evidence ::= λ e, e <| ce_present := false |> <| ce_revalidation_required := true |> |>
      <| cl_updated_at := tick |> in
  let fenced := hosted_replicas plane cluster_id incarnation in
  let counters :=
    (pl_counters plane) <| fc_cluster_incarnations_fenced ::= inc |>
      <| fc_replicas_fenced ::= Nat.iter (length fenced) inc |> in
  emit (PUT_CLUSTER record);;;
  emit_all (fence_effects plane (fence_replica RL.STALE RA.ABSENT "cluster retired" tick) tick fenced);;;
  emit (PUT_COUNTERS counters);;;
  mret record.

Definition query_cluster (plane : ControlPlane) (cluster_id : Z) : Result ClusterRecord :=
  match find_cluster plane cluster_id with
  | Some record => Ok record
  | None => Err EC.UNKNOWN_CLUSTER
  end.

Definition list_clusters (plane : ControlPlane) : list ClusterRecord := values (pl_clusters plane).

(** ** Compatibility and policy *)

(** True when a published generation would move backwards. *)
Definition regresses {V} (generation_of : V → Z) (existing : option V) (generation : Z) : bool :=
  match existing with
  | Some record => generation_of record >? generation
  | None => false
  end.

Definition first_generation (generation : Z) : Z := if valid generation then generation else 1.

Definition publish_compatibility (record : CompatibilityRecord) (plane : ControlPlane)
    (config : FabricConfig) : M CompatibilityRecord :=
  refuse_if (negb (valid (cr_compatibility_id record))) EC.INVALID_ARGUMENT;;;
  validate_text (cr_producer record);;;
  let stored := record <| cr_generation ::= first_generation |> in
  refuse_if (regresses cr_generation
               (pl_compatibility_records plane !! cr_compatibility_id record) (cr_generation stored))
    EC.STALE_EVIDENCE;;;
  let! tick := get_tick in
  let stored := stored <| cr_published_at := tick |> in
  emit (PUT_COMPATIBILITY stored);;;
  mret stored.

Definition query_compatibility (plane : ControlPlane) (compatibility_id : Z)
    : Result CompatibilityRecord :=
  match pl_compatibility_records plane !! compatibility_id with
  | Some record => Ok record
  | None => Err EC.NOT_FOUND
  end.

Definition publish_placement_policy (policy : PlacementPolicyRecord) (plane : ControlPlane)
    (config : FabricConfig) : M PlacementPolicyRecord :=
  refuse_if (negb (valid (pp_placement_policy_id policy))) EC.INVALID_ARGUMENT;;;
  let stored :=
    policy <| pp_constraints ::= constraints_canonicalize |>
      <| pp_generation ::= first_generation |> in
  refuse_if (regresses pp_generation
               (pl_placement_policies plane !! pp_placement_policy_id policy) (pp_generation stored))
    EC.STALE_EVIDENCE;;;
  let! tick := get_tick in
  let stored := stored <| pp_updated_at := tick |> in
  emit (PUT_PLACEMENT_POLICY stored);;;
  mret stored.

Definition publish_replication_policy (policy : ReplicationPolicyRecord) (plane : ControlPlane)
    (config : FabricConfig) : M ReplicationPolicyRecord :=
  refuse_if (negb (valid (rpp_replication_policy_id policy))) EC.INVALID_ARGUMENT;;;
  let stored :=
    policy <| rpp_source_rules ::= eligibility_canonicalize |>
      <| rpp_destination_rules ::= eligibility_canonicalize |>
      <| rpp_generation ::= first_generation |> in
  refuse_if (regresses rpp_generation
               (pl_replication_policies plane !! rpp_replication_policy_id policy)
               (rpp_generation stored))
    EC.STALE_EVIDENCE;;;
  let! tick := get_tick in
  let stored := stored <| rpp_updated_at := tick |> in
  emit (PUT_REPLICATION_POLICY stored);;;
  mret stored.

Definition placement_policy (plane : ControlPlane) (config : FabricConfig) (policy_id : Z)
    : Result PlacementPolicyRecord :=
  match resolve_placement_policy plane config policy_id with
  | Some policy => Ok policy
  | None => Err EC.UNKNOWN_POLICY
  end.

Definition replication_policy (plane : ControlPlane) (config : FabricConfig) (policy_id : Z)
    : Result ReplicationPolicyRecord :=
  match resolve_replication_policy plane config policy_id with
  | Some policy => Ok policy
  | None => Err EC.UNKNOWN_POLICY
  end.
