(* ===== verification/Encoding.v ===== *)
(** * Canonical record encoding, the primitives ([detail/encoding.hpp])

    The helpers every record codec is built from, and the [Codec] interface that
    persistence and the wire protocol rely on: an encodable value is read back,
    decoding is memory safe on arbitrary bytes, and whatever decodes is within
    the bounds the decoder enforces. *)

From S2P Require Import Prelude Taxonomy Model Bytes Digest Cost Compatibility ModelOps.
From S2P Require Import ControlPlane FabricCore FabricState.

Local Open Scope Z_scope.

Definition kMaxPolicyListEntries : Z := 4096.
Definition kMaxPolicyStringLength : Z := 256.
Definition kMaxLocationDescriptorLength : Z := 256.
Definition kMaxFailureReasonLength : Z := 256.
Definition kMaxEncodedStringBytes : Z := 4096.
Definition kMaxDecodedMembers : Z := 4096.
Definition kMaxDecodedJournalEntries : Z := kMaxOperationJournalEntries.

(** ** Helpers *)

Definition encode_id (id : Z) : list Z := ByteWriter.u64 id.
Definition decode_id : Reader Z := Reader.u64.

Definition encode_enum {E} `{Enum E} (value : E) : list Z := ByteWriter.u16 (enum_value value).

Local Open Scope reader_scope.

Definition decode_enum {E} `{Enum E} : Reader E :=
  raw <- Reader.u16;;
  match enum_cast raw with
  | Some value => rret value
  | None => Reader.fail EC.PERSISTENCE_CORRUPT
  end.

Definition encode_vector {A} (encode_one : A → list Z) (values : list A) : list Z :=
  ByteWriter.u32 (u32 (Z.of_nat (length values))) ++ concat (map encode_one values).

(** The loop of [decode_vector], one turn per declared element. *)
Fixpoint decode_elements {A} (count : nat) (decode_one : Reader A) : Reader (list A) :=
  match count with
  | O => rret []
  | S count =>
      value <- decode_one;;
      values <- decode_elements count decode_one;;
      rret (value :: values)
  end.

Definition decode_vector {A} (max_count : Z) (decode_one : Reader A) : Reader (list A) :=
  count <- Reader.u32;;
  if count >? max_count then Reader.fail EC.PERSISTENCE_CORRUPT
  else decode_elements (Z.to_nat count) decode_one.

Definition encode_string_list (values : list string) : list Z := encode_vector ByteWriter.str values.
Definition decode_string_list (max_count : Z) : Reader (list string) :=
  decode_vector max_count (Reader.str kMaxPolicyStringLength).

Definition encode_id_list (values : list Z) : list Z := encode_vector encode_id values.
Definition decode_id_list : Reader (list Z) := decode_vector kMaxPolicyListEntries decode_id.

(** ** What can be encoded *)

Definition fits_u64 (z : Z) : bool := (0 <=? z) && (z <? 2 ^ 64).
Definition fits_u32 (z : Z) : bool := (0 <=? z) && (z <? 2 ^ 32).
Definition fits_i64 (z : Z) : bool := (i64_min <=? z) && (z <=? i64_max).
Definition fits_byte (z : Z) : bool := (0 <=? z) && (z <? 256).
Definition fits_str (max : Z) (s : string) : bool := string_size s <=? max.
Definition fits_list {A} (max : Z) (fits : A → bool) (l : list A) : bool :=
  (Z.of_nat (length l) <=? max) && forallb fits l.
Definition fits_id_list : list Z → bool := fits_list kMaxPolicyListEntries fits_u64.
Definition fits_string_list (max : Z) : list string → bool :=
  fits_list max (fits_str kMaxPolicyStringLength).
Definition fits_any {A} (_ : A) : bool := true.

(** ** What is decoded

    [produces ok m]: over data made of bytes, whatever [m] returns satisfies [ok]. *)
Definition produces {A} (ok : A → bool) (m : Reader A) : Prop :=
  ∀ r a r', Forall is_byte (br_data r) → m r = (Some a, r') →
    ok a = true ∧ br_data r' = br_data r.

Lemma produces_ret {A} ok (a : A) : ok a = true → produces ok (rret a).
Proof. intros Hok r a' r' _ [= <- <-]. done. Qed.

Lemma produces_fail {A} (ok : A → bool) code : produces ok (Reader.fail code).
Proof. intros r a r' _ [=]. Qed.

Lemma produces_bind {A B} (ok : A → bool) (ok' : B → bool) (m : Reader A) (f : A → Reader B) :
  produces ok m → (∀ a, ok a = true → produces ok' (f a)) → produces ok' (rbind m f).
Proof.
  intros Hm Hf r b r' Hd. unfold rbind. destruct (m r) as [[a|] r1] eqn:E; [|done].
  destruct (Hm r a r1 Hd E) as [Ha Hr]. intros Hb. rewrite <-Hr in *.
  by destruct (Hf a Ha r1 b r' Hd Hb).
Qed.

Lemma produces_weaken {A} (ok ok' : A → bool) (m : Reader A) :
  produces ok m → (∀ a, ok a = true → ok' a = true) → produces ok' m.
Proof. intros Hm Hw r a r' Hd E. destruct (Hm r a r' Hd E). auto. Qed.

Lemma produces_any {A} (ok : A → bool) (m : Reader A) : produces ok m → produces fits_any m.
Proof. intros Hm. by eapply produces_weaken. Qed.

(** Big-endian accumulation of [n] bytes stays within [n] bytes. *)
Lemma accumulate_range n bytes :
  Forall is_byte bytes → (length bytes ≤ n)%nat →
  0 ≤ Reader.accumulate n bytes < 2 ^ (8 * Z.of_nat n).
Proof.
  unfold Reader.accumulate. intros Hb Hlen.
  cut (∀ acc k, (k + length bytes ≤ n)%nat → 0 ≤ acc < 2 ^ (8 * Z.of_nat k) →
    0 ≤ fold_left (λ value b, Z.lor (Z.shiftl value 8 mod 2 ^ (8 * Z.of_nat n)) b) bytes acc <
      2 ^ (8 * Z.of_nat n)).
  { intros Hcut. apply (Hcut 0 0%nat); [done|]. simpl. lia. }
  clear Hlen. induction Hb as [|b bytes Hb _ IH]; intros acc k Hk Hacc; simpl in *.
  { split; [lia|]. apply Z.lt_le_trans with (2 ^ (8 * Z.of_nat k)); [lia|].
    apply Z.pow_le_mono_r; lia. }
  apply (IH _ (S k)); [lia|].
  assert (2 ^ (8 * Z.of_nat (S k)) = 256 * 2 ^ (8 * Z.of_nat k)) as Hp.
  { change 256 with (2 ^ 8). rewrite <-Z.pow_add_r by lia. f_equal. lia. }
  rewrite (Z.mod_small (Z.shiftl acc 8)).
  - unfold is_byte in Hb. rewrite lor_byte_add by lia. lia.
  - rewrite Z.shiftl_mul_pow2 by lia. change (2 ^ 8) with 256. split; [lia|].
    apply Z.lt_le_trans with (2 ^ (8 * Z.of_nat (S k))); [lia|]. apply Z.pow_le_mono_r; lia.
Qed.

Lemma produces_fixed n :
  produces (λ v, (0 <=? v) && (v <? 2 ^ (8 * Z.of_nat n))) (Reader.fixed n).
Proof.
  intros r a r' Hd. unfold Reader.fixed. destruct (br_ok r); [|done]. simpl.
  destruct (Nat.ltb_spec (length (br_data r)) (br_position r + n)); [done|].
  intros [= <- <-]. split; [|done].
  assert (0 ≤ Reader.accumulate n (take n (drop (br_position r) (br_data r))) < 2 ^ (8 * Z.of_nat n))
    as [? ?].
  { apply accumulate_range; [by apply Forall_take, Forall_drop|]. rewrite length_take. lia. }
  apply andb_true_iff. split; [by apply Z.leb_le|by apply Z.ltb_lt].
Qed.

Lemma produces_u32 : produces fits_u32 Reader.u32.
Proof. exact (produces_fixed 4). Qed.

Lemma produces_u64 : produces fits_u64 Reader.u64.
Proof. exact (produces_fixed 8). Qed.

Lemma i64_fits z : fits_i64 (i64 z) = true.
Proof.
  destruct (i64_range z). unfold fits_i64.
  apply andb_true_iff. split; by apply Z.leb_le.
Qed.

Lemma produces_i64 : produces fits_i64 Reader.i64.
Proof.
  eapply produces_bind; [apply produces_u64|]. intros v _. apply produces_ret, i64_fits.
Qed.

Lemma produces_boolean : produces fits_any Reader.boolean.
Proof.
  eapply produces_bind; [exact (produces_fixed 1)|]. intros v _.
  destruct (v >? 1); [apply produces_fail|by apply produces_ret].
Qed.

Lemma produces_raw count :
  produces (λ l, (Z.of_nat (length l) =? Z.max 0 count) && forallb fits_byte l) (Reader.raw count).
Proof.
  intros r a r' Hd. unfold Reader.raw. destruct (br_ok r); [|done]. simpl.
  unfold checked_add. destruct (Z.of_nat (br_position r) >? u64_max - count); [done|].
  destruct (Z.gtb_spec (Z.of_nat (br_position r) + count) (Z.of_nat (length (br_data r)))); [done|].
  intros [= <- <-]. split; [|done]. apply andb_true_iff. split.
  - apply Z.eqb_eq. rewrite length_take, length_drop. lia.
  - apply forallb_forall. intros b Hb%list_elem_of_In.
    assert (is_byte b) as [? ?]
      by (eapply list.Forall_forall; [|exact Hb]; by apply Forall_take, Forall_drop).
    apply andb_true_iff. split; [by apply Z.leb_le|by apply Z.ltb_lt].
Qed.

Lemma length_bytes_to_string l : String.length (bytes_to_string l) = length l.
Proof. induction l; simpl; congruence. Qed.

Lemma produces_str max : produces (fits_str max) (Reader.str max).
Proof.
  eapply produces_bind; [apply produces_u32|]. intros n Hn.
  destruct (Z.gtb_spec n max); [apply produces_fail|].
  eapply produces_bind; [apply produces_raw|]. intros l [Hl _]%andb_true_iff.
  apply produces_ret. unfold fits_str, string_size. rewrite length_bytes_to_string.
  apply Z.leb_le. apply Z.eqb_eq in Hl. apply andb_true_iff in Hn as [Hn%Z.leb_le _]. lia.
Qed.

Lemma produces_enum {E} `{Enum E} : produces fits_any (decode_enum (E:=E)).
Proof.
  eapply produces_bind; [exact (produces_fixed 2)|]. intros raw _.
  destruct (enum_cast raw); [by apply produces_ret|apply produces_fail].
Qed.

Lemma produces_elements {A} (ok : A → bool) (m : Reader A) n :
  produces ok m → produces (λ l, (length l =? n)%nat && forallb ok l) (decode_elements n m).
Proof.
  intros Hm. induction n as [|n IH]; simpl; [by apply produces_ret|].
  eapply produces_bind; [exact Hm|]. intros a Ha.
  eapply produces_bind; [exact IH|]. intros l Hl. apply produces_ret. simpl. by rewrite Ha.
Qed.

Lemma produces_vector {A} (ok : A → bool) (m : Reader A) max :
  produces ok m → produces (fits_list max ok) (decode_vector max m).
Proof.
  intros Hm. eapply produces_bind; [apply produces_u32|].
  intros n [Hn%Z.leb_le _]%andb_true_iff.
  destruct (Z.gtb_spec n max); [apply produces_fail|].
  eapply produces_weaken; [by apply produces_elements|].
  intros l [Hl%Nat.eqb_eq Hok]%andb_true_iff. unfold fits_list.
  rewrite Hok, andb_true_r. apply Z.leb_le. lia.
Qed.

(** ** Round trips of the helpers *)

Lemma reads_id z : fits_u64 z = true → reads decode_id z (encode_id z).
Proof. intros [?%Z.leb_le ?%Z.ltb_lt]%andb_true_iff. by apply reads_u64. Qed.

Lemma reads_fit_u64 z : fits_u64 z = true → reads Reader.u64 z (ByteWriter.u64 z).
Proof. apply reads_id. Qed.

Lemma reads_fit_u32 z : fits_u32 z = true → reads Reader.u32 z (ByteWriter.u32 z).
Proof. intros [?%Z.leb_le ?%Z.ltb_lt]%andb_true_iff. by apply reads_u32. Qed.

Lemma reads_fit_i64 z : fits_i64 z = true → reads Reader.i64 z (ByteWriter.i64 z).
Proof. intros [?%Z.leb_le ?%Z.leb_le]%andb_true_iff. by apply reads_i64. Qed.

Lemma reads_fit_str max s :
  max < 2 ^ 32 → fits_str max s = true → reads (Reader.str max) s (ByteWriter.str s).
Proof.
  intros Hmax Hs%Z.leb_le. unfold string_size in Hs. apply reads_str; lia.
Qed.

Lemma reads_enum {E} `{Enum E} (value : E) : reads decode_enum value (encode_enum value).
Proof.
  eapply reads_map; [apply reads_u16, enum_value_u16|]. rewrite enum_cast_value. apply reads_ret.
Qed.

Lemma reads_elements {A} (ok : A → bool) (enc : A → list Z) (m : Reader A) l :
  (∀ a, ok a = true → reads m a (enc a)) → forallb ok l = true →
  reads (decode_elements (length l) m) l (concat (map enc l)).
Proof.
  intros Hm. induction l as [|a l IH]; simpl; [intros _; apply reads_ret|].
  intros [Ha Hl]%andb_true_iff. eapply reads_bind; [by apply Hm|].
  eapply reads_map; [by apply IH|]. apply reads_ret.
Qed.

Lemma reads_vector {A} (ok : A → bool) (enc : A → list Z) (m : Reader A) max l :
  max < 2 ^ 32 → (∀ a, ok a = true → reads m a (enc a)) → fits_list max ok l = true →
  reads (decode_vector max m) l (encode_vector enc l).
Proof.
  intros Hmax Hm [Hlen%Z.leb_le Hl]%andb_true_iff. unfold encode_vector.
  replace (u32 (Z.of_nat (length l))) with (Z.of_nat (length l))
    by (unfold u32; rewrite Z.mod_small; lia).
  eapply reads_bind; [apply reads_u32; lia|].
  destruct (Z.gtb_spec (Z.of_nat (length l)) max); [lia|].
  rewrite Nat2Z.id. by eapply reads_elements.
Qed.

Lemma reads_string_list max l :
  max < 2 ^ 32 → fits_string_list max l = true →
  reads (decode_string_list max) l (encode_string_list l).
Proof. intros Hmax. apply reads_vector; [done|]. intros s. by apply reads_fit_str. Qed.

Lemma reads_id_list l : fits_id_list l = true → reads decode_id_list l (encode_id_list l).
Proof. by apply reads_vector, reads_id. Qed.

(** A reader that must consume the rest of its data. *)
Definition reads_to_end {A} (m : Reader A) (v : A) (enc : list Z) : Prop :=
  ∀ pre e, Z.of_nat (length (pre ++ enc)) ≤ u64_max →
    (m (mkByteReader (pre ++ enc) (length pre) true e)).1 = Some v.

Lemma reads_to_end_bind {A B} (m : Reader A) (f : A → Reader B) a b enc1 enc2 :
  reads m a enc1 → reads_to_end (f a) b enc2 → reads_to_end (rbind m f) b (enc1 ++ enc2).
Proof.
  intros Hm Hf pre e Hl. unfold rbind. rewrite (Hm pre enc2 e Hl).
  specialize (Hf (pre ++ enc1) e). rewrite <-(assoc_L (++)) in Hf.
  rewrite <-length_app. by apply Hf.
Qed.

(** ** Safety of the helpers *)

Lemma safe_u32 : reader_safe Reader.u32.
Proof. apply safe_fixed. Qed.

Lemma safe_u64 : reader_safe Reader.u64.
Proof. apply safe_fixed. Qed.

Lemma safe_i64 : reader_safe Reader.i64.
Proof. unfold Reader.i64, Reader.u64. reader_auto. Qed.

Lemma safe_boolean : reader_safe Reader.boolean.
Proof. unfold Reader.boolean, Reader.u8. reader_auto. Qed.

Lemma safe_str max : reader_safe (Reader.str max).
Proof. unfold Reader.str, Reader.u32. reader_auto. Qed.

Lemma safe_enum {E} `{Enum E} : reader_safe (decode_enum (E:=E)).
Proof. unfold decode_enum, Reader.u16. reader_auto. Qed.

Lemma safe_elements {A} (m : Reader A) n : reader_safe m → reader_safe (decode_elements n m).
Proof. intros Hm. induction n as [|n IH]; simpl; reader_auto. Qed.

Lemma safe_vector {A} (m : Reader A) max : reader_safe m → reader_safe (decode_vector max m).
Proof.
  intros Hm. unfold decode_vector. apply safe_bind; [apply safe_u32|]. intros n.
  destruct (n >? max); [apply safe_fail|by apply safe_elements].
Qed.

(** ** The interface of a codec *)

(** What the encoder [enc], the decoder [dec] and the bounds [ok] of one type
    promise each other. *)
Record codec_laws {A} (enc : A → list Z) (dec : Reader A) (ok : A → bool) : Prop := {
  laws_reads v : ok v = true → reads dec v (enc v);
  laws_produces : produces ok dec;
  laws_safe : reader_safe dec
}.

(** The overloaded [encode] and [decode] of the source. *)
Class Codec (A : Type) := {
  encode : A → list Z;
  decode : Reader A;
  encodable : A → bool;
  codec_ok : codec_laws encode decode encodable
}.

Lemma reads_vector_laws {A} enc dec ok max (l : list A) :
  max < 2 ^ 32 → codec_laws enc dec ok → fits_list max ok l = true →
  reads (decode_vector max dec) l (encode_vector enc l).
Proof. intros Hmax Hl. apply reads_vector; [done|]. by apply laws_reads. Qed.

Create HintDb codec.
#[export] Hint Resolve reads_id reads_fit_u64 reads_fit_u32 reads_fit_i64 reads_boolean reads_enum
  reads_id_list produces_u32 produces_u64 produces_i64 produces_boolean produces_str produces_enum
  produces_vector laws_reads laws_produces laws_safe safe_u32 safe_u64 safe_i64 safe_boolean safe_str safe_enum safe_vector : codec.
#[export] Hint Extern 1 (reads (Reader.str _) _ _) => apply reads_fit_str; [reflexivity|] : codec.
#[export] Hint Extern 1 (reads (decode_vector _ _) _ _) =>
  eapply reads_vector_laws; [reflexivity| |] : codec.
#[export] Hint Extern 1 (reads (decode_string_list _) _ _) =>
  apply reads_string_list; [reflexivity|] : codec.
#[export] Hint Extern 1 (produces _ decode_id) => apply produces_u64 : codec.
#[export] Hint Extern 1 (produces _ decode_id_list) => apply produces_vector : codec.
#[export] Hint Extern 1 (produces _ (decode_string_list _)) => apply produces_vector : codec.
#[export] Hint Extern 1 (reader_safe decode_id) => apply safe_u64 : codec.
#[export] Hint Extern 1 (reader_safe decode_id_list) => apply safe_vector : codec.
#[export] Hint Extern 1 (reader_safe (decode_string_list _)) => apply safe_vector : codec.

(** Splits the conjuncts of an [encodable] hypothesis. *)
Ltac split_fits H :=
  repeat match type of H with
    | _ && _ = true => let H' := fresh "Hf" in apply andb_true_iff in H as [H H']
    end.

Ltac join_fits :=
  repeat match goal with |- _ && _ = true => apply andb_true_iff; split end.

(** The laws of a record codec from its definitions: each field in turn is
    discharged by its own law. *)
Ltac codec_reads_record enc dec ok :=
  let v := fresh "v" in let H := fresh "H" in
  intros v H; unfold ok in H; split_fits H; unfold enc, dec;
  repeat (first
    [ eapply reads_bind; [solve [eauto 3 with codec]|]
    | eapply reads_map; [solve [eauto 3 with codec]|] ]; cbv beta);
  destruct v; apply reads_ret.

Ltac codec_produces_record dec ok :=
  unfold dec;
  repeat (eapply produces_bind; [solve [eauto 3 with codec]|intros ? ?; cbv beta]);
  apply produces_ret; unfold ok; join_fits; solve [assumption|reflexivity].

Ltac codec_safe_record dec :=
  unfold dec;
  repeat (apply safe_bind; [solve [eauto 3 with codec]|intros ?; cbv beta]); apply safe_ret.

Ltac codec_record enc dec ok :=
  split; [codec_reads_record enc dec ok|codec_produces_record dec ok|codec_safe_record dec].
