(* ===== verification/RecordCodecs.v ===== *)
(** * Durable records ([detail/encoding.cpp])

    The encoder, the decoder and the bounds of every record the control plane
    persists, one triple per overload of the source, in the source's order, and
    the laws of each codec. *)

From S2P Require Import Prelude Taxonomy Model Bytes Digest Cost Compatibility ModelOps.
From S2P Require Import ControlPlane FabricCore FabricState Encoding.

Local Open Scope Z_scope.
Local Open Scope reader_scope.

(** The bounds [CompatibilityDescriptor::decode] enforces. *)
Definition encodable_attribute (entry : string * string) : bool :=
  (0 <? string_size entry.1) && fits_str kMaxCompatibilityKeyLength entry.1 &&
  fits_str kMaxCompatibilityValueLength entry.2.

Definition encodable_descriptor (value : CompatibilityDescriptor) : bool :=
  (Z.of_nat (size (cd_attributes value)) <=? kMaxCompatibilityAttributes) &&
  forallb encodable_attribute (entries (cd_attributes value)).

Definition encode_CostValue (value : CostValue) : list Z :=
  encode_enum (cv_source value) ++ ByteWriter.i64 (cv_micro_units value).

Definition decode_CostValue : Reader CostValue :=
  source <- decode_enum;; micro_units <- Reader.i64;;
  rret (mkCostValue source micro_units).

Definition encodable_CostValue (value : CostValue) : bool :=
  fits_i64 (cv_micro_units value).

Definition encode_SizeValue (value : SizeValue) : list Z :=
  ByteWriter.boolean (sz_present value) ++ ByteWriter.u64 (sz_bytes value).

Definition decode_SizeValue : Reader SizeValue :=
  present <- Reader.boolean;; bytes <- Reader.u64;;
  rret (mkSizeValue present bytes).

Definition encodable_SizeValue (value : SizeValue) : bool :=
  fits_u64 (sz_bytes value).

Definition encode_ReuseValue (value : ReuseValue) : list Z :=
  encode_enum (rv_source value) ++ ByteWriter.u64 (rv_expected_reuse_count value) ++
  ByteWriter.u32 (rv_probability_per_mille value).

Definition decode_ReuseValue : Reader ReuseValue :=
  source <- decode_enum;; expected_reuse_count <- Reader.u64;;
  probability_per_mille <- Reader.u32;;
  if probability_per_mille >? 1000 then Reader.fail EC.PERSISTENCE_CORRUPT
  else rret (mkReuseValue source expected_reuse_count probability_per_mille).

Definition encodable_ReuseValue (value : ReuseValue) : bool :=
  fits_u64 (rv_expected_reuse_count value) && fits_u32 (rv_probability_per_mille value) &&
  (rv_probability_per_mille value <=? 1000).

Definition encode_Digest (value : Digest) : list Z := ByteWriter.raw (dg_bytes value).

(** A [Digest] is 32 bytes. *)
Definition decode_Digest : Reader Digest :=
  view <- Reader.raw 32;; rret (mkDigest view).

Definition encodable_Digest (value : Digest) : bool :=
  (Z.of_nat (length (dg_bytes value)) =? 32) && forallb fits_byte (dg_bytes value).

Definition encode_PlacementConstraints (value : PlacementConstraints) : list Z :=
  encode_id_list (pc_legal_clusters value) ++ encode_id_list (pc_legal_regions value) ++
  encode_id_list (pc_prohibited_clusters value) ++
  encode_id_list (pc_prohibited_regions value) ++
  encode_string_list (pc_required_capabilities value) ++
  encode_string_list (pc_required_storage_classes value) ++
  encode_string_list (pc_required_sovereignty_tags value) ++
  ByteWriter.boolean (pc_require_locality value) ++
  encode_id_list (pc_locality_clusters value) ++
  ByteWriter.u32 (pc_minimum_cluster_diversity value) ++
  ByteWriter.u32 (pc_minimum_region_diversity value) ++
  ByteWriter.u32 (pc_minimum_failure_domain_diversity value) ++
  encode_enum (pc_minimum_durability value) ++ encode_enum (pc_required_health value) ++
  ByteWriter.u64 (pc_maximum_evidence_staleness_ticks value) ++
  encode_SizeValue (pc_required_free_capacity value) ++
  encode_CostValue (pc_maximum_transfer_cost value) ++
  ByteWriter.boolean (pc_require_encryption_at_rest value) ++
  ByteWriter.boolean (pc_require_attestation value) ++
  ByteWriter.boolean (pc_require_integrity_verification value) ++
  ByteWriter.boolean (pc_require_compatibility_verification value).

Definition decode_PlacementConstraints : Reader PlacementConstraints :=
  legal_clusters <- decode_id_list;; legal_regions <- decode_id_list;;
  prohibited_clusters <- decode_id_list;; prohibited_regions <- decode_id_list;;
  required_capabilities <- decode_string_list kMaxClusterTagCount;;
  required_storage_classes <- decode_string_list kMaxClusterTagCount;;
  required_sovereignty_tags <- decode_string_list kMaxClusterTagCount;;
  require_locality <- Reader.boolean;; locality_clusters <- decode_id_list;;
  minimum_cluster_diversity <- Reader.u32;; minimum_region_diversity <- Reader.u32;;
  minimum_failure_domain_diversity <- Reader.u32;; minimum_durability <- decode_enum;;
  required_health <- decode_enum;; maximum_evidence_staleness_ticks <- Reader.u64;;
  required_free_capacity <- decode_SizeValue;; maximum_transfer_cost <- decode_CostValue;;
  require_encryption_at_rest <- Reader.boolean;; require_attestation <- Reader.boolean;;
  require_integrity_verification <- Reader.boolean;;
  require_compatibility_verification <- Reader.boolean;;
  rret (mkPlacementConstraints legal_clusters legal_regions prohibited_clusters
    prohibited_regions required_capabilities required_storage_classes required_sovereignty_tags
    require_locality locality_clusters minimum_cluster_diversity minimum_region_diversity
    minimum_failure_domain_diversity minimum_durability required_health
    maximum_evidence_staleness_ticks required_free_capacity maximum_transfer_cost
    require_encryption_at_rest require_attestation require_integrity_verification
    require_compatibility_verification).

Definition encodable_PlacementConstraints (value : PlacementConstraints) : bool :=
  fits_id_list (pc_legal_clusters value) && fits_id_list (pc_legal_regions value) &&
  fits_id_list (pc_prohibited_clusters value) && fits_id_list (pc_prohibited_regions value) &&
  fits_string_list kMaxClusterTagCount (pc_required_capabilities value) &&
  fits_string_list kMaxClusterTagCount (pc_required_storage_classes value) &&
  fits_string_list kMaxClusterTagCount (pc_required_sovereignty_tags value) &&
  fits_id_list (pc_locality_clusters value) && fits_u32 (pc_minimum_cluster_diversity value) &&
  fits_u32 (pc_minimum_region_diversity value) &&
  fits_u32 (pc_minimum_failure_domain_diversity value) &&
  fits_u64 (pc_maximum_evidence_staleness_ticks value) &&
  encodable_SizeValue (pc_required_free_capacity value) &&
  encodable_CostValue (pc_maximum_transfer_cost value).

Definition encode_RankingWeights (value : RankingWeights) : list Z :=
  ByteWriter.i64 (rw_expected_reuse_value value) ++ ByteWriter.i64 (rw_transfer_cost value) ++
  ByteWriter.i64 (rw_reconstruction_cost value) ++
  ByteWriter.i64 (rw_available_bandwidth value) ++
  ByteWriter.i64 (rw_predicted_transfer_duration value) ++
  ByteWriter.i64 (rw_storage_cost value) ++ ByteWriter.i64 (rw_compute_cost value) ++
  ByteWriter.i64 (rw_region_affinity value) ++ ByteWriter.i64 (rw_workload_affinity value) ++
  ByteWriter.i64 (rw_existing_replica_proximity value) ++
  ByteWriter.i64 (rw_failure_domain_diversity value) ++
  ByteWriter.i64 (rw_expected_future_demand value) ++
  ByteWriter.i64 (rw_source_health value) ++ ByteWriter.i64 (rw_destination_health value) ++
  ByteWriter.i64 (rw_pressure value) ++ ByteWriter.i64 (rw_utilization value).

Definition decode_RankingWeights : Reader RankingWeights :=
  expected_reuse_value <- Reader.i64;; transfer_cost <- Reader.i64;;
  reconstruction_cost <- Reader.i64;; available_bandwidth <- Reader.i64;;
  predicted_transfer_duration <- Reader.i64;; storage_cost <- Reader.i64;;
  compute_cost <- Reader.i64;; region_affinity <- Reader.i64;;
  workload_affinity <- Reader.i64;; existing_replica_proximity <- Reader.i64;;
  failure_domain_diversity <- Reader.i64;; expected_future_demand <- Reader.i64;;
  source_health <- Reader.i64;; destination_health <- Reader.i64;; pressure <- Reader.i64;;
  utilization <- Reader.i64;;
  rret (mkRankingWeights expected_reuse_value transfer_cost reconstruction_cost
    available_bandwidth predicted_transfer_duration storage_cost compute_cost region_affinity
    workload_affinity existing_replica_proximity failure_domain_diversity expected_future_demand
    source_health destination_health pressure utilization).

Definition encodable_RankingWeights (value : RankingWeights) : bool :=
  fits_i64 (rw_expected_reuse_value value) && fits_i64 (rw_transfer_cost value) &&
  fits_i64 (rw_reconstruction_cost value) && fits_i64 (rw_available_bandwidth value) &&
  fits_i64 (rw_predicted_transfer_duration value) && fits_i64 (rw_storage_cost value) &&
  fits_i64 (rw_compute_cost value) && fits_i64 (rw_region_affinity value) &&
  fits_i64 (rw_workload_affinity value) && fits_i64 (rw_existing_replica_proximity value) &&
  fits_i64 (rw_failure_domain_diversity value) && fits_i64 (rw_expected_future_demand value) &&
  fits_i64 (rw_source_health value) && fits_i64 (rw_destination_health value) &&
  fits_i64 (rw_pressure value) && fits_i64 (rw_utilization value).

Definition encode_CostPolicy (value : CostPolicy) : list Z :=
  encode_enum (cpo_source value) ++ ByteWriter.i64 (cpo_transfer_micro_per_mib value) ++
  ByteWriter.i64 (cpo_egress_micro_per_mib value) ++
  ByteWriter.i64 (cpo_storage_micro_per_mib_tick value) ++
  ByteWriter.i64 (cpo_compute_micro_per_mib value) ++
  ByteWriter.i64 (cpo_accelerator_micro_per_mib_tick value) ++
  ByteWriter.i64 (cpo_repair_micro_per_mib value) ++ ByteWriter.str (cpo_unit_label value).

Definition decode_CostPolicy : Reader CostPolicy :=
  source <- decode_enum;; transfer_micro_per_mib <- Reader.i64;;
  egress_micro_per_mib <- Reader.i64;; storage_micro_per_mib_tick <- Reader.i64;;
  compute_micro_per_mib <- Reader.i64;; accelerator_micro_per_mib_tick <- Reader.i64;;
  repair_micro_per_mib <- Reader.i64;; unit_label <- Reader.str kMaxPolicyStringLength;;
  rret (mkCostPolicy source transfer_micro_per_mib egress_micro_per_mib
    storage_micro_per_mib_tick compute_micro_per_mib accelerator_micro_per_mib_tick
    repair_micro_per_mib unit_label).

Definition encodable_CostPolicy (value : CostPolicy) : bool :=
  fits_i64 (cpo_transfer_micro_per_mib value) && fits_i64 (cpo_egress_micro_per_mib value) &&
  fits_i64 (cpo_storage_micro_per_mib_tick value) &&
  fits_i64 (cpo_compute_micro_per_mib value) &&
  fits_i64 (cpo_accelerator_micro_per_mib_tick value) &&
  fits_i64 (cpo_repair_micro_per_mib value) &&
  fits_str kMaxPolicyStringLength (cpo_unit_label value).

Definition encode_ReplicationRequirements (value : ReplicationRequirements) : list Z :=
  encode_enum (rr_form value) ++ ByteWriter.u32 (rr_minimum_authoritative_replicas value) ++
  ByteWriter.u32 (rr_desired_replicas value) ++ ByteWriter.u32 (rr_maximum_replicas value) ++
  ByteWriter.u32 (rr_region_diversity value) ++ ByteWriter.u32 (rr_cluster_diversity value) ++
  ByteWriter.u32 (rr_failure_domain_diversity value) ++
  encode_enum (rr_minimum_durability value).

Definition decode_ReplicationRequirements : Reader ReplicationRequirements :=
  form <- decode_enum;; minimum_authoritative_replicas <- Reader.u32;;
  desired_replicas <- Reader.u32;; maximum_replicas <- Reader.u32;;
  region_diversity <- Reader.u32;; cluster_diversity <- Reader.u32;;
  failure_domain_diversity <- Reader.u32;; minimum_durability <- decode_enum;;
  rret (mkReplicationRequirements form minimum_authoritative_replicas desired_replicas
    maximum_replicas region_diversity cluster_diversity failure_domain_diversity
    minimum_durability).

Definition encodable_ReplicationRequirements (value : ReplicationRequirements) : bool :=
  fits_u32 (rr_minimum_authoritative_replicas value) && fits_u32 (rr_desired_replicas value) &&
  fits_u32 (rr_maximum_replicas value) && fits_u32 (rr_region_diversity value) &&
  fits_u32 (rr_cluster_diversity value) && fits_u32 (rr_failure_domain_diversity value).

Definition encode_EligibilityRules (value : EligibilityRules) : list Z :=
  encode_id_list (er_allowed_clusters value) ++ encode_id_list (er_denied_clusters value) ++
  ByteWriter.boolean (er_require_healthy_source value) ++
  ByteWriter.boolean (er_require_healthy_destination value) ++
  ByteWriter.boolean (er_require_available_capacity value) ++
  ByteWriter.boolean (er_allow_same_cluster value) ++
  ByteWriter.boolean (er_require_fresh_evidence value) ++
  ByteWriter.u32 (er_maximum_in_flight_operations_per_state value).

Definition decode_EligibilityRules : Reader EligibilityRules :=
  allowed_clusters <- decode_id_list;; denied_clusters <- decode_id_list;;
  require_healthy_source <- Reader.boolean;; require_healthy_destination <- Reader.boolean;;
  require_available_capacity <- Reader.boolean;; allow_same_cluster <- Reader.boolean;;
  require_fresh_evidence <- Reader.boolean;;
  maximum_in_flight_operations_per_state <- Reader.u32;;
  rret (mkEligibilityRules allowed_clusters denied_clusters require_healthy_source
    require_healthy_destination require_available_capacity allow_same_cluster
    require_fresh_evidence maximum_in_flight_operations_per_state).

Definition encodable_EligibilityRules (value : EligibilityRules) : bool :=
  fits_id_list (er_allowed_clusters value) && fits_id_list (er_denied_clusters value) &&
  fits_u32 (er_maximum_in_flight_operations_per_state value).

Definition encode_ReuseAuthorityRules (value : ReuseAuthorityRules) : list Z :=
  ByteWriter.boolean (rar_require_verified_integrity value) ++
  ByteWriter.boolean (rar_require_verified_compatibility value) ++
  ByteWriter.boolean (rar_require_current_state_generation value) ++
  ByteWriter.boolean (rar_require_replica_set_membership value) ++
  ByteWriter.boolean (rar_require_current_cluster_incarnation value) ++
  ByteWriter.boolean (rar_require_current_coordinator_epoch value) ++
  ByteWriter.boolean (rar_allow_historical_read_only value).

Definition decode_ReuseAuthorityRules : Reader ReuseAuthorityRules :=
  require_verified_integrity <- Reader.boolean;;
  require_verified_compatibility <- Reader.boolean;;
  require_current_state_generation <- Reader.boolean;;
  require_replica_set_membership <- Reader.boolean;;
  require_current_cluster_incarnation <- Reader.boolean;;
  require_current_coordinator_epoch <- Reader.boolean;;
  allow_historical_read_only <- Reader.boolean;;
  rret (mkReuseAuthorityRules require_verified_integrity require_verified_compatibility
    require_current_state_generation require_replica_set_membership
    require_current_cluster_incarnation require_current_coordinator_epoch
    allow_historical_read_only).

Definition encodable_ReuseAuthorityRules (value : ReuseAuthorityRules) : bool :=
  fits_any value.

Definition encode_RetentionPolicy (value : RetentionPolicy) : list Z :=
  ByteWriter.boolean (rtp_retain_historical_records value) ++
  ByteWriter.u64 (rtp_stale_copy_retirement_ticks value) ++
  ByteWriter.u32 (rtp_maximum_replicas_per_state value) ++
  ByteWriter.u32 (rtp_hot_history_records_per_state value).

Definition decode_RetentionPolicy : Reader RetentionPolicy :=
  retain_historical_records <- Reader.boolean;; stale_copy_retirement_ticks <- Reader.u64;;
  maximum_replicas_per_state <- Reader.u32;; hot_history_records_per_state <- Reader.u32;;
  rret (mkRetentionPolicy retain_historical_records stale_copy_retirement_ticks
    maximum_replicas_per_state hot_history_records_per_state).

Definition encodable_RetentionPolicy (value : RetentionPolicy) : bool :=
  fits_u64 (rtp_stale_copy_retirement_ticks value) &&
  fits_u32 (rtp_maximum_replicas_per_state value) &&
  fits_u32 (rtp_hot_history_records_per_state value).

Definition encode_RepairPolicy (value : RepairPolicy) : list Z :=
  ByteWriter.boolean (rep_automatic_repair_enabled value) ++
  ByteWriter.u32 (rep_maximum_concurrent_repairs value) ++
  ByteWriter.u32 (rep_repair_attempt_limit value).

Definition decode_RepairPolicy : Reader RepairPolicy :=
  automatic_repair_enabled <- Reader.boolean;; maximum_concurrent_repairs <- Reader.u32;;
  repair_attempt_limit <- Reader.u32;;
  rret (mkRepairPolicy automatic_repair_enabled maximum_concurrent_repairs
    repair_attempt_limit).

Definition encodable_RepairPolicy (value : RepairPolicy) : bool :=
  fits_u32 (rep_maximum_concurrent_repairs value) && fits_u32 (rep_repair_attempt_limit value).

Definition encode_RevalidationRequirements (value : RevalidationRequirements) : list Z :=
  ByteWriter.boolean (rvr_require_revalidation_after_cluster_reincarnation value) ++
  ByteWriter.boolean (rvr_require_revalidation_after_coordinator_restart value) ++
  ByteWriter.boolean (rvr_require_fresh_health_evidence value) ++
  ByteWriter.boolean (rvr_require_fresh_capability_evidence value).

Definition decode_RevalidationRequirements : Reader RevalidationRequirements :=
  require_revalidation_after_cluster_reincarnation <- Reader.boolean;;
  require_revalidation_after_coordinator_restart <- Reader.boolean;;
  require_fresh_health_evidence <- Reader.boolean;;
  require_fresh_capability_evidence <- Reader.boolean;;
  rret (mkRevalidationRequirements require_revalidation_after_cluster_reincarnation
    require_revalidation_after_coordinator_restart require_fresh_health_evidence
    require_fresh_capability_evidence).

Definition encodable_RevalidationRequirements (value : RevalidationRequirements) : bool :=
  fits_any value.

Definition encode_PlacementPolicyRecord (value : PlacementPolicyRecord) : list Z :=
  encode_id (pp_placement_policy_id value) ++ encode_id (pp_generation value) ++
  encode_PlacementConstraints (pp_constraints value) ++
  encode_RankingWeights (pp_weights value) ++ encode_CostPolicy (pp_cost_policy value) ++
  ByteWriter.u64 (pp_updated_at value).

Definition decode_PlacementPolicyRecord : Reader PlacementPolicyRecord :=
  placement_policy_id <- decode_id;; generation <- decode_id;;
  constraints <- decode_PlacementConstraints;; weights <- decode_RankingWeights;;
  cost_policy <- decode_CostPolicy;; updated_at <- Reader.u64;;
  rret (mkPlacementPolicyRecord placement_policy_id generation constraints weights cost_policy
    updated_at).

Definition encodable_PlacementPolicyRecord (value : PlacementPolicyRecord) : bool :=
  fits_u64 (pp_placement_policy_id value) && fits_u64 (pp_generation value) &&
  encodable_PlacementConstraints (pp_constraints value) &&
  encodable_RankingWeights (pp_weights value) && encodable_CostPolicy (pp_cost_policy value) &&
  fits_u64 (pp_updated_at value).

Definition encode_ReplicationPolicyRecord (value : ReplicationPolicyRecord) : list Z :=
  encode_id (rpp_replication_policy_id value) ++ encode_id (rpp_generation value) ++
  encode_ReplicationRequirements (rpp_requirements value) ++
  encode_EligibilityRules (rpp_source_rules value) ++
  encode_EligibilityRules (rpp_destination_rules value) ++
  encode_ReuseAuthorityRules (rpp_reuse_rules value) ++
  encode_RetentionPolicy (rpp_retention value) ++ encode_RepairPolicy (rpp_repair value) ++
  encode_RevalidationRequirements (rpp_revalidation value) ++
  encode_enum (rpp_degraded_behavior value) ++ encode_enum (rpp_failure_action value) ++
  ByteWriter.u64 (rpp_updated_at value).

Definition decode_ReplicationPolicyRecord : Reader ReplicationPolicyRecord :=
  replication_policy_id <- decode_id;; generation <- decode_id;;
  requirements <- decode_ReplicationRequirements;; source_rules <- decode_EligibilityRules;;
  destination_rules <- decode_EligibilityRules;; reuse_rules <- decode_ReuseAuthorityRules;;
  retention <- decode_RetentionPolicy;; repair <- decode_RepairPolicy;;
  revalidation <- decode_RevalidationRequirements;; degraded_behavior <- decode_enum;;
  failure_action <- decode_enum;; updated_at <- Reader.u64;;
  rret (mkReplicationPolicyRecord replication_policy_id generation requirements source_rules
    destination_rules reuse_rules retention repair revalidation degraded_behavior failure_action
    updated_at).

Definition encodable_ReplicationPolicyRecord (value : ReplicationPolicyRecord) : bool :=
  fits_u64 (rpp_replication_policy_id value) && fits_u64 (rpp_generation value) &&
  encodable_ReplicationRequirements (rpp_requirements value) &&
  encodable_EligibilityRules (rpp_source_rules value) &&
  encodable_EligibilityRules (rpp_destination_rules value) &&
  encodable_ReuseAuthorityRules (rpp_reuse_rules value) &&
  encodable_RetentionPolicy (rpp_retention value) &&
  encodable_RepairPolicy (rpp_repair value) &&
  encodable_RevalidationRequirements (rpp_revalidation value) &&
  fits_u64 (rpp_updated_at value).

Definition encode_StateProvenance (value : StateProvenance) : list Z :=
  ByteWriter.str (sp_producer value) ++ encode_id (sp_origin_cluster value) ++
  encode_id (sp_origin_incarnation value) ++ encode_id (sp_source_generation value) ++
  encode_id (sp_source_replica value) ++ encode_id (sp_operation value) ++
  encode_id (sp_worker_boot value) ++ encode_id (sp_coordinator_epoch value) ++
  encode_id (sp_commit value) ++ ByteWriter.str (sp_verification value) ++
  ByteWriter.u64 (sp_recorded_at value) ++ ByteWriter.boolean (sp_revalidated value) ++
  ByteWriter.u64 (sp_revalidated_at value).

Definition decode_StateProvenance : Reader StateProvenance :=
  producer <- Reader.str kMaxEncodedStringBytes;; origin_cluster <- decode_id;;
  origin_incarnation <- decode_id;; source_generation <- decode_id;;
  source_replica <- decode_id;; operation <- decode_id;; worker_boot <- decode_id;;
  coordinator_epoch <- decode_id;; commit <- decode_id;;
  verification <- Reader.str kMaxEncodedStringBytes;; recorded_at <- Reader.u64;;
  revalidated <- Reader.boolean;; revalidated_at <- Reader.u64;;
  rret (mkStateProvenance producer origin_cluster origin_incarnation source_generation
    source_replica operation worker_boot coordinator_epoch commit verification recorded_at
    revalidated revalidated_at).

Definition encodable_StateProvenance (value : StateProvenance) : bool :=
  fits_str kMaxEncodedStringBytes (sp_producer value) && fits_u64 (sp_origin_cluster value) &&
  fits_u64 (sp_origin_incarnation value) && fits_u64 (sp_source_generation value) &&
  fits_u64 (sp_source_replica value) && fits_u64 (sp_operation value) &&
  fits_u64 (sp_worker_boot value) && fits_u64 (sp_coordinator_epoch value) &&
  fits_u64 (sp_commit value) && fits_str kMaxEncodedStringBytes (sp_verification value) &&
  fits_u64 (sp_recorded_at value) && fits_u64 (sp_revalidated_at value).

Definition encode_ReconstructionIdentity (value : ReconstructionIdentity) : list Z :=
  encode_id (ri_reconstruction_id value) ++ ByteWriter.str (ri_method value) ++
  encode_SizeValue (ri_output_size value) ++ encode_CostValue (ri_estimated_cost value) ++
  ByteWriter.boolean (ri_deterministic value).

Definition decode_ReconstructionIdentity : Reader ReconstructionIdentity :=
  reconstruction_id <- decode_id;; method <- Reader.str kMaxEncodedStringBytes;;
  output_size <- decode_SizeValue;; estimated_cost <- decode_CostValue;;
  deterministic <- Reader.boolean;;
  rret (mkReconstructionIdentity reconstruction_id method output_size estimated_cost
    deterministic).

Definition encodable_ReconstructionIdentity (value : ReconstructionIdentity) : bool :=
  fits_u64 (ri_reconstruction_id value) && fits_str kMaxEncodedStringBytes (ri_method value) &&
  encodable_SizeValue (ri_output_size value) && encodable_CostValue (ri_estimated_cost value).

Definition encode_StateGenerationRecord (value : StateGenerationRecord) : list Z :=
  encode_id (sg_state_id value) ++ encode_id (sg_generation value) ++
  encode_id (sg_lineage value) ++ ByteWriter.boolean (sg_branch value) ++
  encode_id (sg_branches_from value) ++ encode_enum (sg_state_class value) ++
  encode_enum (sg_consistency value) ++ encode_enum (sg_lifecycle value) ++
  encode_SizeValue (sg_logical_size value) ++ encode_SizeValue (sg_physical_size value) ++
  encode_Digest (sg_content_digest value) ++ encode_enum (sg_digest_algorithm value) ++
  encode_id (sg_compatibility_id value) ++ encode_id (sg_compatibility_generation value) ++
  cd_encode (sg_compatibility_required value) ++
  encode_ReconstructionIdentity (sg_reconstruction value) ++
  encode_enum (sg_durability value) ++ encode_enum (sg_reuse_class value) ++
  encode_PlacementConstraints (sg_placement_constraints value) ++
  encode_ReplicationRequirements (sg_replication_requirements value) ++
  encode_StateProvenance (sg_provenance value) ++
  encode_ReuseValue (sg_expected_reuse value) ++ encode_CostValue (sg_transfer_cost value) ++
  encode_CostValue (sg_reconstruction_cost value) ++ encode_id (sg_replica_set_id value) ++
  encode_id (sg_replica_set_generation value) ++ encode_id (sg_commit value) ++
  encode_id (sg_committed_epoch value) ++ ByteWriter.u64 (sg_registered_at value) ++
  ByteWriter.u64 (sg_committed_at value) ++ ByteWriter.boolean (sg_revalidation_required value).

Definition decode_StateGenerationRecord : Reader StateGenerationRecord :=
  state_id <- decode_id;; generation <- decode_id;; lineage <- decode_id;;
  branch <- Reader.boolean;; branches_from <- decode_id;; state_class <- decode_enum;;
  consistency <- decode_enum;; lifecycle <- decode_enum;; logical_size <- decode_SizeValue;;
  physical_size <- decode_SizeValue;; content_digest <- decode_Digest;;
  digest_algorithm <- decode_enum;; compatibility_id <- decode_id;;
  compatibility_generation <- decode_id;; compatibility_required <- cd_decode;;
  reconstruction <- decode_ReconstructionIdentity;; durability <- decode_enum;;
  reuse_class <- decode_enum;; placement_constraints <- decode_PlacementConstraints;;
  replication_requirements <- decode_ReplicationRequirements;;
  provenance <- decode_StateProvenance;; expected_reuse <- decode_ReuseValue;;
  transfer_cost <- decode_CostValue;; reconstruction_cost <- decode_CostValue;;
  replica_set_id <- decode_id;; replica_set_generation <- decode_id;; commit <- decode_id;;
  committed_epoch <- decode_id;; registered_at <- Reader.u64;; committed_at <- Reader.u64;;
  revalidation_required <- Reader.boolean;;
  rret (mkStateGenerationRecord state_id generation lineage branch branches_from state_class
    consistency lifecycle logical_size physical_size content_digest digest_algorithm
    compatibility_id compatibility_generation compatibility_required reconstruction durability
    reuse_class placement_constraints replication_requirements provenance expected_reuse
    transfer_cost reconstruction_cost replica_set_id replica_set_generation commit
    committed_epoch registered_at committed_at revalidation_required).

Definition encodable_StateGenerationRecord (value : StateGenerationRecord) : bool :=
  fits_u64 (sg_state_id value) && fits_u64 (sg_generation value) &&
  fits_u64 (sg_lineage value) && fits_u64 (sg_branches_from value) &&
  encodable_SizeValue (sg_logical_size value) &&
  encodable_SizeValue (sg_physical_size value) && encodable_Digest (sg_content_digest value) &&
  fits_u64 (sg_compatibility_id value) && fits_u64 (sg_compatibility_generation value) &&
  encodable_descriptor (sg_compatibility_required value) &&
  encodable_ReconstructionIdentity (sg_reconstruction value) &&
  encodable_PlacementConstraints (sg_placement_constraints value) &&
  encodable_ReplicationRequirements (sg_replication_requirements value) &&
  encodable_StateProvenance (sg_provenance value) &&
  encodable_ReuseValue (sg_expected_reuse value) &&
  encodable_CostValue (sg_transfer_cost value) &&
  encodable_CostValue (sg_reconstruction_cost value) && fits_u64 (sg_replica_set_id value) &&
  fits_u64 (sg_replica_set_generation value) && fits_u64 (sg_commit value) &&
  fits_u64 (sg_committed_epoch value) && fits_u64 (sg_registered_at value) &&
  fits_u64 (sg_committed_at value).

Definition encode_ClusterCapabilities (value : ClusterCapabilities) : list Z :=
  encode_string_list (cc_tags value) ++ encode_string_list (cc_storage_classes value) ++
  encode_string_list (cc_accelerator_architectures value) ++
  ByteWriter.boolean (cc_encryption_at_rest value) ++ ByteWriter.boolean (cc_attestation value).

Definition decode_ClusterCapabilities : Reader ClusterCapabilities :=
  tags <- decode_string_list kMaxClusterTagCount;;
  storage_classes <- decode_string_list kMaxClusterTagCount;;
  accelerator_architectures <- decode_string_list kMaxClusterTagCount;;
  encryption_at_rest <- Reader.boolean;; attestation <- Reader.boolean;;
  rret (mkClusterCapabilities tags storage_classes accelerator_architectures encryption_at_rest
    attestation).

Definition encodable_ClusterCapabilities (value : ClusterCapabilities) : bool :=
  fits_string_list kMaxClusterTagCount (cc_tags value) &&
  fits_string_list kMaxClusterTagCount (cc_storage_classes value) &&
  fits_string_list kMaxClusterTagCount (cc_accelerator_architectures value).

Definition encode_ClusterCapacity (value : ClusterCapacity) : list Z :=
  ByteWriter.u64 (cp_total_logical_bytes value) ++ ByteWriter.u64 (cp_used_logical_bytes value) ++
  ByteWriter.u64 (cp_inbound_bytes_per_tick value) ++
  ByteWriter.u32 (cp_free_transfer_slots value) ++ ByteWriter.u32 (cp_utilization_per_mille value).

Definition decode_ClusterCapacity : Reader ClusterCapacity :=
  total_logical_bytes <- Reader.u64;; used_logical_bytes <- Reader.u64;;
  if used_logical_bytes >? total_logical_bytes then Reader.fail EC.PERSISTENCE_CORRUPT
  else
    inbound_bytes_per_tick <- Reader.u64;; free_transfer_slots <- Reader.u32;;
    utilization_per_mille <- Reader.u32;;
    if utilization_per_mille >? 1000 then Reader.fail EC.PERSISTENCE_CORRUPT
    else rret (mkClusterCapacity total_logical_bytes used_logical_bytes inbound_bytes_per_tick
                 free_transfer_slots utilization_per_mille).

Definition encodable_ClusterCapacity (value : ClusterCapacity) : bool :=
  fits_u64 (cp_total_logical_bytes value) && fits_u64 (cp_used_logical_bytes value) &&
  (cp_used_logical_bytes value <=? cp_total_logical_bytes value) &&
  fits_u64 (cp_inbound_bytes_per_tick value) && fits_u32 (cp_free_transfer_slots value) &&
  fits_u32 (cp_utilization_per_mille value) && (cp_utilization_per_mille value <=? 1000).

Definition encode_ClusterLocation (value : ClusterLocation) : list Z :=
  encode_id (clo_region value) ++ encode_id (clo_site value) ++
  encode_id (clo_failure_domain value) ++ ByteWriter.str (clo_descriptor value).

Definition decode_ClusterLocation : Reader ClusterLocation :=
  region <- decode_id;; site <- decode_id;; failure_domain <- decode_id;;
  descriptor <- Reader.str kMaxLocationDescriptorLength;;
  rret (mkClusterLocation region site failure_domain descriptor).

Definition encodable_ClusterLocation (value : ClusterLocation) : bool :=
  fits_u64 (clo_region value) && fits_u64 (clo_site value) &&
  fits_u64 (clo_failure_domain value) &&
  fits_str kMaxLocationDescriptorLength (clo_descriptor value).

Definition encode_ClusterEvidence (value : ClusterEvidence) : list Z :=
  encode_id (ce_capability_generation value) ++ encode_id (ce_health_generation value) ++
  encode_id (ce_topology_generation value) ++ encode_id (ce_cost_generation value) ++
  encode_id (ce_evidence_generation value) ++ ByteWriter.u64 (ce_published_at value) ++
  encode_id (ce_coordinator_epoch value) ++
  ByteWriter.boolean (ce_revalidation_required value) ++ ByteWriter.boolean (ce_present value).

Definition decode_ClusterEvidence : Reader ClusterEvidence :=
  capability_generation <- decode_id;; health_generation <- decode_id;;
  topology_generation <- decode_id;; cost_generation <- decode_id;;
  evidence_generation <- decode_id;; published_at <- Reader.u64;;
  coordinator_epoch <- decode_id;; revalidation_required <- Reader.boolean;;
  present <- Reader.boolean;;
  rret (mkClusterEvidence capability_generation health_generation topology_generation
    cost_generation evidence_generation published_at coordinator_epoch revalidation_required
    present).

Definition encodable_ClusterEvidence (value : ClusterEvidence) : bool :=
  fits_u64 (ce_capability_generation value) && fits_u64 (ce_health_generation value) &&
  fits_u64 (ce_topology_generation value) && fits_u64 (ce_cost_generation value) &&
  fits_u64 (ce_evidence_generation value) && fits_u64 (ce_published_at value) &&
  fits_u64 (ce_coordinator_epoch value).

Definition encode_ClusterRecord (value : ClusterRecord) : list Z :=
  encode_id (cl_cluster_id value) ++ encode_id (cl_incarnation value) ++
  encode_enum (cl_lifecycle value) ++ encode_enum (cl_health value) ++
  encode_ClusterLocation (cl_location value) ++ encode_id (cl_worker_id value) ++
  encode_id (cl_worker_boot_id value) ++ encode_ClusterCapabilities (cl_capabilities value) ++
  encode_ClusterCapacity (cl_capacity value) ++ encode_ClusterEvidence (cl_evidence value) ++
  encode_id (cl_registered_epoch value) ++ encode_id (cl_last_evidence_epoch value) ++
  ByteWriter.u64 (cl_registered_at value) ++ ByteWriter.u64 (cl_updated_at value) ++
  ByteWriter.u64 (cl_incarnation_started_at value) ++
  ByteWriter.boolean (cl_live_authority value) ++
  ByteWriter.u32 (cl_hosted_replica_count value) ++
  ByteWriter.u32 (cl_historical_replica_count value) ++
  ByteWriter.u32 (cl_reincarnation_count value).

Definition decode_ClusterRecord : Reader ClusterRecord :=
  cluster_id <- decode_id;; incarnation <- decode_id;; lifecycle <- decode_enum;;
  health <- decode_enum;; location <- decode_ClusterLocation;; worker_id <- decode_id;;
  worker_boot_id <- decode_id;; capabilities <- decode_ClusterCapabilities;;
  capacity <- decode_ClusterCapacity;; evidence <- decode_ClusterEvidence;;
  registered_epoch <- decode_id;; last_evidence_epoch <- decode_id;;
  registered_at <- Reader.u64;; updated_at <- Reader.u64;;
  incarnation_started_at <- Reader.u64;; live_authority <- Reader.boolean;;
  hosted_replica_count <- Reader.u32;; historical_replica_count <- Reader.u32;;
  reincarnation_count <- Reader.u32;;
  rret (mkClusterRecord cluster_id incarnation lifecycle health location worker_id
    worker_boot_id capabilities capacity evidence registered_epoch last_evidence_epoch
    registered_at updated_at incarnation_started_at live_authority hosted_replica_count
    historical_replica_count reincarnation_count).

Definition encodable_ClusterRecord (value : ClusterRecord) : bool :=
  fits_u64 (cl_cluster_id value) && fits_u64 (cl_incarnation value) &&
  encodable_ClusterLocation (cl_location value) && fits_u64 (cl_worker_id value) &&
  fits_u64 (cl_worker_boot_id value) &&
  encodable_ClusterCapabilities (cl_capabilities value) &&
  encodable_ClusterCapacity (cl_capacity value) &&
  encodable_ClusterEvidence (cl_evidence value) && fits_u64 (cl_registered_epoch value) &&
  fits_u64 (cl_last_evidence_epoch value) && fits_u64 (cl_registered_at value) &&
  fits_u64 (cl_updated_at value) && fits_u64 (cl_incarnation_started_at value) &&
  fits_u32 (cl_hosted_replica_count value) && fits_u32 (cl_historical_replica_count value) &&
  fits_u32 (cl_reincarnation_count value).

Definition encode_ReplicaLocation (value : ReplicaLocation) : list Z :=
  encode_id (rlo_cluster_id value) ++ encode_id (rlo_cluster_incarnation value) ++
  encode_id (rlo_region value) ++ encode_id (rlo_site value) ++
  encode_id (rlo_failure_domain value) ++ ByteWriter.str (rlo_descriptor value).

Definition decode_ReplicaLocation : Reader ReplicaLocation :=
  cluster_id <- decode_id;; cluster_incarnation <- decode_id;; region <- decode_id;;
  site <- decode_id;; failure_domain <- decode_id;;
  descriptor <- Reader.str kMaxLocationDescriptorLength;;
  rret (mkReplicaLocation cluster_id cluster_incarnation region site failure_domain
    descriptor).

Definition encodable_ReplicaLocation (value : ReplicaLocation) : bool :=
  fits_u64 (rlo_cluster_id value) && fits_u64 (rlo_cluster_incarnation value) &&
  fits_u64 (rlo_region value) && fits_u64 (rlo_site value) &&
  fits_u64 (rlo_failure_domain value) &&
  fits_str kMaxLocationDescriptorLength (rlo_descriptor value).

Definition encode_ReplicaEvidence (value : ReplicaEvidence) : list Z :=
  encode_id (re_integrity_generation value) ++ encode_id (re_compatibility_generation value) ++
  encode_id (re_evidence_generation value) ++ encode_id (re_capability_generation value) ++
  encode_id (re_health_generation value) ++ encode_id (re_verification_id value) ++
  ByteWriter.u64 (re_verified_at value) ++ encode_id (re_coordinator_epoch value) ++
  ByteWriter.boolean (re_revalidation_required value) ++
  ByteWriter.boolean (re_integrity_evidence_present value) ++
  ByteWriter.boolean (re_compatibility_evidence_present value).

Definition decode_ReplicaEvidence : Reader ReplicaEvidence :=
  integrity_generation <- decode_id;; compatibility_generation <- decode_id;;
  evidence_generation <- decode_id;; capability_generation <- decode_id;;
  health_generation <- decode_id;; verification_id <- decode_id;; verified_at <- Reader.u64;;
  coordinator_epoch <- decode_id;; revalidation_required <- Reader.boolean;;
  integrity_evidence_present <- Reader.boolean;;
  compatibility_evidence_present <- Reader.boolean;;
  rret (mkReplicaEvidence integrity_generation compatibility_generation evidence_generation
    capability_generation health_generation verification_id verified_at coordinator_epoch
    revalidation_required integrity_evidence_present compatibility_evidence_present).

Definition encodable_ReplicaEvidence (value : ReplicaEvidence) : bool :=
  fits_u64 (re_integrity_generation value) && fits_u64 (re_compatibility_generation value) &&
  fits_u64 (re_evidence_generation value) && fits_u64 (re_capability_generation value) &&
  fits_u64 (re_health_generation value) && fits_u64 (re_verification_id value) &&
  fits_u64 (re_verified_at value) && fits_u64 (re_coordinator_epoch value).

Definition encode_ReplicaRecord (value : ReplicaRecord) : list Z :=
  encode_id (rp_replica_id value) ++ encode_id (rp_replica_generation value) ++
  encode_id (rp_state_id value) ++ encode_id (rp_state_generation value) ++
  encode_id (rp_replica_set_id value) ++ encode_id (rp_replica_set_generation value) ++
  encode_ReplicaLocation (rp_location value) ++ encode_enum (rp_lifecycle value) ++
  encode_enum (rp_integrity value) ++ encode_enum (rp_compatibility value) ++
  encode_enum (rp_durability value) ++ encode_enum (rp_availability value) ++
  encode_enum (rp_authority value) ++ encode_Digest (rp_content_digest value) ++
  encode_Digest (rp_measured_digest value) ++ encode_enum (rp_digest_algorithm value) ++
  encode_id (rp_compatibility_id value) ++ encode_id (rp_compatibility_generation value) ++
  cd_encode (rp_compatibility_descriptor value) ++ encode_SizeValue (rp_logical_size value) ++
  encode_SizeValue (rp_transferred_bytes value) ++
  encode_StateProvenance (rp_provenance value) ++ encode_ReplicaEvidence (rp_evidence value) ++
  encode_id (rp_worker_id value) ++ encode_id (rp_worker_boot_id value) ++
  encode_id (rp_created_epoch value) ++ encode_id (rp_last_epoch value) ++
  ByteWriter.u64 (rp_created_at value) ++ ByteWriter.u64 (rp_updated_at value) ++
  encode_id (rp_transfer_id value) ++ encode_id (rp_transfer_generation value) ++
  encode_id (rp_operation_id value) ++ encode_id (rp_operation_generation value) ++
  encode_id (rp_commit_id value) ++ ByteWriter.u32 (rp_attempt_count value) ++
  ByteWriter.str (rp_last_error value) ++ ByteWriter.boolean (rp_commit_recorded value) ++
  ByteWriter.boolean (rp_counts_toward_factor value).

Definition decode_ReplicaRecord : Reader ReplicaRecord :=
  replica_id <- decode_id;; replica_generation <- decode_id;; state_id <- decode_id;;
  state_generation <- decode_id;; replica_set_id <- decode_id;;
  replica_set_generation <- decode_id;; location <- decode_ReplicaLocation;;
  lifecycle <- decode_enum;; integrity <- decode_enum;; compatibility <- decode_enum;;
  durability <- decode_enum;; availability <- decode_enum;; authority <- decode_enum;;
  content_digest <- decode_Digest;; measured_digest <- decode_Digest;;
  digest_algorithm <- decode_enum;; compatibility_id <- decode_id;;
  compatibility_generation <- decode_id;; compatibility_descriptor <- cd_decode;;
  logical_size <- decode_SizeValue;; transferred_bytes <- decode_SizeValue;;
  provenance <- decode_StateProvenance;; evidence <- decode_ReplicaEvidence;;
  worker_id <- decode_id;; worker_boot_id <- decode_id;; created_epoch <- decode_id;;
  last_epoch <- decode_id;; created_at <- Reader.u64;; updated_at <- Reader.u64;;
  transfer_id <- decode_id;; transfer_generation <- decode_id;; operation_id <- decode_id;;
  operation_generation <- decode_id;; commit_id <- decode_id;; attempt_count <- Reader.u32;;
  last_error <- Reader.str kMaxFailureReasonLength;; commit_recorded <- Reader.boolean;;
  counts_toward_factor <- Reader.boolean;;
  rret (mkReplicaRecord replica_id replica_generation state_id state_generation replica_set_id
    replica_set_generation location lifecycle integrity compatibility durability availability
    authority content_digest measured_digest digest_algorithm compatibility_id
    compatibility_generation compatibility_descriptor logical_size transferred_bytes provenance
    evidence worker_id worker_boot_id created_epoch last_epoch created_at updated_at transfer_id
    transfer_generation operation_id operation_generation commit_id attempt_count last_error
    commit_recorded counts_toward_factor).

Definition encodable_ReplicaRecord (value : ReplicaRecord) : bool :=
  fits_u64 (rp_replica_id value) && fits_u64 (rp_replica_generation value) &&
  fits_u64 (rp_state_id value) && fits_u64 (rp_state_generation value) &&
  fits_u64 (rp_replica_set_id value) && fits_u64 (rp_replica_set_generation value) &&
  encodable_ReplicaLocation (rp_location value) &&
  encodable_Digest (rp_content_digest value) && encodable_Digest (rp_measured_digest value) &&
  fits_u64 (rp_compatibility_id value) && fits_u64 (rp_compatibility_generation value) &&
  encodable_descriptor (rp_compatibility_descriptor value) &&
  encodable_SizeValue (rp_logical_size value) &&
  encodable_SizeValue (rp_transferred_bytes value) &&
  encodable_StateProvenance (rp_provenance value) &&
  encodable_ReplicaEvidence (rp_evidence value) && fits_u64 (rp_worker_id value) &&
  fits_u64 (rp_worker_boot_id value) && fits_u64 (rp_created_epoch value) &&
  fits_u64 (rp_last_epoch value) && fits_u64 (rp_created_at value) &&
  fits_u64 (rp_updated_at value) && fits_u64 (rp_transfer_id value) &&
  fits_u64 (rp_transfer_generation value) && fits_u64 (rp_operation_id value) &&
  fits_u64 (rp_operation_generation value) && fits_u64 (rp_commit_id value) &&
  fits_u32 (rp_attempt_count value) && fits_str kMaxFailureReasonLength (rp_last_error value).

Definition encode_ReplicaSetMember (value : ReplicaSetMember) : list Z :=
  encode_id (rm_replica_id value) ++ encode_id (rm_replica_generation value) ++
  encode_id (rm_cluster_id value) ++ encode_id (rm_cluster_incarnation value) ++
  encode_id (rm_region value) ++ encode_id (rm_failure_domain value) ++
  ByteWriter.boolean (rm_authoritative value) ++ encode_enum (rm_lifecycle value) ++
  encode_enum (rm_integrity value) ++ encode_enum (rm_compatibility value) ++
  encode_enum (rm_authority value) ++ encode_id (rm_commit_id value) ++
  ByteWriter.u64 (rm_joined_at value).

Definition decode_ReplicaSetMember : Reader ReplicaSetMember :=
  replica_id <- decode_id;; replica_generation <- decode_id;; cluster_id <- decode_id;;
  cluster_incarnation <- decode_id;; region <- decode_id;; failure_domain <- decode_id;;
  authoritative <- Reader.boolean;; lifecycle <- decode_enum;; integrity <- decode_enum;;
  compatibility <- decode_enum;; authority <- decode_enum;; commit_id <- decode_id;;
  joined_at <- Reader.u64;;
  rret (mkReplicaSetMember replica_id replica_generation cluster_id cluster_incarnation region
    failure_domain authoritative lifecycle integrity compatibility authority commit_id
    joined_at).

Definition encodable_ReplicaSetMember (value : ReplicaSetMember) : bool :=
  fits_u64 (rm_replica_id value) && fits_u64 (rm_replica_generation value) &&
  fits_u64 (rm_cluster_id value) && fits_u64 (rm_cluster_incarnation value) &&
  fits_u64 (rm_region value) && fits_u64 (rm_failure_domain value) &&
  fits_u64 (rm_commit_id value) && fits_u64 (rm_joined_at value).

Definition encode_ReplicaSetRecord (value : ReplicaSetRecord) : list Z :=
  encode_id (rs_replica_set_id value) ++ encode_id (rs_generation value) ++
  encode_id (rs_state_id value) ++ encode_id (rs_state_generation value) ++
  encode_enum (rs_state value) ++ encode_ReplicationRequirements (rs_requirements value) ++
  encode_vector encode_ReplicaSetMember (rs_authoritative_members value) ++
  encode_vector encode_ReplicaSetMember (rs_degraded_members value) ++
  ByteWriter.u32 (rs_authoritative_count value) ++ ByteWriter.u32 (rs_degraded_count value) ++
  ByteWriter.u32 (rs_distinct_clusters value) ++ ByteWriter.u32 (rs_distinct_regions value) ++
  ByteWriter.u32 (rs_distinct_failure_domains value) ++ encode_id (rs_placement_id value) ++
  encode_id (rs_placement_generation value) ++ encode_id (rs_epoch value) ++
  encode_id (rs_last_commit value) ++ ByteWriter.u64 (rs_created_at value) ++
  ByteWriter.u64 (rs_updated_at value) ++ ByteWriter.boolean (rs_revalidation_required value).

Definition decode_ReplicaSetRecord : Reader ReplicaSetRecord :=
  replica_set_id <- decode_id;; generation <- decode_id;; state_id <- decode_id;;
  state_generation <- decode_id;; state <- decode_enum;;
  requirements <- decode_ReplicationRequirements;;
  authoritative_members <- decode_vector kMaxDecodedMembers decode_ReplicaSetMember;;
  degraded_members <- decode_vector kMaxDecodedMembers decode_ReplicaSetMember;;
  authoritative_count <- Reader.u32;; degraded_count <- Reader.u32;;
  distinct_clusters <- Reader.u32;; distinct_regions <- Reader.u32;;
  distinct_failure_domains <- Reader.u32;; placement_id <- decode_id;;
  placement_generation <- decode_id;; epoch <- decode_id;; last_commit <- decode_id;;
  created_at <- Reader.u64;; updated_at <- Reader.u64;;
  revalidation_required <- Reader.boolean;;
  rret (mkReplicaSetRecord replica_set_id generation state_id state_generation state
    requirements authoritative_members degraded_members authoritative_count degraded_count
    distinct_clusters distinct_regions distinct_failure_domains placement_id placement_generation
    epoch last_commit created_at updated_at revalidation_required).

Definition encodable_ReplicaSetRecord (value : ReplicaSetRecord) : bool :=
  fits_u64 (rs_replica_set_id value) && fits_u64 (rs_generation value) &&
  fits_u64 (rs_state_id value) && fits_u64 (rs_state_generation value) &&
  encodable_ReplicationRequirements (rs_requirements value) &&
  fits_list kMaxDecodedMembers encodable_ReplicaSetMember (rs_authoritative_members value) &&
  fits_list kMaxDecodedMembers encodable_ReplicaSetMember (rs_degraded_members value) &&
  fits_u32 (rs_authoritative_count value) && fits_u32 (rs_degraded_count value) &&
  fits_u32 (rs_distinct_clusters value) && fits_u32 (rs_distinct_regions value) &&
  fits_u32 (rs_distinct_failure_domains value) && fits_u64 (rs_placement_id value) &&
  fits_u64 (rs_placement_generation value) && fits_u64 (rs_epoch value) &&
  fits_u64 (rs_last_commit value) && fits_u64 (rs_created_at value) &&
  fits_u64 (rs_updated_at value).

Definition encode_TransferAuthorization (value : TransferAuthorization) : list Z :=
  encode_id (ta_operation_id value) ++ encode_id (ta_operation_generation value) ++
  encode_enum (ta_kind value) ++ encode_id (ta_migration_id value) ++
  encode_id (ta_migration_generation value) ++ encode_id (ta_transfer_id value) ++
  encode_id (ta_transfer_generation value) ++ encode_id (ta_reservation_id value) ++
  encode_id (ta_reservation_generation value) ++ encode_id (ta_state_id value) ++
  encode_id (ta_state_generation value) ++ encode_id (ta_replica_set_id value) ++
  encode_id (ta_replica_set_generation value) ++ encode_id (ta_source_replica value) ++
  encode_id (ta_source_replica_generation value) ++ encode_id (ta_source_cluster value) ++
  encode_id (ta_source_incarnation value) ++ encode_id (ta_destination_replica value) ++
  encode_id (ta_destination_replica_generation value) ++
  encode_id (ta_destination_cluster value) ++ encode_id (ta_destination_incarnation value) ++
  encode_id (ta_placement_id value) ++ encode_id (ta_placement_generation value) ++
  encode_id (ta_coordinator_epoch value) ++ encode_SizeValue (ta_transfer_bytes value) ++
  encode_Digest (ta_expected_digest value) ++ encode_enum (ta_digest_algorithm value) ++
  ByteWriter.u64 (ta_reservation_expires_at value) ++
  ByteWriter.u64 (ta_authorized_at value) ++ ByteWriter.boolean (ta_destructive_move value).

Definition decode_TransferAuthorization : Reader TransferAuthorization :=
  operation_id <- decode_id;; operation_generation <- decode_id;; kind <- decode_enum;;
  migration_id <- decode_id;; migration_generation <- decode_id;; transfer_id <- decode_id;;
  transfer_generation <- decode_id;; reservation_id <- decode_id;;
  reservation_generation <- decode_id;; state_id <- decode_id;; state_generation <- decode_id;;
  replica_set_id <- decode_id;; replica_set_generation <- decode_id;;
  source_replica <- decode_id;; source_replica_generation <- decode_id;;
  source_cluster <- decode_id;; source_incarnation <- decode_id;;
  destination_replica <- decode_id;; destination_replica_generation <- decode_id;;
  destination_cluster <- decode_id;; destination_incarnation <- decode_id;;
  placement_id <- decode_id;; placement_generation <- decode_id;;
  coordinator_epoch <- decode_id;; transfer_bytes <- decode_SizeValue;;
  expected_digest <- decode_Digest;; digest_algorithm <- decode_enum;;
  reservation_expires_at <- Reader.u64;; authorized_at <- Reader.u64;;
  destructive_move <- Reader.boolean;;
  rret (mkTransferAuthorization operation_id operation_generation kind migration_id
    migration_generation transfer_id transfer_generation reservation_id reservation_generation
    state_id state_generation replica_set_id replica_set_generation source_replica
    source_replica_generation source_cluster source_incarnation destination_replica
    destination_replica_generation destination_cluster destination_incarnation placement_id
    placement_generation coordinator_epoch transfer_bytes expected_digest digest_algorithm
    reservation_expires_at authorized_at destructive_move).

Definition encodable_TransferAuthorization (value : TransferAuthorization) : bool :=
  fits_u64 (ta_operation_id value) && fits_u64 (ta_operation_generation value) &&
  fits_u64 (ta_migration_id value) && fits_u64 (ta_migration_generation value) &&
  fits_u64 (ta_transfer_id value) && fits_u64 (ta_transfer_generation value) &&
  fits_u64 (ta_reservation_id value) && fits_u64 (ta_reservation_generation value) &&
  fits_u64 (ta_state_id value) && fits_u64 (ta_state_generation value) &&
  fits_u64 (ta_replica_set_id value) && fits_u64 (ta_replica_set_generation value) &&
  fits_u64 (ta_source_replica value) && fits_u64 (ta_source_replica_generation value) &&
  fits_u64 (ta_source_cluster value) && fits_u64 (ta_source_incarnation value) &&
  fits_u64 (ta_destination_replica value) &&
  fits_u64 (ta_destination_replica_generation value) &&
  fits_u64 (ta_destination_cluster value) && fits_u64 (ta_destination_incarnation value) &&
  fits_u64 (ta_placement_id value) && fits_u64 (ta_placement_generation value) &&
  fits_u64 (ta_coordinator_epoch value) && encodable_SizeValue (ta_transfer_bytes value) &&
  encodable_Digest (ta_expected_digest value) && fits_u64 (ta_reservation_expires_at value) &&
  fits_u64 (ta_authorized_at value).

Definition encode_OperationRecord (value : OperationRecord) : list Z :=
  encode_id (op_operation_id value) ++ encode_id (op_operation_generation value) ++
  encode_enum (op_kind value) ++ encode_enum (op_state value) ++
  encode_id (op_state_id value) ++ encode_id (op_state_generation value) ++
  encode_id (op_source_replica value) ++ encode_id (op_source_replica_generation value) ++
  encode_id (op_source_cluster value) ++ encode_id (op_source_incarnation value) ++
  encode_id (op_destination_replica value) ++
  encode_id (op_destination_replica_generation value) ++
  encode_id (op_destination_cluster value) ++ encode_id (op_destination_incarnation value) ++
  encode_id (op_migration_id value) ++ encode_id (op_migration_generation value) ++
  encode_id (op_transfer_id value) ++ encode_id (op_transfer_generation value) ++
  encode_id (op_reservation_id value) ++ encode_id (op_reservation_generation value) ++
  encode_id (op_replication_policy_id value) ++
  encode_id (op_replication_policy_generation_recorded value) ++
  encode_id (op_placement_policy_id value) ++
  encode_id (op_source_replica_set_generation value) ++
  encode_id (op_committed_replica_set_generation value) ++
  encode_id (op_placement_generation value) ++
  encode_id (op_placement_policy_generation value) ++
  encode_id (op_replication_policy_generation value) ++ encode_id (op_planned_epoch value) ++
  encode_id (op_last_epoch value) ++ encode_id (op_commit_id value) ++
  encode_SizeValue (op_transfer_bytes value) ++
  encode_SizeValue (op_transferred_bytes value) ++ encode_Digest (op_expected_digest value) ++
  encode_Digest (op_measured_digest value) ++ encode_enum (op_failure_action value) ++
  encode_enum (op_cancellation value) ++ ByteWriter.u64 (op_planned_at value) ++
  ByteWriter.u64 (op_updated_at value) ++ ByteWriter.u64 (op_reservation_expires_at value) ++
  ByteWriter.boolean (op_destructive_move value) ++
  ByteWriter.boolean (op_source_retired value) ++
  ByteWriter.boolean (op_destination_verified value) ++
  ByteWriter.boolean (op_destination_committed value) ++
  ByteWriter.boolean (op_recovery_required value) ++ ByteWriter.str (op_reason value) ++
  ByteWriter.str (op_last_error value) ++ encode_string_list (op_journal value).

Definition decode_OperationRecord : Reader OperationRecord :=
  operation_id <- decode_id;; operation_generation <- decode_id;; kind <- decode_enum;;
  state <- decode_enum;; state_id <- decode_id;; state_generation <- decode_id;;
  source_replica <- decode_id;; source_replica_generation <- decode_id;;
  source_cluster <- decode_id;; source_incarnation <- decode_id;;
  destination_replica <- decode_id;; destination_replica_generation <- decode_id;;
  destination_cluster <- decode_id;; destination_incarnation <- decode_id;;
  migration_id <- decode_id;; migration_generation <- decode_id;; transfer_id <- decode_id;;
  transfer_generation <- decode_id;; reservation_id <- decode_id;;
  reservation_generation <- decode_id;; replication_policy_id <- decode_id;;
  replication_policy_generation_recorded <- decode_id;; placement_policy_id <- decode_id;;
  source_replica_set_generation <- decode_id;; committed_replica_set_generation <- decode_id;;
  placement_generation <- decode_id;; placement_policy_generation <- decode_id;;
  replication_policy_generation <- decode_id;; planned_epoch <- decode_id;;
  last_epoch <- decode_id;; commit_id <- decode_id;; transfer_bytes <- decode_SizeValue;;
  transferred_bytes <- decode_SizeValue;; expected_digest <- decode_Digest;;
  measured_digest <- decode_Digest;; failure_action <- decode_enum;;
  cancellation <- decode_enum;; planned_at <- Reader.u64;; updated_at <- Reader.u64;;
  reservation_expires_at <- Reader.u64;; destructive_move <- Reader.boolean;;
  source_retired <- Reader.boolean;; destination_verified <- Reader.boolean;;
  destination_committed <- Reader.boolean;; recovery_required <- Reader.boolean;;
  reason <- Reader.str kMaxFailureReasonLength;;
  last_error <- Reader.str kMaxFailureReasonLength;;
  journal <- decode_string_list kMaxDecodedJournalEntries;;
  rret (mkOperationRecord operation_id operation_generation kind state state_id
    state_generation source_replica source_replica_generation source_cluster source_incarnation
    destination_replica destination_replica_generation destination_cluster
    destination_incarnation migration_id migration_generation transfer_id transfer_generation
    reservation_id reservation_generation replication_policy_id
    replication_policy_generation_recorded placement_policy_id source_replica_set_generation
    committed_replica_set_generation placement_generation placement_policy_generation
    replication_policy_generation planned_epoch last_epoch commit_id transfer_bytes
    transferred_bytes expected_digest measured_digest failure_action cancellation planned_at
    updated_at reservation_expires_at destructive_move source_retired destination_verified
    destination_committed recovery_required reason last_error journal).

Definition encodable_OperationRecord (value : OperationRecord) : bool :=
  fits_u64 (op_operation_id value) && fits_u64 (op_operation_generation value) &&
  fits_u64 (op_state_id value) && fits_u64 (op_state_generation value) &&
  fits_u64 (op_source_replica value) && fits_u64 (op_source_replica_generation value) &&
  fits_u64 (op_source_cluster value) && fits_u64 (op_source_incarnation value) &&
  fits_u64 (op_destination_replica value) &&
  fits_u64 (op_destination_replica_generation value) &&
  fits_u64 (op_destination_cluster value) && fits_u64 (op_destination_incarnation value) &&
  fits_u64 (op_migration_id value) && fits_u64 (op_migration_generation value) &&
  fits_u64 (op_transfer_id value) && fits_u64 (op_transfer_generation value) &&
  fits_u64 (op_reservation_id value) && fits_u64 (op_reservation_generation value) &&
  fits_u64 (op_replication_policy_id value) &&
  fits_u64 (op_replication_policy_generation_recorded value) &&
  fits_u64 (op_placement_policy_id value) &&
  fits_u64 (op_source_replica_set_generation value) &&
  fits_u64 (op_committed_replica_set_generation value) &&
  fits_u64 (op_placement_generation value) &&
  fits_u64 (op_placement_policy_generation value) &&
  fits_u64 (op_replication_policy_generation value) && fits_u64 (op_planned_epoch value) &&
  fits_u64 (op_last_epoch value) && fits_u64 (op_commit_id value) &&
  encodable_SizeValue (op_transfer_bytes value) &&
  encodable_SizeValue (op_transferred_bytes value) &&
  encodable_Digest (op_expected_digest value) && encodable_Digest (op_measured_digest value) &&
  fits_u64 (op_planned_at value) && fits_u64 (op_updated_at value) &&
  fits_u64 (op_reservation_expires_at value) &&
  fits_str kMaxFailureReasonLength (op_reason value) &&
  fits_str kMaxFailureReasonLength (op_last_error value) &&
  fits_string_list kMaxDecodedJournalEntries (op_journal value).

Definition encode_OwnershipRecord (value : OwnershipRecord) : list Z :=
  encode_id (ow_state_id value) ++ encode_id (ow_state_generation value) ++
  encode_id (ow_owner_replica value) ++ encode_id (ow_owner_replica_generation value) ++
  encode_id (ow_owner_cluster value) ++ encode_id (ow_owner_incarnation value) ++
  encode_id (ow_epoch value) ++ encode_id (ow_commit value) ++
  encode_id (ow_placement_id value) ++ encode_id (ow_placement_generation value) ++
  ByteWriter.u64 (ow_established_at value) ++ ByteWriter.boolean (ow_active value).

Definition decode_OwnershipRecord : Reader OwnershipRecord :=
  state_id <- decode_id;; state_generation <- decode_id;; owner_replica <- decode_id;;
  owner_replica_generation <- decode_id;; owner_cluster <- decode_id;;
  owner_incarnation <- decode_id;; epoch <- decode_id;; commit <- decode_id;;
  placement_id <- decode_id;; placement_generation <- decode_id;;
  established_at <- Reader.u64;; active <- Reader.boolean;;
  rret (mkOwnershipRecord state_id state_generation owner_replica owner_replica_generation
    owner_cluster owner_incarnation epoch commit placement_id placement_generation established_at
    active).

Definition encodable_OwnershipRecord (value : OwnershipRecord) : bool :=
  fits_u64 (ow_state_id value) && fits_u64 (ow_state_generation value) &&
  fits_u64 (ow_owner_replica value) && fits_u64 (ow_owner_replica_generation value) &&
  fits_u64 (ow_owner_cluster value) && fits_u64 (ow_owner_incarnation value) &&
  fits_u64 (ow_epoch value) && fits_u64 (ow_commit value) &&
  fits_u64 (ow_placement_id value) && fits_u64 (ow_placement_generation value) &&
  fits_u64 (ow_established_at value).

Definition encode_CompatibilityRecord (value : CompatibilityRecord) : list Z :=
  encode_id (cr_compatibility_id value) ++ encode_id (cr_generation value) ++
  cd_encode (cr_descriptor value) ++ ByteWriter.str (cr_producer value) ++
  ByteWriter.u64 (cr_published_at value) ++ ByteWriter.boolean (cr_revalidation_required value).

Definition decode_CompatibilityRecord : Reader CompatibilityRecord :=
  compatibility_id <- decode_id;; generation <- decode_id;; descriptor <- cd_decode;;
  producer <- Reader.str kMaxEncodedStringBytes;; published_at <- Reader.u64;;
  revalidation_required <- Reader.boolean;;
  rret (mkCompatibilityRecord compatibility_id generation descriptor producer published_at
    revalidation_required).

Definition encodable_CompatibilityRecord (value : CompatibilityRecord) : bool :=
  fits_u64 (cr_compatibility_id value) && fits_u64 (cr_generation value) &&
  encodable_descriptor (cr_descriptor value) &&
  fits_str kMaxEncodedStringBytes (cr_producer value) && fits_u64 (cr_published_at value).

Definition encode_FabricCounters (value : FabricCounters) : list Z :=
  ByteWriter.u64 (fc_states_registered value) ++
  ByteWriter.u64 (fc_generations_registered value) ++
  ByteWriter.u64 (fc_generations_committed value) ++
  ByteWriter.u64 (fc_generations_superseded value) ++
  ByteWriter.u64 (fc_clusters_registered value) ++
  ByteWriter.u64 (fc_cluster_reincarnations value) ++
  ByteWriter.u64 (fc_cluster_incarnations_fenced value) ++
  ByteWriter.u64 (fc_replicas_registered value) ++
  ByteWriter.u64 (fc_replicas_committed value) ++ ByteWriter.u64 (fc_replicas_retired value) ++
  ByteWriter.u64 (fc_replicas_quarantined value) ++
  ByteWriter.u64 (fc_replicas_abandoned value) ++ ByteWriter.u64 (fc_replicas_fenced value) ++
  ByteWriter.u64 (fc_operations_planned value) ++
  ByteWriter.u64 (fc_operations_reserved value) ++
  ByteWriter.u64 (fc_operations_committed value) ++
  ByteWriter.u64 (fc_operations_failed value) ++
  ByteWriter.u64 (fc_operations_cancelled value) ++
  ByteWriter.u64 (fc_operations_abandoned value) ++
  ByteWriter.u64 (fc_operations_recovered value) ++
  ByteWriter.u64 (fc_transfers_started value) ++
  ByteWriter.u64 (fc_transfers_completed value) ++
  ByteWriter.u64 (fc_bytes_transferred value) ++
  ByteWriter.u64 (fc_integrity_verifications value) ++
  ByteWriter.u64 (fc_integrity_failures value) ++
  ByteWriter.u64 (fc_compatibility_rejections value) ++
  ByteWriter.u64 (fc_stale_rejections value) ++ ByteWriter.u64 (fc_conflicts_rejected value) ++
  ByteWriter.u64 (fc_durable_commits value) ++
  ByteWriter.u64 (fc_journal_records_applied value) ++
  ByteWriter.u64 (fc_snapshots_written value) ++
  ByteWriter.u64 (fc_ownership_transfers value) ++
  ByteWriter.u64 (fc_active_operations value) ++ ByteWriter.u64 (fc_active_transfers value) ++
  ByteWriter.u64 (fc_reserved_bytes value) ++ ByteWriter.u64 (fc_reserved_transfer_slots value).

Definition decode_FabricCounters : Reader FabricCounters :=
  states_registered <- Reader.u64;; generations_registered <- Reader.u64;;
  generations_committed <- Reader.u64;; generations_superseded <- Reader.u64;;
  clusters_registered <- Reader.u64;; cluster_reincarnations <- Reader.u64;;
  cluster_incarnations_fenced <- Reader.u64;; replicas_registered <- Reader.u64;;
  replicas_committed <- Reader.u64;; replicas_retired <- Reader.u64;;
  replicas_quarantined <- Reader.u64;; replicas_abandoned <- Reader.u64;;
  replicas_fenced <- Reader.u64;; operations_planned <- Reader.u64;;
  operations_reserved <- Reader.u64;; operations_committed <- Reader.u64;;
  operations_failed <- Reader.u64;; operations_cancelled <- Reader.u64;;
  operations_abandoned <- Reader.u64;; operations_recovered <- Reader.u64;;
  transfers_started <- Reader.u64;; transfers_completed <- Reader.u64;;
  bytes_transferred <- Reader.u64;; integrity_verifications <- Reader.u64;;
  integrity_failures <- Reader.u64;; compatibility_rejections <- Reader.u64;;
  stale_rejections <- Reader.u64;; conflicts_rejected <- Reader.u64;;
  durable_commits <- Reader.u64;; journal_records_applied <- Reader.u64;;
  snapshots_written <- Reader.u64;; ownership_transfers <- Reader.u64;;
  active_operations <- Reader.u64;; active_transfers <- Reader.u64;;
  reserved_bytes <- Reader.u64;; reserved_transfer_slots <- Reader.u64;;
  rret (mkFabricCounters states_registered generations_registered generations_committed
    generations_superseded clusters_registered cluster_reincarnations cluster_incarnations_fenced
    replicas_registered replicas_committed replicas_retired replicas_quarantined
    replicas_abandoned replicas_fenced operations_planned operations_reserved
    operations_committed operations_failed operations_cancelled operations_abandoned
    operations_recovered transfers_started transfers_completed bytes_transferred
    integrity_verifications integrity_failures compatibility_rejections stale_rejections
    conflicts_rejected durable_commits journal_records_applied snapshots_written
    ownership_transfers active_operations active_transfers reserved_bytes
    reserved_transfer_slots).

Definition encodable_FabricCounters (value : FabricCounters) : bool :=
  fits_u64 (fc_states_registered value) && fits_u64 (fc_generations_registered value) &&
  fits_u64 (fc_generations_committed value) && fits_u64 (fc_generations_superseded value) &&
  fits_u64 (fc_clusters_registered value) && fits_u64 (fc_cluster_reincarnations value) &&
  fits_u64 (fc_cluster_incarnations_fenced value) && fits_u64 (fc_replicas_registered value) &&
  fits_u64 (fc_replicas_committed value) && fits_u64 (fc_replicas_retired value) &&
  fits_u64 (fc_replicas_quarantined value) && fits_u64 (fc_replicas_abandoned value) &&
  fits_u64 (fc_replicas_fenced value) && fits_u64 (fc_operations_planned value) &&
  fits_u64 (fc_operations_reserved value) && fits_u64 (fc_operations_committed value) &&
  fits_u64 (fc_operations_failed value) && fits_u64 (fc_operations_cancelled value) &&
  fits_u64 (fc_operations_abandoned value) && fits_u64 (fc_operations_recovered value) &&
  fits_u64 (fc_transfers_started value) && fits_u64 (fc_transfers_completed value) &&
  fits_u64 (fc_bytes_transferred value) && fits_u64 (fc_integrity_verifications value) &&
  fits_u64 (fc_integrity_failures value) && fits_u64 (fc_compatibility_rejections value) &&
  fits_u64 (fc_stale_rejections value) && fits_u64 (fc_conflicts_rejected value) &&
  fits_u64 (fc_durable_commits value) && fits_u64 (fc_journal_records_applied value) &&
  fits_u64 (fc_snapshots_written value) && fits_u64 (fc_ownership_transfers value) &&
  fits_u64 (fc_active_operations value) && fits_u64 (fc_active_transfers value) &&
  fits_u64 (fc_reserved_bytes value) && fits_u64 (fc_reserved_transfer_slots value).

(** ** Laws *)

Lemma encodable_attribute_spec entry :
  encodable_attribute entry = true ↔
  0 < string_size entry.1 ≤ kMaxCompatibilityKeyLength ∧
  string_size entry.2 ≤ kMaxCompatibilityValueLength.
Proof.
  unfold encodable_attribute, fits_str. rewrite !andb_true_iff, Z.ltb_lt, !Z.leb_le. tauto.
Qed.

Lemma encodable_descriptor_wf d : encodable_descriptor d = true ↔ descriptor_wf d.
Proof.
  unfold encodable_descriptor, descriptor_wf. rewrite andb_true_iff, Z.leb_le, forallb_forall.
  apply and_iff_compat_l. split.
  - intros H key value Hk. apply (encodable_attribute_spec (key, value)), H.
    by apply list_elem_of_In, elem_of_entries.
  - intros H [key value] Hin%list_elem_of_In%elem_of_entries.
    by apply encodable_attribute_spec, (H key value).
Qed.

Lemma produces_cd_loop n m :
  descriptor_wf (mkCompatibilityDescriptor m) →
  produces (λ m, encodable_descriptor (mkCompatibilityDescriptor m)) (cd_decode_loop n m).
Proof.
  revert m. induction n as [|n IH]; intros m Hm; simpl.
  { by apply produces_ret, encodable_descriptor_wf. }
  eapply produces_bind; [apply produces_str|]. intros key Hk%Z.leb_le.
  eapply produces_bind; [apply produces_str|]. intros value Hv%Z.leb_le.
  destruct (Z.eqb_spec (string_size key) 0); [apply produces_fail|].
  destruct (Z.geb_spec (Z.of_nat (size m)) kMaxCompatibilityAttributes); [apply produces_fail|].
  destruct (m !! key) eqn:E; [apply produces_fail|]. apply IH.
  destruct Hm as [_ Hm]. simpl in Hm. split; simpl.
  - rewrite map_size_insert_None by done. lia.
  - apply map_Forall_insert_2; [|done]. unfold string_size in *. lia.
Qed.

Lemma safe_cd_loop n m : reader_safe (cd_decode_loop n m).
Proof.
  revert m. induction n as [|n IH]; intros m; simpl; [apply safe_ret|].
  apply safe_bind; [apply safe_str|]. intros key. apply safe_bind; [apply safe_str|].
  intros value. destruct (_ =? _); [apply safe_fail|]. destruct (_ >=? _); [apply safe_fail|].
  destruct (m !! key); [apply safe_fail|apply IH].
Qed.

Lemma descriptor_laws : codec_laws cd_encode cd_decode encodable_descriptor.
Proof.
  split.
  - intros d Hd. by apply reads_cd, encodable_descriptor_wf.
  - eapply produces_bind; [apply produces_u32|]. intros n _.
    destruct (n >? _); [apply produces_fail|].
    eapply produces_bind; [apply produces_cd_loop; by split|]. intros m Hm. by apply produces_ret.
  - unfold cd_decode. apply safe_bind; [apply safe_u32|]. intros n.
    destruct (n >? _); [apply safe_fail|]. apply safe_bind; [apply safe_cd_loop|].
    intros m. apply safe_ret.
Qed.

#[export] Hint Resolve descriptor_laws : codec.

Lemma CostValue_laws : codec_laws encode_CostValue decode_CostValue encodable_CostValue.
Proof. codec_record encode_CostValue decode_CostValue encodable_CostValue. Qed.

#[export] Hint Resolve CostValue_laws : codec.
#[export] Instance CostValue_codec : Codec CostValue := {| codec_ok := CostValue_laws |}.

Lemma SizeValue_laws : codec_laws encode_SizeValue decode_SizeValue encodable_SizeValue.
Proof. codec_record encode_SizeValue decode_SizeValue encodable_SizeValue. Qed.

#[export] Hint Resolve SizeValue_laws : codec.
#[export] Instance SizeValue_codec : Codec SizeValue := {| codec_ok := SizeValue_laws |}.

Lemma ReuseValue_laws : codec_laws encode_ReuseValue decode_ReuseValue encodable_ReuseValue.
Proof.
  split; [intros v H; unfold encodable_ReuseValue in H; split_fits H|..];
    unfold encode_ReuseValue, decode_ReuseValue.
  - do 2 (eapply reads_bind; [eauto with codec|]). eapply reads_map; [eauto with codec|].
    apply Z.leb_le in Hf. destruct (Z.gtb_spec (rv_probability_per_mille v) 1000); [lia|].
    destruct v. apply reads_ret.
  - do 3 (eapply produces_bind; [eauto with codec|intros ? ?]).
    match goal with |- context [?p >? 1000] => destruct (Z.gtb_spec p 1000) end;
      [apply produces_fail|]. apply produces_ret. unfold encodable_ReuseValue.
    join_fits; [assumption..|by apply Z.leb_le].
  - do 3 (apply safe_bind; [eauto with codec|intros ?]). case_match; [apply safe_fail|apply safe_ret].
Qed.

#[export] Hint Resolve ReuseValue_laws : codec.

Lemma Digest_laws : codec_laws encode_Digest decode_Digest encodable_Digest.
Proof.
  split.
  - intros [bytes] [Hl%Z.eqb_eq _]%andb_true_iff. simpl in Hl.
    eapply reads_map; [|apply reads_ret]. unfold encode_Digest. cbn [dg_bytes].
    rewrite <-Hl. apply reads_raw.
  - eapply produces_bind; [apply produces_raw|]. intros l [Hl Hb]%andb_true_iff.
    apply produces_ret. by apply andb_true_iff.
  - unfold decode_Digest. reader_auto.
Qed.

#[export] Hint Resolve Digest_laws : codec.

Lemma PlacementConstraints_laws :
  codec_laws encode_PlacementConstraints decode_PlacementConstraints
    encodable_PlacementConstraints.
Proof.
  codec_record encode_PlacementConstraints decode_PlacementConstraints
    encodable_PlacementConstraints.
Qed.

#[export] Hint Resolve PlacementConstraints_laws : codec.
#[export] Instance PlacementConstraints_codec : Codec PlacementConstraints :=
  {| codec_ok := PlacementConstraints_laws |}.

Lemma RankingWeights_laws :
  codec_laws encode_RankingWeights decode_RankingWeights encodable_RankingWeights.
Proof. codec_record encode_RankingWeights decode_RankingWeights encodable_RankingWeights. Qed.

#[export] Hint Resolve RankingWeights_laws : codec.
#[export] Instance RankingWeights_codec : Codec RankingWeights :=
  {| codec_ok := RankingWeights_laws |}.

Lemma CostPolicy_laws : codec_laws encode_CostPolicy decode_CostPolicy encodable_CostPolicy.
Proof. codec_record encode_CostPolicy decode_CostPolicy encodable_CostPolicy. Qed.

#[export] Hint Resolve CostPolicy_laws : codec.
#[export] Instance CostPolicy_codec : Codec CostPolicy := {| codec_ok := CostPolicy_laws |}.

Lemma ReplicationRequirements_laws :
  codec_laws encode_ReplicationRequirements decode_ReplicationRequirements
    encodable_ReplicationRequirements.
Proof.
  codec_record encode_ReplicationRequirements decode_ReplicationRequirements
    encodable_ReplicationRequirements.
Qed.

#[export] Hint Resolve ReplicationRequirements_laws : codec.
#[export] Instance ReplicationRequirements_codec : Codec ReplicationRequirements :=
  {| codec_ok := ReplicationRequirements_laws |}.

Lemma EligibilityRules_laws :
  codec_laws encode_EligibilityRules decode_EligibilityRules encodable_EligibilityRules.
Proof. codec_record encode_EligibilityRules decode_EligibilityRules encodable_EligibilityRules. Qed.

#[export] Hint Resolve EligibilityRules_laws : codec.
#[export] Instance EligibilityRules_codec : Codec EligibilityRules :=
  {| codec_ok := EligibilityRules_laws |}.

Lemma ReuseAuthorityRules_laws :
  codec_laws encode_ReuseAuthorityRules decode_ReuseAuthorityRules encodable_ReuseAuthorityRules.
Proof.
  codec_record encode_ReuseAuthorityRules decode_ReuseAuthorityRules
    encodable_ReuseAuthorityRules.
Qed.

#[export] Hint Resolve ReuseAuthorityRules_laws : codec.
#[export] Instance ReuseAuthorityRules_codec : Codec ReuseAuthorityRules :=
  {| codec_ok := ReuseAuthorityRules_laws |}.

Lemma RetentionPolicy_laws :
  codec_laws encode_RetentionPolicy decode_RetentionPolicy encodable_RetentionPolicy.
Proof. codec_record encode_RetentionPolicy decode_RetentionPolicy encodable_RetentionPolicy. Qed.

#[export] Hint Resolve RetentionPolicy_laws : codec.
#[export] Instance RetentionPolicy_codec : Codec RetentionPolicy :=
  {| codec_ok := RetentionPolicy_laws |}.

Lemma RepairPolicy_laws :
  codec_laws encode_RepairPolicy decode_RepairPolicy encodable_RepairPolicy.
Proof. codec_record encode_RepairPolicy decode_RepairPolicy encodable_RepairPolicy. Qed.

#[export] Hint Resolve RepairPolicy_laws : codec.
#[export] Instance RepairPolicy_codec : Codec RepairPolicy := {| codec_ok := RepairPolicy_laws |}.

Lemma RevalidationRequirements_laws :
  codec_laws encode_RevalidationRequirements decode_RevalidationRequirements
    encodable_RevalidationRequirements.
Proof.
  codec_record encode_RevalidationRequirements decode_RevalidationRequirements
    encodable_RevalidationRequirements.
Qed.

#[export] Hint Resolve RevalidationRequirements_laws : codec.
#[export] Instance RevalidationRequirements_codec : Codec RevalidationRequirements :=
  {| codec_ok := RevalidationRequirements_laws |}.

Lemma PlacementPolicyRecord_laws :
  codec_laws encode_PlacementPolicyRecord decode_PlacementPolicyRecord
    encodable_PlacementPolicyRecord.
Proof.
  codec_record encode_PlacementPolicyRecord decode_PlacementPolicyRecord
    encodable_PlacementPolicyRecord.
Qed.

#[export] Hint Resolve PlacementPolicyRecord_laws : codec.
#[export] Instance PlacementPolicyRecord_codec : Codec PlacementPolicyRecord :=
  {| codec_ok := PlacementPolicyRecord_laws |}.

Lemma ReplicationPolicyRecord_laws :
  codec_laws encode_ReplicationPolicyRecord decode_ReplicationPolicyRecord
    encodable_ReplicationPolicyRecord.
Proof.
  codec_record encode_ReplicationPolicyRecord decode_ReplicationPolicyRecord
    encodable_ReplicationPolicyRecord.
Qed.

#[export] Hint Resolve ReplicationPolicyRecord_laws : codec.
#[export] Instance ReplicationPolicyRecord_codec : Codec ReplicationPolicyRecord :=
  {| codec_ok := ReplicationPolicyRecord_laws |}.

Lemma StateProvenance_laws :
  codec_laws encode_StateProvenance decode_StateProvenance encodable_StateProvenance.
Proof. codec_record encode_StateProvenance decode_StateProvenance encodable_StateProvenance. Qed.

#[export] Hint Resolve StateProvenance_laws : codec.
#[export] Instance StateProvenance_codec : Codec StateProvenance :=
  {| codec_ok := StateProvenance_laws |}.

Lemma ReconstructionIdentity_laws :
  codec_laws encode_ReconstructionIdentity decode_ReconstructionIdentity
    encodable_ReconstructionIdentity.
Proof.
  codec_record encode_ReconstructionIdentity decode_ReconstructionIdentity
    encodable_ReconstructionIdentity.
Qed.

#[export] Hint Resolve ReconstructionIdentity_laws : codec.
#[export] Instance ReconstructionIdentity_codec : Codec ReconstructionIdentity :=
  {| codec_ok := ReconstructionIdentity_laws |}.

Lemma StateGenerationRecord_laws :
  codec_laws encode_StateGenerationRecord decode_StateGenerationRecord
    encodable_StateGenerationRecord.
Proof.
  codec_record encode_StateGenerationRecord decode_StateGenerationRecord
    encodable_StateGenerationRecord.
Qed.

#[export] Hint Resolve StateGenerationRecord_laws : codec.
#[export] Instance StateGenerationRecord_codec : Codec StateGenerationRecord :=
  {| codec_ok := StateGenerationRecord_laws |}.

Lemma ClusterCapabilities_laws :
  codec_laws encode_ClusterCapabilities decode_ClusterCapabilities encodable_ClusterCapabilities.
Proof.
  codec_record encode_ClusterCapabilities decode_ClusterCapabilities
    encodable_ClusterCapabilities.
Qed.

#[export] Hint Resolve ClusterCapabilities_laws : codec.
#[export] Instance ClusterCapabilities_codec : Codec ClusterCapabilities :=
  {| codec_ok := ClusterCapabilities_laws |}.

Lemma ClusterCapacity_laws :
  codec_laws encode_ClusterCapacity decode_ClusterCapacity encodable_ClusterCapacity.
Proof.
  split; [intros v H; unfold encodable_ClusterCapacity in H; split_fits H|..];
    unfold encode_ClusterCapacity, decode_ClusterCapacity.
  - do 2 (eapply reads_bind; [eauto with codec|]). cbv beta.
    destruct (Z.gtb_spec (cp_used_logical_bytes v) (cp_total_logical_bytes v)); [lia|].
    do 2 (eapply reads_bind; [eauto with codec|]). eapply reads_map; [eauto with codec|].
    apply Z.leb_le in Hf. destruct (Z.gtb_spec (cp_utilization_per_mille v) 1000); [lia|].
    destruct v. apply reads_ret.
  - do 2 (eapply produces_bind; [eauto with codec|intros ? ?]).
    match goal with |- context [?p >? ?q] => destruct (Z.gtb_spec p q) end; [apply produces_fail|].
    do 3 (eapply produces_bind; [eauto with codec|intros ? ?]).
    match goal with |- context [?p >? ?q] => destruct (Z.gtb_spec p q) end; [apply produces_fail|].
    apply produces_ret. unfold encodable_ClusterCapacity.
    join_fits; first [assumption|by apply Z.leb_le].
  - do 2 (apply safe_bind; [eauto with codec|intros ?]). case_match; [apply safe_fail|].
    do 3 (apply safe_bind; [eauto with codec|intros ?]). case_match; [apply safe_fail|apply safe_ret].
Qed.

#[export] Hint Resolve ClusterCapacity_laws : codec.

Lemma ClusterLocation_laws :
  codec_laws encode_ClusterLocation decode_ClusterLocation encodable_ClusterLocation.
Proof. codec_record encode_ClusterLocation decode_ClusterLocation encodable_ClusterLocation. Qed.

#[export] Hint Resolve ClusterLocation_laws : codec.
#[export] Instance ClusterLocation_codec : Codec ClusterLocation :=
  {| codec_ok := ClusterLocation_laws |}.

Lemma ClusterEvidence_laws :
  codec_laws encode_ClusterEvidence decode_ClusterEvidence encodable_ClusterEvidence.
Proof. codec_record encode_ClusterEvidence decode_ClusterEvidence encodable_ClusterEvidence. Qed.

#[export] Hint Resolve ClusterEvidence_laws : codec.
#[export] Instance ClusterEvidence_codec : Codec ClusterEvidence :=
  {| codec_ok := ClusterEvidence_laws |}.

Lemma ClusterRecord_laws :
  codec_laws encode_ClusterRecord decode_ClusterRecord encodable_ClusterRecord.
Proof. codec_record encode_ClusterRecord decode_ClusterRecord encodable_ClusterRecord. Qed.

#[export] Hint Resolve ClusterRecord_laws : codec.
#[export] Instance ClusterRecord_codec : Codec ClusterRecord :=
  {| codec_ok := ClusterRecord_laws |}.

Lemma ReplicaLocation_laws :
  codec_laws encode_ReplicaLocation decode_ReplicaLocation encodable_ReplicaLocation.
Proof. codec_record encode_ReplicaLocation decode_ReplicaLocation encodable_ReplicaLocation. Qed.

#[export] Hint Resolve ReplicaLocation_laws : codec.
#[export] Instance ReplicaLocation_codec : Codec ReplicaLocation :=
  {| codec_ok := ReplicaLocation_laws |}.

Lemma ReplicaEvidence_laws :
  codec_laws encode_ReplicaEvidence decode_ReplicaEvidence encodable_ReplicaEvidence.
Proof. codec_record encode_ReplicaEvidence decode_ReplicaEvidence encodable_ReplicaEvidence. Qed.

#[export] Hint Resolve ReplicaEvidence_laws : codec.
#[export] Instance ReplicaEvidence_codec : Codec ReplicaEvidence :=
  {| codec_ok := ReplicaEvidence_laws |}.

Lemma ReplicaRecord_laws :
  codec_laws encode_ReplicaRecord decode_ReplicaRecord encodable_ReplicaRecord.
Proof. codec_record encode_ReplicaRecord decode_ReplicaRecord encodable_ReplicaRecord. Qed.

#[export] Hint Resolve ReplicaRecord_laws : codec.
#[export] Instance ReplicaRecord_codec : Codec ReplicaRecord :=
  {| codec_ok := ReplicaRecord_laws |}.

Lemma ReplicaSetMember_laws :
  codec_laws encode_ReplicaSetMember decode_ReplicaSetMember encodable_ReplicaSetMember.
Proof. codec_record encode_ReplicaSetMember decode_ReplicaSetMember encodable_ReplicaSetMember. Qed.

#[export] Hint Resolve ReplicaSetMember_laws : codec.
#[export] Instance ReplicaSetMember_codec : Codec ReplicaSetMember :=
  {| codec_ok := ReplicaSetMember_laws |}.

Lemma ReplicaSetRecord_laws :
  codec_laws encode_ReplicaSetRecord decode_ReplicaSetRecord encodable_ReplicaSetRecord.
Proof. codec_record encode_ReplicaSetRecord decode_ReplicaSetRecord encodable_ReplicaSetRecord. Qed.

#[export] Hint Resolve ReplicaSetRecord_laws : codec.
#[export] Instance ReplicaSetRecord_codec : Codec ReplicaSetRecord :=
  {| codec_ok := ReplicaSetRecord_laws |}.

Lemma TransferAuthorization_laws :
  codec_laws encode_TransferAuthorization decode_TransferAuthorization
    encodable_TransferAuthorization.
Proof.
  codec_record encode_TransferAuthorization decode_TransferAuthorization
    encodable_TransferAuthorization.
Qed.

#[export] Hint Resolve TransferAuthorization_laws : codec.
#[export] Instance TransferAuthorization_codec : Codec TransferAuthorization :=
  {| codec_ok := TransferAuthorization_laws |}.

Lemma OperationRecord_laws :
  codec_laws encode_OperationRecord decode_OperationRecord encodable_OperationRecord.
Proof. codec_record encode_OperationRecord decode_OperationRecord encodable_OperationRecord. Qed.

#[export] Hint Resolve OperationRecord_laws : codec.
#[export] Instance OperationRecord_codec : Codec OperationRecord :=
  {| codec_ok := OperationRecord_laws |}.

Lemma OwnershipRecord_laws :
  codec_laws encode_OwnershipRecord decode_OwnershipRecord encodable_OwnershipRecord.
Proof. codec_record encode_OwnershipRecord decode_OwnershipRecord encodable_OwnershipRecord. Qed.

#[export] Hint Resolve OwnershipRecord_laws : codec.
#[export] Instance OwnershipRecord_codec : Codec OwnershipRecord :=
  {| codec_ok := OwnershipRecord_laws |}.

Lemma CompatibilityRecord_laws :
  codec_laws encode_CompatibilityRecord decode_CompatibilityRecord encodable_CompatibilityRecord.
Proof.
  codec_record encode_CompatibilityRecord decode_CompatibilityRecord
    encodable_CompatibilityRecord.
Qed.

#[export] Hint Resolve CompatibilityRecord_laws : codec.
#[export] Instance CompatibilityRecord_codec : Codec CompatibilityRecord :=
  {| codec_ok := CompatibilityRecord_laws |}.

Lemma FabricCounters_laws :
  codec_laws encode_FabricCounters decode_FabricCounters encodable_FabricCounters.
Proof. codec_record encode_FabricCounters decode_FabricCounters encodable_FabricCounters. Qed.

#[export] Hint Resolve FabricCounters_laws : codec.
#[export] Instance FabricCounters_codec : Codec FabricCounters :=
  {| codec_ok := FabricCounters_laws |}.
