(* ===== verification/RequestCodecs.v ===== *)
(** * Requests on the wire ([detail/encoding.cpp])

    The codecs of the request types the coordinator and the cluster agents
    exchange. *)

From S2P Require Import Prelude Taxonomy Model Bytes Digest Cost Compatibility ModelOps.
From S2P Require Import ControlPlane FabricCore FabricState Encoding RecordCodecs.

Local Open Scope Z_scope.
Local Open Scope reader_scope.

Definition encode_StateGenerationSpec (value : StateGenerationSpec) : list Z :=
  encode_id (ss_state_id value) ++ encode_id (ss_generation value) ++
  encode_id (ss_lineage value) ++ ByteWriter.boolean (ss_branch value) ++
  encode_id (ss_branches_from value) ++ encode_enum (ss_state_class value) ++
  encode_enum (ss_consistency value) ++ encode_SizeValue (ss_logical_size value) ++
  encode_SizeValue (ss_physical_size value) ++ encode_Digest (ss_content_digest value) ++
  encode_enum (ss_digest_algorithm value) ++ encode_id (ss_compatibility_id value) ++
  encode_id (ss_compatibility_generation value) ++
  cd_encode (ss_compatibility_required value) ++
  encode_ReconstructionIdentity (ss_reconstruction value) ++
  encode_enum (ss_durability value) ++ encode_enum (ss_reuse_class value) ++
  encode_PlacementConstraints (ss_placement_constraints value) ++
  encode_ReplicationRequirements (ss_replication_requirements value) ++
  encode_StateProvenance (ss_provenance value) ++
  encode_ReuseValue (ss_expected_reuse value) ++ encode_CostValue (ss_transfer_cost value) ++
  encode_CostValue (ss_reconstruction_cost value).

Definition decode_StateGenerationSpec : Reader StateGenerationSpec :=
  state_id <- decode_id;; generation <- decode_id;; lineage <- decode_id;;
  branch <- Reader.boolean;; branches_from <- decode_id;; state_class <- decode_enum;;
  consistency <- decode_enum;; logical_size <- decode_SizeValue;;
  physical_size <- decode_SizeValue;; content_digest <- decode_Digest;;
  digest_algorithm <- decode_enum;; compatibility_id <- decode_id;;
  compatibility_generation <- decode_id;; compatibility_required <- cd_decode;;
  reconstruction <- decode_ReconstructionIdentity;; durability <- decode_enum;;
  reuse_class <- decode_enum;; placement_constraints <- decode_PlacementConstraints;;
  replication_requirements <- decode_ReplicationRequirements;;
  provenance <- decode_StateProvenance;; expected_reuse <- decode_ReuseValue;;
  transfer_cost <- decode_CostValue;; reconstruction_cost <- decode_CostValue;;
  rret (mkStateGenerationSpec state_id generation lineage branch branches_from state_class
    consistency logical_size physical_size content_digest digest_algorithm compatibility_id
    compatibility_generation compatibility_required reconstruction durability reuse_class
    placement_constraints replication_requirements provenance expected_reuse transfer_cost
    reconstruction_cost).

Definition encodable_StateGenerationSpec (value : StateGenerationSpec) : bool :=
  fits_u64 (ss_state_id value) && fits_u64 (ss_generation value) &&
  fits_u64 (ss_lineage value) && fits_u64 (ss_branches_from value) &&
  encodable_SizeValue (ss_logical_size value) &&
  encodable_SizeValue (ss_physical_size value) && encodable_Digest (ss_content_digest value) &&
  fits_u64 (ss_compatibility_id value) && fits_u64 (ss_compatibility_generation value) &&
  encodable_descriptor (ss_compatibility_required value) &&
  encodable_ReconstructionIdentity (ss_reconstruction value) &&
  encodable_PlacementConstraints (ss_placement_constraints value) &&
  encodable_ReplicationRequirements (ss_replication_requirements value) &&
  encodable_StateProvenance (ss_provenance value) &&
  encodable_ReuseValue (ss_expected_reuse value) &&
  encodable_CostValue (ss_transfer_cost value) &&
  encodable_CostValue (ss_reconstruction_cost value).

Definition encode_ClusterRegistration (value : ClusterRegistration) : list Z :=
  encode_id (crg_cluster_id value) ++ encode_id (crg_region value) ++
  encode_id (crg_site value) ++ encode_id (crg_failure_domain value) ++
  ByteWriter.str (crg_location_descriptor value) ++ encode_id (crg_worker_id value) ++
  encode_id (crg_worker_boot_id value) ++
  encode_ClusterCapabilities (crg_capabilities value) ++
  encode_ClusterCapacity (crg_capacity value) ++ encode_enum (crg_health value) ++
  encode_id (crg_expected_coordinator_epoch value) ++
  ByteWriter.boolean (crg_force_reincarnation value).

Definition decode_ClusterRegistration : Reader ClusterRegistration :=
  cluster_id <- decode_id;; region <- decode_id;; site <- decode_id;;
  failure_domain <- decode_id;;
  location_descriptor <- Reader.str kMaxLocationDescriptorLength;; worker_id <- decode_id;;
  worker_boot_id <- decode_id;; capabilities <- decode_ClusterCapabilities;;
  capacity <- decode_ClusterCapacity;; health <- decode_enum;;
  expected_coordinator_epoch <- decode_id;; force_reincarnation <- Reader.boolean;;
  rret (mkClusterRegistration cluster_id region site failure_domain location_descriptor
    worker_id worker_boot_id capabilities capacity health expected_coordinator_epoch
    force_reincarnation).

Definition encodable_ClusterRegistration (value : ClusterRegistration) : bool :=
  fits_u64 (crg_cluster_id value) && fits_u64 (crg_region value) &&
  fits_u64 (crg_site value) && fits_u64 (crg_failure_domain value) &&
  fits_str kMaxLocationDescriptorLength (crg_location_descriptor value) &&
  fits_u64 (crg_worker_id value) && fits_u64 (crg_worker_boot_id value) &&
  encodable_ClusterCapabilities (crg_capabilities value) &&
  encodable_ClusterCapacity (crg_capacity value) &&
  fits_u64 (crg_expected_coordinator_epoch value).

Definition encode_ClusterEvidenceUpdate (value : ClusterEvidenceUpdate) : list Z :=
  encode_id (ceu_cluster_id value) ++ encode_id (ceu_incarnation value) ++
  encode_enum (ceu_health value) ++ encode_ClusterCapabilities (ceu_capabilities value) ++
  encode_ClusterCapacity (ceu_capacity value) ++
  ByteWriter.boolean (ceu_has_capabilities value) ++
  ByteWriter.boolean (ceu_has_capacity value) ++
  encode_id (ceu_expected_coordinator_epoch value) ++ encode_id (ceu_worker_boot_id value).

Definition decode_ClusterEvidenceUpdate : Reader ClusterEvidenceUpdate :=
  cluster_id <- decode_id;; incarnation <- decode_id;; health <- decode_enum;;
  capabilities <- decode_ClusterCapabilities;; capacity <- decode_ClusterCapacity;;
  has_capabilities <- Reader.boolean;; has_capacity <- Reader.boolean;;
  expected_coordinator_epoch <- decode_id;; worker_boot_id <- decode_id;;
  rret (mkClusterEvidenceUpdate cluster_id incarnation health capabilities capacity
    has_capabilities has_capacity expected_coordinator_epoch worker_boot_id).

Definition encodable_ClusterEvidenceUpdate (value : ClusterEvidenceUpdate) : bool :=
  fits_u64 (ceu_cluster_id value) && fits_u64 (ceu_incarnation value) &&
  encodable_ClusterCapabilities (ceu_capabilities value) &&
  encodable_ClusterCapacity (ceu_capacity value) &&
  fits_u64 (ceu_expected_coordinator_epoch value) && fits_u64 (ceu_worker_boot_id value).

Definition encode_ReplicaRegistration (value : ReplicaRegistration) : list Z :=
  encode_id (rrg_replica_id value) ++ encode_id (rrg_state_id value) ++
  encode_id (rrg_state_generation value) ++ encode_id (rrg_replica_set_id value) ++
  encode_id (rrg_replica_set_generation value) ++ encode_id (rrg_replica_generation value) ++
  encode_enum (rrg_lifecycle value) ++ encode_enum (rrg_durability value) ++
  encode_SizeValue (rrg_logical_size value) ++ encode_Digest (rrg_content_digest value) ++
  encode_enum (rrg_digest_algorithm value) ++ encode_id (rrg_compatibility_id value) ++
  encode_id (rrg_compatibility_generation value) ++
  cd_encode (rrg_compatibility_descriptor value) ++
  encode_ReplicaLocation (rrg_location value) ++ encode_id (rrg_worker_id value) ++
  encode_id (rrg_worker_boot_id value) ++ encode_id (rrg_expected_coordinator_epoch value) ++
  encode_StateProvenance (rrg_provenance value) ++ encode_id (rrg_transfer_id value) ++
  encode_id (rrg_transfer_generation value) ++ encode_id (rrg_operation_id value) ++
  encode_id (rrg_operation_generation value).

Definition decode_ReplicaRegistration : Reader ReplicaRegistration :=
  replica_id <- decode_id;; state_id <- decode_id;; state_generation <- decode_id;;
  replica_set_id <- decode_id;; replica_set_generation <- decode_id;;
  replica_generation <- decode_id;; lifecycle <- decode_enum;; durability <- decode_enum;;
  logical_size <- decode_SizeValue;; content_digest <- decode_Digest;;
  digest_algorithm <- decode_enum;; compatibility_id <- decode_id;;
  compatibility_generation <- decode_id;; compatibility_descriptor <- cd_decode;;
  location <- decode_ReplicaLocation;; worker_id <- decode_id;; worker_boot_id <- decode_id;;
  expected_coordinator_epoch <- decode_id;; provenance <- decode_StateProvenance;;
  transfer_id <- decode_id;; transfer_generation <- decode_id;; operation_id <- decode_id;;
  operation_generation <- decode_id;;
  rret (mkReplicaRegistration replica_id state_id state_generation replica_set_id
    replica_set_generation replica_generation lifecycle durability logical_size content_digest
    digest_algorithm compatibility_id compatibility_generation compatibility_descriptor location
    worker_id worker_boot_id expected_coordinator_epoch provenance transfer_id
    transfer_generation operation_id operation_generation).

Definition encodable_ReplicaRegistration (value : ReplicaRegistration) : bool :=
  fits_u64 (rrg_replica_id value) && fits_u64 (rrg_state_id value) &&
  fits_u64 (rrg_state_generation value) && fits_u64 (rrg_replica_set_id value) &&
  fits_u64 (rrg_replica_set_generation value) && fits_u64 (rrg_replica_generation value) &&
  encodable_SizeValue (rrg_logical_size value) &&
  encodable_Digest (rrg_content_digest value) && fits_u64 (rrg_compatibility_id value) &&
  fits_u64 (rrg_compatibility_generation value) &&
  encodable_descriptor (rrg_compatibility_descriptor value) &&
  encodable_ReplicaLocation (rrg_location value) && fits_u64 (rrg_worker_id value) &&
  fits_u64 (rrg_worker_boot_id value) && fits_u64 (rrg_expected_coordinator_epoch value) &&
  encodable_StateProvenance (rrg_provenance value) && fits_u64 (rrg_transfer_id value) &&
  fits_u64 (rrg_transfer_generation value) && fits_u64 (rrg_operation_id value) &&
  fits_u64 (rrg_operation_generation value).

Definition encode_TransferProgress (value : TransferProgress) : list Z :=
  encode_id (tp_transfer_id value) ++ encode_id (tp_transfer_generation value) ++
  encode_id (tp_replica_id value) ++ encode_id (tp_replica_generation value) ++
  encode_id (tp_operation_id value) ++ encode_id (tp_operation_generation value) ++
  encode_id (tp_cluster_id value) ++ encode_id (tp_cluster_incarnation value) ++
  encode_id (tp_worker_boot_id value) ++ encode_id (tp_expected_coordinator_epoch value) ++
  ByteWriter.u64 (tp_bytes_transferred value) ++ ByteWriter.boolean (tp_failed value) ++
  ByteWriter.str (tp_failure_reason value).

Definition decode_TransferProgress : Reader TransferProgress :=
  transfer_id <- decode_id;; transfer_generation <- decode_id;; replica_id <- decode_id;;
  replica_generation <- decode_id;; operation_id <- decode_id;;
  operation_generation <- decode_id;; cluster_id <- decode_id;;
  cluster_incarnation <- decode_id;; worker_boot_id <- decode_id;;
  expected_coordinator_epoch <- decode_id;; bytes_transferred <- Reader.u64;;
  failed <- Reader.boolean;; failure_reason <- Reader.str kMaxFailureReasonLength;;
  rret (mkTransferProgress transfer_id transfer_generation replica_id replica_generation
    operation_id operation_generation cluster_id cluster_incarnation worker_boot_id
    expected_coordinator_epoch bytes_transferred failed failure_reason).

Definition encodable_TransferProgress (value : TransferProgress) : bool :=
  fits_u64 (tp_transfer_id value) && fits_u64 (tp_transfer_generation value) &&
  fits_u64 (tp_replica_id value) && fits_u64 (tp_replica_generation value) &&
  fits_u64 (tp_operation_id value) && fits_u64 (tp_operation_generation value) &&
  fits_u64 (tp_cluster_id value) && fits_u64 (tp_cluster_incarnation value) &&
  fits_u64 (tp_worker_boot_id value) && fits_u64 (tp_expected_coordinator_epoch value) &&
  fits_u64 (tp_bytes_transferred value) &&
  fits_str kMaxFailureReasonLength (tp_failure_reason value).

Definition encode_TransferCompletion (value : TransferCompletion) : list Z :=
  encode_id (tc_transfer_id value) ++ encode_id (tc_transfer_generation value) ++
  encode_id (tc_replica_id value) ++ encode_id (tc_replica_generation value) ++
  encode_id (tc_operation_id value) ++ encode_id (tc_operation_generation value) ++
  encode_id (tc_cluster_id value) ++ encode_id (tc_cluster_incarnation value) ++
  encode_id (tc_worker_boot_id value) ++ encode_id (tc_expected_coordinator_epoch value) ++
  ByteWriter.u64 (tc_bytes_transferred value) ++ encode_Digest (tc_measured_digest value) ++
  encode_enum (tc_digest_algorithm value) ++ ByteWriter.boolean (tc_transfer_complete value) ++
  ByteWriter.str (tc_detail value).

Definition decode_TransferCompletion : Reader TransferCompletion :=
  transfer_id <- decode_id;; transfer_generation <- decode_id;; replica_id <- decode_id;;
  replica_generation <- decode_id;; operation_id <- decode_id;;
  operation_generation <- decode_id;; cluster_id <- decode_id;;
  cluster_incarnation <- decode_id;; worker_boot_id <- decode_id;;
  expected_coordinator_epoch <- decode_id;; bytes_transferred <- Reader.u64;;
  measured_digest <- decode_Digest;; digest_algorithm <- decode_enum;;
  transfer_complete <- Reader.boolean;; detail <- Reader.str kMaxFailureReasonLength;;
  rret (mkTransferCompletion transfer_id transfer_generation replica_id replica_generation
    operation_id operation_generation cluster_id cluster_incarnation worker_boot_id
    expected_coordinator_epoch bytes_transferred measured_digest digest_algorithm
    transfer_complete detail).

Definition encodable_TransferCompletion (value : TransferCompletion) : bool :=
  fits_u64 (tc_transfer_id value) && fits_u64 (tc_transfer_generation value) &&
  fits_u64 (tc_replica_id value) && fits_u64 (tc_replica_generation value) &&
  fits_u64 (tc_operation_id value) && fits_u64 (tc_operation_generation value) &&
  fits_u64 (tc_cluster_id value) && fits_u64 (tc_cluster_incarnation value) &&
  fits_u64 (tc_worker_boot_id value) && fits_u64 (tc_expected_coordinator_epoch value) &&
  fits_u64 (tc_bytes_transferred value) && encodable_Digest (tc_measured_digest value) &&
  fits_str kMaxFailureReasonLength (tc_detail value).

Definition encode_ReplicaVerification (value : ReplicaVerification) : list Z :=
  encode_id (rvf_verification_id value) ++ encode_id (rvf_replica_id value) ++
  encode_id (rvf_replica_generation value) ++ encode_id (rvf_operation_id value) ++
  encode_id (rvf_operation_generation value) ++ encode_id (rvf_cluster_id value) ++
  encode_id (rvf_cluster_incarnation value) ++ encode_id (rvf_worker_boot_id value) ++
  encode_id (rvf_expected_coordinator_epoch value) ++
  ByteWriter.boolean (rvf_integrity_verified value) ++
  encode_Digest (rvf_measured_digest value) ++ encode_enum (rvf_digest_algorithm value) ++
  ByteWriter.boolean (rvf_compatibility_verified value) ++
  encode_id (rvf_compatibility_id value) ++ encode_id (rvf_compatibility_generation value) ++
  cd_encode (rvf_compatibility_descriptor value) ++
  encode_enum (rvf_established_durability value) ++
  ByteWriter.u64 (rvf_verified_bytes value) ++ ByteWriter.str (rvf_detail value).

Definition decode_ReplicaVerification : Reader ReplicaVerification :=
  verification_id <- decode_id;; replica_id <- decode_id;; replica_generation <- decode_id;;
  operation_id <- decode_id;; operation_generation <- decode_id;; cluster_id <- decode_id;;
  cluster_incarnation <- decode_id;; worker_boot_id <- decode_id;;
  expected_coordinator_epoch <- decode_id;; integrity_verified <- Reader.boolean;;
  measured_digest <- decode_Digest;; digest_algorithm <- decode_enum;;
  compatibility_verified <- Reader.boolean;; compatibility_id <- decode_id;;
  compatibility_generation <- decode_id;; compatibility_descriptor <- cd_decode;;
  established_durability <- decode_enum;; verified_bytes <- Reader.u64;;
  detail <- Reader.str kMaxFailureReasonLength;;
  rret (mkReplicaVerification verification_id replica_id replica_generation operation_id
    operation_generation cluster_id cluster_incarnation worker_boot_id expected_coordinator_epoch
    integrity_verified measured_digest digest_algorithm compatibility_verified compatibility_id
    compatibility_generation compatibility_descriptor established_durability verified_bytes
    detail).

Definition encodable_ReplicaVerification (value : ReplicaVerification) : bool :=
  fits_u64 (rvf_verification_id value) && fits_u64 (rvf_replica_id value) &&
  fits_u64 (rvf_replica_generation value) && fits_u64 (rvf_operation_id value) &&
  fits_u64 (rvf_operation_generation value) && fits_u64 (rvf_cluster_id value) &&
  fits_u64 (rvf_cluster_incarnation value) && fits_u64 (rvf_worker_boot_id value) &&
  fits_u64 (rvf_expected_coordinator_epoch value) &&
  encodable_Digest (rvf_measured_digest value) && fits_u64 (rvf_compatibility_id value) &&
  fits_u64 (rvf_compatibility_generation value) &&
  encodable_descriptor (rvf_compatibility_descriptor value) &&
  fits_u64 (rvf_verified_bytes value) && fits_str kMaxFailureReasonLength (rvf_detail value).

Definition encode_ReplicaCommit (value : ReplicaCommit) : list Z :=
  encode_id (rc_replica_id value) ++ encode_id (rc_replica_generation value) ++
  encode_id (rc_commit_id value) ++ encode_id (rc_operation_id value) ++
  encode_id (rc_operation_generation value) ++
  encode_id (rc_expected_coordinator_epoch value) ++
  encode_id (rc_expected_replica_set_generation value) ++
  ByteWriter.boolean (rc_make_authoritative_owner value) ++
  ByteWriter.boolean (rc_add_to_replica_set value) ++
  ByteWriter.boolean (rc_require_integrity_verified value) ++
  ByteWriter.boolean (rc_require_compatibility_verified value).

Definition decode_ReplicaCommit : Reader ReplicaCommit :=
  replica_id <- decode_id;; replica_generation <- decode_id;; commit_id <- decode_id;;
  operation_id <- decode_id;; operation_generation <- decode_id;;
  expected_coordinator_epoch <- decode_id;; expected_replica_set_generation <- decode_id;;
  make_authoritative_owner <- Reader.boolean;; add_to_replica_set <- Reader.boolean;;
  require_integrity_verified <- Reader.boolean;;
  require_compatibility_verified <- Reader.boolean;;
  rret (mkReplicaCommit replica_id replica_generation commit_id operation_id
    operation_generation expected_coordinator_epoch expected_replica_set_generation
    make_authoritative_owner add_to_replica_set require_integrity_verified
    require_compatibility_verified).

Definition encodable_ReplicaCommit (value : ReplicaCommit) : bool :=
  fits_u64 (rc_replica_id value) && fits_u64 (rc_replica_generation value) &&
  fits_u64 (rc_commit_id value) && fits_u64 (rc_operation_id value) &&
  fits_u64 (rc_operation_generation value) && fits_u64 (rc_expected_coordinator_epoch value) &&
  fits_u64 (rc_expected_replica_set_generation value).

Definition encode_ReplicaTransition (value : ReplicaTransition) : list Z :=
  encode_id (rt_replica_id value) ++ encode_id (rt_replica_generation value) ++
  encode_id (rt_operation_id value) ++ encode_id (rt_operation_generation value) ++
  encode_id (rt_expected_coordinator_epoch value) ++
  encode_id (rt_cluster_incarnation value) ++ encode_id (rt_worker_boot_id value) ++
  ByteWriter.str (rt_reason value).

Definition decode_ReplicaTransition : Reader ReplicaTransition :=
  replica_id <- decode_id;; replica_generation <- decode_id;; operation_id <- decode_id;;
  operation_generation <- decode_id;; expected_coordinator_epoch <- decode_id;;
  cluster_incarnation <- decode_id;; worker_boot_id <- decode_id;;
  reason <- Reader.str kMaxFailureReasonLength;;
  rret (mkReplicaTransition replica_id replica_generation operation_id operation_generation
    expected_coordinator_epoch cluster_incarnation worker_boot_id reason).

Definition encodable_ReplicaTransition (value : ReplicaTransition) : bool :=
  fits_u64 (rt_replica_id value) && fits_u64 (rt_replica_generation value) &&
  fits_u64 (rt_operation_id value) && fits_u64 (rt_operation_generation value) &&
  fits_u64 (rt_expected_coordinator_epoch value) && fits_u64 (rt_cluster_incarnation value) &&
  fits_u64 (rt_worker_boot_id value) && fits_str kMaxFailureReasonLength (rt_reason value).

Definition encode_ReplicationRequest (value : ReplicationRequest) : list Z :=
  encode_id (rq_state_id value) ++ encode_id (rq_state_generation value) ++
  encode_id (rq_destination_cluster value) ++ encode_id (rq_source_cluster value) ++
  encode_PlacementPolicyRecord (rq_placement_policy value) ++
  encode_ReplicationPolicyRecord (rq_replication_policy value) ++
  encode_id (rq_expected_coordinator_epoch value) ++
  ByteWriter.u32 (rq_desired_replicas_override value).

Definition decode_ReplicationRequest : Reader ReplicationRequest :=
  state_id <- decode_id;; state_generation <- decode_id;; destination_cluster <- decode_id;;
  source_cluster <- decode_id;; placement_policy <- decode_PlacementPolicyRecord;;
  replication_policy <- decode_ReplicationPolicyRecord;;
  expected_coordinator_epoch <- decode_id;; desired_replicas_override <- Reader.u32;;
  rret (mkReplicationRequest state_id state_generation destination_cluster source_cluster
    placement_policy replication_policy expected_coordinator_epoch desired_replicas_override).

Definition encodable_ReplicationRequest (value : ReplicationRequest) : bool :=
  fits_u64 (rq_state_id value) && fits_u64 (rq_state_generation value) &&
  fits_u64 (rq_destination_cluster value) && fits_u64 (rq_source_cluster value) &&
  encodable_PlacementPolicyRecord (rq_placement_policy value) &&
  encodable_ReplicationPolicyRecord (rq_replication_policy value) &&
  fits_u64 (rq_expected_coordinator_epoch value) &&
  fits_u32 (rq_desired_replicas_override value).

Definition encode_MigrationRequest (value : MigrationRequest) : list Z :=
  encode_id (mq_state_id value) ++ encode_id (mq_state_generation value) ++
  encode_id (mq_destination_cluster value) ++ encode_id (mq_source_cluster value) ++
  ByteWriter.boolean (mq_retire_source_after_commit value) ++
  ByteWriter.boolean (mq_allow_source_retirement_before_commit value) ++
  encode_PlacementPolicyRecord (mq_placement_policy value) ++
  encode_ReplicationPolicyRecord (mq_replication_policy value) ++
  encode_id (mq_expected_coordinator_epoch value).

Definition decode_MigrationRequest : Reader MigrationRequest :=
  state_id <- decode_id;; state_generation <- decode_id;; destination_cluster <- decode_id;;
  source_cluster <- decode_id;; retire_source_after_commit <- Reader.boolean;;
  allow_source_retirement_before_commit <- Reader.boolean;;
  placement_policy <- decode_PlacementPolicyRecord;;
  replication_policy <- decode_ReplicationPolicyRecord;;
  expected_coordinator_epoch <- decode_id;;
  rret (mkMigrationRequest state_id state_generation destination_cluster source_cluster
    retire_source_after_commit allow_source_retirement_before_commit placement_policy
    replication_policy expected_coordinator_epoch).

Definition encodable_MigrationRequest (value : MigrationRequest) : bool :=
  fits_u64 (mq_state_id value) && fits_u64 (mq_state_generation value) &&
  fits_u64 (mq_destination_cluster value) && fits_u64 (mq_source_cluster value) &&
  encodable_PlacementPolicyRecord (mq_placement_policy value) &&
  encodable_ReplicationPolicyRecord (mq_replication_policy value) &&
  fits_u64 (mq_expected_coordinator_epoch value).

Definition encode_OwnershipTransferRequest (value : OwnershipTransferRequest) : list Z :=
  encode_id (oq_state_id value) ++ encode_id (oq_state_generation value) ++
  encode_id (oq_expected_current_owner value) ++ encode_id (oq_new_owner_replica value) ++
  encode_id (oq_new_owner_replica_generation value) ++
  encode_id (oq_new_owner_cluster value) ++ encode_id (oq_handoff_commit value) ++
  encode_id (oq_expected_operation_generation value) ++
  encode_id (oq_expected_coordinator_epoch value).

Definition decode_OwnershipTransferRequest : Reader OwnershipTransferRequest :=
  state_id <- decode_id;; state_generation <- decode_id;; expected_current_owner <- decode_id;;
  new_owner_replica <- decode_id;; new_owner_replica_generation <- decode_id;;
  new_owner_cluster <- decode_id;; handoff_commit <- decode_id;;
  expected_operation_generation <- decode_id;; expected_coordinator_epoch <- decode_id;;
  rret (mkOwnershipTransferRequest state_id state_generation expected_current_owner
    new_owner_replica new_owner_replica_generation new_owner_cluster handoff_commit
    expected_operation_generation expected_coordinator_epoch).

Definition encodable_OwnershipTransferRequest (value : OwnershipTransferRequest) : bool :=
  fits_u64 (oq_state_id value) && fits_u64 (oq_state_generation value) &&
  fits_u64 (oq_expected_current_owner value) && fits_u64 (oq_new_owner_replica value) &&
  fits_u64 (oq_new_owner_replica_generation value) && fits_u64 (oq_new_owner_cluster value) &&
  fits_u64 (oq_handoff_commit value) && fits_u64 (oq_expected_operation_generation value) &&
  fits_u64 (oq_expected_coordinator_epoch value).

Definition encode_OperationCommit (value : OperationCommit) : list Z :=
  encode_id (oc_operation_id value) ++ encode_id (oc_operation_generation value) ++
  encode_id (oc_commit_id value) ++ encode_id (oc_expected_coordinator_epoch value) ++
  ByteWriter.boolean (oc_retire_source value).

Definition decode_OperationCommit : Reader OperationCommit :=
  operation_id <- decode_id;; operation_generation <- decode_id;; commit_id <- decode_id;;
  expected_coordinator_epoch <- decode_id;; retire_source <- Reader.boolean;;
  rret (mkOperationCommit operation_id operation_generation commit_id
    expected_coordinator_epoch retire_source).

Definition encodable_OperationCommit (value : OperationCommit) : bool :=
  fits_u64 (oc_operation_id value) && fits_u64 (oc_operation_generation value) &&
  fits_u64 (oc_commit_id value) && fits_u64 (oc_expected_coordinator_epoch value).

Definition encode_OperationCancellation (value : OperationCancellation) : list Z :=
  encode_id (ocn_operation_id value) ++ encode_id (ocn_operation_generation value) ++
  encode_id (ocn_expected_coordinator_epoch value) ++ ByteWriter.str (ocn_reason value).

Definition decode_OperationCancellation : Reader OperationCancellation :=
  operation_id <- decode_id;; operation_generation <- decode_id;;
  expected_coordinator_epoch <- decode_id;; reason <- Reader.str kMaxFailureReasonLength;;
  rret (mkOperationCancellation operation_id operation_generation expected_coordinator_epoch
    reason).

Definition encodable_OperationCancellation (value : OperationCancellation) : bool :=
  fits_u64 (ocn_operation_id value) && fits_u64 (ocn_operation_generation value) &&
  fits_u64 (ocn_expected_coordinator_epoch value) &&
  fits_str kMaxFailureReasonLength (ocn_reason value).

Definition encode_CompatibilityRequirement (value : CompatibilityRequirement) : list Z :=
  encode_id (cq_compatibility_id value) ++ encode_id (cq_generation value) ++
  cd_encode (cq_required value) ++ ByteWriter.boolean (cq_require_verified_evidence value).

Definition decode_CompatibilityRequirement : Reader CompatibilityRequirement :=
  compatibility_id <- decode_id;; generation <- decode_id;; required <- cd_decode;;
  require_verified_evidence <- Reader.boolean;;
  rret (mkCompatibilityRequirement compatibility_id generation required
    require_verified_evidence).

Definition encodable_CompatibilityRequirement (value : CompatibilityRequirement) : bool :=
  fits_u64 (cq_compatibility_id value) && fits_u64 (cq_generation value) &&
  encodable_descriptor (cq_required value).

(** ** Laws *)

Lemma StateGenerationSpec_laws :
  codec_laws encode_StateGenerationSpec decode_StateGenerationSpec encodable_StateGenerationSpec.
Proof.
  codec_record encode_StateGenerationSpec decode_StateGenerationSpec
    encodable_StateGenerationSpec.
Qed.

#[export] Hint Resolve StateGenerationSpec_laws : codec.
#[export] Instance StateGenerationSpec_codec : Codec StateGenerationSpec :=
  {| codec_ok := StateGenerationSpec_laws |}.

Lemma ClusterRegistration_laws :
  codec_laws encode_ClusterRegistration decode_ClusterRegistration encodable_ClusterRegistration.
Proof.
  codec_record encode_ClusterRegistration decode_ClusterRegistration
    encodable_ClusterRegistration.
Qed.

#[export] Hint Resolve ClusterRegistration_laws : codec.
#[export] Instance ClusterRegistration_codec : Codec ClusterRegistration :=
  {| codec_ok := ClusterRegistration_laws |}.

Lemma ClusterEvidenceUpdate_laws :
  codec_laws encode_ClusterEvidenceUpdate decode_ClusterEvidenceUpdate
    encodable_ClusterEvidenceUpdate.
Proof.
  codec_record encode_ClusterEvidenceUpdate decode_ClusterEvidenceUpdate
    encodable_ClusterEvidenceUpdate.
Qed.

#[export] Hint Resolve ClusterEvidenceUpdate_laws : codec.
#[export] Instance ClusterEvidenceUpdate_codec : Codec ClusterEvidenceUpdate :=
  {| codec_ok := ClusterEvidenceUpdate_laws |}.

Lemma ReplicaRegistration_laws :
  codec_laws encode_ReplicaRegistration decode_ReplicaRegistration encodable_ReplicaRegistration.
Proof.
  codec_record encode_ReplicaRegistration decode_ReplicaRegistration
    encodable_ReplicaRegistration.
Qed.

#[export] Hint Resolve ReplicaRegistration_laws : codec.
#[export] Instance ReplicaRegistration_codec : Codec ReplicaRegistration :=
  {| codec_ok := ReplicaRegistration_laws |}.

Lemma TransferProgress_laws :
  codec_laws encode_TransferProgress decode_TransferProgress encodable_TransferProgress.
Proof. codec_record encode_TransferProgress decode_TransferProgress encodable_TransferProgress. Qed.

#[export] Hint Resolve TransferProgress_laws : codec.
#[export] Instance TransferProgress_codec : Codec TransferProgress :=
  {| codec_ok := TransferProgress_laws |}.

Lemma TransferCompletion_laws :
  codec_laws encode_TransferCompletion decode_TransferCompletion encodable_TransferCompletion.
Proof.
  codec_record encode_TransferCompletion decode_TransferCompletion
    encodable_TransferCompletion.
Qed.

#[export] Hint Resolve TransferCompletion_laws : codec.
#[export] Instance TransferCompletion_codec : Codec TransferCompletion :=
  {| codec_ok := TransferCompletion_laws |}.

Lemma ReplicaVerification_laws :
  codec_laws encode_ReplicaVerification decode_ReplicaVerification encodable_ReplicaVerification.
Proof.
  codec_record encode_ReplicaVerification decode_ReplicaVerification
    encodable_ReplicaVerification.
Qed.

#[export] Hint Resolve ReplicaVerification_laws : codec.
#[export] Instance ReplicaVerification_codec : Codec ReplicaVerification :=
  {| codec_ok := ReplicaVerification_laws |}.

Lemma ReplicaCommit_laws :
  codec_laws encode_ReplicaCommit decode_ReplicaCommit encodable_ReplicaCommit.
Proof. codec_record encode_ReplicaCommit decode_ReplicaCommit encodable_ReplicaCommit. Qed.

#[export] Hint Resolve ReplicaCommit_laws : codec.
#[export] Instance ReplicaCommit_codec : Codec ReplicaCommit :=
  {| codec_ok := ReplicaCommit_laws |}.

Lemma ReplicaTransition_laws :
  codec_laws encode_ReplicaTransition decode_ReplicaTransition encodable_ReplicaTransition.
Proof. codec_record encode_ReplicaTransition decode_ReplicaTransition encodable_ReplicaTransition. Qed.

#[export] Hint Resolve ReplicaTransition_laws : codec.
#[export] Instance ReplicaTransition_codec : Codec ReplicaTransition :=
  {| codec_ok := ReplicaTransition_laws |}.

Lemma ReplicationRequest_laws :
  codec_laws encode_ReplicationRequest decode_ReplicationRequest encodable_ReplicationRequest.
Proof.
  codec_record encode_ReplicationRequest decode_ReplicationRequest
    encodable_ReplicationRequest.
Qed.

#[export] Hint Resolve ReplicationRequest_laws : codec.
#[export] Instance ReplicationRequest_codec : Codec ReplicationRequest :=
  {| codec_ok := ReplicationRequest_laws |}.

Lemma MigrationRequest_laws :
  codec_laws encode_MigrationRequest decode_MigrationRequest encodable_MigrationRequest.
Proof. codec_record encode_MigrationRequest decode_MigrationRequest encodable_MigrationRequest. Qed.

#[export] Hint Resolve MigrationRequest_laws : codec.
#[export] Instance MigrationRequest_codec : Codec MigrationRequest :=
  {| codec_ok := MigrationRequest_laws |}.

Lemma OwnershipTransferRequest_laws :
  codec_laws encode_OwnershipTransferRequest decode_OwnershipTransferRequest
    encodable_OwnershipTransferRequest.
Proof.
  codec_record encode_OwnershipTransferRequest decode_OwnershipTransferRequest
    encodable_OwnershipTransferRequest.
Qed.

#[export] Hint Resolve OwnershipTransferRequest_laws : codec.
#[export] Instance OwnershipTransferRequest_codec : Codec OwnershipTransferRequest :=
  {| codec_ok := OwnershipTransferRequest_laws |}.

Lemma OperationCommit_laws :
  codec_laws encode_OperationCommit decode_OperationCommit encodable_OperationCommit.
Proof. codec_record encode_OperationCommit decode_OperationCommit encodable_OperationCommit. Qed.

#[export] Hint Resolve OperationCommit_laws : codec.
#[export] Instance OperationCommit_codec : Codec OperationCommit :=
  {| codec_ok := OperationCommit_laws |}.

Lemma OperationCancellation_laws :
  codec_laws encode_OperationCancellation decode_OperationCancellation
    encodable_OperationCancellation.
Proof.
  codec_record encode_OperationCancellation decode_OperationCancellation
    encodable_OperationCancellation.
Qed.

#[export] Hint Resolve OperationCancellation_laws : codec.
#[export] Instance OperationCancellation_codec : Codec OperationCancellation :=
  {| codec_ok := OperationCancellation_laws |}.

Lemma CompatibilityRequirement_laws :
  codec_laws encode_CompatibilityRequirement decode_CompatibilityRequirement
    encodable_CompatibilityRequirement.
Proof.
  codec_record encode_CompatibilityRequirement decode_CompatibilityRequirement
    encodable_CompatibilityRequirement.
Qed.

#[export] Hint Resolve CompatibilityRequirement_laws : codec.
#[export] Instance CompatibilityRequirement_codec : Codec CompatibilityRequirement :=
  {| codec_ok := CompatibilityRequirement_laws |}.

(** ** Properties *)

(** C13: the canonical encoding of every durable record and every request is
    faithful and its decoder is safe.  For each type: a value within the format's
    bounds is read back unchanged wherever its encoding lies; whatever a decoder
    accepts is within those bounds; and on arbitrary bytes the decoder never leaves the
    data. *)
Theorem record_codecs_are_faithful :
  codec_laws encode_StateGenerationRecord decode_StateGenerationRecord
    encodable_StateGenerationRecord ∧
  codec_laws encode_ClusterRecord decode_ClusterRecord encodable_ClusterRecord ∧
  codec_laws encode_ReplicaRecord decode_ReplicaRecord encodable_ReplicaRecord ∧
  codec_laws encode_ReplicaSetRecord decode_ReplicaSetRecord encodable_ReplicaSetRecord ∧
  codec_laws encode_TransferAuthorization decode_TransferAuthorization
    encodable_TransferAuthorization ∧
  codec_laws encode_OperationRecord decode_OperationRecord encodable_OperationRecord ∧
  codec_laws encode_OwnershipRecord decode_OwnershipRecord encodable_OwnershipRecord ∧
  codec_laws encode_CompatibilityRecord decode_CompatibilityRecord encodable_CompatibilityRecord ∧
  codec_laws encode_PlacementPolicyRecord decode_PlacementPolicyRecord
    encodable_PlacementPolicyRecord ∧
  codec_laws encode_ReplicationPolicyRecord decode_ReplicationPolicyRecord
    encodable_ReplicationPolicyRecord ∧
  codec_laws encode_FabricCounters decode_FabricCounters encodable_FabricCounters ∧
  codec_laws encode_StateGenerationSpec decode_StateGenerationSpec encodable_StateGenerationSpec ∧
  codec_laws encode_ClusterRegistration decode_ClusterRegistration encodable_ClusterRegistration ∧
  codec_laws encode_ClusterEvidenceUpdate decode_ClusterEvidenceUpdate
    encodable_ClusterEvidenceUpdate ∧
  codec_laws encode_ReplicaRegistration decode_ReplicaRegistration encodable_ReplicaRegistration ∧
  codec_laws encode_TransferProgress decode_TransferProgress encodable_TransferProgress ∧
  codec_laws encode_TransferCompletion decode_TransferCompletion encodable_TransferCompletion ∧
  codec_laws encode_ReplicaVerification decode_ReplicaVerification encodable_ReplicaVerification ∧
  codec_laws encode_ReplicaCommit decode_ReplicaCommit encodable_ReplicaCommit ∧
  codec_laws encode_ReplicaTransition decode_ReplicaTransition encodable_ReplicaTransition ∧
  codec_laws encode_ReplicationRequest decode_ReplicationRequest encodable_ReplicationRequest ∧
  codec_laws encode_MigrationRequest decode_MigrationRequest encodable_MigrationRequest ∧
  codec_laws encode_OwnershipTransferRequest decode_OwnershipTransferRequest
    encodable_OwnershipTransferRequest ∧
  codec_laws encode_OperationCommit decode_OperationCommit encodable_OperationCommit ∧
  codec_laws encode_OperationCancellation decode_OperationCancellation
    encodable_OperationCancellation ∧
  codec_laws encode_CompatibilityRequirement decode_CompatibilityRequirement
    encodable_CompatibilityRequirement.
Proof. split_and!; auto with codec. Qed.
