(* ===== verification/Naming.v ===== *)
(** * Identities as text, fingerprints, the logical clock ([ids.cpp], [model.cpp],
      [clock.hpp], [version.cpp])

    [id_to_string] is in [Prelude]; here is its inverse, and the fingerprints that name
    a policy by its content. *)

From Stdlib Require Import Ascii.
From S2P Require Import Prelude Taxonomy Model Bytes Digest Compatibility Encoding RecordCodecs.

Local Open Scope Z_scope.

(** ** Identities *)

Definition digit_value (c : ascii) : option Z :=
  let code := Z.of_N (N_of_ascii c) in
  if (48 <=? code) && (code <=? 57) then Some (code - 48) else None.

(** [std::from_chars] in base 10: the value of the longest run of digits, without a bound, and
    the text after it; [None] when there is no digit. *)
Fixpoint take_digits (text : string) (value : Z) : Z * string :=
  match text with
  | EmptyString => (value, EmptyString)
  | String c rest =>
      match digit_value c with
      | Some digit => take_digits rest (value * 10 + digit)
      | None => (value, text)
      end
  end.

Definition from_chars (text : string) : option (Z * string) :=
  match text with
  | String c _ => match digit_value c with Some _ => Some (take_digits text 0) | None => None end
  | EmptyString => None
  end.

Definition id_from_string (text : string) : Result Z :=
  match text with
  | EmptyString => Err EC.INVALID_ARGUMENT
  | _ =>
      match from_chars text with
      | None => Err EC.INVALID_ARGUMENT
      | Some (value, rest) =>
          if value >? u64_max then Err EC.INVALID_ARGUMENT
          else match rest with EmptyString => Ok value | _ => Err EC.INVALID_ARGUMENT end
      end
  end.

Lemma digit_value_char x : (x < 10)%N → digit_value (pretty_N_char x) = Some (Z.of_N x).
Proof.
  intros Hx. destruct x as [|x]; [reflexivity|].
  repeat (destruct x as [x|x|]; try reflexivity; try lia).
Qed.

Lemma take_digits_pretty x rest : take_digits (pretty_N_go x rest) 0 = take_digits rest (Z.of_N x).
Proof.
  revert rest. induction (N.lt_wf_0 x) as [x _ IH]. intros rest.
  assert (x = 0 ∨ 0 < x)%N as [->|Hx] by lia; [done|].
  rewrite pretty_N_go_step by done. rewrite IH by (apply N.div_lt; lia). cbn [take_digits].
  rewrite digit_value_char by (apply N.mod_lt; lia). f_equal.
  pose proof (N.div_mod x 10 ltac:(lia)). lia.
Qed.

Lemma pretty_starts_with_digit x rest :
  (0 < x)%N → ∃ c tail digit, pretty_N_go x rest = String c tail ∧ digit_value c = Some digit.
Proof.
  revert rest. induction (N.lt_wf_0 x) as [x _ IH]. intros rest Hx. rewrite pretty_N_go_step by done.
  destruct (decide (x `div` 10 = 0)%N) as [->|Hn].
  - do 3 eexists. split; [done|]. apply digit_value_char, N.mod_lt. lia.
  - apply IH; [apply N.div_lt; lia|]. by apply N.neq_0_lt_0.
Qed.

(** An identity is read back from its decimal text. *)
Lemma id_from_string_to_string value :
  0 ≤ value ≤ u64_max → id_from_string (id_to_string value) = Ok value.
Proof.
  intros Hv. unfold id_to_string, pretty, pretty_N.
  destruct (decide (Z.to_N value = 0)%N) as [Hz|Hz].
  - assert (value = 0) as -> by lia. reflexivity.
  - assert (0 < Z.to_N value)%N as Hp by lia.
    pose proof (take_digits_pretty (Z.to_N value) "") as Ht. cbn [take_digits] in Ht.
    rewrite Z2N.id in Ht by lia.
    destruct (pretty_starts_with_digit (Z.to_N value) "" Hp) as (c & tail & digit & E & Hd).
    rewrite E in Ht |- *. unfold id_from_string, from_chars. rewrite Hd, Ht.
    destruct (Z.gtb_spec value u64_max); [lia|done].
Qed.

(** Leading zeros are accepted. *)
Example padded_identity : id_from_string "007" = Ok 7.
Proof. reflexivity. Qed.

(** ** The logical clock *)

Module LogicalClock.
Definition advance (delta now : Z) : Z := u64 (now + delta).
Definition observe (value now : Z) : Z := if value >? now then value else now.
Definition restore (value now : Z) : Z := value.
End LogicalClock.

(** ** The version *)

Definition kVersionMajor : Z := 1.
Definition kVersionMinor : Z := 0.
Definition kVersionPatch : Z := 0.
Definition version_string : string := "1.0.0".

Definition version_packed : Z :=
  Z.lor (Z.lor (u32 (Z.shiftl kVersionMajor 16)) (u32 (Z.shiftl kVersionMinor 8))) kVersionPatch.

(** ** Policy fingerprints *)

Definition placement_preimage (policy : PlacementPolicyRecord) : list Z :=
  ByteWriter.str "ccsf.placement.policy.v1" ++ encode_PlacementPolicyRecord policy.

Definition placement_fingerprint (policy : PlacementPolicyRecord) : string :=
  hex (Sha256.sha256 (placement_preimage policy)).

Definition replication_preimage (policy : ReplicationPolicyRecord) : list Z :=
  ByteWriter.str "ccsf.replication.policy.v1" ++ encode_ReplicationPolicyRecord policy.

Definition replication_fingerprint (policy : ReplicationPolicyRecord) : string :=
  hex (Sha256.sha256 (replication_preimage policy)).

(** A codec's encodings determine the value. *)
Lemma codec_injective {A} (enc : A → list Z) (dec : Reader A) ok a b :
  codec_laws enc dec ok → ok a = true → ok b = true → Z.of_nat (length (enc a)) ≤ u64_max →
  enc a = enc b → a = b.
Proof.
  intros Hl Ha Hb Hlen E. eapply (reads_inj dec _ _ (enc a)); [done|by apply (laws_reads _ _ _ Hl)|].
  rewrite E. by apply (laws_reads _ _ _ Hl).
Qed.

(** Equal fingerprints name equal policies, or two messages with one SHA-256 digest are
    known. *)
Definition collision : Prop :=
  ∃ message message', message ≠ message' ∧ Reference.sha256 message = Reference.sha256 message'.

Lemma fingerprint_names {A} (enc : A → list Z) (dec : Reader A) ok (domain : list Z) a b :
  codec_laws enc dec ok → ok a = true → ok b = true → Z.of_nat (length (enc a)) ≤ u64_max →
  hex (Sha256.sha256 (domain ++ enc a)) = hex (Sha256.sha256 (domain ++ enc b)) → a = b ∨ collision.
Proof.
  intros Hl Ha Hb Hlen E. rewrite !sha256_reference in E.
  apply hex_injective in E; [|apply sha256_digest_wf..].
  destruct (decide (domain ++ enc a = domain ++ enc b)) as [Heq|Hne].
  - left. apply app_inv_head in Heq. by eapply codec_injective.
  - right. by exists (domain ++ enc a), (domain ++ enc b).
Qed.

Lemma fingerprints_apart message message' :
  message ≠ message' → hex (Sha256.sha256 message) = hex (Sha256.sha256 message') → collision.
Proof.
  intros Hne E. rewrite !sha256_reference in E.
  apply hex_injective in E; [|apply sha256_digest_wf..]. by exists message, message'.
Qed.

(** The two kinds of fingerprint have different domains. *)
Lemma domains_differ (x y : list Z) :
  ByteWriter.str "ccsf.placement.policy.v1" ++ x ≠ ByteWriter.str "ccsf.replication.policy.v1" ++ y.
Proof. intros E. vm_compute in E. discriminate E. Qed.

(** A policy fingerprint identifies the policy, up to collisions of SHA-256. *)
Theorem policy_fingerprints_identify (a b : PlacementPolicyRecord) (c d : ReplicationPolicyRecord) :
  encodable_PlacementPolicyRecord a = true → encodable_PlacementPolicyRecord b = true →
  encodable_ReplicationPolicyRecord c = true → encodable_ReplicationPolicyRecord d = true →
  Z.of_nat (length (encode_PlacementPolicyRecord a)) ≤ u64_max →
  Z.of_nat (length (encode_ReplicationPolicyRecord c)) ≤ u64_max →
  (placement_fingerprint a = placement_fingerprint b → a = b ∨ collision) ∧
  (replication_fingerprint c = replication_fingerprint d → c = d ∨ collision) ∧
  (placement_fingerprint a = replication_fingerprint c → collision).
Proof.
  intros Ha Hb Hc Hd La Lc. split_and!.
  - unfold placement_fingerprint, placement_preimage.
    exact (fingerprint_names _ _ _ _ a b PlacementPolicyRecord_laws Ha Hb La).
  - unfold replication_fingerprint, replication_preimage.
    exact (fingerprint_names _ _ _ _ c d ReplicationPolicyRecord_laws Hc Hd Lc).
  - unfold placement_fingerprint, replication_fingerprint, placement_preimage, replication_preimage.
    apply fingerprints_apart, domains_differ.
Qed.
