(* ===== verification/Calendar.v ===== *)
(** * The wall clock as text ([src/clock.cpp])

    [format_wall_clock_utc] renders the seconds since the epoch by [gmtime] and [strftime].
    The conversion is that of the proleptic Gregorian calendar; it is shown to step from
    each day to the next one by the rule of the months and leap years. *)

From S2P Require Import Prelude.

Local Open Scope Z_scope.

(** ** Days and dates *)

Record Date := mkDate { da_year : Z; da_month : Z; da_day : Z }.

#[export] Instance Date_eq_dec : EqDecision Date.
Proof. solve_decision. Defined.

(** The month and day of a day of a year that begins on the first of March. *)
Definition month_of (year_day : Z) : Z :=
  let march_month := (5 * year_day + 2) / 153 in
  if march_month <? 10 then march_month + 3 else march_month - 9.

Definition day_of (year_day : Z) : Z := year_day - (153 * ((5 * year_day + 2) / 153) + 2) / 5 + 1.

(** The year, and the day in it, of a day of a cycle of 400 years: centuries of 36524 days,
    four years of 1461, years of 365, the last of each taking the day that is left. *)
Definition year_of (day : Z) : Z * Z :=
  let century := Z.min 3 (day / 36524) in
  let day := day - 36524 * century in
  let four := day / 1461 in
  let day := day - 1461 * four in
  let year := Z.min 3 (day / 365) in
  (100 * century + 4 * four + year, day - 365 * year).

Definition cycle_date (day : Z) : Date :=
  let '(year, year_day) := year_of day in
  let month := month_of year_day in
  mkDate (if month <=? 2 then year + 1 else year) month (day_of year_day).

Definition later (years : Z) (date : Date) : Date :=
  mkDate (da_year date + years) (da_month date) (da_day date).

(** The date of a day counted from 1 January 1970. *)
Definition civil_date (day : Z) : Date :=
  let shifted := day + 719468 in
  later (400 * (shifted / 146097)) (cycle_date (shifted mod 146097)).

Definition is_leap (year : Z) : bool :=
  (year mod 4 =? 0) && (negb (year mod 100 =? 0) || (year mod 400 =? 0)).

Definition days_in_month (year month : Z) : Z :=
  if month =? 2 then if is_leap year then 29 else 28
  else if (month =? 4) || (month =? 6) || (month =? 9) || (month =? 11) then 30 else 31.

Definition next_day (date : Date) : Date :=
  let '(mkDate year month day) := date in
  if day <? days_in_month year month then mkDate year month (day + 1)
  else if month <? 12 then mkDate year (month + 1) 1
  else mkDate (year + 1) 1 1.

Definition date_ok (date : Date) : bool :=
  (1 <=? da_month date) && (da_month date <=? 12) &&
  (1 <=? da_day date) && (da_day date <=? days_in_month (da_year date) (da_month date)).

(** ** The text *)

Definition two_digits (n : Z) : string :=
  if n <? 10 then "0" +:+ to_string_i64 n else to_string_i64 n.

(** [strftime] with ["%Y-%m-%dT%H:%M:%SZ"]. *)
Definition stamp (seconds : Z) : string :=
  let date := civil_date (seconds / 86400) in
  let second := seconds mod 86400 in
  to_string_i64 (da_year date) +:+ "-" +:+ two_digits (da_month date) +:+ "-" +:+
  two_digits (da_day date) +:+ "T" +:+ two_digits (second / 3600) +:+ ":" +:+
  two_digits (second / 60 mod 60) +:+ ":" +:+ two_digits (second mod 60) +:+ "Z".

Definition epoch_stamp : string := "1970-01-01T00:00:00Z".

(** [to_time_t] of nanoseconds; the year of a [tm] is an [int] counted from 1900, and the
    buffer has 32 bytes. *)
Definition format_wall_clock_utc (nanoseconds : Z) : string :=
  let seconds := Z.quot nanoseconds 1000000000 in
  let years := da_year (civil_date (seconds / 86400)) - 1900 in
  if (years <? -2147483648) || (years >? 2147483647) then epoch_stamp
  else if (32 <=? String.length (stamp seconds))%nat then epoch_stamp
  else stamp seconds.

(** ** The calendar steps by its rule *)

Lemma is_leap_later year cycles : is_leap (year + 400 * cycles) = is_leap year.
Proof.
  unfold is_leap.
  replace (400 * cycles) with (100 * cycles * 4) at 1 by lia. rewrite Z.mod_add by lia.
  replace (400 * cycles) with (4 * cycles * 100) at 1 by lia. rewrite Z.mod_add by lia.
  replace (400 * cycles) with (cycles * 400) by lia. by rewrite Z.mod_add by lia.
Qed.

Lemma next_day_later cycles date : next_day (later (400 * cycles) date) = later (400 * cycles) (next_day date).
Proof.
  destruct date as [year month day]. unfold later. cbn [da_year da_month da_day next_day].
  unfold days_in_month. rewrite is_leap_later.
  destruct (_ <? _); [done|]. destruct (month <? 12); cbn; f_equal; lia.
Qed.

Lemma date_ok_later cycles date : date_ok (later (400 * cycles) date) = date_ok date.
Proof. unfold date_ok, later, days_in_month. cbn. by rewrite is_leap_later. Qed.

(** The days of a year that begins in March; its February is that of the next year. *)
Definition year_length (year : Z) : Z := if is_leap (year + 1) then 366 else 365.

Lemma year_of_bounds day :
  0 ≤ day < 146097 →
  ∃ century four year year_day,
    year_of day = (100 * century + 4 * four + year, year_day) ∧
    day = 36524 * century + 1461 * four + 365 * year + year_day ∧
    0 ≤ century ≤ 3 ∧ 0 ≤ four ≤ 24 ∧ 0 ≤ year ≤ 3 ∧ 0 ≤ year_day ≤ 365 ∧
    (year < 3 → year_day < 365) ∧ (four = 24 → year = 3 → century < 3 → year_day < 365).
Proof.
  intros Hd. unfold year_of.
  set (c := Z.min 3 (day / 36524)). set (r := day - 36524 * c). set (q := r / 1461).
  set (s := r - 1461 * q). set (y := Z.min 3 (s / 365)).
  pose proof (Z.div_mod day 36524 ltac:(lia)). pose proof (Z.mod_pos_bound day 36524 ltac:(lia)).
  assert (0 ≤ c ≤ 3) by (subst c; lia).
  assert (0 ≤ r ≤ 36524 ∧ (c < 3 → r < 36524)) by (subst r c; lia).
  pose proof (Z.div_mod r 1461 ltac:(lia)). pose proof (Z.mod_pos_bound r 1461 ltac:(lia)).
  assert (q = r / 1461) by done. assert (0 ≤ q ≤ 24) by lia. assert (0 ≤ s < 1461) by (subst s; lia).
  pose proof (Z.div_mod s 365 ltac:(lia)). pose proof (Z.mod_pos_bound s 365 ltac:(lia)).
  assert (0 ≤ y ≤ 3) by (subst y; lia).
  exists c, q, y, (s - 365 * y). split_and!; [done|subst s r; lia|lia..|subst y; lia|subst y; lia| |].
  - subst y. lia.
  - intros Hq Hy Hc. subst y s. lia.
Qed.

Lemma year_of_unique day century four year year_day :
  day = 36524 * century + 1461 * four + 365 * year + year_day →
  0 ≤ century ≤ 3 → 0 ≤ four ≤ 24 → 0 ≤ year ≤ 3 → 0 ≤ year_day ≤ 365 →
  (year < 3 → year_day < 365) → (four = 24 → year = 3 → century < 3 → year_day < 365) →
  year_of day = (100 * century + 4 * four + year, year_day).
Proof.
  intros Hday Hc Hq Hy Hd Hy' Hq'.
  assert (Z.min 3 (day / 36524) = century) as Ec.
  { pose proof (Z.div_mod day 36524 ltac:(lia)). pose proof (Z.mod_pos_bound day 36524 ltac:(lia)).
    assert (four ≤ 23 ∨ four = 24) by lia. assert (year ≤ 2 ∨ year = 3) by lia. lia. }
  assert ((day - 36524 * century) / 1461 = four) as Eq.
  { symmetry. apply (Z.div_unique _ _ _ (365 * year + year_day)); lia. }
  assert (Z.min 3 ((day - 36524 * century - 1461 * four) / 365) = year) as Ey.
  { replace (day - 36524 * century - 1461 * four) with (365 * year + year_day) by lia.
    pose proof (Z.div_mod (365 * year + year_day) 365 ltac:(lia)).
    pose proof (Z.mod_pos_bound (365 * year + year_day) 365 ltac:(lia)). lia. }
  unfold year_of. cbv zeta. rewrite Ec, Eq, Ey. f_equal. lia.
Qed.

Lemma is_leap_parts century four year :
  0 ≤ century ≤ 3 → 0 ≤ four ≤ 24 → 0 ≤ year ≤ 3 →
  is_leap (100 * century + 4 * four + year + 1) =
  (year =? 3) && (negb (four =? 24) || (century =? 3)).
Proof.
  intros Hc Hq Hy.
  assert (In century [0; 1; 2; 3]) as Ic by (cbn; lia). assert (In year [0; 1; 2; 3]) as Iy by (cbn; lia).
  assert (In four (seqZ 0 25)) as Iq by (apply list_elem_of_In, elem_of_seqZ; lia).
  assert (forallb (λ c, forallb (λ q, forallb (λ y,
    bool_decide (is_leap (100 * c + 4 * q + y + 1) = (y =? 3) && (negb (q =? 24) || (c =? 3))))
    [0; 1; 2; 3]) (seqZ 0 25)) [0; 1; 2; 3] = true) as H by (vm_compute; reflexivity).
  rewrite forallb_forall in H. specialize (H _ Ic). rewrite forallb_forall in H. specialize (H _ Iq).
  rewrite forallb_forall in H. specialize (H _ Iy). by apply bool_decide_eq_true_1 in H.
Qed.

(** The next day is in the same year or is the first of the next one. *)
Lemma year_of_next day :
  0 ≤ day < 146096 →
  let '(year, year_day) := year_of day in
  0 ≤ year_day < year_length year ∧
  year_of (day + 1) =
  if year_day + 1 <? year_length year then (year, year_day + 1) else (year + 1, 0).
Proof.
  intros Hd. destruct (year_of_bounds day ltac:(lia)) as (c & q & y & d & -> & Eday & Hc & Hq & Hy & Hb & H1 & H2).
  unfold year_length. rewrite is_leap_parts by done.
  destruct (Z.eqb_spec y 3) as [Ey|Ey], (Z.eqb_spec q 24) as [Eq|Eq], (Z.eqb_spec c 3) as [Ec|Ec]; cbn [negb andb orb];
    (split; [lia|]); destruct (Z.ltb_spec (d + 1) 366), (Z.ltb_spec (d + 1) 365); try lia;
    try (apply year_of_unique; lia).
  all: first
    [ rewrite (year_of_unique _ c q (y + 1) 0) by lia; f_equal; lia
    | rewrite (year_of_unique _ c (q + 1) 0 0) by lia; f_equal; lia
    | rewrite (year_of_unique _ (c + 1) 0 0 0) by lia; f_equal; lia ].
Qed.

(** Inside a year the months have their lengths: the table of its days. *)
Definition month_length (leap : bool) (month : Z) : Z :=
  if month =? 2 then if leap then 29 else 28
  else if (month =? 4) || (month =? 6) || (month =? 9) || (month =? 11) then 30 else 31.

Definition table_row (leap : bool) (d : Z) : bool :=
  let month := month_of d in
  let last := if leap then 365 else 364 in
  (1 <=? month) && (month <=? 12) && (1 <=? day_of d) && (day_of d <=? month_length leap month) &&
  (if d =? last then (month =? 2) && (day_of d =? month_length leap 2)
   else if day_of d <? month_length leap month
   then (month_of (d + 1) =? month) && (day_of (d + 1) =? day_of d + 1)
   else negb (month =? 2) && (day_of (d + 1) =? 1) &&
        (month_of (d + 1) =? if month <? 12 then month + 1 else 1)).

Lemma table_checked (leap : bool) d : 0 ≤ d < (if leap then 366 else 365) → table_row leap d = true.
Proof.
  intros H.
  assert (forallb (table_row leap) (seqZ 0 (if leap then 366 else 365)) = true) as Hc
    by (destruct leap; vm_compute; reflexivity).
  rewrite forallb_forall in Hc. apply Hc, list_elem_of_In, elem_of_seqZ. lia.
Qed.

Lemma cycle_step day :
  0 ≤ day < 146096 → date_ok (cycle_date day) = true ∧ cycle_date (day + 1) = next_day (cycle_date day).
Proof.
  intros H. pose proof (year_of_next day H) as Hn. unfold cycle_date.
  destruct (year_of day) as [year d] eqn:E. destruct Hn as [Hd ->].
  pose proof (table_checked (is_leap (year + 1)) d Hd) as Ht.
  assert (days_in_month (if month_of d <=? 2 then year + 1 else year) (month_of d) =
          month_length (is_leap (year + 1)) (month_of d)) as Hm.
  { unfold days_in_month, month_length. destruct (Z.eqb_spec (month_of d) 2) as [->|]; [|done]. done. }
  unfold table_row in Ht. apply andb_true_iff in Ht as [Hr Ht].
  unfold date_ok, next_day. cbn [da_year da_month da_day]. rewrite Hm. split; [exact Hr|].
  unfold year_length in *. set (leap := is_leap (year + 1)) in *.
  repeat (apply andb_true_iff in Hr as [Hr ?]).
  destruct (d =? (if leap then 365 else 364)) eqn:El.
  - apply andb_true_iff in Ht as [Hm2 Hl]. apply Z.eqb_eq in Hm2, Hl. rewrite Hm2 in *.
    rewrite (proj2 (Z.ltb_ge (d + 1) (if leap then 366 else 365))) by (destruct leap; lia).
    rewrite (proj2 (Z.ltb_ge _ _)) by lia. done.
  - rewrite (proj2 (Z.ltb_lt (d + 1) (if leap then 366 else 365))) by (destruct leap; lia).
    destruct (day_of d <? month_length leap (month_of d)).
    + apply andb_true_iff in Ht as [E1 E2]. apply Z.eqb_eq in E1, E2. by rewrite E1, E2.
    + repeat (apply andb_true_iff in Ht as [Ht ?]). bool_simpl.
      destruct (Z.ltb_spec (month_of d) 12); f_equal; try lia;
        repeat match goal with |- context [?a <=? ?b] => destruct (Z.leb_spec a b) end; lia.
Qed.

Lemma cycle_end : date_ok (cycle_date 146096) = true ∧ next_day (cycle_date 146096) = later 400 (cycle_date 0).
Proof. vm_compute. split; reflexivity. Qed.

(** Every day number is a date of the calendar, the first is 1 January 1970 and each is followed
    by the day after it. *)
Theorem calendar_steps day :
  civil_date 0 = mkDate 1970 1 1 ∧ date_ok (civil_date day) = true ∧
  civil_date (day + 1) = next_day (civil_date day).
Proof.
  split; [reflexivity|]. unfold civil_date. cbv zeta.
  replace (day + 1 + 719468) with (day + 719468 + 1) by lia.
  set (z := day + 719468). pose proof (Z.div_mod z 146097 ltac:(lia)) as Hz.
  pose proof (Z.mod_pos_bound z 146097 ltac:(lia)) as Hm.
  rewrite next_day_later, date_ok_later.
  destruct (decide (z mod 146097 = 146096)) as [He|Hn].
  - destruct cycle_end as [Hok Hend]. rewrite He, Hend. split; [done|].
    rewrite <-(Z.div_unique (z + 1) 146097 (z / 146097 + 1) 0) by lia.
    rewrite <-(Z.mod_unique (z + 1) 146097 (z / 146097 + 1) 0) by lia.
    unfold later. cbn [da_year da_month da_day]. f_equal. lia.
  - destruct (cycle_step (z mod 146097)) as [Hok Hstep]; [lia|]. split; [done|].
    rewrite <-(Z.div_unique (z + 1) 146097 (z / 146097) (z mod 146097 + 1)) by lia.
    rewrite <-(Z.mod_unique (z + 1) 146097 (z / 146097) (z mod 146097 + 1)) by lia.
    by rewrite Hstep.
Qed.

(** The range of the system clock fits the buffer, and a moment is rendered as it is read. *)
Lemma stamps :
  format_wall_clock_utc 0 = epoch_stamp ∧
  format_wall_clock_utc 1709210096123456789 = "2024-02-29T12:34:56Z" ∧
  format_wall_clock_utc i64_max = "2262-04-11T23:47:16Z" ∧
  format_wall_clock_utc i64_min = "1677-09-21T00:12:44Z".
Proof. vm_compute. split_and!; reflexivity. Qed.
