(* ===== verification/Frames.v ===== *)
(** * Framed protocol ([protocol.hpp] / [protocol.cpp], the frame)

    A frame is a fixed 80-byte header, which carries the authority metadata and the
    checksums, and a payload.  Decoding accepts exactly the images encoding
    produces. *)

From S2P Require Import Prelude Taxonomy Model Bytes Crc Encoding.

Local Open Scope Z_scope.
Local Open Scope reader_scope.

Definition kFrameMagic : Z := 0x43435346.
Definition kProtocolVersion : Z := 1.
Definition kFrameHeaderBytes : nat := 80.
Definition kMaxFramePayloadBytes : Z := 8 * 1024 * 1024.

(** Message types; an unknown number is rejected. *)
Module MT.
Inductive MessageType :=
  | INVALID | HELLO | HELLO_ACK | EVIDENCE | EVIDENCE_ACK | HEARTBEAT | HEARTBEAT_ACK
  | TRANSFER_INTENT | TRANSFER_INTENT_ACK | TRANSFER_PROGRESS | TRANSFER_PROGRESS_ACK
  | TRANSFER_RESULT | TRANSFER_RESULT_ACK | VERIFY_RESULT | VERIFY_RESULT_ACK | COMMIT_NOTICE
  | COMMIT_NOTICE_ACK | REVALIDATE_NOTICE | REVALIDATE_NOTICE_ACK | SHUTDOWN | SHUTDOWN_ACK
  | ERROR_REPORT | DATA_REQUEST | DATA_CHUNK | HOST_STATE | HOST_STATE_ACK | CONTROL_REQUEST
  | CONTROL_RESPONSE.
End MT.
Abbreviation MessageType := MT.MessageType.

Definition MessageType_value (type : MessageType) : Z :=
  match type with
  | MT.INVALID => 0 | MT.HELLO => 1 | MT.HELLO_ACK => 2 | MT.EVIDENCE => 3 | MT.EVIDENCE_ACK => 4
  | MT.HEARTBEAT => 5 | MT.HEARTBEAT_ACK => 6 | MT.TRANSFER_INTENT => 10
  | MT.TRANSFER_INTENT_ACK => 11 | MT.TRANSFER_PROGRESS => 12 | MT.TRANSFER_PROGRESS_ACK => 13
  | MT.TRANSFER_RESULT => 14 | MT.TRANSFER_RESULT_ACK => 15 | MT.VERIFY_RESULT => 16
  | MT.VERIFY_RESULT_ACK => 17 | MT.COMMIT_NOTICE => 20 | MT.COMMIT_NOTICE_ACK => 21
  | MT.REVALIDATE_NOTICE => 22 | MT.REVALIDATE_NOTICE_ACK => 23 | MT.SHUTDOWN => 30
  | MT.SHUTDOWN_ACK => 31 | MT.ERROR_REPORT => 40 | MT.DATA_REQUEST => 50 | MT.DATA_CHUNK => 51
  | MT.HOST_STATE => 52 | MT.HOST_STATE_ACK => 53 | MT.CONTROL_REQUEST => 60
  | MT.CONTROL_RESPONSE => 61
  end.

Definition kMessageTypes : list (MessageType * string) :=
  [(MT.INVALID, "INVALID"); (MT.HELLO, "HELLO"); (MT.HELLO_ACK, "HELLO_ACK");
   (MT.EVIDENCE, "EVIDENCE"); (MT.EVIDENCE_ACK, "EVIDENCE_ACK"); (MT.HEARTBEAT, "HEARTBEAT");
   (MT.HEARTBEAT_ACK, "HEARTBEAT_ACK"); (MT.TRANSFER_INTENT, "TRANSFER_INTENT");
   (MT.TRANSFER_INTENT_ACK, "TRANSFER_INTENT_ACK"); (MT.TRANSFER_PROGRESS, "TRANSFER_PROGRESS");
   (MT.TRANSFER_PROGRESS_ACK, "TRANSFER_PROGRESS_ACK"); (MT.TRANSFER_RESULT, "TRANSFER_RESULT");
   (MT.TRANSFER_RESULT_ACK, "TRANSFER_RESULT_ACK"); (MT.VERIFY_RESULT, "VERIFY_RESULT");
   (MT.VERIFY_RESULT_ACK, "VERIFY_RESULT_ACK"); (MT.COMMIT_NOTICE, "COMMIT_NOTICE");
   (MT.COMMIT_NOTICE_ACK, "COMMIT_NOTICE_ACK"); (MT.REVALIDATE_NOTICE, "REVALIDATE_NOTICE");
   (MT.REVALIDATE_NOTICE_ACK, "REVALIDATE_NOTICE_ACK"); (MT.SHUTDOWN, "SHUTDOWN");
   (MT.SHUTDOWN_ACK, "SHUTDOWN_ACK"); (MT.ERROR_REPORT, "ERROR_REPORT");
   (MT.DATA_REQUEST, "DATA_REQUEST"); (MT.DATA_CHUNK, "DATA_CHUNK");
   (MT.HOST_STATE, "HOST_STATE"); (MT.HOST_STATE_ACK, "HOST_STATE_ACK");
   (MT.CONTROL_REQUEST, "CONTROL_REQUEST"); (MT.CONTROL_RESPONSE, "CONTROL_RESPONSE")].

#[export] Instance MessageType_eq_dec : EqDecision MessageType.
Proof. solve_decision. Defined.
#[export] Instance MessageType_enum : Enum MessageType.
Proof. enum_instance MessageType_value kMessageTypes. Defined.

Record FrameHeader := mkFrameHeader {
  fh_protocol_version : Z;
  fh_message_type : MessageType;
  fh_flags : Z;
  fh_payload_length : Z;
  fh_payload_crc : Z;
  fh_coordinator_epoch : Z;
  fh_cluster_id : Z;
  fh_cluster_incarnation : Z;
  fh_worker_id : Z;
  fh_worker_boot_id : Z;
  fh_operation_generation : Z;
  fh_sequence : Z
}.

#[export] Instance FrameHeader_eta : Eta FrameHeader := λ h,
  mkFrameHeader (fh_protocol_version h) (fh_message_type h) (fh_flags h) (fh_payload_length h)
    (fh_payload_crc h) (fh_coordinator_epoch h) (fh_cluster_id h) (fh_cluster_incarnation h)
    (fh_worker_id h) (fh_worker_boot_id h) (fh_operation_generation h) (fh_sequence h).

Definition FrameHeader_default : FrameHeader :=
  mkFrameHeader kProtocolVersion MT.INVALID 0 0 0 0 0 0 0 0 0 0.

Record Frame := mkFrame { fr_header : FrameHeader; fr_payload : list Z }.

Definition encode_header_fields (header : FrameHeader) : list Z :=
  ByteWriter.u32 kFrameMagic ++ ByteWriter.u16 (fh_protocol_version header) ++
  encode_enum (fh_message_type header) ++ ByteWriter.u32 (fh_flags header) ++
  ByteWriter.u32 (fh_payload_length header) ++ ByteWriter.u32 (fh_payload_crc header) ++
  ByteWriter.u64 (fh_coordinator_epoch header) ++ ByteWriter.u64 (fh_cluster_id header) ++
  ByteWriter.u64 (fh_cluster_incarnation header) ++ ByteWriter.u64 (fh_worker_id header) ++
  ByteWriter.u64 (fh_worker_boot_id header) ++ ByteWriter.u64 (fh_operation_generation header) ++
  ByteWriter.u64 (fh_sequence header).

(** The header with its checksum field zeroed, which the checksum covers. *)
Definition header_crc (header : FrameHeader) : Z :=
  Crc32c.crc32c (encode_header_fields header ++ ByteWriter.u32 0).

(** The fields [encode_frame] fills in. *)
Definition sealed (frame : Frame) : FrameHeader :=
  (fr_header frame) <| fh_protocol_version := kProtocolVersion |>
    <| fh_payload_length := u32 (Z.of_nat (length (fr_payload frame))) |>
    <| fh_payload_crc := Crc32c.crc32c (fr_payload frame) |>.

Definition encode_frame (frame : Frame) : list Z :=
  let header := sealed frame in
  encode_header_fields header ++ ByteWriter.u32 (header_crc header) ++
  ByteWriter.raw (fr_payload frame).

Definition read_header_start : Reader (Z * Z * Z * Z * Z * Z) :=
  magic <- Reader.u32;; version <- Reader.u16;; raw_type <- Reader.u16;; flags <- Reader.u32;;
  payload_length <- Reader.u32;; payload_crc <- Reader.u32;;
  rret (magic, version, raw_type, flags, payload_length, payload_crc).

Definition read_header_rest : Reader (Z * Z * Z * Z * Z * Z * Z * Z) :=
  coordinator_epoch <- Reader.u64;; cluster_id <- Reader.u64;; cluster_incarnation <- Reader.u64;;
  worker_id <- Reader.u64;; worker_boot_id <- Reader.u64;; operation_generation <- Reader.u64;;
  sequence <- Reader.u64;; checksum <- Reader.u32;;
  rret (coordinator_epoch, cluster_id, cluster_incarnation, worker_id, worker_boot_id,
        operation_generation, sequence, checksum).

Definition decode_frame_header (header_bytes : list Z) : Result FrameHeader :=
  if negb (length header_bytes =? kFrameHeaderBytes)%nat then Err EC.FRAME_TRUNCATED
  else
    match read_header_start (make_reader header_bytes) with
    | (None, _) => Err EC.FRAME_TRUNCATED
    | (Some (magic, version, raw_type, flags, payload_length, payload_crc), reader) =>
        if negb (magic =? kFrameMagic) then Err EC.FRAME_CORRUPT
        else if negb (version =? kProtocolVersion) then Err EC.PROTOCOL_UNSUPPORTED
        else
          match enum_cast raw_type with
          | None => Err EC.PROTOCOL_UNSUPPORTED
          | Some message_type =>
              match (read_header_rest reader).1 with
              | None => Err EC.FRAME_TRUNCATED
              | Some (coordinator_epoch, cluster_id, cluster_incarnation, worker_id,
                      worker_boot_id, operation_generation, sequence, checksum) =>
                  let header :=
                    mkFrameHeader version message_type flags payload_length payload_crc
                      coordinator_epoch cluster_id cluster_incarnation worker_id worker_boot_id
                      operation_generation sequence in
                  if payload_length >? kMaxFramePayloadBytes then Err EC.FRAME_TOO_LARGE
                  else if negb (header_crc header =? checksum) then Err EC.FRAME_CORRUPT
                  else Ok header
              end
          end
    end.

Definition decode_frame_payload (header : FrameHeader) (payload_bytes : list Z)
    : Result (list Z) :=
  if negb (Z.of_nat (length payload_bytes) =? fh_payload_length header)
  then Err EC.FRAME_TRUNCATED
  else if negb (Crc32c.crc32c payload_bytes =? fh_payload_crc header) then Err EC.FRAME_CORRUPT
  else Ok payload_bytes.

Definition decode_frame (image : list Z) (max_payload : Z) : Result Frame :=
  if (length image <? kFrameHeaderBytes)%nat then Err EC.FRAME_TRUNCATED
  else
    match decode_frame_header (take kFrameHeaderBytes image) with
    | Err code => Err code
    | Ok header =>
        if fh_payload_length header >? max_payload then Err EC.FRAME_TOO_LARGE
        else if negb (Z.of_nat (length image) =?
                      Z.of_nat kFrameHeaderBytes + fh_payload_length header)
        then Err EC.FRAME_TRUNCATED
        else match decode_frame_payload header (drop kFrameHeaderBytes image) with
             | Err code => Err code
             | Ok payload => Ok (mkFrame header payload)
             end
    end.

(** ** Well-formed frames *)

Definition encodable_header (header : FrameHeader) : bool :=
  fits_u32 (fh_flags header) && fits_u32 (fh_payload_length header) &&
  fits_u32 (fh_payload_crc header) &&
  fits_u64 (fh_coordinator_epoch header) && fits_u64 (fh_cluster_id header) &&
  fits_u64 (fh_cluster_incarnation header) && fits_u64 (fh_worker_id header) &&
  fits_u64 (fh_worker_boot_id header) && fits_u64 (fh_operation_generation header) &&
  fits_u64 (fh_sequence header).

(** A frame as a receiver with the given bound sees it: the fields the sender fills
    in are what they should be and the payload is within both bounds. *)
Record acceptable (max_payload : Z) (frame : Frame) : Prop := {
  acc_header : encodable_header (fr_header frame) = true;
  acc_sealed : sealed frame = fr_header frame;
  acc_size : Z.of_nat (length (fr_payload frame)) ≤ Z.min max_payload kMaxFramePayloadBytes
}.

(** ** Reading what was written *)

Lemma length_header_fields header : (length (encode_header_fields header) = 76)%nat.
Proof. reflexivity. Qed.

Definition header_bytes (header : FrameHeader) : list Z :=
  encode_header_fields header ++ ByteWriter.u32 (header_crc header).

Lemma length_header_bytes header : length (header_bytes header) = kFrameHeaderBytes.
Proof. reflexivity. Qed.

Lemma encode_frame_parts frame : encode_frame frame = header_bytes (sealed frame) ++ fr_payload frame.
Proof. unfold encode_frame, header_bytes, ByteWriter.raw. by rewrite <-(assoc_L (++)). Qed.

Lemma sealed_twice frame : sealed (mkFrame (sealed frame) (fr_payload frame)) = sealed frame.
Proof. reflexivity. Qed.

Lemma encode_sealed frame :
  encode_frame (mkFrame (sealed frame) (fr_payload frame)) = encode_frame frame.
Proof. unfold encode_frame. by rewrite sealed_twice. Qed.

(** The reader after one accessor, when another follows. *)
Lemma reads_then {A} (m : Reader A) v enc rest :
  reads m v enc → Z.of_nat (length (enc ++ rest)) ≤ u64_max →
  m (make_reader (enc ++ rest)) = (Some v, mkByteReader (enc ++ rest) (length enc) true EC.OK).
Proof. intros Hm Hl. exact (Hm [] rest EC.OK Hl). Qed.

Lemma decode_header_bytes header :
  encodable_header header = true → fh_protocol_version header = kProtocolVersion →
  fh_payload_length header ≤ kMaxFramePayloadBytes →
  decode_frame_header (header_bytes header) = Ok header.
Proof.
  intros H Hv Hl. unfold encodable_header in H. split_fits H. unfold decode_frame_header.
  rewrite length_header_bytes, Nat.eqb_refl. cbn [negb].
  set (start := ByteWriter.u32 kFrameMagic ++ ByteWriter.u16 (fh_protocol_version header) ++
    encode_enum (fh_message_type header) ++ ByteWriter.u32 (fh_flags header) ++
    ByteWriter.u32 (fh_payload_length header) ++ ByteWriter.u32 (fh_payload_crc header)).
  set (rest := ByteWriter.u64 (fh_coordinator_epoch header) ++ ByteWriter.u64 (fh_cluster_id header) ++
    ByteWriter.u64 (fh_cluster_incarnation header) ++ ByteWriter.u64 (fh_worker_id header) ++
    ByteWriter.u64 (fh_worker_boot_id header) ++ ByteWriter.u64 (fh_operation_generation header) ++
    ByteWriter.u64 (fh_sequence header) ++ ByteWriter.u32 (header_crc header)).
  assert (header_bytes header = start ++ rest) as -> by reflexivity.
  assert (reads read_header_start (kFrameMagic, kProtocolVersion, enum_value (fh_message_type header),
    fh_flags header, fh_payload_length header, fh_payload_crc header) start) as Hstart.
  { unfold start. rewrite Hv. eapply reads_bind; [apply reads_u32; unfold kFrameMagic; lia|].
    eapply reads_bind; [apply reads_u16; unfold kProtocolVersion; lia|].
    eapply reads_bind; [apply reads_u16, enum_value_u16|].
    do 2 (eapply reads_bind; [by eauto with codec|]).
    eapply reads_map; [by eauto with codec|]. apply reads_ret. }
  assert (reads read_header_rest (fh_coordinator_epoch header, fh_cluster_id header,
    fh_cluster_incarnation header, fh_worker_id header, fh_worker_boot_id header,
    fh_operation_generation header, fh_sequence header, header_crc header) rest) as Hrest.
  { do 7 (eapply reads_bind; [by eauto with codec|]).
    eapply reads_map; [apply reads_u32, crc32c_range|]. apply reads_ret. }
  rewrite (reads_then _ _ _ _ Hstart) by (vm_compute; discriminate).
  rewrite !Z.eqb_refl. cbn [negb]. rewrite enum_cast_value.
  specialize (Hrest start [] EC.OK). rewrite app_nil_r in Hrest.
  rewrite Hrest by (vm_compute; discriminate). cbn [fst].
  destruct (Z.gtb_spec (fh_payload_length header) kMaxFramePayloadBytes); [lia|].
  rewrite <-Hv. destruct header. cbn. by rewrite Z.eqb_refl.
Qed.

(** ** Writing what was read *)

(** [consumes enc m]: whatever [m] returns, what it passed over is that value's
    encoding. *)
Definition consumes {A} (enc : A → list Z) (m : Reader A) : Prop :=
  ∀ r v r', Forall is_byte (br_data r) → m r = (Some v, r') →
    br_data r' = br_data r ∧
    drop (br_position r) (br_data r) = enc v ++ drop (br_position r') (br_data r').

Lemma be_bytes_mod n a b :
  a mod 2 ^ (8 * Z.of_nat n) = b mod 2 ^ (8 * Z.of_nat n) → be_bytes n a = be_bytes n b.
Proof.
  intros E. assert (∀ i, 0 ≤ i < 8 * Z.of_nat n → Z.testbit a i = Z.testbit b i) as Hbits.
  { intros i Hi. by rewrite <-(Z.mod_pow2_bits_low a (8 * Z.of_nat n)), E, Z.mod_pow2_bits_low by lia. }
  clear E. induction n as [|n IH]; [done|]. cbn [be_bytes]. f_equal.
  - unfold ByteWriter.byte_at. apply Z.bits_inj'. intros i Hi. rewrite !Z.land_spec, !Z.shiftr_spec by lia.
    change 255 with (Z.ones 8). destruct (decide (i < 8)).
    + rewrite Hbits by lia. done.
    + by rewrite Z.ones_spec_high, !andb_false_r by lia.
  - apply IH. intros i Hi. apply Hbits. lia.
Qed.

Lemma be_bytes_accumulate_aux width bytes acc :
  Forall is_byte bytes → (length bytes ≤ width)%nat →
  0 ≤ acc < 2 ^ (8 * Z.of_nat (width - length bytes)) →
  ∃ low, 0 ≤ low < 2 ^ (8 * Z.of_nat (length bytes)) ∧
    fold_left (λ v b, Z.lor (Z.shiftl v 8 mod 2 ^ (8 * Z.of_nat width)) b) bytes acc =
      acc * 2 ^ (8 * Z.of_nat (length bytes)) + low ∧
    be_bytes (length bytes) low = bytes.
Proof.
  intros Hb. revert acc. induction Hb as [|b bytes Hb _ IH]; intros acc Hw Hacc; cbn [length] in *.
  { exists 0. split; [simpl; lia|]. split; [simpl; lia|done]. }
  assert (2 ^ (8 * Z.of_nat (width - length bytes)) =
    256 * 2 ^ (8 * Z.of_nat (width - S (length bytes)))) as Hp.
  { change 256 with (2 ^ 8). rewrite <-Z.pow_add_r by lia. f_equal. lia. }
  assert (2 ^ (8 * Z.of_nat (S (length bytes))) = 256 * 2 ^ (8 * Z.of_nat (length bytes))) as Hq.
  { change 256 with (2 ^ 8). rewrite <-Z.pow_add_r by lia. f_equal. lia. }
  assert (0 < 2 ^ (8 * Z.of_nat (length bytes))) as Hpos by (apply Z.pow_pos_nonneg; lia).
  unfold is_byte in Hb. cbn [fold_left].
  rewrite (Z.mod_small (Z.shiftl acc 8)).
  2: { rewrite Z.shiftl_mul_pow2 by lia. change (2 ^ 8) with 256.
       split; [lia|]. apply Z.lt_le_trans with (2 ^ (8 * Z.of_nat (width - length bytes))); [lia|].
       apply Z.pow_le_mono_r; lia. }
  rewrite lor_byte_add by lia.
  destruct (IH (acc * 256 + b)) as (low & Hlow & Hfold & Hbytes); [lia|lia|].
  exists (b * 2 ^ (8 * Z.of_nat (length bytes)) + low). split; [nia|]. split.
  { rewrite Hfold, Hq. ring. }
  cbn [be_bytes]. rewrite byte_at_mod by lia.
  rewrite Z.div_add_l, (Z.div_small low), Z.add_0_r, Z.mod_small by lia. f_equal.
  transitivity (be_bytes (length bytes) low); [|done]. apply be_bytes_mod. rewrite Z.add_comm, Z.mod_add by lia. done.
Qed.

Lemma be_bytes_accumulate bytes :
  Forall is_byte bytes → be_bytes (length bytes) (Reader.accumulate (length bytes) bytes) = bytes.
Proof.
  intros Hb. destruct (be_bytes_accumulate_aux (length bytes) bytes 0) as (low & _ & Hf & Hl);
    [done|lia|rewrite Nat.sub_diag; simpl; lia|].
  unfold Reader.accumulate. rewrite Hf. by rewrite Z.mul_0_l, Z.add_0_l.
Qed.

Lemma consumes_fixed n : consumes (be_bytes n) (Reader.fixed n).
Proof.
  intros r v r' Hd. unfold Reader.fixed. destruct (br_ok r); [|done]. cbn [negb].
  destruct (Nat.ltb_spec (length (br_data r)) (br_position r + n)); [done|].
  intros [= <- <-]. split; [done|]. cbn [br_position br_data set_field].
  set (bytes := take n (drop (br_position r) (br_data r))).
  assert (length bytes = n) as Hn by (unfold bytes; rewrite length_take, length_drop; lia).
  assert (be_bytes n (Reader.accumulate n bytes) = bytes) as ->.
  { rewrite <-Hn at 1 2. apply be_bytes_accumulate. by apply Forall_take, Forall_drop. }
  unfold bytes. by rewrite <-drop_drop, take_drop.
Qed.

Lemma rbind_Some {A B} (m : Reader A) (f : A → Reader B) r b r' :
  rbind m f r = (Some b, r') → ∃ a r1, m r = (Some a, r1) ∧ f a r1 = (Some b, r').
Proof. unfold rbind. destruct (m r) as [[a|] r1]; [eauto|done]. Qed.

Lemma fixed_inv n r v r' :
  Forall is_byte (br_data r) → Reader.fixed n r = (Some v, r') →
  Forall is_byte (br_data r') ∧ br_data r' = br_data r ∧
  (0 <=? v) && (v <? 2 ^ (8 * Z.of_nat n)) = true ∧
  drop (br_position r) (br_data r) = be_bytes n v ++ drop (br_position r') (br_data r').
Proof.
  intros Hd E. destruct (produces_fixed n r v r' Hd E) as [Hv Hr].
  destruct (consumes_fixed n r v r' Hd E) as [_ Hb]. by rewrite Hr at 1.
Qed.

(** Unfolds a run of fixed-width reads into the bytes each passed over. *)
Ltac consume Hd H :=
  repeat (let a := fresh "v" in let r := fresh "r" in let E := fresh "E" in let D := fresh "D" in
    apply rbind_Some in H as (a & r & E & H);
    apply fixed_inv in E as (D & ? & ? & E); [|exact Hd]; clear Hd; rename D into Hd);
  unfold rret in H; simplify_eq H; intros; subst.

Lemma start_inv r magic version raw_type flags payload_length payload_crc r' :
  Forall is_byte (br_data r) →
  read_header_start r = (Some (magic, version, raw_type, flags, payload_length, payload_crc), r') →
  Forall is_byte (br_data r') ∧ br_data r' = br_data r ∧
  fits_u32 flags = true ∧ fits_u32 payload_length = true ∧ fits_u32 payload_crc = true ∧
  drop (br_position r) (br_data r) =
    (ByteWriter.u32 magic ++ ByteWriter.u16 version ++ ByteWriter.u16 raw_type ++
     ByteWriter.u32 flags ++ ByteWriter.u32 payload_length ++ ByteWriter.u32 payload_crc) ++
    drop (br_position r') (br_data r').
Proof.
  intros Hd H. unfold read_header_start, Reader.u32, Reader.u16 in H. consume Hd H.
  split_and!; [done|congruence|done..|]. rewrite E, E0, E1, E2, E3, E4.
  by rewrite <-!(assoc_L (++)).
Qed.

Lemma rest_inv r epoch cluster incarnation worker boot generation sequence checksum r' :
  Forall is_byte (br_data r) →
  read_header_rest r =
    (Some (epoch, cluster, incarnation, worker, boot, generation, sequence, checksum), r') →
  br_data r' = br_data r ∧
  fits_u64 epoch && fits_u64 cluster && fits_u64 incarnation && fits_u64 worker && fits_u64 boot &&
    fits_u64 generation && fits_u64 sequence = true ∧
  drop (br_position r) (br_data r) =
    (ByteWriter.u64 epoch ++ ByteWriter.u64 cluster ++ ByteWriter.u64 incarnation ++
     ByteWriter.u64 worker ++ ByteWriter.u64 boot ++ ByteWriter.u64 generation ++
     ByteWriter.u64 sequence ++ ByteWriter.u32 checksum) ++ drop (br_position r') (br_data r').
Proof.
  intros Hd H. unfold read_header_rest, Reader.u64, Reader.u32 in H. consume Hd H.
  split_and!; [congruence|join_fits; done|]. rewrite E, E0, E1, E2, E3, E4, E5, E6.
  by rewrite <-!(assoc_L (++)).
Qed.

Lemma decode_header_inv bytes header :
  Forall is_byte bytes → decode_frame_header bytes = Ok header →
  bytes = header_bytes header ∧ encodable_header header = true ∧
  fh_protocol_version header = kProtocolVersion ∧ fh_payload_length header ≤ kMaxFramePayloadBytes.
Proof.
  intros Hb. unfold decode_frame_header.
  destruct (Nat.eqb_spec (length bytes) kFrameHeaderBytes) as [Hl|]; [|done]. cbn [negb].
  destruct (read_header_start (make_reader bytes))
    as [[[[[[[magic version] raw] flags] plength] pcrc]|] r1] eqn:E1; [|done].
  apply start_inv in E1 as (Hd1 & Er1 & Hf1 & Hf2 & Hf3 & B1); [|done].
  destruct (Z.eqb_spec magic kFrameMagic) as [->|]; [|done].
  destruct (Z.eqb_spec version kProtocolVersion) as [->|]; [|done]. cbn [negb].
  destruct (enum_cast raw) as [type|] eqn:Et; [|done]. apply enum_cast_sound in Et as <-.
  destruct (read_header_rest r1)
    as [[[[[[[[[epoch cluster] inc] worker] boot] gen] seq] checksum]|] r2] eqn:E2; [|done].
  apply rest_inv in E2 as (Er2 & Hf4 & B2); [|done]. cbn [fst].
  destruct (Z.gtb_spec plength kMaxFramePayloadBytes) as [|Hp]; [done|].
  set (h := mkFrameHeader _ _ _ _ _ _ _ _ _ _ _ _).
  destruct (Z.eqb_spec (header_crc h) checksum) as [<-|]; [|done]. intros [= <-].
  cbn [make_reader br_data br_position] in B1. rewrite drop_0, B2, (assoc_L (++)) in B1.
  assert (drop (br_position r2) (br_data r2) = []) as Hnil.
  { apply length_zero_iff_nil. apply (f_equal length) in B1. rewrite Hl, length_app in B1.
    unfold kFrameHeaderBytes in B1. cbn in B1. lia. }
  rewrite Hnil, app_nil_r in B1. split; [exact B1|]. split; [|by split].
  unfold encodable_header. subst h. cbn -[fits_u32 fits_u64]. split_fits Hf4. join_fits; done.
Qed.

Lemma frame_image_bytes frame : length (encode_frame frame) = (80 + length (fr_payload frame))%nat.
Proof. by rewrite encode_frame_parts, length_app. Qed.

Lemma acceptable_length max_payload frame :
  acceptable max_payload frame →
  fh_payload_length (fr_header frame) = Z.of_nat (length (fr_payload frame)).
Proof.
  intros [Hh Hs Hl]. rewrite <-Hs. unfold sealed. cbn. unfold u32, kMaxFramePayloadBytes in *.
  apply Z.mod_small. lia.
Qed.

Lemma decode_encoded_frame max_payload frame :
  acceptable max_payload frame → decode_frame (encode_frame frame) max_payload = Ok frame.
Proof.
  intros Ha. pose proof (acceptable_length _ _ Ha) as Hlen. destruct Ha as [Hh Hs Hl].
  unfold decode_frame. rewrite frame_image_bytes, encode_frame_parts, Hs.
  destruct (Nat.ltb_spec (80 + length (fr_payload frame)) kFrameHeaderBytes) as [Hlt|_];
    [unfold kFrameHeaderBytes in Hlt; lia|].
  rewrite take_app_length', drop_app_length' by (symmetry; apply length_header_bytes).
  rewrite decode_header_bytes; [|done|by rewrite <-Hs|lia]. rewrite Hlen.
  destruct (Z.gtb_spec (Z.of_nat (length (fr_payload frame))) max_payload); [lia|].
  destruct (Z.eqb_spec (Z.of_nat (80 + length (fr_payload frame)))
    (Z.of_nat kFrameHeaderBytes + Z.of_nat (length (fr_payload frame)))) as [_|Hne];
    [|unfold kFrameHeaderBytes in Hne; lia]. cbn [negb].
  unfold decode_frame_payload. rewrite Hlen, Z.eqb_refl. cbn [negb].
  replace (fh_payload_crc (fr_header frame)) with (Crc32c.crc32c (fr_payload frame))
    by (by rewrite <-Hs). rewrite Z.eqb_refl. by destruct frame.
Qed.

Lemma decode_frame_inv image max_payload frame :
  Forall is_byte image → decode_frame image max_payload = Ok frame →
  image = encode_frame frame ∧ acceptable max_payload frame.
Proof.
  intros Hb. unfold decode_frame.
  destruct (Nat.ltb_spec (length image) kFrameHeaderBytes); [done|].
  destruct (decode_frame_header _) as [h|] eqn:Eh; [|done].
  apply decode_header_inv in Eh as (Et & Hh & Hv & Hp); [|by apply Forall_take].
  destruct (Z.gtb_spec (fh_payload_length h) max_payload); [done|].
  destruct (Z.eqb_spec (Z.of_nat (length image))
    (Z.of_nat kFrameHeaderBytes + fh_payload_length h)) as [Hl|]; [|done]. cbn [negb].
  unfold decode_frame_payload. set (payload := drop kFrameHeaderBytes image).
  destruct (Z.eqb_spec (Z.of_nat (length payload)) (fh_payload_length h)) as [Hn|]; [|done].
  destruct (Z.eqb_spec (Crc32c.crc32c payload) (fh_payload_crc h)) as [Hc|]; [|done]. cbn [negb].
  intros [= <-]. assert (sealed (mkFrame h payload) = h) as Hs.
  { unfold sealed. destruct h. cbn in *. subst. f_equal.
    unfold u32, kMaxFramePayloadBytes in *. apply Z.mod_small. lia. }
  split; [|split; [done|done|cbn [fr_payload]; lia]].
  rewrite encode_frame_parts, Hs, <-Et. symmetry. apply take_drop.
Qed.

Lemma decode_cut_frame max_payload frame k :
  acceptable max_payload frame → (k < length (encode_frame frame))%nat →
  decode_frame (take k (encode_frame frame)) max_payload = Err EC.FRAME_TRUNCATED.
Proof.
  intros Ha Hk. pose proof (acceptable_length _ _ Ha) as Hlen. destruct Ha as [Hh Hs Hl].
  rewrite frame_image_bytes in Hk. unfold decode_frame.
  rewrite length_take, frame_image_bytes, Nat.min_l by lia.
  destruct (Nat.ltb_spec k kFrameHeaderBytes); [done|].
  rewrite take_take, Nat.min_l, encode_frame_parts, Hs by done.
  rewrite take_app_length' by (symmetry; apply length_header_bytes).
  rewrite decode_header_bytes; [|done|by rewrite <-Hs|lia]. rewrite Hlen.
  destruct (Z.gtb_spec (Z.of_nat (length (fr_payload frame))) max_payload); [lia|].
  destruct (Z.eqb_spec (Z.of_nat k) (Z.of_nat kFrameHeaderBytes + Z.of_nat (length (fr_payload frame))));
    [unfold kFrameHeaderBytes in *; lia|done].
Qed.

(** ** Properties *)

(** C22: frames are canonical.  On any byte string, decoding succeeds with a frame
    exactly when the string is that frame's encoding and the frame is within the receiver's
    bounds, so what was sent is what is received and nothing else is; and every strict
    prefix of a frame is refused as truncated. *)
Theorem frames_are_canonical (image : list Z) (max_payload : Z) (frame : Frame) :
  Forall is_byte image →
  (decode_frame image max_payload = Ok frame ↔
     image = encode_frame frame ∧ acceptable max_payload frame) ∧
  (decode_frame image max_payload = Ok frame → ∀ k, (k < length image)%nat →
     decode_frame (take k image) max_payload = Err EC.FRAME_TRUNCATED).
Proof.
  intros Hb. split.
  - split; [by apply decode_frame_inv|]. intros [-> Ha]. by apply decode_encoded_frame.
  - intros Hd k Hk. apply decode_frame_inv in Hd as [-> Ha]; [|done]. by apply decode_cut_frame.
Qed.

Lemma fits_bytes l : forallb fits_byte l = true → Forall is_byte l.
Proof.
  intros H. apply list.Forall_forall. intros b Hb. rewrite forallb_forall in H.
  apply list_elem_of_In, H, andb_true_iff in Hb as [?%Z.leb_le ?%Z.ltb_lt]. done.
Qed.

Definition demo_frame : Frame :=
  mkFrame (FrameHeader_default <| fh_message_type := MT.HEARTBEAT |> <| fh_coordinator_epoch := 7 |>)
    [1; 2; 3].

Definition sealed_demo : Frame := mkFrame (sealed demo_frame) (fr_payload demo_frame).

Lemma frames_are_canonical_witness :
  decode_frame (encode_frame demo_frame) 1024 = Ok sealed_demo.
Proof.
  assert (forallb fits_byte (encode_frame demo_frame) = true) as Hb by (vm_compute; reflexivity).
  apply (proj1 (frames_are_canonical (encode_frame demo_frame) 1024 sealed_demo (fits_bytes _ Hb))).
  split; [symmetry; apply encode_sealed|].
  split; [vm_compute; reflexivity|apply sealed_twice|vm_compute; discriminate].
Defined.
