(* ===== verification/Payloads.v ===== *)
(** * Message payloads ([protocol.hpp] / [protocol.cpp], the payload codecs)

    The ten payloads that frames carry.  Every decoder ends by requiring that the
    whole payload was read, and accepts exactly the images its encoder produces,
    apart from the evidence payload, which does not carry every capability. *)

From S2P Require Import Prelude Taxonomy Model Bytes Digest FabricState Encoding.
From S2P Require Import Compatibility RecordCodecs Frames.

Local Open Scope Z_scope.
Local Open Scope reader_scope.

Definition kMaxDetailLength : Z := 512.
Definition kMaxLocationLength : Z := 256.
Definition kMaxClusterTagLength : Z := 128.

(** [return reader.at_end()] at the end of a decoder that filled in [value]. *)
Definition finish {A} (value : A) : Reader A := λ r,
  (if Reader.at_end r then Some value else None, r).

(** ** What can be sent *)

Definition fits_u16 (z : Z) : bool := (0 <=? z) && (z <? 2 ^ 16).
Definition fits_blob (max : Z) (bytes : list Z) : bool :=
  (Z.of_nat (length bytes) <=? max) && (Z.of_nat (length bytes) <? 2 ^ 32) &&
  forallb fits_byte bytes.
Definition fits_tags : list string → bool :=
  fits_list kMaxClusterTagCount (fits_str kMaxClusterTagLength).

(** ** Parts shared by payloads *)

Definition encode_tags (tags : list string) : list Z := encode_vector ByteWriter.str tags.

Definition decode_tags : Reader (list string) :=
  count <- Reader.u32;;
  if count >? kMaxClusterTagCount then Reader.fail EC.RESOURCE_EXHAUSTED
  else decode_elements (Z.to_nat count) (Reader.str kMaxClusterTagLength).

Definition encode_wire_capabilities (value : ClusterCapabilities) : list Z :=
  encode_tags (cc_tags value) ++ encode_tags (cc_storage_classes value) ++
  encode_tags (cc_accelerator_architectures value) ++
  ByteWriter.boolean (cc_encryption_at_rest value) ++ ByteWriter.boolean (cc_attestation value).

Definition decode_wire_capabilities : Reader ClusterCapabilities :=
  tags <- decode_tags;; storage_classes <- decode_tags;;
  accelerator_architectures <- decode_tags;; encryption_at_rest <- Reader.boolean;;
  attestation <- Reader.boolean;;
  rret (mkClusterCapabilities tags storage_classes accelerator_architectures
          encryption_at_rest attestation).

Definition encodable_wire_capabilities (value : ClusterCapabilities) : bool :=
  fits_tags (cc_tags value) && fits_tags (cc_storage_classes value) &&
  fits_tags (cc_accelerator_architectures value).

Definition encode_wire_capacity (value : ClusterCapacity) : list Z :=
  ByteWriter.u64 (cp_total_logical_bytes value) ++ ByteWriter.u64 (cp_used_logical_bytes value) ++
  ByteWriter.u64 (cp_inbound_bytes_per_tick value) ++
  ByteWriter.u32 (cp_free_transfer_slots value) ++ ByteWriter.u32 (cp_utilization_per_mille value).

Definition decode_wire_capacity : Reader ClusterCapacity :=
  total_logical_bytes <- Reader.u64;; used_logical_bytes <- Reader.u64;;
  if used_logical_bytes >? total_logical_bytes then Reader.fail EC.FRAME_CORRUPT
  else
    inbound_bytes_per_tick <- Reader.u64;; free_transfer_slots <- Reader.u32;;
    utilization_per_mille <- Reader.u32;;
    if utilization_per_mille >? 1000 then Reader.fail EC.FRAME_CORRUPT
    else rret (mkClusterCapacity total_logical_bytes used_logical_bytes inbound_bytes_per_tick
                 free_transfer_slots utilization_per_mille).

Definition encodable_wire_capacity (value : ClusterCapacity) : bool :=
  fits_u64 (cp_total_logical_bytes value) && fits_u64 (cp_used_logical_bytes value) &&
  negb (cp_used_logical_bytes value >? cp_total_logical_bytes value) &&
  fits_u64 (cp_inbound_bytes_per_tick value) && fits_u32 (cp_free_transfer_slots value) &&
  fits_u32 (cp_utilization_per_mille value) && negb (cp_utilization_per_mille value >? 1000).

(** ** The payloads *)

Record HelloPayload := mkHelloPayload {
  hp_cluster_id : Z;
  hp_region : Z;
  hp_site : Z;
  hp_failure_domain : Z;
  hp_worker_id : Z;
  hp_worker_boot_id : Z;
  hp_prior_incarnation : Z;
  hp_location_descriptor : string;
  hp_capabilities : ClusterCapabilities;
  hp_capacity : ClusterCapacity;
  hp_expected_coordinator_epoch : Z;
  hp_listen_port : Z
}.

Definition encode_HelloPayload (value : HelloPayload) : list Z :=
  encode_id (hp_cluster_id value) ++ encode_id (hp_region value) ++
  encode_id (hp_site value) ++ encode_id (hp_failure_domain value) ++
  encode_id (hp_worker_id value) ++ encode_id (hp_worker_boot_id value) ++
  encode_id (hp_prior_incarnation value) ++ ByteWriter.str (hp_location_descriptor value) ++
  encode_wire_capabilities (hp_capabilities value) ++
  encode_wire_capacity (hp_capacity value) ++
  encode_id (hp_expected_coordinator_epoch value) ++ ByteWriter.u64 (hp_listen_port value).

Definition decode_HelloPayload : Reader HelloPayload :=
  cluster_id <- decode_id;; region <- decode_id;; site <- decode_id;;
  failure_domain <- decode_id;; worker_id <- decode_id;; worker_boot_id <- decode_id;;
  prior_incarnation <- decode_id;; location_descriptor <- Reader.str kMaxLocationLength;;
  capabilities <- decode_wire_capabilities;; capacity <- decode_wire_capacity;;
  expected_coordinator_epoch <- decode_id;; listen_port <- Reader.u64;;
  finish (mkHelloPayload cluster_id region site failure_domain worker_id worker_boot_id
    prior_incarnation location_descriptor capabilities capacity expected_coordinator_epoch
    listen_port).

Definition encodable_HelloPayload (value : HelloPayload) : bool :=
  fits_u64 (hp_cluster_id value) && fits_u64 (hp_region value) && fits_u64 (hp_site value) &&
  fits_u64 (hp_failure_domain value) && fits_u64 (hp_worker_id value) &&
  fits_u64 (hp_worker_boot_id value) && fits_u64 (hp_prior_incarnation value) &&
  fits_str kMaxLocationLength (hp_location_descriptor value) &&
  encodable_wire_capabilities (hp_capabilities value) &&
  encodable_wire_capacity (hp_capacity value) &&
  fits_u64 (hp_expected_coordinator_epoch value) && fits_u64 (hp_listen_port value).

Record HelloAckPayload := mkHelloAckPayload {
  ha_cluster_id : Z;
  ha_incarnation : Z;
  ha_worker_id : Z;
  ha_worker_boot_id : Z;
  ha_coordinator_id : Z;
  ha_coordinator_epoch : Z;
  ha_accepted : Z;
  ha_detail : string
}.

Definition encode_HelloAckPayload (value : HelloAckPayload) : list Z :=
  encode_id (ha_cluster_id value) ++ encode_id (ha_incarnation value) ++
  encode_id (ha_worker_id value) ++ encode_id (ha_worker_boot_id value) ++
  encode_id (ha_coordinator_id value) ++ encode_id (ha_coordinator_epoch value) ++
  ByteWriter.u32 (ha_accepted value) ++ ByteWriter.str (ha_detail value).

Definition decode_HelloAckPayload : Reader HelloAckPayload :=
  cluster_id <- decode_id;; incarnation <- decode_id;; worker_id <- decode_id;;
  worker_boot_id <- decode_id;; coordinator_id <- decode_id;; coordinator_epoch <- decode_id;;
  accepted <- Reader.u32;; detail <- Reader.str kMaxDetailLength;;
  finish (mkHelloAckPayload cluster_id incarnation worker_id worker_boot_id coordinator_id
    coordinator_epoch accepted detail).

Definition encodable_HelloAckPayload (value : HelloAckPayload) : bool :=
  fits_u64 (ha_cluster_id value) && fits_u64 (ha_incarnation value) &&
  fits_u64 (ha_worker_id value) && fits_u64 (ha_worker_boot_id value) &&
  fits_u64 (ha_coordinator_id value) && fits_u64 (ha_coordinator_epoch value) &&
  fits_u32 (ha_accepted value) && fits_str kMaxDetailLength (ha_detail value).

Record EvidencePayload := mkEvidencePayload {
  ep_cluster_id : Z;
  ep_cluster_incarnation : Z;
  ep_worker_boot_id : Z;
  ep_health : ClusterHealthState;
  ep_capabilities : ClusterCapabilities;
  ep_capacity : ClusterCapacity;
  ep_expected_coordinator_epoch : Z
}.

#[export] Instance EvidencePayload_eta : Eta EvidencePayload := λ r,
  mkEvidencePayload (ep_cluster_id r) (ep_cluster_incarnation r) (ep_worker_boot_id r)
    (ep_health r) (ep_capabilities r) (ep_capacity r) (ep_expected_coordinator_epoch r).

(** Only the tags and the accelerators of the capabilities are on the wire. *)
Definition encode_EvidencePayload (value : EvidencePayload) : list Z :=
  encode_id (ep_cluster_id value) ++ encode_id (ep_cluster_incarnation value) ++
  encode_id (ep_worker_boot_id value) ++ encode_enum (ep_health value) ++
  encode_tags (cc_tags (ep_capabilities value)) ++
  encode_tags (cc_accelerator_architectures (ep_capabilities value)) ++
  encode_wire_capacity (ep_capacity value) ++ encode_id (ep_expected_coordinator_epoch value).

Definition decode_health : Reader ClusterHealthState :=
  health <- Reader.u16;;
  match enum_cast health with
  | Some value => rret value
  | None => Reader.fail EC.FRAME_CORRUPT
  end.

(** The capabilities that are not on the wire keep the defaults of the struct. *)
Definition evidence_capabilities (tags architectures : list string) : ClusterCapabilities :=
  mkClusterCapabilities tags [] architectures false false.

Definition decode_EvidencePayload : Reader EvidencePayload :=
  cluster_id <- decode_id;; cluster_incarnation <- decode_id;; worker_boot_id <- decode_id;;
  health <- decode_health;; tags <- decode_tags;; architectures <- decode_tags;;
  capacity <- decode_wire_capacity;; expected_coordinator_epoch <- decode_id;;
  finish (mkEvidencePayload cluster_id cluster_incarnation worker_boot_id health
    (evidence_capabilities tags architectures) capacity expected_coordinator_epoch).

Definition encodable_EvidencePayload (value : EvidencePayload) : bool :=
  fits_u64 (ep_cluster_id value) && fits_u64 (ep_cluster_incarnation value) &&
  fits_u64 (ep_worker_boot_id value) && fits_tags (cc_tags (ep_capabilities value)) &&
  fits_tags (cc_accelerator_architectures (ep_capabilities value)) &&
  encodable_wire_capacity (ep_capacity value) && fits_u64 (ep_expected_coordinator_epoch value).

(** What a receiver sees of an evidence payload. *)
Definition evidence_on_the_wire (value : EvidencePayload) : EvidencePayload :=
  mkEvidencePayload (ep_cluster_id value) (ep_cluster_incarnation value)
    (ep_worker_boot_id value) (ep_health value)
    (evidence_capabilities (cc_tags (ep_capabilities value))
       (cc_accelerator_architectures (ep_capabilities value)))
    (ep_capacity value) (ep_expected_coordinator_epoch value).

Record TransferIntentPayload := mkTransferIntentPayload {
  ti_transfer_id : Z;
  ti_transfer_generation : Z;
  ti_operation_id : Z;
  ti_operation_generation : Z;
  ti_migration_id : Z;
  ti_migration_generation : Z;
  ti_reservation_id : Z;
  ti_reservation_generation : Z;
  ti_state_id : Z;
  ti_state_generation : Z;
  ti_destination_replica : Z;
  ti_destination_replica_generation : Z;
  ti_destination_cluster : Z;
  ti_destination_incarnation : Z;
  ti_source_cluster : Z;
  ti_source_incarnation : Z;
  ti_source_replica : Z;
  ti_payload_bytes : Z;
  ti_expected_digest : Digest;
  ti_payload_seed : Z;
  ti_coordinator_epoch : Z;
  ti_reservation_expires_at : Z;
  ti_source_host : string;
  ti_source_data_port : Z;
  ti_destination_data_port : Z
}.

Definition encode_TransferIntentPayload (value : TransferIntentPayload) : list Z :=
  encode_id (ti_transfer_id value) ++ encode_id (ti_transfer_generation value) ++
  encode_id (ti_operation_id value) ++ encode_id (ti_operation_generation value) ++
  encode_id (ti_migration_id value) ++ encode_id (ti_migration_generation value) ++
  encode_id (ti_reservation_id value) ++ encode_id (ti_reservation_generation value) ++
  encode_id (ti_state_id value) ++ encode_id (ti_state_generation value) ++
  encode_id (ti_destination_replica value) ++
  encode_id (ti_destination_replica_generation value) ++
  encode_id (ti_destination_cluster value) ++ encode_id (ti_destination_incarnation value) ++
  encode_id (ti_source_cluster value) ++ encode_id (ti_source_incarnation value) ++
  encode_id (ti_source_replica value) ++ ByteWriter.u64 (ti_payload_bytes value) ++
  encode_Digest (ti_expected_digest value) ++ ByteWriter.u64 (ti_payload_seed value) ++
  encode_id (ti_coordinator_epoch value) ++ ByteWriter.u64 (ti_reservation_expires_at value) ++
  ByteWriter.str (ti_source_host value) ++ ByteWriter.u64 (ti_source_data_port value) ++
  ByteWriter.u64 (ti_destination_data_port value).

Definition decode_TransferIntentPayload : Reader TransferIntentPayload :=
  transfer_id <- decode_id;; transfer_generation <- decode_id;; operation_id <- decode_id;;
  operation_generation <- decode_id;; migration_id <- decode_id;;
  migration_generation <- decode_id;; reservation_id <- decode_id;;
  reservation_generation <- decode_id;; state_id <- decode_id;; state_generation <- decode_id;;
  destination_replica <- decode_id;; destination_replica_generation <- decode_id;;
  destination_cluster <- decode_id;; destination_incarnation <- decode_id;;
  source_cluster <- decode_id;; source_incarnation <- decode_id;; source_replica <- decode_id;;
  payload_bytes <- Reader.u64;;
  if payload_bytes >? kMaxFramePayloadBytes then Reader.fail EC.FRAME_TOO_LARGE
  else
    expected_digest <- decode_Digest;; payload_seed <- Reader.u64;;
    coordinator_epoch <- decode_id;; reservation_expires_at <- Reader.u64;;
    source_host <- Reader.str kMaxLocationLength;; source_data_port <- Reader.u64;;
    destination_data_port <- Reader.u64;;
    finish (mkTransferIntentPayload transfer_id transfer_generation operation_id
      operation_generation migration_id migration_generation reservation_id
      reservation_generation state_id state_generation destination_replica
      destination_replica_generation destination_cluster destination_incarnation source_cluster
      source_incarnation source_replica payload_bytes expected_digest payload_seed
      coordinator_epoch reservation_expires_at source_host source_data_port
      destination_data_port).

Definition encodable_TransferIntentPayload (value : TransferIntentPayload) : bool :=
  fits_u64 (ti_transfer_id value) && fits_u64 (ti_transfer_generation value) &&
  fits_u64 (ti_operation_id value) && fits_u64 (ti_operation_generation value) &&
  fits_u64 (ti_migration_id value) && fits_u64 (ti_migration_generation value) &&
  fits_u64 (ti_reservation_id value) && fits_u64 (ti_reservation_generation value) &&
  fits_u64 (ti_state_id value) && fits_u64 (ti_state_generation value) &&
  fits_u64 (ti_destination_replica value) &&
  fits_u64 (ti_destination_replica_generation value) &&
  fits_u64 (ti_destination_cluster value) && fits_u64 (ti_destination_incarnation value) &&
  fits_u64 (ti_source_cluster value) && fits_u64 (ti_source_incarnation value) &&
  fits_u64 (ti_source_replica value) && fits_u64 (ti_payload_bytes value) &&
  negb (ti_payload_bytes value >? kMaxFramePayloadBytes) &&
  encodable_Digest (ti_expected_digest value) && fits_u64 (ti_payload_seed value) &&
  fits_u64 (ti_coordinator_epoch value) && fits_u64 (ti_reservation_expires_at value) &&
  fits_str kMaxLocationLength (ti_source_host value) && fits_u64 (ti_source_data_port value) &&
  fits_u64 (ti_destination_data_port value).

Record TransferReportPayload := mkTransferReportPayload {
  tr_transfer_id : Z;
  tr_transfer_generation : Z;
  tr_operation_id : Z;
  tr_operation_generation : Z;
  tr_replica_id : Z;
  tr_replica_generation : Z;
  tr_cluster_incarnation : Z;
  tr_worker_boot_id : Z;
  tr_bytes_transferred : Z;
  tr_measured_digest : Digest;
  tr_completed : Z;
  tr_failed : Z;
  tr_detail : string
}.

Definition encode_TransferReportPayload (value : TransferReportPayload) : list Z :=
  encode_id (tr_transfer_id value) ++ encode_id (tr_transfer_generation value) ++
  encode_id (tr_operation_id value) ++ encode_id (tr_operation_generation value) ++
  encode_id (tr_replica_id value) ++ encode_id (tr_replica_generation value) ++
  encode_id (tr_cluster_incarnation value) ++ encode_id (tr_worker_boot_id value) ++
  ByteWriter.u64 (tr_bytes_transferred value) ++ encode_Digest (tr_measured_digest value) ++
  ByteWriter.u32 (tr_completed value) ++ ByteWriter.u32 (tr_failed value) ++
  ByteWriter.str (tr_detail value).

Definition decode_TransferReportPayload : Reader TransferReportPayload :=
  transfer_id <- decode_id;; transfer_generation <- decode_id;; operation_id <- decode_id;;
  operation_generation <- decode_id;; replica_id <- decode_id;;
  replica_generation <- decode_id;; cluster_incarnation <- decode_id;;
  worker_boot_id <- decode_id;; bytes_transferred <- Reader.u64;;
  measured_digest <- decode_Digest;; completed <- Reader.u32;; failed <- Reader.u32;;
  if (completed >? 1) || (failed >? 1) then Reader.fail EC.FRAME_CORRUPT
  else
    detail <- Reader.str kMaxDetailLength;;
    finish (mkTransferReportPayload transfer_id transfer_generation operation_id
      operation_generation replica_id replica_generation cluster_incarnation worker_boot_id
      bytes_transferred measured_digest completed failed detail).

Definition encodable_TransferReportPayload (value : TransferReportPayload) : bool :=
  fits_u64 (tr_transfer_id value) && fits_u64 (tr_transfer_generation value) &&
  fits_u64 (tr_operation_id value) && fits_u64 (tr_operation_generation value) &&
  fits_u64 (tr_replica_id value) && fits_u64 (tr_replica_generation value) &&
  fits_u64 (tr_cluster_incarnation value) && fits_u64 (tr_worker_boot_id value) &&
  fits_u64 (tr_bytes_transferred value) && encodable_Digest (tr_measured_digest value) &&
  fits_u32 (tr_completed value) && fits_u32 (tr_failed value) &&
  negb ((tr_completed value >? 1) || (tr_failed value >? 1)) &&
  fits_str kMaxDetailLength (tr_detail value).

Record VerifyReportPayload := mkVerifyReportPayload {
  vr_verification_id : Z;
  vr_replica_id : Z;
  vr_replica_generation : Z;
  vr_operation_id : Z;
  vr_operation_generation : Z;
  vr_cluster_incarnation : Z;
  vr_worker_boot_id : Z;
  vr_integrity_verified : Z;
  vr_measured_digest : Digest;
  vr_compatibility_verified : Z;
  vr_verified_bytes : Z;
  vr_durability : Z;
  vr_detail : string
}.

Definition encode_VerifyReportPayload (value : VerifyReportPayload) : list Z :=
  encode_id (vr_verification_id value) ++ encode_id (vr_replica_id value) ++
  encode_id (vr_replica_generation value) ++ encode_id (vr_operation_id value) ++
  encode_id (vr_operation_generation value) ++ encode_id (vr_cluster_incarnation value) ++
  encode_id (vr_worker_boot_id value) ++ ByteWriter.u32 (vr_integrity_verified value) ++
  encode_Digest (vr_measured_digest value) ++
  ByteWriter.u32 (vr_compatibility_verified value) ++
  ByteWriter.u64 (vr_verified_bytes value) ++ ByteWriter.u32 (vr_durability value) ++
  ByteWriter.str (vr_detail value).

Definition decode_VerifyReportPayload : Reader VerifyReportPayload :=
  verification_id <- decode_id;; replica_id <- decode_id;; replica_generation <- decode_id;;
  operation_id <- decode_id;; operation_generation <- decode_id;;
  cluster_incarnation <- decode_id;; worker_boot_id <- decode_id;;
  integrity_verified <- Reader.u32;; measured_digest <- decode_Digest;;
  compatibility_verified <- Reader.u32;; verified_bytes <- Reader.u64;;
  durability <- Reader.u32;;
  if durability >? enum_value DC.ARCHIVAL then Reader.fail EC.FRAME_CORRUPT
  else
    detail <- Reader.str kMaxDetailLength;;
    finish (mkVerifyReportPayload verification_id replica_id replica_generation operation_id
      operation_generation cluster_incarnation worker_boot_id integrity_verified measured_digest
      compatibility_verified verified_bytes durability detail).

Definition encodable_VerifyReportPayload (value : VerifyReportPayload) : bool :=
  fits_u64 (vr_verification_id value) && fits_u64 (vr_replica_id value) &&
  fits_u64 (vr_replica_generation value) && fits_u64 (vr_operation_id value) &&
  fits_u64 (vr_operation_generation value) && fits_u64 (vr_cluster_incarnation value) &&
  fits_u64 (vr_worker_boot_id value) && fits_u32 (vr_integrity_verified value) &&
  encodable_Digest (vr_measured_digest value) && fits_u32 (vr_compatibility_verified value) &&
  fits_u64 (vr_verified_bytes value) && fits_u32 (vr_durability value) &&
  negb (vr_durability value >? enum_value DC.ARCHIVAL) &&
  fits_str kMaxDetailLength (vr_detail value).

Record DataRequestPayload := mkDataRequestPayload {
  dr_state_id : Z;
  dr_state_generation : Z;
  dr_replica_id : Z;
  dr_offset : Z;
  dr_length : Z
}.

Definition encode_DataRequestPayload (value : DataRequestPayload) : list Z :=
  encode_id (dr_state_id value) ++ encode_id (dr_state_generation value) ++
  encode_id (dr_replica_id value) ++ ByteWriter.u64 (dr_offset value) ++
  ByteWriter.u64 (dr_length value).

Definition decode_DataRequestPayload : Reader DataRequestPayload :=
  state_id <- decode_id;; state_generation <- decode_id;; replica_id <- decode_id;;
  offset <- Reader.u64;; length <- Reader.u64;;
  finish (mkDataRequestPayload state_id state_generation replica_id offset length).

Definition encodable_DataRequestPayload (value : DataRequestPayload) : bool :=
  fits_u64 (dr_state_id value) && fits_u64 (dr_state_generation value) &&
  fits_u64 (dr_replica_id value) && fits_u64 (dr_offset value) && fits_u64 (dr_length value).

Record DataChunkPayload := mkDataChunkPayload {
  dc_state_id : Z;
  dc_state_generation : Z;
  dc_replica_id : Z;
  dc_offset : Z;
  dc_last : Z;
  dc_digest : Digest;
  dc_bytes : list Z
}.

Definition encode_DataChunkPayload (value : DataChunkPayload) : list Z :=
  encode_id (dc_state_id value) ++ encode_id (dc_state_generation value) ++
  encode_id (dc_replica_id value) ++ ByteWriter.u64 (dc_offset value) ++
  ByteWriter.u32 (dc_last value) ++ encode_Digest (dc_digest value) ++
  ByteWriter.blob (dc_bytes value).

Definition decode_DataChunkPayload (max_bytes : Z) : Reader DataChunkPayload :=
  state_id <- decode_id;; state_generation <- decode_id;; replica_id <- decode_id;;
  offset <- Reader.u64;; last <- Reader.u32;;
  if last >? 1 then Reader.fail EC.FRAME_CORRUPT
  else
    digest <- decode_Digest;; bytes <- Reader.blob max_bytes;;
    finish (mkDataChunkPayload state_id state_generation replica_id offset last digest bytes).

Definition encodable_DataChunkPayload (max_bytes : Z) (value : DataChunkPayload) : bool :=
  fits_u64 (dc_state_id value) && fits_u64 (dc_state_generation value) &&
  fits_u64 (dc_replica_id value) && fits_u64 (dc_offset value) && fits_u32 (dc_last value) &&
  negb (dc_last value >? 1) && encodable_Digest (dc_digest value) &&
  fits_blob max_bytes (dc_bytes value).

Record HostStatePayload := mkHostStatePayload {
  hs_state_id : Z;
  hs_state_generation : Z;
  hs_replica_id : Z;
  hs_replica_generation : Z;
  hs_expected_digest : Digest;
  hs_bytes : list Z
}.

Definition encode_HostStatePayload (value : HostStatePayload) : list Z :=
  encode_id (hs_state_id value) ++ encode_id (hs_state_generation value) ++
  encode_id (hs_replica_id value) ++ encode_id (hs_replica_generation value) ++
  encode_Digest (hs_expected_digest value) ++ ByteWriter.blob (hs_bytes value).

Definition decode_HostStatePayload (max_bytes : Z) : Reader HostStatePayload :=
  state_id <- decode_id;; state_generation <- decode_id;; replica_id <- decode_id;;
  replica_generation <- decode_id;; expected_digest <- decode_Digest;;
  bytes <- Reader.blob max_bytes;;
  finish (mkHostStatePayload state_id state_generation replica_id replica_generation
    expected_digest bytes).

Definition encodable_HostStatePayload (max_bytes : Z) (value : HostStatePayload) : bool :=
  fits_u64 (hs_state_id value) && fits_u64 (hs_state_generation value) &&
  fits_u64 (hs_replica_id value) && fits_u64 (hs_replica_generation value) &&
  encodable_Digest (hs_expected_digest value) && fits_blob max_bytes (hs_bytes value).

Record SimplePayload := mkSimplePayload {
  sm_ok : Z;
  sm_code : Z;
  sm_detail : string;
  sm_extra : string
}.

Definition encode_SimplePayload (value : SimplePayload) : list Z :=
  ByteWriter.u32 (sm_ok value) ++ ByteWriter.u16 (sm_code value) ++
  ByteWriter.str (sm_detail value) ++ ByteWriter.str (sm_extra value).

Definition decode_SimplePayload : Reader SimplePayload :=
  ok <- Reader.u32;; code <- Reader.u16;; detail <- Reader.str kMaxDetailLength;;
  extra <- Reader.str kMaxDetailLength;;
  finish (mkSimplePayload ok code detail extra).

Definition encodable_SimplePayload (value : SimplePayload) : bool :=
  fits_u32 (sm_ok value) && fits_u16 (sm_code value) &&
  fits_str kMaxDetailLength (sm_detail value) && fits_str kMaxDetailLength (sm_extra value).

(** ** What a reader accepts

    [parses m P]: over data made of bytes, whatever [m] returns and the bytes it
    passed over are related by [P].  [exhausts m P]: the same of a reader that
    must reach the end of the data, with all that was left. *)
Definition parses {A} (m : Reader A) (P : A → list Z → Prop) : Prop :=
  ∀ r v r', Forall is_byte (br_data r) → m r = (Some v, r') →
    br_data r' = br_data r ∧
    ∃ seg, drop (br_position r) (br_data r) = seg ++ drop (br_position r') (br_data r') ∧ P v seg.

Definition exhausts {A} (m : Reader A) (P : A → list Z → Prop) : Prop :=
  ∀ r v r', Forall is_byte (br_data r) → m r = (Some v, r') →
    P v (drop (br_position r) (br_data r)).

Lemma parses_ret {A} (v : A) (P : A → list Z → Prop) : P v [] → parses (rret v) P.
Proof. intros HP r v' r' _ [= <- <-]. split; [done|]. by exists []. Qed.

Lemma parses_fail {A} code (P : A → list Z → Prop) : parses (Reader.fail code) P.
Proof. intros r v r' _ [=]. Qed.

Lemma parses_bind {A B} (m : Reader A) (f : A → Reader B) P (Q : B → list Z → Prop) :
  parses m P → (∀ a seg, P a seg → parses (f a) (λ b tail, Q b (seg ++ tail))) →
  parses (rbind m f) Q.
Proof.
  intros Hm Hf r b r' Hd (a & r1 & Ea & Eb)%rbind_Some.
  destruct (Hm r a r1 Hd Ea) as (Hr & seg & Hs & HP). rewrite <-Hr in Hd.
  destruct (Hf a seg HP r1 b r' Hd Eb) as (Hr' & tail & Ht & HQ).
  split; [by rewrite Hr'|]. exists (seg ++ tail). split; [|done].
  by rewrite Hs, Ht, (assoc_L (++)).
Qed.

Lemma parses_weaken {A} (m : Reader A) (P Q : A → list Z → Prop) :
  parses m P → (∀ a seg, P a seg → Q a seg) → parses m Q.
Proof. intros Hm HPQ r v r' Hd E. destruct (Hm r v r' Hd E) as (? & seg & ? & ?). eauto. Qed.

Lemma exhausts_bind {A B} (m : Reader A) (f : A → Reader B) P (Q : B → list Z → Prop) :
  parses m P → (∀ a seg, P a seg → exhausts (f a) (λ b tail, Q b (seg ++ tail))) →
  exhausts (rbind m f) Q.
Proof.
  intros Hm Hf r b r' Hd (a & r1 & Ea & Eb)%rbind_Some.
  destruct (Hm r a r1 Hd Ea) as (Hr & seg & -> & HP). rewrite <-Hr in Hd.
  exact (Hf a seg HP r1 b r' Hd Eb).
Qed.

Lemma exhausts_fail {A} code (P : A → list Z → Prop) : exhausts (Reader.fail code) P.
Proof. intros r v r' _ [=]. Qed.

Lemma exhausts_finish {A} (v : A) (P : A → list Z → Prop) : P v [] → exhausts (finish v) P.
Proof.
  intros HP r v' r' _. unfold finish, Reader.at_end.
  destruct (br_ok r); [|done]. cbn [andb].
  destruct (Nat.eqb_spec (br_position r) (length (br_data r))) as [E|]; [|done].
  intros [= <- _]. by rewrite E, drop_all.
Qed.

Lemma parses_fixed n :
  parses (Reader.fixed n)
    (λ v seg, (0 <=? v) && (v <? 2 ^ (8 * Z.of_nat n)) = true ∧ seg = be_bytes n v).
Proof. intros r v r' Hd E. destruct (fixed_inv n r v r' Hd E) as (_ & ? & ? & ?). eauto. Qed.

Lemma parses_raw count :
  0 ≤ count →
  parses (Reader.raw count)
    (λ v seg, Z.of_nat (length v) = count ∧ forallb fits_byte v = true ∧ seg = v).
Proof.
  intros Hc r v r' Hd E.
  destruct (produces_raw count r v r' Hd E) as [[Hl%Z.eqb_eq Hb]%andb_true_iff Hr].
  split; [done|]. exists v. split; [|split_and!; [lia|done|done]]. revert E. unfold Reader.raw.
  destruct (br_ok r); [|done]. unfold checked_add. cbn [negb].
  destruct (_ >? u64_max - count); [done|]. destruct (_ >? _); [done|].
  intros [= <- <-]. cbn. by rewrite <-drop_drop, take_drop.
Qed.

(** ** Leaves

    [leaf enc ok m]: [m] reads back what [enc] writes, and what it accepts is within
    bounds and was written by [enc]. *)
Record leaf {A} (enc : A → list Z) (ok : A → bool) (m : Reader A) : Prop := {
  leaf_reads v : ok v = true → reads m v (enc v);
  leaf_parses : parses m (λ v seg, ok v = true ∧ seg = enc v)
}.

Lemma leaf_u16 : leaf ByteWriter.u16 fits_u16 Reader.u16.
Proof.
  split; [|exact (parses_fixed 2)].
  intros v [?%Z.leb_le ?%Z.ltb_lt]%andb_true_iff. by apply reads_u16.
Qed.

Lemma leaf_u32 : leaf ByteWriter.u32 fits_u32 Reader.u32.
Proof. split; [apply reads_fit_u32|exact (parses_fixed 4)]. Qed.

Lemma leaf_u64 : leaf ByteWriter.u64 fits_u64 Reader.u64.
Proof. split; [apply reads_fit_u64|exact (parses_fixed 8)]. Qed.

Lemma leaf_id : leaf encode_id fits_u64 decode_id.
Proof. exact leaf_u64. Qed.

Lemma leaf_boolean : leaf ByteWriter.boolean fits_any Reader.boolean.
Proof.
  split; [intros v _; apply reads_boolean|].
  eapply parses_bind; [exact (parses_fixed 1)|].
  intros v seg [[Hv%Z.leb_le _]%andb_true_iff ->].
  destruct (Z.gtb_spec v 1); [apply parses_fail|]. apply parses_ret. split; [done|].
  assert (v = 0 ∨ v = 1) as [-> | ->] by lia; reflexivity.
Qed.

Lemma fits_byte_range b : fits_byte b = true → is_byte b.
Proof. intros [?%Z.leb_le ?%Z.ltb_lt]%andb_true_iff. done. Qed.

Lemma as_bytes_of_bytes l : forallb fits_byte l = true → as_bytes (bytes_to_string l) = l.
Proof.
  induction l as [|b l IH]; cbn [forallb bytes_to_string]; [done|].
  intros [Hb Hl]%andb_true_iff. simpl. rewrite IH by done. f_equal.
  apply fits_byte_range in Hb. unfold is_byte in Hb. unfold char_byte, byte_char.
  rewrite Ascii.N_ascii_embedding by lia. lia.
Qed.

Lemma leaf_blob max : leaf ByteWriter.blob (fits_blob max) (Reader.blob max).
Proof.
  split.
  - intros v H. unfold fits_blob in H. split_fits H. apply Z.leb_le in H. apply Z.ltb_lt in Hf0.
    apply reads_blob; lia.
  - eapply parses_bind; [exact (parses_fixed 4)|].
    intros n seg [[Hn%Z.leb_le Hn'%Z.ltb_lt]%andb_true_iff ->].
    destruct (Z.gtb_spec n max); [apply parses_fail|].
    eapply parses_weaken; [by apply parses_raw|]. intros l tail (Hl & Hb & ->).
    change (2 ^ (8 * Z.of_nat 4)) with (2 ^ 32) in Hn'. split.
    + unfold fits_blob. join_fits; [apply Z.leb_le; lia|apply Z.ltb_lt; lia|done].
    + rewrite blob_small by lia. by rewrite Hl.
Qed.

Lemma leaf_str max : max < 2 ^ 32 → leaf ByteWriter.str (fits_str max) (Reader.str max).
Proof.
  intros Hmax. split; [intros v; by apply reads_fit_str|].
  eapply parses_bind; [exact (parses_fixed 4)|].
  intros n seg [[Hn%Z.leb_le Hn'%Z.ltb_lt]%andb_true_iff ->].
  destruct (Z.gtb_spec n max); [apply parses_fail|].
  eapply parses_bind; [by apply parses_raw|]. intros l tail (Hl & Hb & ->).
  apply parses_ret. split.
  - unfold fits_str, string_size. rewrite length_bytes_to_string. apply Z.leb_le. lia.
  - unfold ByteWriter.str. rewrite as_bytes_of_bytes, blob_small, app_nil_r by (done || lia).
    by rewrite Hl.
Qed.

Lemma leaf_Digest : leaf encode_Digest encodable_Digest decode_Digest.
Proof.
  split; [apply Digest_laws|]. eapply parses_bind; [by apply parses_raw|].
  intros l seg (Hl & Hb & ->). apply parses_ret. rewrite app_nil_r. split; [|done].
  unfold encodable_Digest. cbn [dg_bytes]. by rewrite Hl, Hb.
Qed.

Lemma parses_elements {A} (enc : A → list Z) ok (m : Reader A) n :
  leaf enc ok m →
  parses (decode_elements n m)
    (λ l seg, length l = n ∧ forallb ok l = true ∧ seg = concat (map enc l)).
Proof.
  intros [_ Hm]. induction n as [|n IH]; cbn [decode_elements]; [by apply parses_ret|].
  eapply parses_bind; [exact Hm|]. intros a seg [Ha ->].
  eapply parses_bind; [exact IH|]. intros l tail (Hl & Hok & ->).
  apply parses_ret. cbn. rewrite Ha, Hl, app_nil_r. done.
Qed.

Lemma leaf_tags : leaf encode_tags fits_tags decode_tags.
Proof.
  assert (leaf ByteWriter.str (fits_str kMaxClusterTagLength) (Reader.str kMaxClusterTagLength))
    as Hstr by by apply leaf_str.
  pose proof (eq_refl : kMaxClusterTagCount = 128) as Hk. split.
  - intros l [Hl%Z.leb_le Hok]%andb_true_iff. unfold encode_tags, encode_vector.
    replace (u32 (Z.of_nat (length l))) with (Z.of_nat (length l))
      by (unfold u32; rewrite Z.mod_small; lia).
    eapply reads_bind; [apply reads_u32; lia|].
    destruct (Z.gtb_spec (Z.of_nat (length l)) kMaxClusterTagCount); [lia|].
    rewrite Nat2Z.id. by eapply reads_elements; [apply Hstr|].
  - eapply parses_bind; [exact (parses_fixed 4)|].
    intros n seg [[Hn%Z.leb_le Hn'%Z.ltb_lt]%andb_true_iff ->].
    destruct (Z.gtb_spec n kMaxClusterTagCount); [apply parses_fail|].
    eapply parses_weaken; [by apply parses_elements|]. intros l tail (Hl & Hok & ->). split.
    + apply andb_true_iff. split; [apply Z.leb_le; lia|done].
    + unfold encode_tags, encode_vector. f_equal. unfold u32. rewrite Z.mod_small by lia.
      rewrite Hl, Z2Nat.id by done. reflexivity.
Qed.

#[export] Hint Resolve leaf_u16 leaf_u32 leaf_u64 leaf_id leaf_boolean leaf_blob leaf_Digest
  leaf_tags leaf_reads : codec.
#[export] Hint Extern 1 (leaf _ _ (Reader.str _)) => apply leaf_str; reflexivity : codec.

(** ** From the definitions of a payload to its contract *)

Lemma reads_to_end_last {A B} (m : Reader A) (f : A → Reader B) a b enc :
  reads m a enc → reads_to_end (f a) b [] → reads_to_end (rbind m f) b enc.
Proof. intros Hm Hf. rewrite <-(app_nil_r enc). by eapply reads_to_end_bind. Qed.

Lemma reads_to_end_finish {A} (v : A) : reads_to_end (finish v) v [].
Proof.
  intros pre e _. unfold finish, Reader.at_end. cbn. by rewrite app_nil_r, Nat.eqb_refl.
Qed.

(** A guard that holds of what was sent does not stop the reader. *)
Ltac pass_guards :=
  repeat match goal with
    | H : negb ?c = true |- context [if ?c then _ else _] =>
        let E := fresh in
        assert (c = false) as E by (by apply negb_true_iff); rewrite E; clear E
    end.

(** Either direction, one field at a time. *)
Ltac leaf_reads_record :=
  repeat (first [ eapply reads_bind; [eapply leaf_reads; [solve [eauto 2 with codec]|first [assumption|reflexivity]]|]
                | eapply reads_map; [eapply leaf_reads; [solve [eauto 2 with codec]|first [assumption|reflexivity]]|] ];
          cbv beta; pass_guards).

Ltac payload_reads_record :=
  repeat (first [ eapply reads_to_end_bind; [eapply leaf_reads; [solve [eauto 2 with codec]|first [assumption|reflexivity]]|]
                | eapply reads_to_end_last; [eapply leaf_reads; [solve [eauto 2 with codec]|first [assumption|reflexivity]]|] ];
          cbv beta; pass_guards).

Ltac parse_fields bind fail_ :=
  repeat first
    [ eapply bind; [eapply leaf_parses; solve [eauto 2 with codec]|]; intros ? ? [? ->]; cbv beta
    | match goal with |- context [if ?c then Reader.fail _ else _] =>
        let E := fresh "E" in destruct c eqn:E; [apply fail_|apply negb_true_iff in E] end ].

Lemma leaf_wire_capabilities :
  leaf encode_wire_capabilities encodable_wire_capabilities decode_wire_capabilities.
Proof.
  split.
  - intros v H. unfold encodable_wire_capabilities in H. split_fits H.
    unfold encode_wire_capabilities, decode_wire_capabilities. leaf_reads_record.
    destruct v. apply reads_ret.
  - unfold decode_wire_capabilities. parse_fields @parses_bind @parses_fail.
    apply parses_ret. rewrite app_nil_r. split; [unfold encodable_wire_capabilities; by join_fits|done].
Qed.

Lemma leaf_wire_capacity : leaf encode_wire_capacity encodable_wire_capacity decode_wire_capacity.
Proof.
  split.
  - intros v H. unfold encodable_wire_capacity in H. split_fits H.
    unfold encode_wire_capacity, decode_wire_capacity. leaf_reads_record.
    destruct v. apply reads_ret.
  - unfold decode_wire_capacity. parse_fields @parses_bind @parses_fail.
    apply parses_ret. rewrite app_nil_r. split; [unfold encodable_wire_capacity; by join_fits|done].
Qed.

Lemma leaf_health : leaf encode_enum fits_any decode_health.
Proof.
  split.
  - intros v _. eapply reads_map; [apply reads_u16, enum_value_u16|].
    rewrite enum_cast_value. apply reads_ret.
  - eapply parses_bind; [exact (parses_fixed 2)|]. intros raw seg [_ ->].
    destruct (enum_cast raw) as [v|] eqn:E; [|apply parses_fail]. apply enum_cast_sound in E as <-.
    apply parses_ret. by rewrite app_nil_r.
Qed.

#[export] Hint Resolve leaf_wire_capabilities leaf_wire_capacity leaf_health : codec.

(** The contract of a payload codec: a value within the bounds of the protocol is read
    back from its encoding, and whatever byte string is read as a value is the
    encoding of that value, which is within the bounds. *)
Record canonical_payload {A} (enc : A → list Z) (dec : Reader A) (ok : A → bool) : Prop := {
  payload_decodes v : ok v = true → Z.of_nat (length (enc v)) ≤ u64_max →
    (dec (make_reader (enc v))).1 = Some v;
  payload_is_canonical image v : Forall is_byte image → (dec (make_reader image)).1 = Some v →
    image = enc v ∧ ok v = true
}.

Lemma canonical_payload_intro {A} (enc : A → list Z) (dec : Reader A) (ok : A → bool) :
  (∀ v, ok v = true → reads_to_end dec v (enc v)) →
  exhausts dec (λ v image, ok v = true ∧ image = enc v) →
  canonical_payload enc dec ok.
Proof.
  intros Hr He. split.
  - intros v Hok Hl. exact (Hr v Hok [] EC.OK Hl).
  - intros image v Hb. destruct (dec (make_reader image)) as [w r] eqn:E. cbn [fst]. intros ->.
    by destruct (He (make_reader image) v r Hb E).
Qed.

Ltac payload_codec enc dec ok :=
  apply canonical_payload_intro;
  [ let v := fresh "v" in let H := fresh "H" in
    intros v H; unfold ok in H; split_fits H; unfold enc, dec; payload_reads_record;
    destruct v; apply reads_to_end_finish
  | unfold dec; parse_fields @exhausts_bind @exhausts_fail; apply exhausts_finish;
    rewrite ?app_nil_r; split; [unfold ok; join_fits; solve [assumption|reflexivity]|reflexivity] ].

Lemma HelloPayload_canonical :
  canonical_payload encode_HelloPayload decode_HelloPayload encodable_HelloPayload.
Proof. payload_codec encode_HelloPayload decode_HelloPayload encodable_HelloPayload. Qed.

Lemma HelloAckPayload_canonical :
  canonical_payload encode_HelloAckPayload decode_HelloAckPayload encodable_HelloAckPayload.
Proof. payload_codec encode_HelloAckPayload decode_HelloAckPayload encodable_HelloAckPayload. Qed.

Lemma TransferIntentPayload_canonical :
  canonical_payload encode_TransferIntentPayload decode_TransferIntentPayload encodable_TransferIntentPayload.
Proof. payload_codec encode_TransferIntentPayload decode_TransferIntentPayload encodable_TransferIntentPayload. Qed.

Lemma TransferReportPayload_canonical :
  canonical_payload encode_TransferReportPayload decode_TransferReportPayload encodable_TransferReportPayload.
Proof. payload_codec encode_TransferReportPayload decode_TransferReportPayload encodable_TransferReportPayload. Qed.

Lemma VerifyReportPayload_canonical :
  canonical_payload encode_VerifyReportPayload decode_VerifyReportPayload encodable_VerifyReportPayload.
Proof. payload_codec encode_VerifyReportPayload decode_VerifyReportPayload encodable_VerifyReportPayload. Qed.

Lemma DataRequestPayload_canonical :
  canonical_payload encode_DataRequestPayload decode_DataRequestPayload encodable_DataRequestPayload.
Proof. payload_codec encode_DataRequestPayload decode_DataRequestPayload encodable_DataRequestPayload. Qed.

Lemma SimplePayload_canonical :
  canonical_payload encode_SimplePayload decode_SimplePayload encodable_SimplePayload.
Proof. payload_codec encode_SimplePayload decode_SimplePayload encodable_SimplePayload. Qed.

Lemma DataChunkPayload_canonical max_bytes :
  canonical_payload encode_DataChunkPayload (decode_DataChunkPayload max_bytes) (encodable_DataChunkPayload max_bytes).
Proof. payload_codec encode_DataChunkPayload decode_DataChunkPayload encodable_DataChunkPayload. Qed.

Lemma HostStatePayload_canonical max_bytes :
  canonical_payload encode_HostStatePayload (decode_HostStatePayload max_bytes) (encodable_HostStatePayload max_bytes).
Proof. payload_codec encode_HostStatePayload decode_HostStatePayload encodable_HostStatePayload. Qed.

Lemma EvidencePayload_reads value :
  encodable_EvidencePayload value = true →
  reads_to_end decode_EvidencePayload (evidence_on_the_wire value) (encode_EvidencePayload value).
Proof.
  intros H. unfold encodable_EvidencePayload in H. split_fits H.
  unfold encode_EvidencePayload, decode_EvidencePayload. payload_reads_record.
  apply reads_to_end_finish.
Qed.

(** The evidence decoder accepts exactly the images of evidence that carries no
    capability beyond what is on the wire. *)
Lemma EvidencePayload_canonical image value :
  Forall is_byte image → Z.of_nat (length image) ≤ u64_max →
  (decode_EvidencePayload (make_reader image)).1 = Some value ↔
  image = encode_EvidencePayload value ∧ encodable_EvidencePayload value = true ∧
  value = evidence_on_the_wire value.
Proof.
  intros Hb Hl. split.
  - intros E. destruct (decode_EvidencePayload (make_reader image)) as [w r] eqn:Er. cbn [fst] in E. subst w.
    assert (exhausts decode_EvidencePayload (λ v image,
      encodable_EvidencePayload v = true ∧ image = encode_EvidencePayload v ∧
      v = evidence_on_the_wire v)) as He.
    { unfold decode_EvidencePayload. parse_fields @exhausts_bind @exhausts_fail.
      apply exhausts_finish. rewrite ?app_nil_r.
      split_and!; [unfold encodable_EvidencePayload; by join_fits|reflexivity..]. }
    destruct (He (make_reader image) value r Hb Er) as (? & ? & ?). done.
  - intros (-> & H & E). rewrite E at 2. exact (EvidencePayload_reads value H [] EC.OK Hl).
Qed.

(** ** Properties *)

(** Message payloads are canonical.  A payload within the bounds of the protocol is
    read back from its encoding, and a byte string that is read as a payload is the
    encoding of that payload, which is within the bounds: what an agent or the coordinator
    sends is what its peer reads, and no other byte string is read as that message. *)
Theorem payloads_are_canonical :
  canonical_payload encode_HelloPayload decode_HelloPayload encodable_HelloPayload ∧
  canonical_payload encode_HelloAckPayload decode_HelloAckPayload encodable_HelloAckPayload ∧
  canonical_payload encode_TransferIntentPayload decode_TransferIntentPayload
    encodable_TransferIntentPayload ∧
  canonical_payload encode_TransferReportPayload decode_TransferReportPayload
    encodable_TransferReportPayload ∧
  canonical_payload encode_VerifyReportPayload decode_VerifyReportPayload
    encodable_VerifyReportPayload ∧
  canonical_payload encode_DataRequestPayload decode_DataRequestPayload
    encodable_DataRequestPayload ∧
  canonical_payload encode_SimplePayload decode_SimplePayload encodable_SimplePayload ∧
  ∀ max_bytes,
    canonical_payload encode_DataChunkPayload (decode_DataChunkPayload max_bytes)
      (encodable_DataChunkPayload max_bytes) ∧
    canonical_payload encode_HostStatePayload (decode_HostStatePayload max_bytes)
      (encodable_HostStatePayload max_bytes).
Proof.
  split_and!; [apply HelloPayload_canonical|apply HelloAckPayload_canonical
  |apply TransferIntentPayload_canonical|apply TransferReportPayload_canonical
  |apply VerifyReportPayload_canonical|apply DataRequestPayload_canonical
  |apply SimplePayload_canonical|].
  intros max_bytes. split; [apply DataChunkPayload_canonical|apply HostStatePayload_canonical].
Qed.

(** What evidence says of a cluster.  An evidence payload within bounds is read back,
    but of its capabilities only the tags and the accelerators: whatever storage classes,
    encryption and attestation the agent reported, the receiver reads none. *)
Theorem evidence_loses_capabilities (value : EvidencePayload) :
  encodable_EvidencePayload value = true →
  Z.of_nat (length (encode_EvidencePayload value)) ≤ u64_max →
  ∃ received,
    (decode_EvidencePayload (make_reader (encode_EvidencePayload value))).1 = Some received ∧
    received = value <| ep_capabilities :=
      (ep_capabilities value) <| cc_storage_classes := [] |>
        <| cc_encryption_at_rest := false |> <| cc_attestation := false |> |>.
Proof.
  intros H Hl. exists (evidence_on_the_wire value). split; [|reflexivity].
  exact (EvidencePayload_reads value H [] EC.OK Hl).
Qed.

Definition demo_evidence : EvidencePayload :=
  mkEvidencePayload 3 1 5 CH.HEALTHY
    (mkClusterCapabilities ["gpu"] ["nvme"] ["sm90"] true true)
    (mkClusterCapacity 100 10 7 2 250) 4.

Lemma evidence_loses_capabilities_witness :
  encodable_EvidencePayload demo_evidence = true ∧
  ∃ received,
    (decode_EvidencePayload (make_reader (encode_EvidencePayload demo_evidence))).1 =
      Some received ∧
    received = demo_evidence <| ep_capabilities :=
      (ep_capabilities demo_evidence) <| cc_storage_classes := [] |>
        <| cc_encryption_at_rest := false |> <| cc_attestation := false |> |>.
Proof.
  split; [reflexivity|].
  apply (evidence_loses_capabilities demo_evidence); [reflexivity|vm_compute; discriminate].
Defined.
