(* ===== verification/Transport.v ===== *)
(** * The framed transport ([transport.hpp] / [transport.cpp])

    [TcpConnection::send_frame] and [TcpConnection::receive_frame] over a socket.  The
    socket is what the operating system decides: each call to [send] or [recv] takes
    the next entry of a script, which says how many bytes it moves, that it would
    block, or that it fails.  A script that ends while a call is waiting leaves the
    caller blocked. *)

From S2P Require Import Prelude Taxonomy Bytes Crc Encoding Frames.

Local Open Scope Z_scope.

(** ** The socket *)

(** The outcome of one call: at most [S limit] bytes are moved, or the call
    returns a negative number with [EAGAIN] and its like, or with any other error. *)
Inductive call_outcome := Moves (limit : nat) | WouldBlock | Fails.

Definition script : Type := list call_outcome.

(** How many bytes a call that moves something moves, of those it was given. *)
Definition moved (limit available : nat) : nat := Nat.min (S limit) available.

(** ** Sending *)

(** [1U << 20U], the most one call is given. *)
Definition kSendChunk : Z := Z.shiftl 1 20.

Record Connection := mkConnection {
  cn_open : bool;
  cn_next_sequence : Z
}.

#[export] Instance Connection_eta : Eta Connection := λ c,
  mkConnection (cn_open c) (cn_next_sequence c).

Definition Connection_new : Connection := mkConnection true 1.

(** The loop of [send_frame] over what is left of the image.  Any return that is
    not positive ends it, a call that would block included.  The bytes that were
    handed to the socket, and the result; [None] while the caller is blocked. *)
Fixpoint send_loop (sc : script) (rest : list Z) : list Z * option (Result unit) * script :=
  match rest with
  | [] => ([], Some (Ok tt), sc)
  | _ =>
      match sc with
      | [] => ([], None, [])
      | Moves limit :: sc =>
          let n := moved limit (Z.to_nat (Z.min (Z.of_nat (length rest)) kSendChunk)) in
          let '(sent, result, sc) := send_loop sc (drop n rest) in
          (take n rest ++ sent, result, sc)
      | WouldBlock :: sc | Fails :: sc => ([], Some (Err EC.TRANSPORT_IO), sc)
      end
  end.

(** The frame as it leaves: a frame without a sequence number gets the next one. *)
Definition stamp (c : Connection) (frame : Frame) : Frame * Connection :=
  if fh_sequence (fr_header frame) =? 0
  then (mkFrame ((fr_header frame) <| fh_sequence := cn_next_sequence c |>) (fr_payload frame),
        c <| cn_next_sequence ::= λ n, u64 (n + 1) |>)
  else (frame, c).

Definition send_frame (c : Connection) (frame : Frame) (sc : script)
    : list Z * option (Result unit) * script * Connection :=
  if negb (cn_open c) then ([], Some (Err EC.TRANSPORT_CLOSED), sc, c)
  else
    let '(outgoing, c) := stamp c frame in
    (send_loop sc (encode_frame outgoing), c).

(** ** Receiving *)

Inductive received :=
  | Bytes (bytes : list Z) (sc : script) (stream : list Z)
  | Closed (got : nat) (sc : script)
  | Failed (sc : script) (stream : list Z)
  | Blocked.

(** Either loop of [receive_frame]: [want] bytes are still missing, [stream] is what
    the peer sent before it closed, and [got] bytes have arrived. *)
Fixpoint recv_loop (sc : script) (want got : nat) (stream : list Z) : received :=
  match want with
  | O => Bytes [] sc stream
  | _ =>
      match sc with
      | [] => Blocked
      | Moves limit :: sc =>
          match stream with
          | [] => Closed got sc
          | _ =>
              let n := moved limit (Nat.min want (length stream)) in
              match recv_loop sc (want - n) (got + n) (drop n stream) with
              | Bytes bytes sc rest => Bytes (take n stream ++ bytes) sc rest
              | other => other
              end
          end
      | WouldBlock :: sc => recv_loop sc want got stream
      | Fails :: sc => Failed sc stream
      end
  end.

(** The result, what the socket does next and what is left of the stream. *)
Definition receive_frame (c : Connection) (max_payload : Z) (sc : script) (stream : list Z)
    : option (Result Frame * script * list Z) :=
  if negb (cn_open c) then Some (Err EC.TRANSPORT_CLOSED, sc, stream)
  else
    match recv_loop sc kFrameHeaderBytes 0 stream with
    | Blocked => None
    | Failed sc stream => Some (Err EC.TRANSPORT_IO, sc, stream)
    | Closed got sc =>
        Some (Err (if (got =? 0)%nat then EC.TRANSPORT_CLOSED else EC.FRAME_TRUNCATED), sc, [])
    | Bytes header_bytes sc stream =>
        match decode_frame_header header_bytes with
        | Err code => Some (Err code, sc, stream)
        | Ok header =>
            if fh_payload_length header >? max_payload
            then Some (Err EC.FRAME_TOO_LARGE, sc, stream)
            else
              match recv_loop sc (Z.to_nat (fh_payload_length header)) 0 stream with
              | Blocked => None
              | Failed sc stream => Some (Err EC.TRANSPORT_IO, sc, stream)
              | Closed _ sc => Some (Err EC.FRAME_TRUNCATED, sc, [])
              | Bytes payload sc stream =>
                  if negb (length payload =? 0)%nat &&
                     negb (Crc32c.crc32c payload =? fh_payload_crc header)
                  then Some (Err EC.FRAME_CORRUPT, sc, stream)
                  else Some (Ok (mkFrame header payload), sc, stream)
              end
        end
    end.

(** The receive loops of the coordinator and of the agents, which leave at the first
    error: the frames of at most [n] turns and the error that ended them. *)
Fixpoint receive_frames (n : nat) (c : Connection) (max_payload : Z) (sc : script)
    (stream : list Z) : list Frame * option ErrorCode :=
  match n with
  | O => ([], None)
  | S n =>
      match receive_frame c max_payload sc stream with
      | None => ([], None)
      | Some (Err code, _, _) => ([], Some code)
      | Some (Ok frame, sc, stream) =>
          let '(frames, code) := receive_frames n c max_payload sc stream in
          (frame :: frames, code)
      end
  end.

(** The frames a connection puts on the wire, one call after another. *)
Fixpoint outgoing (c : Connection) (frames : list Frame) : list Frame :=
  match frames with
  | [] => []
  | frame :: frames =>
      let '(frame, c) := stamp c frame in
      mkFrame (sealed frame) (fr_payload frame) :: outgoing c frames
  end.

(** A sender that stops at the first call that fails or blocks: the bytes it
    handed to the socket. *)
Fixpoint send_frames (c : Connection) (frames : list Frame) (sc : script) : list Z :=
  match frames with
  | [] => []
  | frame :: frames =>
      match send_frame c frame sc with
      | (sent, Some (Ok _), sc, c) => sent ++ send_frames c frames sc
      | (sent, _, _, _) => sent
      end
  end.

(** ** What the socket must do *)

Definition moves (o : call_outcome) : bool := match o with Moves _ => true | _ => false end.
Definition healthy (o : call_outcome) : bool := match o with Fails => false | _ => true end.

(** The socket stays up and makes at least [n] moves. *)
Definition delivers (n : nat) (sc : script) : Prop :=
  forallb healthy sc = true ∧ (n ≤ length (List.filter moves sc))%nat.

Lemma delivers_weaken n m sc : (m ≤ n)%nat → delivers n sc → delivers m sc.
Proof. intros ? [? ?]. split; [done|lia]. Qed.

Lemma moved_range limit available : (0 < available)%nat → (0 < moved limit available ≤ available)%nat.
Proof. unfold moved. lia. Qed.

(** ** Sending *)

(** Whatever the socket does, what was handed to it is a prefix of the image, and
    all of it when the call succeeds. *)
Lemma send_loop_prefix sc rest :
  let '(sent, result, _) := send_loop sc rest in
  ∃ unsent, rest = sent ++ unsent ∧ (result = Some (Ok tt) → unsent = []).
Proof.
  revert rest. induction sc as [|o sc IH]; intros [|b rest]; cbn [send_loop].
  1,3: by exists []. { by eexists. }
  destruct o as [limit| |]; [|by eexists..].
  set (n := moved _ _). specialize (IH (drop n (b :: rest))).
  destruct (send_loop sc (drop n (b :: rest))) as [[sent result] sc'].
  destruct IH as (unsent & E & H). exists unsent. split; [|done].
  by rewrite <-(assoc_L (++)), <-E, take_drop.
Qed.

Lemma send_loop_completes sc rest :
  forallb moves sc = true → (length rest ≤ length sc)%nat →
  ∃ sc', send_loop sc rest = (rest, Some (Ok tt), sc').
Proof.
  revert rest. induction sc as [|o sc IH]; intros [|b rest] Hm Hl; cbn [send_loop].
  1,3: by eexists. { cbn in Hl. lia. }
  destruct o as [limit| |]; [|done..]. cbn [forallb moves andb] in Hm.
  set (n := moved _ _).
  assert (0 < n)%nat as Hn.
  { apply moved_range. change kSendChunk with 1048576. cbn [length]. lia. }
  destruct (IH (drop n (b :: rest))) as [sc' ->]; [done|rewrite length_drop; cbn [length] in *; lia|].
  exists sc'. by rewrite take_drop.
Qed.

(** ** Receiving *)

(** Whatever the socket does, the bytes that arrive are the next ones of the stream. *)
Lemma recv_loop_sound sc want got stream bytes sc' rest :
  recv_loop sc want got stream = Bytes bytes sc' rest →
  stream = bytes ++ rest ∧ length bytes = want.
Proof.
  revert want got stream bytes. induction sc as [|o sc IH]; intros [|want] got stream bytes; cbn [recv_loop].
  1,3: by intros [= <- <- <-]. { done. }
  destruct o as [limit| |]; [|apply IH|done]. destruct stream as [|b stream]; [done|].
  set (n := moved _ _). set (data := b :: stream).
  assert (n ≤ S want ∧ n ≤ length data)%nat as [Hn Hd].
  { unfold n, moved. subst data. cbn [length]. lia. }
  destruct (recv_loop sc (S want - n) (got + n) (drop n data)) as [more sc1 rest1| | |] eqn:E; [|done..].
  clearbody n data. intros [= <- <- <-]. apply IH in E as [E El]. split.
  - by rewrite <-(assoc_L (++)), <-E, take_drop.
  - rewrite length_app, length_take, El. lia.
Qed.

Lemma delivers_cons_Moves limit n sc : delivers (S n) (Moves limit :: sc) → delivers n sc.
Proof. intros [Hh Hn]. cbn in *. split; [done|lia]. Qed.

Lemma delivers_cons_WouldBlock n sc : delivers n (WouldBlock :: sc) → delivers n sc.
Proof. intros [Hh Hn]. done. Qed.

(** A healthy socket delivers what is wanted, or runs into the end of the stream. *)
Lemma recv_loop_progress sc want got stream :
  delivers (S (length stream)) sc →
  (want ≤ length stream)%nat ∧
    (∃ sc', recv_loop sc want got stream = Bytes (take want stream) sc' (drop want stream) ∧
       delivers (S (length (drop want stream))) sc') ∨
  (length stream < want)%nat ∧ ∃ sc', recv_loop sc want got stream = Closed (got + length stream) sc'.
Proof.
  revert want got stream. induction sc as [|o sc IH]; intros want got stream Hd.
  { destruct Hd as [_ Hd]. cbn in Hd. lia. }
  destruct want as [|want].
  { left. split; [lia|]. exists (o :: sc). rewrite drop_0. by destruct o. }
  cbn [recv_loop]. destruct o as [limit| |]; [| |by destruct Hd].
  2: { apply IH. by apply delivers_cons_WouldBlock. }
  apply delivers_cons_Moves in Hd. destruct stream as [|b stream].
  { right. split; [cbn; lia|]. exists sc. cbn. by rewrite Nat.add_0_r. }
  set (n := moved _ _). set (data := b :: stream) in *.
  assert (0 < n ∧ n ≤ S want ∧ n ≤ length data)%nat as (Hn & Hw & Hl).
  { unfold n, moved. subst data. cbn [length]. lia. }
  destruct (IH (S want - n)%nat (got + n)%nat (drop n data)) as [(Hle & sc' & -> & Hd')|(Hlt & sc' & ->)].
  { eapply delivers_weaken; [|exact Hd]. rewrite length_drop. lia. }
  - left. rewrite length_drop in Hle. split; [lia|]. exists sc'. rewrite drop_drop in *.
    replace (n + (S want - n))%nat with (S want) in * by lia. split; [|done]. f_equal.
    rewrite <-(take_drop n (take (S want) data)), take_take, Nat.min_l by lia. f_equal.
    by rewrite skipn_firstn_comm.
  - right. rewrite length_drop in *. split; [lia|]. exists sc'. f_equal. lia.
Qed.

(** ** Frames *)

(** The errors a broken or ended connection shows. *)
Definition is_transport_loss (code : ErrorCode) : bool :=
  match code with
  | EC.TRANSPORT_IO | EC.TRANSPORT_CLOSED | EC.FRAME_TRUNCATED => true
  | _ => false
  end.

Section receiving.
Context (c : Connection) (max_payload : Z) (Hopen : cn_open c = true).

(** A split of [a ++ b] that takes no more than [a] has. *)
Lemma app_split_le {A} (a b x y : list A) :
  a ++ b = x ++ y → (length x ≤ length a)%nat → ∃ z, a = x ++ z ∧ y = z ++ b.
Proof.
  intros E Hl. exists (drop (length x) a).
  assert (take (length x) a = x) as Ht.
  { rewrite <-(take_app_le a b (length x)) by done. by rewrite E, take_app_length. }
  split; [by rewrite <-Ht at 1; rewrite take_drop|].
  rewrite <-(drop_app_le a b) by done. by rewrite E, drop_app_length.
Qed.

Lemma header_parts frame :
  acceptable max_payload frame →
  encode_frame frame = header_bytes (fr_header frame) ++ fr_payload frame ∧
  decode_frame_header (header_bytes (fr_header frame)) = Ok (fr_header frame) ∧
  (fh_payload_length (fr_header frame) >? max_payload) = false ∧
  Z.to_nat (fh_payload_length (fr_header frame)) = length (fr_payload frame) ∧
  Crc32c.crc32c (fr_payload frame) = fh_payload_crc (fr_header frame).
Proof.
  intros Ha. pose proof (acceptable_length _ _ Ha) as Hlen. destruct Ha as [Hh Hs Hl].
  split_and!.
  - by rewrite encode_frame_parts, Hs.
  - apply decode_header_bytes; [done|by rewrite <-Hs|lia].
  - rewrite Hlen, Z.gtb_ltb. apply Z.ltb_ge. lia.
  - rewrite Hlen. apply Nat2Z.id.
  - by rewrite <-Hs.
Qed.

(** Whatever the socket does on a prefix of what was sent, the receiver returns the
    frame that was sent, or a loss. *)
Lemma receive_frame_sound frame tail stream lost sc result sc' rest :
  acceptable max_payload frame → stream ++ lost = encode_frame frame ++ tail →
  receive_frame c max_payload sc stream = Some (result, sc', rest) →
  result = Ok frame ∧ rest ++ lost = tail ∨
  ∃ code, result = Err code ∧ is_transport_loss code = true.
Proof.
  intros Ha. destruct (header_parts frame Ha) as (-> & Hdec & Hmax & Hlen & Hcrc). intros E.
  unfold receive_frame. rewrite Hopen. cbn [negb].
  destruct (recv_loop sc kFrameHeaderBytes 0 stream) as [hb sc1 stream1|got sc1|sc1 stream1|] eqn:E1;
    [|intros [= <- <- <-]; right; eexists; split; [done|by destruct (got =? 0)%nat]
     |intros [= <- <- <-]; right; by eexists|done].
  apply recv_loop_sound in E1 as [-> Hl1]. rewrite <-!(assoc_L (++)) in E.
  apply app_inj_1 in E as [-> E]; [|by rewrite Hl1, length_header_bytes].
  rewrite Hdec, Hmax, Hlen.
  destruct (recv_loop sc1 (length (fr_payload frame)) 0 stream1)
    as [pb sc2 stream2|got sc2|sc2 stream2|] eqn:E2;
    [|intros [= <- <- <-]; right; by eexists|intros [= <- <- <-]; right; by eexists|done].
  apply recv_loop_sound in E2 as [-> Hl2]. rewrite <-!(assoc_L (++)) in E.
  apply app_inj_1 in E as [-> E]; [|done].
  rewrite Hcrc, Z.eqb_refl. cbn [negb]. rewrite andb_false_r. intros [= <- <- <-]. left.
  split; [by destruct frame|done].
Qed.

Lemma receive_frame_end sc result sc' rest :
  receive_frame c max_payload sc [] = Some (result, sc', rest) →
  ∃ code, result = Err code ∧ is_transport_loss code = true.
Proof.
  unfold receive_frame. rewrite Hopen. cbn [negb].
  destruct (recv_loop sc kFrameHeaderBytes 0 []) as [hb sc1 stream1|got sc1|sc1 stream1|] eqn:E1.
  - apply recv_loop_sound in E1 as [E1 Hl]. symmetry in E1. by apply app_nil in E1 as [-> _].
  - intros [= <- <- <-]. eexists. split; [done|by destruct (got =? 0)%nat].
  - intros [= <- <- <-]. by eexists.
  - done.
Qed.

Lemma receive_frames_sound n frames stream lost sc received code :
  Forall (acceptable max_payload) frames → stream ++ lost = concat (map encode_frame frames) →
  receive_frames n c max_payload sc stream = (received, code) →
  (∃ missed, frames = received ++ missed) ∧ from_option is_transport_loss true code = true.
Proof.
  intros Hf. revert n stream sc received code.
  induction Hf as [|frame frames Ha Hf IH]; intros [|n] stream sc received code E; cbn [receive_frames].
  1,3: intros [= <- <-]; split; [by eexists|done].
  - apply app_nil in E as [-> ->].
    destruct (receive_frame c max_payload sc []) as [[[result sc'] rest]|] eqn:Er.
    + apply receive_frame_end in Er as (e & -> & He). intros [= <- <-]. split; [by exists []|done].
    + intros [= <- <-]. split; [by exists []|done].
  - destruct (receive_frame c max_payload sc stream) as [[[result sc'] rest]|] eqn:Er.
    2: { intros [= <- <-]. split; [by eexists|done]. }
    eapply receive_frame_sound in Er as [[-> Erest]|(e & -> & He)]; [| |done|exact E].
    + destruct (receive_frames n c max_payload sc' rest) as [more code'] eqn:Em.
      intros [= <- <-]. destruct (IH n rest sc' more code' Erest Em) as [(missed & ->) Hc].
      split; [by exists missed|done].
    + intros [= <- <-]. split; [by eexists|done].
Qed.
End receiving.

(** A healthy socket delivers the frames one after another and then the end. *)
Lemma receive_frame_progress c max_payload frame tail sc :
  cn_open c = true → acceptable max_payload frame →
  delivers (S (length (encode_frame frame ++ tail))) sc →
  ∃ sc', receive_frame c max_payload sc (encode_frame frame ++ tail) = Some (Ok frame, sc', tail) ∧
    delivers (S (length tail)) sc'.
Proof.
  intros Hopen Ha Hd. destruct (header_parts max_payload frame Ha) as (E & Hdec & Hmax & Hlen & Hcrc).
  rewrite E, <-(assoc_L (++)) in *. unfold receive_frame. rewrite Hopen. cbn [negb].
  destruct (recv_loop_progress sc kFrameHeaderBytes 0 _ Hd) as [(_ & sc1 & -> & Hd1)|(Hlt & _)].
  2: { rewrite length_app, length_header_bytes in Hlt. lia. }
  rewrite take_app_length', drop_app_length' in * by (symmetry; apply length_header_bytes).
  rewrite Hdec, Hmax, Hlen.
  destruct (recv_loop_progress sc1 (length (fr_payload frame)) 0 _ Hd1) as [(_ & sc2 & -> & Hd2)|(Hlt & _)].
  2: { rewrite length_app in Hlt. lia. }
  rewrite take_app_length, drop_app_length in *. rewrite Hcrc, Z.eqb_refl, andb_false_r.
  exists sc2. split; [|exact Hd2]. destruct frame. reflexivity.
Qed.

Lemma receive_end c max_payload sc :
  cn_open c = true → delivers 1 sc →
  ∃ sc', receive_frame c max_payload sc [] = Some (Err EC.TRANSPORT_CLOSED, sc', []).
Proof.
  intros Hopen Hd. unfold receive_frame. rewrite Hopen. cbn [negb].
  destruct (recv_loop_progress sc kFrameHeaderBytes 0 [] Hd) as [(Hle & _)|(_ & sc' & ->)].
  - cbn in Hle. unfold kFrameHeaderBytes in Hle. lia.
  - by exists sc'.
Qed.

Lemma receive_frames_complete c max_payload frames sc :
  cn_open c = true → Forall (acceptable max_payload) frames →
  delivers (S (length (concat (map encode_frame frames)))) sc →
  receive_frames (S (length frames)) c max_payload sc (concat (map encode_frame frames)) =
  (frames, Some EC.TRANSPORT_CLOSED).
Proof.
  intros Hopen Hf. revert sc. induction Hf as [|frame frames Ha Hf IH]; intros sc Hd.
  { destruct (receive_end c max_payload sc Hopen Hd) as [sc' E]. cbn [receive_frames map concat length].
    by rewrite E. }
  cbn [map concat length] in *. remember (S (length frames)) as n eqn:En. cbn [receive_frames].
  destruct (receive_frame_progress c max_payload frame _ sc Hopen Ha Hd) as (sc' & -> & Hd').
  by rewrite IH.
Qed.

(** ** The sender *)

Lemma stamp_open c frame : cn_open (stamp c frame).2 = cn_open c.
Proof. unfold stamp. by destruct (_ =? 0). Qed.

Lemma send_frames_prefix c frames sc :
  cn_open c = true →
  ∃ lost, send_frames c frames sc ++ lost = concat (map encode_frame (outgoing c frames)).
Proof.
  revert c sc. induction frames as [|frame frames IH]; intros c sc Hopen; cbn [send_frames outgoing].
  { by exists []. }
  unfold send_frame. rewrite Hopen. cbn [negb]. pose proof (stamp_open c frame) as Ho.
  destruct (stamp c frame) as [out c']. cbn [snd] in Ho. rewrite Hopen in Ho. cbn [map concat].
  rewrite encode_sealed. pose proof (send_loop_prefix sc (encode_frame out)) as Hp.
  destruct (send_loop sc (encode_frame out)) as [[sent result] sc'].
  destruct Hp as (unsent & -> & Hok). destruct result as [[[]|code]|].
  - rewrite (Hok eq_refl), app_nil_r. destruct (IH c' sc' Ho) as [lost E].
    exists lost. by rewrite <-(assoc_L (++)), E.
  - eexists. by rewrite (assoc_L (++)).
  - eexists. by rewrite (assoc_L (++)).
Qed.

Lemma send_loop_moves sc rest sent result sc' k :
  forallb moves sc = true → (length rest + k ≤ length sc)%nat →
  send_loop sc rest = (sent, result, sc') → forallb moves sc' = true ∧ (k ≤ length sc')%nat.
Proof.
  revert rest sent. induction sc as [|o sc IH]; intros [|b rest] sent Hm Hl; cbn [send_loop].
  1,3: intros [= <- <- <-]; split; [done|cbn [length] in *; lia]. { cbn in Hl. lia. }
  destruct o as [limit| |]; [|done..]. cbn [forallb moves andb] in Hm. set (n := moved _ _).
  assert (0 < n)%nat as Hn.
  { apply moved_range. change kSendChunk with 1048576. cbn [length]. lia. }
  destruct (send_loop sc (drop n (b :: rest))) as [[sent' result'] sc1] eqn:E.
  intros [= _ <- <-]. eapply IH; [done| |exact E]. rewrite length_drop. cbn [length] in *. lia.
Qed.

(** A socket that takes bytes at every call takes all the frames. *)
Lemma send_frames_complete c frames sc :
  cn_open c = true → forallb moves sc = true →
  (length (concat (map encode_frame (outgoing c frames))) ≤ length sc)%nat →
  send_frames c frames sc = concat (map encode_frame (outgoing c frames)).
Proof.
  revert c sc. induction frames as [|frame frames IH]; intros c sc Hopen Hm; cbn [send_frames outgoing]; [done|].
  unfold send_frame. rewrite Hopen. cbn [negb]. pose proof (stamp_open c frame) as Ho.
  destruct (stamp c frame) as [out c']. cbn [snd] in Ho. rewrite Hopen in Ho. cbn [map concat].
  rewrite encode_sealed, length_app. intros Hl.
  destruct (send_loop_completes sc (encode_frame out)) as [sc' E]; [done|lia|].
  destruct (send_loop_moves _ _ _ _ _ _ Hm Hl E) as [Hm' Hl']. rewrite E. by rewrite IH.
Qed.

(** ** Properties *)

(** C21: the transport delivers what was sent, in order.  Whatever the two sockets do, in
    whatever pieces they move the bytes and wherever they break, the receiver gets a
    prefix of the frames the sender was given, each with its sequence number and
    checksums, and then at most a report that the connection was lost; and when both
    sockets stay up it gets all of them and then the clean end of the connection. *)
Theorem transport_delivers_in_order (sender receiver : Connection) (max_payload : Z)
    (frames : list Frame) (tx rx : script) (n : nat) (received : list Frame)
    (code : option ErrorCode) :
  cn_open sender = true → cn_open receiver = true →
  Forall (acceptable max_payload) (outgoing sender frames) →
  receive_frames n receiver max_payload rx (send_frames sender frames tx) = (received, code) →
  (∃ missed, outgoing sender frames = received ++ missed) ∧
  from_option is_transport_loss true code = true ∧
  (forallb moves tx = true →
   (length (concat (map encode_frame (outgoing sender frames))) ≤ length tx)%nat →
   delivers (S (length (concat (map encode_frame (outgoing sender frames))))) rx →
   n = S (length (outgoing sender frames)) →
   received = outgoing sender frames ∧ code = Some EC.TRANSPORT_CLOSED).
Proof.
  intros Hs Hr Hf E. destruct (send_frames_prefix sender frames tx Hs) as [lost Hlost].
  destruct (receive_frames_sound receiver max_payload Hr n _ _ _ _ _ _ Hf Hlost E) as [Hp Hc].
  split_and!; [done|done|]. intros Hm Hl Hd ->.
  rewrite send_frames_complete, receive_frames_complete in E by done. by simplify_eq.
Qed.

Definition demo_frames : list Frame := [demo_frame; demo_frame].

(** A sender whose socket takes 60 bytes at a time and a receiver whose socket gives
    7 at a time, with idle calls in between. *)
Definition demo_tx : script := repeat (Moves 59) 166.
Definition demo_rx : script := concat (repeat [WouldBlock; Moves 6] 167).

Lemma transport_delivers_in_order_witness :
  length (outgoing Connection_new demo_frames) = 2%nat ∧
  receive_frames 3 Connection_new 1024 demo_rx (send_frames Connection_new demo_frames demo_tx) =
  (outgoing Connection_new demo_frames, Some EC.TRANSPORT_CLOSED).
Proof.
  split; [reflexivity|].
  assert (Forall (acceptable 1024) (outgoing Connection_new demo_frames)) as Hf.
  { repeat constructor; first [vm_compute; reflexivity|reflexivity|vm_compute; discriminate]. }
  destruct (receive_frames 3 Connection_new 1024 demo_rx
    (send_frames Connection_new demo_frames demo_tx)) as [received code] eqn:E.
  destruct (transport_delivers_in_order Connection_new Connection_new 1024 demo_frames demo_tx demo_rx
    3 received code eq_refl eq_refl Hf E) as (_ & _ & H).
  destruct H as [-> ->]; [vm_compute; reflexivity| | |reflexivity|reflexivity].
  - apply Nat.leb_le. vm_compute. reflexivity.
  - split; [vm_compute; reflexivity|]. apply Nat.leb_le. vm_compute. reflexivity.
Defined.
