(* ===== verification/Sockets.v ===== *)
(** * Connecting, listening and closing ([TcpConnection] and [TcpListener] of [transport.cpp])

    The descriptors a process holds, POSIX branch.  What the system answers to the calls
    is an argument; frames over an open connection are [Transport]. *)

From S2P Require Import Prelude Taxonomy Model Bytes ModelOps Encoding RecordCodecs Frames Transport.

Local Open Scope Z_scope.

(** The open descriptors of the process. *)
Definition Descriptors : Type := gset Z.

Definition close_socket (handle : Z) (fds : Descriptors) : Descriptors := fds ∖ {[handle]}.

Record TcpConnection := mkTcpConnection {
  tc_handle : Z;
  tc_peer : string;
  tc_next_sequence : Z
}.

Definition TcpConnection_new (handle : Z) (peer : string) : TcpConnection :=
  mkTcpConnection handle peer 1.

Definition connection_valid (c : TcpConnection) : bool := negb (tc_handle c =? 0).

Definition close_connection (c : TcpConnection) (fds : Descriptors) : TcpConnection * Descriptors :=
  if connection_valid c
  then (mkTcpConnection 0 (tc_peer c) (tc_next_sequence c), close_socket (tc_handle c) fds)
  else (c, fds).

(** The moving constructor, and the assignment between two objects: the new connection
    and what is left of the other one, whose peer text was moved out of it. *)
Definition move_connection (other : TcpConnection) : TcpConnection * TcpConnection :=
  (other, mkTcpConnection 0 EmptyString (tc_next_sequence other)).

Definition assign_connection (this other : TcpConnection) (fds : Descriptors)
    : TcpConnection * TcpConnection * Descriptors :=
  let '(_, fds) := close_connection this fds in
  let '(this, other) := move_connection other in (this, other, fds).

(** What the system says of one resolved address: the new descriptor and whether it
    connects. *)
Definition Attempt : Type := option (Z * bool).

(** The loop over the addresses. *)
Fixpoint try_candidates (attempts : list Attempt) (fds : Descriptors) : option Z * Descriptors :=
  match attempts with
  | [] => (None, fds)
  | None :: rest => try_candidates rest fds
  | Some (handle, connected) :: rest =>
      let fds := {[handle]} ∪ fds in
      if connected : bool then (Some handle, fds) else try_candidates rest (close_socket handle fds)
  end.

(** [TcpConnection::connect]: no resolved address is an error of its own. *)
Definition connect (host : string) (port : Z) (attempts : list Attempt) (fds : Descriptors)
    : Result TcpConnection * Descriptors :=
  match attempts with
  | [] => (Err EC.TRANSPORT_IO, fds)
  | _ =>
      match try_candidates attempts fds with
      | (None, fds) => (Err EC.TRANSPORT_IO, fds)
      | (Some handle, fds) =>
          (Ok (TcpConnection_new handle (host +:+ ":" +:+ to_string_u64 port)), fds)
      end
  end.

Record TcpListener := mkTcpListener { tl_handle : Z; tl_port : Z }.

Definition listener_valid (l : TcpListener) : bool := negb (tl_handle l =? 0).

Definition close_listener (l : TcpListener) (fds : Descriptors) : TcpListener * Descriptors :=
  if listener_valid l then (mkTcpListener 0 (tl_port l), close_socket (tl_handle l) fds) else (l, fds).

(** What the system answers to the calls of [bind]: the descriptor, whether the address is
    one, whether it binds and listens, and the port that was bound. *)
Record BindAnswers := mkBindAnswers {
  ba_socket : option Z;
  ba_address : bool;
  ba_bind : bool;
  ba_listen : bool;
  ba_port : option Z
}.

Definition bind (answers : BindAnswers) (fds : Descriptors) : Result TcpListener * Descriptors :=
  match ba_socket answers with
  | None => (Err EC.TRANSPORT_IO, fds)
  | Some handle =>
      let fds := {[handle]} ∪ fds in
      if negb (ba_address answers) then (Err EC.INVALID_ARGUMENT, close_socket handle fds)
      else if negb (ba_bind answers) then (Err EC.TRANSPORT_IO, close_socket handle fds)
      else if negb (ba_listen answers) then (Err EC.TRANSPORT_IO, close_socket handle fds)
      else match ba_port answers with
           | None => (Err EC.TRANSPORT_IO, close_socket handle fds)
           | Some port => (Ok (mkTcpListener handle port), fds)
           end
  end.

(** [accept]: the new descriptor with the address and the port of the remote end. *)
Definition accept (accepted : option (Z * option string * Z)) (l : TcpListener) (fds : Descriptors)
    : Result TcpConnection * Descriptors :=
  if negb (listener_valid l) then (Err EC.TRANSPORT_CLOSED, fds)
  else match accepted with
       | None => (Err EC.TRANSPORT_CLOSED, fds)
       | Some (handle, address, port) =>
           (Ok (TcpConnection_new handle (default "unknown" address +:+ ":" +:+ to_string_u64 port)),
            {[handle]} ∪ fds)
       end.

(** The connection [Transport] sends and receives frames over. *)
Definition as_connection (c : TcpConnection) : Connection :=
  mkConnection (connection_valid c) (tc_next_sequence c).

(** ** Descriptors *)

(** The system hands out descriptors that are not in use, and not the one the code takes
    for none. *)
Definition fresh (fds : Descriptors) (handle : Z) : Prop := handle ∉ fds ∧ handle ≠ 0.

Definition fresh_attempt (fds : Descriptors) (attempt : Attempt) : Prop :=
  match attempt with None => True | Some (handle, _) => fresh fds handle end.

Lemma close_fresh handle fds : handle ∉ fds → close_socket handle ({[handle]} ∪ fds) = fds.
Proof. intros Hf. unfold close_socket. set_solver. Qed.

Lemma try_candidates_open attempts fds :
  Forall (fresh_attempt fds) attempts →
  match try_candidates attempts fds with
  | (None, fds') => fds' = fds
  | (Some handle, fds') => fds' = {[handle]} ∪ fds ∧ fresh fds handle
  end.
Proof.
  induction attempts as [|[[handle [|]]|] rest IH]; intros Hf; cbn [try_candidates]; [done| | |];
    apply list.Forall_cons in Hf as [Ha Hf].
  - done.
  - rewrite close_fresh by apply Ha. by apply IH.
  - by apply IH.
Qed.

(** No descriptor is leaked: a failed [connect], [bind] or [accept] opens none, and what a
    successful one opened is closed with its object, once. *)
Theorem sockets_are_not_leaked fds :
  (∀ host port attempts, Forall (fresh_attempt fds) attempts →
     match connect host port attempts fds with
     | (Err _, fds') => fds' = fds
     | (Ok c, fds') => fds' ≠ fds ∧ connection_valid c = true ∧ (close_connection c fds').2 = fds ∧
         let '(closed, fds'') := close_connection c fds' in close_connection closed fds'' = (closed, fds'')
     end) ∧
  (∀ answers, (∀ handle, ba_socket answers = Some handle → fresh fds handle) →
     match bind answers fds with
     | (Err _, fds') => fds' = fds
     | (Ok l, fds') => fds' ≠ fds ∧ (close_listener l fds').2 = fds
     end) ∧
  (∀ accepted l, (∀ handle address port, accepted = Some (handle, address, port) → fresh fds handle) →
     match accept accepted l fds with
     | (Err _, fds') => fds' = fds
     | (Ok c, fds') => fds' ≠ fds ∧ (close_connection c fds').2 = fds
     end).
Proof.
  assert (∀ handle, fresh fds handle → {[handle]} ∪ fds ≠ fds) as Hgrow.
  { intros handle [Hn _] E. apply Hn. rewrite <-E. set_solver. }
  assert (∀ handle peer, fresh fds handle →
    connection_valid (TcpConnection_new handle peer) = true ∧
    close_connection (TcpConnection_new handle peer) ({[handle]} ∪ fds) = (mkTcpConnection 0 peer 1, fds)) as Hclose.
  { intros handle peer [Hn Hz]. unfold close_connection, connection_valid. cbn.
    rewrite (proj2 (Z.eqb_neq _ _) Hz). cbn. by rewrite close_fresh. }
  split_and!.
  - intros host port attempts Hf. unfold connect. destruct attempts as [|a rest]; [done|].
    pose proof (try_candidates_open _ _ Hf) as Ht.
    destruct (try_candidates (a :: rest) fds) as [[handle|] fds']; [|done].
    destruct Ht as [-> Hfr]. destruct (Hclose handle (host +:+ ":" +:+ to_string_u64 port) Hfr) as [Hv E].
    split; [by apply Hgrow|]. rewrite E. done.
  - intros answers Hf. unfold bind. destruct (ba_socket answers) as [handle|]; [|done].
    destruct (Hf handle eq_refl) as [Hn Hz].
    repeat case_match; simplify_eq; try (by apply close_fresh).
    split; [by apply Hgrow|]. unfold close_listener, listener_valid. cbn.
    rewrite (proj2 (Z.eqb_neq _ _) Hz). cbn. by apply close_fresh.
  - intros accepted l Hf. unfold accept. destruct (listener_valid l); [|done].
    destruct accepted as [[[handle address] port]|]; [|done]. cbn [negb].
    pose proof (Hf handle address port eq_refl) as Hfr. split; [by apply Hgrow|].
    by rewrite (proj2 (Hclose handle _ Hfr)).
Qed.

(** Descriptor 0, which a process with a closed standard input gets, is taken for a closed
    connection: it is never closed and no frame can be sent. *)
Lemma descriptor_zero_is_lost peer fds frame sc :
  0 ∈ fds →
  let c := TcpConnection_new 0 peer in
  0 ∈ (close_connection c fds).2 ∧
  send_frame (as_connection c) frame sc = ([], Some (Err EC.TRANSPORT_CLOSED), sc, as_connection c).
Proof. done. Qed.
