(* ===== verification/ControlCodecs.v ===== *)
(** * Control-plane codecs ([coordinator.cpp], lines 26-244, and [ControlOperation])

    What a controller and the coordinator exchange besides the records of
    [detail/encoding.hpp]: the operation numbers, the status and the evaluations,
    of which only part is sent. *)

From S2P Require Import Prelude Taxonomy Model Bytes Encoding RecordCodecs Payloads.

Local Open Scope Z_scope.
Local Open Scope reader_scope.

Definition kMaxFindings : Z := 256.
Definition kMaxReasonBytes : Z := 4096.

Module CO.
Inductive ControlOperation :=
  | INVALID | STATUS | REGISTER_STATE | COMMIT_STATE | QUERY_STATE | LIST_CLUSTERS
  | REGISTER_REPLICA | TRANSFER_COMPLETION | VERIFY_REPLICA | COMMIT_REPLICA
  | AUTHORIZE_REPLICATION | AUTHORIZE_MIGRATION | COMMIT_OPERATION | CANCEL_OPERATION
  | EVALUATE_REUSE | RECONCILE_REPLICA_SET | AWAIT_OPERATION | QUERY_OPERATION | LIST_REPLICAS
  | MARK_CLUSTER_UNREACHABLE | REVALIDATE_REPLICA | QUERY_REPLICA | PLAN_REPLICATION
  | EXPLAIN_REPLICA_SET | RETIRE_CLUSTER | PUBLISH_COMPATIBILITY | QUERY_AUTHORIZATION
  | LIST_OPERATIONS | PUBLISH_REPLICATION_POLICY | PUBLISH_PLACEMENT_POLICY | TRANSFER_PROGRESS
  | REINCARNATE_CLUSTER | SHUTDOWN.
End CO.
Abbreviation ControlOperation := CO.ControlOperation.

(** In the order of the enumeration, which numbers them from zero. *)
Definition control_operations : list ControlOperation :=
  [CO.INVALID; CO.STATUS; CO.REGISTER_STATE; CO.COMMIT_STATE; CO.QUERY_STATE; CO.LIST_CLUSTERS;
   CO.REGISTER_REPLICA; CO.TRANSFER_COMPLETION; CO.VERIFY_REPLICA; CO.COMMIT_REPLICA;
   CO.AUTHORIZE_REPLICATION; CO.AUTHORIZE_MIGRATION; CO.COMMIT_OPERATION; CO.CANCEL_OPERATION;
   CO.EVALUATE_REUSE; CO.RECONCILE_REPLICA_SET; CO.AWAIT_OPERATION; CO.QUERY_OPERATION;
   CO.LIST_REPLICAS; CO.MARK_CLUSTER_UNREACHABLE; CO.REVALIDATE_REPLICA; CO.QUERY_REPLICA;
   CO.PLAN_REPLICATION; CO.EXPLAIN_REPLICA_SET; CO.RETIRE_CLUSTER; CO.PUBLISH_COMPATIBILITY;
   CO.QUERY_AUTHORIZATION; CO.LIST_OPERATIONS; CO.PUBLISH_REPLICATION_POLICY;
   CO.PUBLISH_PLACEMENT_POLICY; CO.TRANSFER_PROGRESS; CO.REINCARNATE_CLUSTER; CO.SHUTDOWN].

#[export] Instance ControlOperation_eq_dec : EqDecision ControlOperation.
Proof. solve_decision. Defined.

Definition ControlOperation_value (operation : ControlOperation) : Z :=
  match operation with
  | CO.INVALID => 0 | CO.STATUS => 1 | CO.REGISTER_STATE => 2 | CO.COMMIT_STATE => 3
  | CO.QUERY_STATE => 4 | CO.LIST_CLUSTERS => 5 | CO.REGISTER_REPLICA => 6
  | CO.TRANSFER_COMPLETION => 7 | CO.VERIFY_REPLICA => 8 | CO.COMMIT_REPLICA => 9
  | CO.AUTHORIZE_REPLICATION => 10 | CO.AUTHORIZE_MIGRATION => 11 | CO.COMMIT_OPERATION => 12
  | CO.CANCEL_OPERATION => 13 | CO.EVALUATE_REUSE => 14 | CO.RECONCILE_REPLICA_SET => 15
  | CO.AWAIT_OPERATION => 16 | CO.QUERY_OPERATION => 17 | CO.LIST_REPLICAS => 18
  | CO.MARK_CLUSTER_UNREACHABLE => 19 | CO.REVALIDATE_REPLICA => 20 | CO.QUERY_REPLICA => 21
  | CO.PLAN_REPLICATION => 22 | CO.EXPLAIN_REPLICA_SET => 23 | CO.RETIRE_CLUSTER => 24
  | CO.PUBLISH_COMPATIBILITY => 25 | CO.QUERY_AUTHORIZATION => 26 | CO.LIST_OPERATIONS => 27
  | CO.PUBLISH_REPLICATION_POLICY => 28 | CO.PUBLISH_PLACEMENT_POLICY => 29
  | CO.TRANSFER_PROGRESS => 30 | CO.REINCARNATE_CLUSTER => 31 | CO.SHUTDOWN => 32
  end.

(** [static_cast] followed by [is_valid], which accepts every number up to
    [SHUTDOWN]. *)
Definition control_operation_cast (raw : Z) : option ControlOperation :=
  if raw <=? ControlOperation_value CO.SHUTDOWN
  then nth_error control_operations (Z.to_nat raw) else None.

Lemma control_operation_cast_value operation :
  control_operation_cast (ControlOperation_value operation) = Some operation.
Proof. by destruct operation. Qed.

Lemma control_operation_range operation : 0 ≤ ControlOperation_value operation < 2 ^ 16.
Proof. by destruct operation. Qed.

(** [to_string]; the switch lists every operation. *)
Definition control_operation_to_string (operation : ControlOperation) : string :=
  match operation with
  | CO.INVALID => "INVALID"
  | CO.STATUS => "STATUS"
  | CO.REGISTER_STATE => "REGISTER_STATE"
  | CO.COMMIT_STATE => "COMMIT_STATE"
  | CO.QUERY_STATE => "QUERY_STATE"
  | CO.LIST_CLUSTERS => "LIST_CLUSTERS"
  | CO.REGISTER_REPLICA => "REGISTER_REPLICA"
  | CO.TRANSFER_COMPLETION => "TRANSFER_COMPLETION"
  | CO.VERIFY_REPLICA => "VERIFY_REPLICA"
  | CO.COMMIT_REPLICA => "COMMIT_REPLICA"
  | CO.AUTHORIZE_REPLICATION => "AUTHORIZE_REPLICATION"
  | CO.AUTHORIZE_MIGRATION => "AUTHORIZE_MIGRATION"
  | CO.COMMIT_OPERATION => "COMMIT_OPERATION"
  | CO.CANCEL_OPERATION => "CANCEL_OPERATION"
  | CO.EVALUATE_REUSE => "EVALUATE_REUSE"
  | CO.RECONCILE_REPLICA_SET => "RECONCILE_REPLICA_SET"
  | CO.AWAIT_OPERATION => "AWAIT_OPERATION"
  | CO.QUERY_OPERATION => "QUERY_OPERATION"
  | CO.LIST_REPLICAS => "LIST_REPLICAS"
  | CO.MARK_CLUSTER_UNREACHABLE => "MARK_CLUSTER_UNREACHABLE"
  | CO.REVALIDATE_REPLICA => "REVALIDATE_REPLICA"
  | CO.QUERY_REPLICA => "QUERY_REPLICA"
  | CO.PLAN_REPLICATION => "PLAN_REPLICATION"
  | CO.EXPLAIN_REPLICA_SET => "EXPLAIN_REPLICA_SET"
  | CO.RETIRE_CLUSTER => "RETIRE_CLUSTER"
  | CO.PUBLISH_COMPATIBILITY => "PUBLISH_COMPATIBILITY"
  | CO.QUERY_AUTHORIZATION => "QUERY_AUTHORIZATION"
  | CO.LIST_OPERATIONS => "LIST_OPERATIONS"
  | CO.PUBLISH_REPLICATION_POLICY => "PUBLISH_REPLICATION_POLICY"
  | CO.PUBLISH_PLACEMENT_POLICY => "PUBLISH_PLACEMENT_POLICY"
  | CO.TRANSFER_PROGRESS => "TRANSFER_PROGRESS"
  | CO.REINCARNATE_CLUSTER => "REINCARNATE_CLUSTER"
  | CO.SHUTDOWN => "SHUTDOWN"
  end.

(** An operation is known by its name. *)
Lemma control_operation_names : Inj (=) (=) control_operation_to_string.
Proof. intros a b E. by destruct a, b. Qed.

(** ** Lists of text *)

Definition encode_text_list (values : list string) : list Z := encode_vector ByteWriter.str values.

Definition decode_text_list (max_count : Z) : Reader (list string) :=
  count <- Reader.u32;;
  if count >? max_count then Reader.fail EC.RESOURCE_EXHAUSTED
  else decode_elements (Z.to_nat count) (Reader.str kMaxReasonBytes).

Definition fits_text_list (max_count : Z) : list string → bool :=
  fits_list max_count (fits_str kMaxReasonBytes).

Lemma reads_text_list max l :
  max < 2 ^ 32 → fits_text_list max l = true →
  reads (decode_text_list max) l (encode_text_list l).
Proof.
  intros Hmax [Hlen%Z.leb_le Hl]%andb_true_iff. unfold encode_text_list, encode_vector.
  replace (u32 (Z.of_nat (length l))) with (Z.of_nat (length l))
    by (unfold u32; rewrite Z.mod_small; lia).
  eapply reads_bind; [apply reads_u32; lia|].
  destruct (Z.gtb_spec (Z.of_nat (length l)) max); [lia|]. rewrite Nat2Z.id.
  eapply reads_elements; [|exact Hl]. intros s. by apply reads_fit_str.
Qed.

#[export] Hint Extern 1 (reads (decode_text_list _) _ _) =>
  apply reads_text_list; [reflexivity|] : codec.

(** The text an error response may carry. *)
Definition fits_reason : string → bool := fits_str kMaxReasonBytes.

(** ** The status *)

Definition encode_status (status : FabricStatus) : list Z :=
  encode_id (fst_coordinator_id status) ++ encode_id (fst_coordinator_epoch status) ++
  ByteWriter.u64 (fst_logical_time status) ++ ByteWriter.u64 (fst_durable_sequence status) ++
  ByteWriter.u64 (fst_journal_records status) ++ ByteWriter.u64 (fst_replay_generation status) ++
  ByteWriter.boolean (fst_persistence_enabled status) ++
  ByteWriter.boolean (fst_persistence_healthy status) ++
  ByteWriter.boolean (fst_recovered_from_durable_state status) ++
  ByteWriter.boolean (fst_journal_tail_discarded status) ++
  ByteWriter.str (fst_persistence_detail status) ++
  ByteWriter.u64 (fst_state_generations status) ++ ByteWriter.u64 (fst_clusters status) ++
  ByteWriter.u64 (fst_replicas status) ++ ByteWriter.u64 (fst_replica_sets status) ++
  ByteWriter.u64 (fst_operations status) ++ encode_FabricCounters (fst_counters status).

Definition decode_status : Reader FabricStatus :=
  coordinator_id <- decode_id;; coordinator_epoch <- decode_id;; logical_time <- Reader.u64;;
  durable_sequence <- Reader.u64;; journal_records <- Reader.u64;;
  replay_generation <- Reader.u64;; persistence_enabled <- Reader.boolean;;
  persistence_healthy <- Reader.boolean;; recovered_from_durable_state <- Reader.boolean;;
  journal_tail_discarded <- Reader.boolean;; persistence_detail <- Reader.str kMaxReasonBytes;;
  state_generations <- Reader.u64;; clusters <- Reader.u64;; replicas <- Reader.u64;;
  replica_sets <- Reader.u64;; operations <- Reader.u64;; counters <- decode_FabricCounters;;
  finish (mkFabricStatus coordinator_id coordinator_epoch logical_time durable_sequence
    journal_records replay_generation persistence_enabled persistence_healthy
    recovered_from_durable_state journal_tail_discarded persistence_detail state_generations
    clusters replicas replica_sets operations counters).

Definition encodable_status (status : FabricStatus) : bool :=
  fits_u64 (fst_coordinator_id status) && fits_u64 (fst_coordinator_epoch status) &&
  fits_u64 (fst_logical_time status) && fits_u64 (fst_durable_sequence status) &&
  fits_u64 (fst_journal_records status) && fits_u64 (fst_replay_generation status) &&
  fits_reason (fst_persistence_detail status) && fits_u64 (fst_state_generations status) &&
  fits_u64 (fst_clusters status) && fits_u64 (fst_replicas status) &&
  fits_u64 (fst_replica_sets status) && fits_u64 (fst_operations status) &&
  encodable_FabricCounters (fst_counters status).

(** ** Reuse evaluations *)

Definition encode_reuse (value : ReuseEvaluation) : list Z :=
  let a := rev_assessment value in
  encode_id (rev_state_id value) ++ encode_id (rev_state_generation value) ++
  encode_id (rev_cluster_id value) ++ encode_enum (rev_decision value) ++
  encode_id (rev_replica value) ++ encode_id (rev_replica_generation value) ++
  encode_enum (rev_code value) ++ ByteWriter.str (rev_reason value) ++
  ByteWriter.boolean (ra_authoritative_for_reuse a) ++
  ByteWriter.boolean (ra_integrity_verified a) ++
  ByteWriter.boolean (ra_compatibility_verified a) ++
  ByteWriter.boolean (ra_current_for_state_generation a) ++
  ByteWriter.boolean (ra_member_of_current_replica_set_generation a) ++
  ByteWriter.boolean (ra_physically_present a) ++ encode_text_list (rev_findings value).

(** What was read: the evaluation, and the number of its code, which is cast
    without a check and so may name no code; [rev_code] is not set. *)
Record WireReuse := mkWireReuse { wr_evaluation : ReuseEvaluation; wr_code : Z }.

Definition decode_reuse : Reader WireReuse :=
  state_id <- decode_id;; state_generation <- decode_id;; cluster_id <- decode_id;;
  decision <- Reader.u16;; replica <- decode_id;; replica_generation <- decode_id;;
  code <- Reader.u16;;
  match enum_cast decision with
  | None => Reader.fail EC.FRAME_CORRUPT
  | Some decision =>
      reason <- Reader.str kMaxReasonBytes;; authoritative_for_reuse <- Reader.boolean;;
      integrity_verified <- Reader.boolean;; compatibility_verified <- Reader.boolean;;
      current_for_state_generation <- Reader.boolean;;
      member_of_current_replica_set_generation <- Reader.boolean;;
      physically_present <- Reader.boolean;; findings <- decode_text_list kMaxFindings;;
      finish (mkWireReuse
        (ReuseEvaluation_default <| rev_state_id := state_id |>
           <| rev_state_generation := state_generation |> <| rev_cluster_id := cluster_id |>
           <| rev_decision := decision |> <| rev_replica := replica |>
           <| rev_replica_generation := replica_generation |> <| rev_reason := reason |>
           <| rev_assessment :=
                ReplicaAuthorityAssessment_default
                  <| ra_authoritative_for_reuse := authoritative_for_reuse |>
                  <| ra_integrity_verified := integrity_verified |>
                  <| ra_compatibility_verified := compatibility_verified |>
                  <| ra_current_for_state_generation := current_for_state_generation |>
                  <| ra_member_of_current_replica_set_generation :=
                       member_of_current_replica_set_generation |>
                  <| ra_physically_present := physically_present |> |>
           <| rev_findings := findings |>) code)
  end.

Definition encodable_reuse (value : ReuseEvaluation) : bool :=
  fits_u64 (rev_state_id value) && fits_u64 (rev_state_generation value) &&
  fits_u64 (rev_cluster_id value) && fits_u64 (rev_replica value) &&
  fits_u64 (rev_replica_generation value) && fits_reason (rev_reason value) &&
  fits_text_list kMaxFindings (rev_findings value).

(** What a controller learns of an evaluation. *)
Definition reuse_on_the_wire (value : ReuseEvaluation) : WireReuse :=
  let a := rev_assessment value in
  mkWireReuse
    (mkReuseEvaluation (rev_state_id value) (rev_state_generation value) (rev_cluster_id value)
       (rev_decision value) (rev_replica value) (rev_replica_generation value)
       (ReplicaAuthorityAssessment_default
          <| ra_authoritative_for_reuse := ra_authoritative_for_reuse a |>
          <| ra_integrity_verified := ra_integrity_verified a |>
          <| ra_compatibility_verified := ra_compatibility_verified a |>
          <| ra_current_for_state_generation := ra_current_for_state_generation a |>
          <| ra_member_of_current_replica_set_generation :=
               ra_member_of_current_replica_set_generation a |>
          <| ra_physically_present := ra_physically_present a |>)
       (rev_code ReuseEvaluation_default) (rev_reason value) (rev_findings value))
    (enum_value (rev_code value)).

(** ** Reconciliations *)

Definition encode_reconciliation (value : ReplicaSetReconciliation) : list Z :=
  let set := rsr_replica_set value in
  encode_id (rs_replica_set_id set) ++ encode_id (rs_generation set) ++
  encode_id (rs_state_id set) ++ encode_id (rs_state_generation set) ++
  encode_enum (rs_state set) ++ ByteWriter.u32 (rs_authoritative_count set) ++
  ByteWriter.u32 (rs_degraded_count set) ++ ByteWriter.u32 (rs_distinct_clusters set) ++
  ByteWriter.u32 (rs_distinct_regions set) ++ ByteWriter.u32 (rs_distinct_failure_domains set) ++
  ByteWriter.u32 (rr_minimum_authoritative_replicas (rs_requirements set)) ++
  ByteWriter.u32 (rr_desired_replicas (rs_requirements set)) ++
  ByteWriter.u32 (rr_maximum_replicas (rs_requirements set)) ++
  ByteWriter.boolean (rs_revalidation_required set) ++
  ByteWriter.boolean (rsr_under_replicated value) ++
  ByteWriter.boolean (rsr_over_replicated value) ++
  ByteWriter.u32 (rsr_authoritative_shortfall value) ++ encode_text_list (rsr_findings value).

Definition decode_reconciliation : Reader ReplicaSetReconciliation :=
  replica_set_id <- decode_id;; generation <- decode_id;; state_id <- decode_id;;
  state_generation <- decode_id;; set_state <- Reader.u16;;
  match enum_cast set_state with
  | None => Reader.fail EC.FRAME_CORRUPT
  | Some state =>
      authoritative_count <- Reader.u32;; degraded_count <- Reader.u32;;
      distinct_clusters <- Reader.u32;; distinct_regions <- Reader.u32;;
      distinct_failure_domains <- Reader.u32;; minimum_authoritative_replicas <- Reader.u32;;
      desired_replicas <- Reader.u32;; maximum_replicas <- Reader.u32;;
      revalidation_required <- Reader.boolean;; under_replicated <- Reader.boolean;;
      over_replicated <- Reader.boolean;; authoritative_shortfall <- Reader.u32;;
      findings <- decode_text_list kMaxFindings;;
      finish (ReplicaSetReconciliation_default
        <| rsr_replica_set :=
             ReplicaSetRecord_default <| rs_replica_set_id := replica_set_id |>
               <| rs_generation := generation |> <| rs_state_id := state_id |>
               <| rs_state_generation := state_generation |> <| rs_state := state |>
               <| rs_authoritative_count := authoritative_count |>
               <| rs_degraded_count := degraded_count |>
               <| rs_distinct_clusters := distinct_clusters |>
               <| rs_distinct_regions := distinct_regions |>
               <| rs_distinct_failure_domains := distinct_failure_domains |>
               <| rs_requirements :=
                    ReplicationRequirements_default
                      <| rr_minimum_authoritative_replicas := minimum_authoritative_replicas |>
                      <| rr_desired_replicas := desired_replicas |>
                      <| rr_maximum_replicas := maximum_replicas |> |>
               <| rs_revalidation_required := revalidation_required |> |>
        <| rsr_under_replicated := under_replicated |>
        <| rsr_over_replicated := over_replicated |>
        <| rsr_authoritative_shortfall := authoritative_shortfall |>
        <| rsr_findings := findings |>)
  end.

Definition encodable_reconciliation (value : ReplicaSetReconciliation) : bool :=
  let set := rsr_replica_set value in
  fits_u64 (rs_replica_set_id set) && fits_u64 (rs_generation set) &&
  fits_u64 (rs_state_id set) && fits_u64 (rs_state_generation set) &&
  fits_u32 (rs_authoritative_count set) && fits_u32 (rs_degraded_count set) &&
  fits_u32 (rs_distinct_clusters set) && fits_u32 (rs_distinct_regions set) &&
  fits_u32 (rs_distinct_failure_domains set) &&
  fits_u32 (rr_minimum_authoritative_replicas (rs_requirements set)) &&
  fits_u32 (rr_desired_replicas (rs_requirements set)) &&
  fits_u32 (rr_maximum_replicas (rs_requirements set)) &&
  fits_u32 (rsr_authoritative_shortfall value) && fits_text_list kMaxFindings (rsr_findings value).

(** What a controller learns of a reconciliation: the counts, not the members. *)
Definition reconciliation_on_the_wire (value : ReplicaSetReconciliation)
    : ReplicaSetReconciliation :=
  let set := rsr_replica_set value in
  value <| rsr_replica_set :=
             set <| rs_requirements :=
                      ReplicationRequirements_default
                        <| rr_minimum_authoritative_replicas :=
                             rr_minimum_authoritative_replicas (rs_requirements set) |>
                        <| rr_desired_replicas := rr_desired_replicas (rs_requirements set) |>
                        <| rr_maximum_replicas := rr_maximum_replicas (rs_requirements set) |> |>
                 <| rs_authoritative_members := [] |> <| rs_degraded_members := [] |>
                 <| rs_placement_id := 0 |> <| rs_placement_generation := 0 |>
                 <| rs_epoch := 0 |> <| rs_last_commit := 0 |> <| rs_created_at := 0 |>
                 <| rs_updated_at := 0 |> |>
        <| rsr_clusters_missing := 0 |> <| rsr_regions_missing := 0 |>
        <| rsr_excluded_replicas := [] |>.

(** ** Placement evaluations and explanations *)

Definition encode_placement (value : PlacementEvaluation) : list Z :=
  encode_id (pe_state_id value) ++ encode_id (pe_state_generation value) ++
  encode_enum (pe_decision value) ++ encode_id (pe_chosen_cluster value) ++
  ByteWriter.i64 (pe_chosen_score value) ++ encode_text_list (pe_reasons value).

Definition decode_placement : Reader PlacementEvaluation :=
  state_id <- decode_id;; state_generation <- decode_id;; decision <- Reader.u16;;
  match enum_cast decision with
  | None => Reader.fail EC.FRAME_CORRUPT
  | Some decision =>
      chosen_cluster <- decode_id;; chosen_score <- Reader.i64;;
      reasons <- decode_text_list kMaxFindings;;
      finish (PlacementEvaluation_default <| pe_state_id := state_id |>
        <| pe_state_generation := state_generation |> <| pe_decision := decision |>
        <| pe_chosen_cluster := chosen_cluster |> <| pe_chosen_score := chosen_score |>
        <| pe_reasons := reasons |>)
  end.

Definition encodable_placement (value : PlacementEvaluation) : bool :=
  fits_u64 (pe_state_id value) && fits_u64 (pe_state_generation value) &&
  fits_u64 (pe_chosen_cluster value) && fits_i64 (pe_chosen_score value) &&
  fits_text_list kMaxFindings (pe_reasons value).

(** What a controller learns of a plan: the decision, not the candidates. *)
Definition placement_on_the_wire (value : PlacementEvaluation) : PlacementEvaluation :=
  value <| pe_placement_policy_id := 0 |> <| pe_placement_policy_generation := 0 |>
        <| pe_rejected := [] |> <| pe_ranked := [] |>.

Definition encode_explanation (value : Explanation) : list Z :=
  ByteWriter.str (ex_title value) ++ encode_text_list (ex_lines value).

Definition decode_explanation : Reader Explanation :=
  title <- Reader.str kMaxReasonBytes;; lines <- decode_text_list kMaxFindings;;
  finish (mkExplanation title lines).

Definition encodable_explanation (value : Explanation) : bool :=
  fits_reason (ex_title value) && fits_text_list kMaxFindings (ex_lines value).

(** ** Round trips *)

Ltac control_reads :=
  repeat (first
    [ eapply reads_to_end_bind; [solve [eauto 3 with codec|apply reads_u16, enum_value_u16]|]
    | eapply reads_to_end_last; [solve [eauto 3 with codec]|] ];
    cbv beta; rewrite ?enum_cast_value).

Lemma reads_status status :
  encodable_status status = true → reads_to_end decode_status status (encode_status status).
Proof.
  intros H. unfold encodable_status, fits_reason in H. split_fits H.
  unfold encode_status, decode_status. control_reads. destruct status. apply reads_to_end_finish.
Qed.

Lemma reads_reuse value :
  encodable_reuse value = true →
  reads_to_end decode_reuse (reuse_on_the_wire value) (encode_reuse value).
Proof.
  intros H. unfold encodable_reuse, fits_reason in H. split_fits H.
  unfold encode_reuse, decode_reuse. cbv zeta. control_reads. apply reads_to_end_finish.
Qed.

Lemma reads_reconciliation value :
  encodable_reconciliation value = true →
  reads_to_end decode_reconciliation (reconciliation_on_the_wire value) (encode_reconciliation value).
Proof.
  intros H. unfold encodable_reconciliation in H. cbv zeta in H. split_fits H.
  unfold encode_reconciliation, decode_reconciliation. cbv zeta. control_reads.
  destruct value as [[]]. apply reads_to_end_finish.
Qed.

Lemma reads_placement value :
  encodable_placement value = true →
  reads_to_end decode_placement (placement_on_the_wire value) (encode_placement value).
Proof.
  intros H. unfold encodable_placement in H. split_fits H.
  unfold encode_placement, decode_placement. control_reads.
  destruct value. apply reads_to_end_finish.
Qed.

Lemma reads_explanation value :
  encodable_explanation value = true →
  reads_to_end decode_explanation value (encode_explanation value).
Proof.
  intros H. unfold encodable_explanation, fits_reason in H. split_fits H.
  unfold encode_explanation, decode_explanation. control_reads.
  destruct value. apply reads_to_end_finish.
Qed.
