(* ===== verification/FabricReplica.v ===== *)
(** * Replicas and replica sets ([fabric_replica.cpp])

    Registration, transfer progress and completion, verification, authoritative
    commit, retirement, quarantine and revalidation, with the shared guards
    [guard_replica], [advance_operation] and [plan_authoritative_commit]. *)

From S2P Require Import Prelude Taxonomy Model Digest Cost Compatibility ModelOps ControlPlane.
From S2P Require Import FabricCore FabricState.

Local Open Scope Z_scope.

Definition descriptor_empty (d : CompatibilityDescriptor) : bool :=
  (size (cd_attributes d) =? 0)%nat.

(** A message identity that is present and differs from the recorded one. *)
Definition mismatched (named recorded : Z) : bool := valid named && negb (named =? recorded).

Definition both_mismatched (named recorded : Z) : bool :=
  valid recorded && valid named && negb (named =? recorded).

(** ** Guards *)

Definition guard_replica (plane : ControlPlane)
    (replica_id generation incarnation worker_boot expected_epoch : Z) : M ReplicaRecord :=
  let! existing := require (find_replica plane replica_id) EC.UNKNOWN_REPLICA in
  refuse_if (mismatched generation (rp_replica_generation existing)) EC.STALE_REPLICA_GENERATION;;;
  refuse_if (mismatched expected_epoch (pl_coordinator_epoch plane)) EC.STALE_EPOCH;;;
  refuse_if (mismatched incarnation (rlo_cluster_incarnation (rp_location existing)))
    EC.STALE_CLUSTER_INCARNATION;;;
  let! cluster :=
    require (find_cluster plane (rlo_cluster_id (rp_location existing))) EC.UNKNOWN_CLUSTER in
  refuse_if (negb (cl_live_authority cluster) ||
             negb (cl_incarnation cluster =? rlo_cluster_incarnation (rp_location existing)))
    EC.STALE_CLUSTER_INCARNATION;;;
  refuse_if (both_mismatched worker_boot (rp_worker_boot_id existing)) EC.STALE_WORKER;;;
  refuse_if (replica_is_terminal existing) EC.ILLEGAL_TRANSITION;;;
  mret existing.

Definition require_state (plane : ControlPlane) (state_id generation : Z)
    : M StateGenerationRecord :=
  require (find_state plane state_id generation) EC.UNKNOWN_STATE.

(** An entry is dropped once the operation journal is full. *)
Definition journal_push (entry : string) (journal : list string) : list string :=
  if Z.of_nat (length journal) <? kMaxOperationJournalEntries then journal ++ [entry] else journal.

Definition advanced_operation (plane : ControlPlane) (tick : Z) (next : OperationState)
    (note : string) (existing : OperationRecord) : OperationRecord :=
  let updated :=
    existing <| op_state := next |> <| op_last_epoch := pl_coordinator_epoch plane |>
      <| op_updated_at := tick |> in
  let updated :=
    if bool_decide (next = OS.PREPARED) then updated <| op_destination_verified := true |>
    else updated in
  updated <| op_journal ::= journal_push note |>.

Definition advance_operation (plane : ControlPlane) (operation_id generation : Z)
    (next : OperationState) (note : string) : M unit :=
  match find_operation plane operation_id with
  | None => mret tt
  | Some existing =>
      if operation_is_terminal existing then mret tt
      else if valid generation && negb (op_operation_generation existing =? generation) then mret tt
      else
        let! tick := get_tick in
        emit (PUT_OPERATION (advanced_operation plane tick next note existing))
  end.

(** The tail every replica report shares: the record, its set and the counters. *)
Definition put_replica_and_set (plane : ControlPlane) (revised : ReplicaRecord)
    (advance_generation : bool) : M unit :=
  let! tick := get_tick in
  emit (PUT_REPLICA revised);;;
  emit (bump_replica_set_effect plane (rp_state_id revised) (rp_state_generation revised) tick
          (pl_coordinator_epoch plane) advance_generation).

(** ** Registration *)

Definition registrable (lifecycle : ReplicaLifecycle) : bool :=
  match lifecycle with
  | RL.PLANNED | RL.RESERVED | RL.STAGING | RL.TRANSFERRING => true
  | _ => false
  end.

Definition durability_state (class : DurabilityClass) : ReplicaDurabilityState :=
  match class with
  | DC.VOLATILE => RD.VOLATILE
  | DC.EPHEMERAL | DC.STANDARD => RD.STANDARD
  | DC.DURABLE => RD.DURABLE
  | DC.ARCHIVAL => RD.ARCHIVAL
  | DC.UNKNOWN => RD.UNKNOWN
  end.

Definition or_else (id fallback : Z) : Z := if valid id then id else fallback.

Definition registered_replica (registration : ReplicaRegistration) (plane : ControlPlane)
    (state : StateGenerationRecord) (cluster : ClusterRecord) (replica_id incarnation tick : Z)
    : ReplicaRecord :=
  let set := find_replica_set plane (rrg_state_id registration) (rrg_state_generation registration) in
  let location := rrg_location registration in
  let here := cl_location cluster in
  ReplicaRecord_default
    <| rp_replica_id := replica_id |>
    <| rp_replica_generation := or_else (rrg_replica_generation registration) 1 |>
    <| rp_state_id := rrg_state_id registration |>
    <| rp_state_generation := rrg_state_generation registration |>
    <| rp_replica_set_id :=
         or_else (rrg_replica_set_id registration)
           (match set with Some s => rs_replica_set_id s | None => 0 end) |>
    <| rp_replica_set_generation :=
         match set with
         | Some s => rs_generation s
         | None => rrg_replica_set_generation registration
         end |>
    <| rp_location :=
         mkReplicaLocation (rlo_cluster_id location) incarnation
           (or_else (rlo_region location) (clo_region here))
           (or_else (rlo_site location) (clo_site here))
           (or_else (rlo_failure_domain location) (clo_failure_domain here))
           (if bool_decide (rlo_descriptor location = "") then clo_descriptor here
            else rlo_descriptor location) |>
    <| rp_lifecycle := rrg_lifecycle registration |>
    <| rp_integrity := RI.UNVERIFIED |>
    <| rp_compatibility := RCS.UNKNOWN |>
    <| rp_durability := durability_state (rrg_durability registration) |>
    <| rp_availability := RA.UNKNOWN |>
    <| rp_authority := RAS.CANDIDATE |>
    <| rp_content_digest :=
         if digest_valid (rrg_content_digest registration) then rrg_content_digest registration
         else sg_content_digest state |>
    <| rp_digest_algorithm := rrg_digest_algorithm registration |>
    <| rp_compatibility_id := or_else (rrg_compatibility_id registration) (sg_compatibility_id state) |>
    <| rp_compatibility_generation := rrg_compatibility_generation registration |>
    <| rp_compatibility_descriptor := rrg_compatibility_descriptor registration |>
    <| rp_logical_size :=
         if size_known (rrg_logical_size registration) then rrg_logical_size registration
         else sg_logical_size state |>
    <| rp_transferred_bytes := size_of 0 |>
    <| rp_provenance := rrg_provenance registration |>
    <| rp_worker_id := or_else (rrg_worker_id registration) (cl_worker_id cluster) |>
    <| rp_worker_boot_id := or_else (rrg_worker_boot_id registration) (cl_worker_boot_id cluster) |>
    <| rp_created_epoch := pl_coordinator_epoch plane |>
    <| rp_last_epoch := pl_coordinator_epoch plane |>
    <| rp_created_at := tick |>
    <| rp_updated_at := tick |>
    <| rp_transfer_id := rrg_transfer_id registration |>
    <| rp_transfer_generation := rrg_transfer_generation registration |>
    <| rp_operation_id := rrg_operation_id registration |>
    <| rp_operation_generation := rrg_operation_generation registration |>.

Definition register_replica (registration : ReplicaRegistration) (plane : ControlPlane)
    (config : FabricConfig) : M ReplicaRecord :=
  let! state :=
    require_state plane (rrg_state_id registration) (rrg_state_generation registration) in
  refuse_if (mismatched (rrg_expected_coordinator_epoch registration) (pl_coordinator_epoch plane))
    EC.STALE_EPOCH;;;
  refuse_if (negb (registrable (rrg_lifecycle registration))) EC.ILLEGAL_TRANSITION;;;
  let cluster_id := rlo_cluster_id (rrg_location registration) in
  refuse_if (negb (valid cluster_id)) EC.INVALID_ARGUMENT;;;
  let! cluster := require (find_cluster plane cluster_id) EC.UNKNOWN_CLUSTER in
  refuse_if (negb (cl_live_authority cluster)) EC.STALE_CLUSTER_INCARNATION;;;
  let incarnation :=
    or_else (rlo_cluster_incarnation (rrg_location registration)) (cl_incarnation cluster) in
  refuse_if (negb (incarnation =? cl_incarnation cluster)) EC.STALE_CLUSTER_INCARNATION;;;
  match find_replica plane (rrg_replica_id registration) with
  | Some existing =>
      if (rp_state_id existing =? rrg_state_id registration) &&
         (rp_state_generation existing =? rrg_state_generation registration) &&
         (rlo_cluster_id (rp_location existing) =? cluster_id)
      then mret existing
      else refuse EC.DUPLICATE_CONFLICT
  | None =>
      let next := pl_next_id plane in
      let minted := negb (valid (rrg_replica_id registration)) in
      let replica_id := if minted then next else rrg_replica_id registration in
      let next := if minted then u64 (next + 1) else next in
      refuse_if (has_key (pl_replicas plane) replica_id) EC.DUPLICATE_CONFLICT;;;
      let! tick := get_tick in
      let record :=
        registered_replica registration plane state cluster replica_id incarnation tick in
      put_replica_and_set plane record false;;;
      emit (PUT_COUNTERS ((pl_counters plane) <| fc_replicas_registered ::= inc |>));;;
      emit (SET_NEXT_ID next);;;
      mret record
  end.

(** ** Transfer reports *)

Definition failed_operation (plane : ControlPlane) (tick : Z) (reason : string)
    (operation : OperationRecord) : OperationRecord :=
  operation <| op_state := OS.FAILED |> <| op_last_error := reason |>
    <| op_last_epoch := pl_coordinator_epoch plane |> <| op_updated_at := tick |>
    <| op_journal ::= journal_push ("transfer failed: " +:+ reason) |>.

Definition record_transfer_progress (progress : TransferProgress) (plane : ControlPlane)
    (config : FabricConfig) : M ReplicaRecord :=
  let! replica :=
    guard_replica plane (tp_replica_id progress) (tp_replica_generation progress)
      (tp_cluster_incarnation progress) (tp_worker_boot_id progress)
      (tp_expected_coordinator_epoch progress) in
  refuse_if (both_mismatched (tp_transfer_id progress) (rp_transfer_id replica))
    EC.STALE_TRANSFER_GENERATION;;;
  refuse_if (both_mismatched (tp_transfer_generation progress) (rp_transfer_generation replica))
    EC.STALE_TRANSFER_GENERATION;;;
  refuse_if (both_mismatched (tp_operation_id progress) (rp_operation_id replica))
    EC.STALE_OPERATION_GENERATION;;;
  refuse_if (negb (registrable (rp_lifecycle replica))) EC.ILLEGAL_TRANSITION;;;
  let! tick := get_tick in
  let revised :=
    replica <| rp_last_epoch := pl_coordinator_epoch plane |> <| rp_updated_at := tick |> in
  let counters :=
    if bool_decide (rp_lifecycle replica ≠ RL.TRANSFERRING)
    then (pl_counters plane) <| fc_transfers_started ::= inc |> else pl_counters plane in
  if tp_failed progress then
    let revised :=
      revised <| rp_lifecycle := RL.ABANDONED |> <| rp_authority := RAS.NONE |>
        <| rp_counts_toward_factor := false |> <| rp_availability := RA.ABSENT |>
        <| rp_last_error := tp_failure_reason progress |> in
    let counters :=
      counters <| fc_operations_failed ::= inc |> <| fc_replicas_abandoned ::= inc |> in
    match find_operation plane (tp_operation_id progress) with
    | Some operation =>
        if operation_is_terminal operation then mret tt
        else emit (PUT_OPERATION
                     (failed_operation plane tick (tp_failure_reason progress) operation))
    | None => mret tt
    end;;;
    put_replica_and_set plane revised false;;;
    emit (PUT_COUNTERS counters);;;
    commit_before_return;;;
    refuse EC.TRANSFER_FAILED
  else
    let revised :=
      revised <| rp_lifecycle := RL.TRANSFERRING |>
        <| rp_transferred_bytes := size_of (tp_bytes_transferred progress) |> in
    advance_operation plane (tp_operation_id progress) (tp_operation_generation progress)
      OS.TRANSFERRING "transfer in progress";;;
    put_replica_and_set plane revised false;;;
    emit (PUT_COUNTERS counters);;;
    mret revised.

Definition accepts_completion (lifecycle : ReplicaLifecycle) : bool :=
  match lifecycle with
  | RL.PLANNED | RL.RESERVED | RL.STAGING | RL.TRANSFERRING | RL.TRANSFERRED | RL.VERIFYING => true
  | _ => false
  end.

(** An adverse report: recorded durably, then reported as an error. *)
Definition record_and_refuse (plane : ControlPlane) (revised : ReplicaRecord)
    (counters : FabricCounters) (code : ErrorCode) : M ReplicaRecord :=
  put_replica_and_set plane revised false;;;
  emit (PUT_COUNTERS counters);;;
  commit_before_return;;;
  refuse code.

Definition record_transfer_completion (completion : TransferCompletion) (plane : ControlPlane)
    (config : FabricConfig) : M ReplicaRecord :=
  let! replica :=
    guard_replica plane (tc_replica_id completion) (tc_replica_generation completion)
      (tc_cluster_incarnation completion) (tc_worker_boot_id completion)
      (tc_expected_coordinator_epoch completion) in
  refuse_if (both_mismatched (tc_transfer_id completion) (rp_transfer_id replica))
    EC.STALE_TRANSFER_GENERATION;;;
  refuse_if (both_mismatched (tc_transfer_generation completion) (rp_transfer_generation replica))
    EC.STALE_TRANSFER_GENERATION;;;
  refuse_if (negb (tc_transfer_complete completion)) EC.TRANSFER_INCOMPLETE;;;
  refuse_if (negb (accepts_completion (rp_lifecycle replica))) EC.ILLEGAL_TRANSITION;;;
  let! tick := get_tick in
  let state := find_state plane (rp_state_id replica) (rp_state_generation replica) in
  let measured := tc_measured_digest completion in
  let revised :=
    replica <| rp_last_epoch := pl_coordinator_epoch plane |> <| rp_updated_at := tick |>
      <| rp_measured_digest := measured |>
      <| rp_digest_algorithm := tc_digest_algorithm completion |>
      <| rp_transferred_bytes := size_of (tc_bytes_transferred completion) |> in
  let counters :=
    if bool_decide (rp_lifecycle replica ≠ RL.TRANSFERRED) &&
       bool_decide (rp_lifecycle replica ≠ RL.VERIFYING)
    then (pl_counters plane) <| fc_transfers_completed ::= inc |>
           <| fc_bytes_transferred ::= λ b, u64 (b + tc_bytes_transferred completion) |>
    else pl_counters plane in
  let contradicted :=
    match state with
    | Some s => digest_valid (sg_content_digest s) && bool_decide (measured ≠ sg_content_digest s)
    | None => false
    end in
  if negb (digest_valid measured) then
    record_and_refuse plane
      (revised <| rp_integrity := RI.UNKNOWN |> <| rp_lifecycle := RL.TRANSFERRED |>)
      counters EC.INTEGRITY_UNKNOWN
  else if contradicted then
    record_and_refuse plane
      (revised <| rp_integrity := RI.MISMATCH |> <| rp_lifecycle := RL.CORRUPT |>
         <| rp_authority := RAS.FENCED |> <| rp_counts_toward_factor := false |>
         <| rp_availability := RA.PRESENT |>
         <| rp_last_error := "measured digest does not match the state content digest" |>)
      (counters <| fc_integrity_failures ::= inc |>) EC.INTEGRITY_MISMATCH
  else
    let revised :=
      revised <| rp_integrity := RI.UNVERIFIED |> <| rp_lifecycle := RL.TRANSFERRED |>
        <| rp_availability := RA.PRESENT |> in
    advance_operation plane (tc_operation_id completion) (tc_operation_generation completion)
      OS.TRANSFERRED "transfer complete at the destination";;;
    put_replica_and_set plane revised false;;;
    emit (PUT_COUNTERS counters);;;
    mret revised.

(** ** Verification *)

Definition verifiable (lifecycle : ReplicaLifecycle) : bool :=
  match lifecycle with
  | RL.TRANSFERRED | RL.VERIFYING | RL.PREPARED | RL.AUTHORITATIVE | RL.DEGRADED
  | RL.REVALIDATION_REQUIRED => true
  | _ => false
  end.

(** The [persist_and_fail] lambda of [verify_replica]. *)
Definition persist_and_fail (verification : ReplicaVerification) (plane : ControlPlane)
    (revised : ReplicaRecord) (counters : FabricCounters) (next : Z) (code : ErrorCode)
    (message : string) : M ReplicaRecord :=
  advance_operation plane (rvf_operation_id verification) (rvf_operation_generation verification)
    OS.FAILED message;;;
  put_replica_and_set plane revised false;;;
  emit (PUT_COUNTERS counters);;;
  emit (SET_NEXT_ID next);;;
  commit_before_return;;;
  refuse code.

(** The effects of a verification that prepares the replica. *)
Definition persist_prepared (verification : ReplicaVerification) (plane : ControlPlane)
    (revised : ReplicaRecord) (counters : FabricCounters) (next : Z) : M ReplicaRecord :=
  advance_operation plane (rvf_operation_id verification) (rvf_operation_generation verification)
    OS.PREPARED "destination prepared under explicit authority";;;
  put_replica_and_set plane revised false;;;
  emit (PUT_COUNTERS counters);;;
  emit (SET_NEXT_ID next);;;
  mret revised.

(** [std::max] on the numeric values. *)
Definition max_durability (a b : ReplicaDurabilityState) : ReplicaDurabilityState :=
  if enum_value a <? enum_value b then b else a.

Definition state_requirement (state : StateGenerationRecord) : CompatibilityRequirement :=
  mkCompatibilityRequirement (sg_compatibility_id state) (sg_compatibility_generation state)
    (sg_compatibility_required state) true.

Definition mark_corrupt (text : string) (r : ReplicaRecord) : ReplicaRecord :=
  r <| rp_integrity := RI.MISMATCH |> <| rp_lifecycle := RL.CORRUPT |>
    <| rp_authority := RAS.FENCED |> <| rp_counts_toward_factor := false |>
    <| rp_last_error := text |>.

Definition mark_incompatible (text : string) (r : ReplicaRecord) : ReplicaRecord :=
  r <| rp_compatibility := RCS.INCOMPATIBLE |> <| rp_lifecycle := RL.QUARANTINED |>
    <| rp_authority := RAS.FENCED |> <| rp_counts_toward_factor := false |>
    <| rp_last_error := text |>.

Definition mark_prepared (r : ReplicaRecord) : ReplicaRecord :=
  r <| rp_lifecycle := RL.PREPARED |> <| rp_availability := RA.PRESENT |>
    <| rp_evidence ::= λ e, e <| re_revalidation_required := false |> |>.

(** Compatibility against the descriptor the cluster publishes. *)
Definition verify_against_cluster (verification : ReplicaVerification) (plane : ControlPlane)
    (state : option StateGenerationRecord) (cluster : ClusterRecord) (revised : ReplicaRecord)
    (counters : FabricCounters) (next : Z) : M ReplicaRecord :=
  let requirement := match state with
                     | Some s => state_requirement s
                     | None => CompatibilityRequirement_default
                     end in
  let built := cluster_compatibility_descriptor cluster in
  let result :=
    if descriptor_empty (cq_required requirement) then CRes.COMPATIBLE
    else evaluate_compatibility requirement (Some built) (cq_generation requirement) false in
  match result with
  | CRes.INCOMPATIBLE =>
      persist_and_fail verification plane
        (mark_incompatible "cluster capabilities are incompatible with the state" revised)
        (counters <| fc_compatibility_rejections ::= inc |>) next EC.INCOMPATIBLE
        "the destination cluster is incompatible with the state compatibility identity"
  | CRes.COMPATIBLE =>
      persist_prepared verification plane
        (mark_prepared
           (revised <| rp_compatibility_descriptor := built |>
              <| rp_compatibility_generation := cq_generation requirement |>
              <| rp_compatibility_id :=
                   match state with Some s => sg_compatibility_id s | None => 0 end |>
              <| rp_compatibility := RCS.COMPATIBLE |>
              <| rp_evidence ::= λ e, e <| re_compatibility_evidence_present := true |>
                   <| re_compatibility_generation := cq_generation requirement |> |>))
        counters next
  | _ =>
      persist_and_fail verification plane
        (revised <| rp_compatibility := RCS.UNKNOWN |> <| rp_lifecycle := RL.REVALIDATION_REQUIRED |>
           <| rp_last_error := "cluster capabilities do not cover the compatibility requirement" |>)
        counters next EC.COMPATIBILITY_UNKNOWN
        "compatibility evidence is incomplete for the destination cluster"
  end.

(** Compatibility against a descriptor the message or the replica carries. *)
Definition verify_against_descriptor (verification : ReplicaVerification) (plane : ControlPlane)
    (requirement : CompatibilityRequirement) (descriptor : option CompatibilityDescriptor)
    (descriptor_generation : Z) (revised : ReplicaRecord) (counters : FabricCounters) (next : Z)
    : M ReplicaRecord :=
  let result := evaluate_compatibility requirement descriptor descriptor_generation false in
  match result with
  | CRes.INCOMPATIBLE =>
      persist_and_fail verification plane
        (mark_incompatible "destination is incompatible with the state requirement" revised)
        (counters <| fc_compatibility_rejections ::= inc |>) next EC.INCOMPATIBLE
        (describe_compatibility requirement result descriptor)
  | CRes.UNKNOWN =>
      persist_and_fail verification plane
        (revised <| rp_compatibility := RCS.UNKNOWN |> <| rp_lifecycle := RL.REVALIDATION_REQUIRED |>
           <| rp_last_error := "compatibility evidence is incomplete" |>)
        counters next EC.COMPATIBILITY_UNKNOWN
        (describe_compatibility requirement result descriptor +:+
         "; UNKNOWN is never treated as compatible")
  | CRes.REVALIDATION_REQUIRED =>
      persist_and_fail verification plane
        (revised <| rp_compatibility := RCS.REVALIDATION_REQUIRED |>
           <| rp_lifecycle := RL.REVALIDATION_REQUIRED |>
           <| rp_last_error := "compatibility evidence requires revalidation" |>)
        counters next EC.REVALIDATION_REQUIRED "compatibility evidence requires revalidation"
  | CRes.COMPATIBLE =>
      let revised :=
        revised <| rp_compatibility := RCS.COMPATIBLE |>
          <| rp_compatibility_generation := descriptor_generation |>
          <| rp_evidence ::= λ e, e <| re_compatibility_evidence_present := true |>
               <| re_compatibility_generation := descriptor_generation |>
               <| re_health_generation := next |> |> in
      let revised :=
        match descriptor with
        | Some d => revised <| rp_compatibility_descriptor := d |>
        | None => revised
        end in
      persist_prepared verification plane (mark_prepared revised) counters (u64 (next + 1))
  end.

Definition verify_replica (verification : ReplicaVerification) (plane : ControlPlane)
    (config : FabricConfig) : M ReplicaRecord :=
  let! replica :=
    guard_replica plane (rvf_replica_id verification) (rvf_replica_generation verification)
      (rvf_cluster_incarnation verification) (rvf_worker_boot_id verification)
      (rvf_expected_coordinator_epoch verification) in
  refuse_if (negb (verifiable (rp_lifecycle replica))) EC.ILLEGAL_TRANSITION;;;
  let! tick := get_tick in
  let state := find_state plane (rp_state_id replica) (rp_state_generation replica) in
  let counters := (pl_counters plane) <| fc_integrity_verifications ::= inc |> in
  let next := pl_next_id plane in
  let measured := rvf_measured_digest verification in
  let revised :=
    replica <| rp_last_epoch := pl_coordinator_epoch plane |> <| rp_updated_at := tick |>
      <| rp_evidence ::= λ e, e <| re_verification_id := rvf_verification_id verification |>
           <| re_verified_at := tick |> <| re_coordinator_epoch := pl_coordinator_epoch plane |> |>
      <| rp_measured_digest := measured |> in
  let expected := match state with Some s => sg_content_digest s | None => Digest_default end in
  if negb (rvf_integrity_verified verification) then
    persist_and_fail verification plane
      (mark_corrupt "integrity verification reported a mismatch" revised)
      (counters <| fc_integrity_failures ::= inc |>) next EC.INTEGRITY_MISMATCH
      "the destination failed integrity verification"
  else if digest_valid expected && digest_valid measured && bool_decide (measured ≠ expected) then
    persist_and_fail verification plane
      (mark_corrupt "measured digest does not match the state content digest" revised)
      (counters <| fc_integrity_failures ::= inc |>) next EC.INTEGRITY_MISMATCH
      "the destination digest does not match the authoritative digest"
  else if digest_valid expected && negb (digest_valid measured) then
    persist_and_fail verification plane
      (revised <| rp_integrity := RI.UNVERIFIED |> <| rp_lifecycle := RL.TRANSFERRED |>
         <| rp_last_error := "verification carried no measured digest" |>)
      counters next EC.INTEGRITY_UNKNOWN "verification carries no measured digest to compare"
  else
    let revised :=
      revised <| rp_integrity := RI.VERIFIED |>
        <| rp_evidence ::= λ e, e <| re_integrity_evidence_present := true |>
             <| re_integrity_generation := next |>
             <| re_evidence_generation := u64 (next + 1) |>
             <| re_capability_generation := u64 (next + 2) |> |>
        <| rp_durability ::= λ d, max_durability d
             (durability_state (rvf_established_durability verification)) |> in
    let next := u64 (next + 3) in
    let requirement := match state with
                       | Some s => state_requirement s
                       | None => CompatibilityRequirement_default
                       end in
    if negb (descriptor_empty (rvf_compatibility_descriptor verification)) then
      verify_against_descriptor verification plane requirement
        (Some (rvf_compatibility_descriptor verification))
        (or_else (rvf_compatibility_generation verification) (cq_generation requirement))
        revised counters next
    else if negb (descriptor_empty (rp_compatibility_descriptor replica)) then
      verify_against_descriptor verification plane requirement
        (Some (rp_compatibility_descriptor replica)) (rp_compatibility_generation replica)
        revised counters next
    else match find_cluster plane (rlo_cluster_id (rp_location replica)) with
         | Some cluster =>
             verify_against_cluster verification plane state cluster revised counters next
         | None =>
             verify_against_descriptor verification plane requirement None 0 revised counters next
         end.

(** ** Authoritative commit *)

Definition owner_record (plane : ControlPlane) (tick commit_id : Z) (set : ReplicaSetRecord)
    (revised : ReplicaRecord) : OwnershipRecord :=
  mkOwnershipRecord (rp_state_id revised) (rp_state_generation revised)
    (rp_replica_id revised) (rp_replica_generation revised)
    (rlo_cluster_id (rp_location revised)) (rlo_cluster_incarnation (rp_location revised))
    (pl_coordinator_epoch plane) commit_id (rs_placement_id set) (rs_placement_generation set)
    tick true.

Definition committed_replica (plane : ControlPlane) (tick commit_id : Z) (set : ReplicaSetRecord)
    (target : ReplicaRecord) : ReplicaRecord :=
  target <| rp_lifecycle := RL.AUTHORITATIVE |> <| rp_integrity := RI.VERIFIED |>
    <| rp_compatibility := RCS.COMPATIBLE |> <| rp_availability := RA.PRESENT |>
    <| rp_commit_recorded := true |> <| rp_counts_toward_factor := true |>
    <| rp_commit_id := commit_id |>
    <| rp_replica_set_generation :=
         if valid (rs_generation set) then id_next (rs_generation set) else 1 |>
    <| rp_last_epoch := pl_coordinator_epoch plane |> <| rp_updated_at := tick |>
    <| rp_last_error := "" |>
    <| rp_provenance ::= λ p, p <| sp_commit := commit_id |> |>.

Definition demoted_owner (plane : ControlPlane) (tick : Z) (text : string)
    (previous : ReplicaRecord) : ReplicaRecord :=
  previous <| rp_authority := RAS.AUTHORITATIVE_FOR_REUSE |>
    <| rp_last_epoch := pl_coordinator_epoch plane |> <| rp_updated_at := tick |>
    <| rp_last_error := text |>.

(** Demotes a live previous owner. *)
Definition demote_previous (plane : ControlPlane) (tick : Z) (text : string) (owner : Z) : M unit :=
  match find_replica plane owner with
  | Some previous =>
      if replica_is_terminal previous then mret tt
      else emit (PUT_REPLICA (demoted_owner plane tick text previous))
  | None => mret tt
  end.

(** The ownership record names an active owner other than the given replica. *)
Definition owned_by_another (ownership : option OwnershipRecord) (replica_id : Z) : bool :=
  match ownership with
  | Some o => ow_active o && negb (ow_owner_replica o =? replica_id)
  | None => false
  end.

Definition plan_authoritative_commit (plane : ControlPlane) (target : ReplicaRecord)
    (state : StateGenerationRecord) (set : ReplicaSetRecord) (commit_id : Z)
    (make_owner allow_ownership_takeover : bool) : M (ReplicaRecord * bool) :=
  let ownership := find_ownership plane (rp_state_id target) (rp_state_generation target) in
  refuse_if (requires_single_authoritative_owner (sg_consistency state) && negb make_owner)
    EC.POLICY_VIOLATION;;;
  let! tick := get_tick in
  let revised := committed_replica plane tick commit_id set target in
  if make_owner then
    (if owned_by_another ownership (rp_replica_id target) then
       refuse_if (negb allow_ownership_takeover) EC.SPLIT_BRAIN_RISK;;;
       match ownership with
       | Some o =>
           demote_previous plane tick "ownership handed over by an authorized migration"
             (ow_owner_replica o)
       | None => mret tt
       end
     else mret tt);;;
    let revised := revised <| rp_authority := RAS.AUTHORITATIVE_OWNER |> in
    emit (PUT_OWNERSHIP (owner_record plane tick commit_id set revised));;;
    put_replica_and_set plane revised true;;;
    mret (revised, true)
  else
    let revised := revised <| rp_authority := RAS.AUTHORITATIVE_FOR_REUSE |> in
    put_replica_and_set plane revised true;;;
    mret (revised, false).

Definition committable (lifecycle : ReplicaLifecycle) : bool :=
  match lifecycle with
  | RL.PREPARED | RL.AUTHORITATIVE | RL.DEGRADED => true
  | _ => false
  end.

(** The most authoritative replicas a generation may hold. *)
Definition maximum_authoritative (policy : option ReplicationPolicyRecord) : Z :=
  match policy with
  | Some p => rtp_maximum_replicas_per_state (rpp_retention p)
  | None => 8
  end.

Definition commit_replica (commit : ReplicaCommit) (plane : ControlPlane) (config : FabricConfig)
    : M ReplicaRecord :=
  refuse_if (negb (valid (rc_commit_id commit))) EC.INVALID_ARGUMENT;;;
  let! existing := require (find_replica plane (rc_replica_id commit)) EC.UNKNOWN_REPLICA in
  refuse_if (mismatched (rc_replica_generation commit) (rp_replica_generation existing))
    EC.STALE_REPLICA_GENERATION;;;
  refuse_if (mismatched (rc_expected_coordinator_epoch commit) (pl_coordinator_epoch plane))
    EC.STALE_EPOCH;;;
  if rp_commit_recorded existing then
    if rp_commit_id existing =? rc_commit_id commit then mret existing
    else refuse EC.COMMIT_CONFLICT
  else
    let! state := require_state plane (rp_state_id existing) (rp_state_generation existing) in
    let! cluster :=
      require (find_cluster plane (rlo_cluster_id (rp_location existing))) EC.UNKNOWN_CLUSTER in
    refuse_if (negb (cl_live_authority cluster) ||
               negb (cl_incarnation cluster =? rlo_cluster_incarnation (rp_location existing)))
      EC.STALE_CLUSTER_INCARNATION;;;
    let! set :=
      require (find_replica_set plane (rp_state_id existing) (rp_state_generation existing))
        EC.UNKNOWN_STATE in
    refuse_if (mismatched (rc_expected_replica_set_generation commit) (rs_generation set))
      EC.STALE_REPLICA_SET_GENERATION;;;
    refuse_if (negb (committable (rp_lifecycle existing))) EC.TRANSFER_INCOMPLETE;;;
    refuse_if (rc_require_integrity_verified commit &&
               bool_decide (rp_integrity existing ≠ RI.VERIFIED)) EC.INTEGRITY_UNKNOWN;;;
    refuse_if (rc_require_compatibility_verified commit &&
               bool_decide (rp_compatibility existing ≠ RCS.COMPATIBLE)) EC.COMPATIBILITY_UNKNOWN;;;
    refuse_if (re_revalidation_required (rp_evidence existing)) EC.REVALIDATION_REQUIRED;;;
    let policy := resolve_replication_policy plane config 0 in
    refuse_if (rs_authoritative_count (rebuild_replica_set plane set) >=?
               maximum_authoritative policy) EC.OVER_REPLICATED;;;
    let! result :=
      plan_authoritative_commit plane existing state set (rc_commit_id commit)
        (rc_make_authoritative_owner commit) false in
    let counters := (pl_counters plane) <| fc_replicas_committed ::= inc |> in
    let counters :=
      if result.2 then counters <| fc_ownership_transfers ::= inc |> else counters in
    emit (PUT_COUNTERS counters);;;
    mret result.1.

(** ** Retirement, quarantine and revalidation *)

Definition is_active_owner (ownership : option OwnershipRecord) (replica_id : Z) : bool :=
  match ownership with
  | Some o => ow_active o && (ow_owner_replica o =? replica_id)
  | None => false
  end.

Definition guard_transition (transition : ReplicaTransition) (plane : ControlPlane)
    : M ReplicaRecord :=
  guard_replica plane (rt_replica_id transition) (rt_replica_generation transition)
    (rt_cluster_incarnation transition) (rt_worker_boot_id transition)
    (rt_expected_coordinator_epoch transition).

Definition retire_replica (transition : ReplicaTransition) (plane : ControlPlane)
    (config : FabricConfig) : M ReplicaRecord :=
  let! replica := guard_transition transition plane in
  refuse_if (is_active_owner
               (find_ownership plane (rp_state_id replica) (rp_state_generation replica))
               (rp_replica_id replica)) EC.AUTHORITY_NOT_ESTABLISHED;;;
  let! tick := get_tick in
  let revised :=
    replica <| rp_lifecycle := RL.RETIRED |> <| rp_authority := RAS.HISTORICAL |>
      <| rp_counts_toward_factor := false |> <| rp_availability := RA.ABSENT |>
      <| rp_last_epoch := pl_coordinator_epoch plane |> <| rp_updated_at := tick |>
      <| rp_last_error := rt_reason transition |> in
  put_replica_and_set plane revised true;;;
  emit (PUT_COUNTERS ((pl_counters plane) <| fc_replicas_retired ::= inc |>));;;
  mret revised.

Definition quarantine_replica (transition : ReplicaTransition) (plane : ControlPlane)
    (config : FabricConfig) : M ReplicaRecord :=
  let! replica := guard_transition transition plane in
  let! tick := get_tick in
  let revised :=
    replica <| rp_lifecycle := RL.QUARANTINED |> <| rp_authority := RAS.FENCED |>
      <| rp_counts_toward_factor := false |>
      <| rp_last_epoch := pl_coordinator_epoch plane |> <| rp_updated_at := tick |>
      <| rp_last_error := rt_reason transition |> in
  put_replica_and_set plane revised true;;;
  emit (PUT_COUNTERS ((pl_counters plane) <| fc_replicas_quarantined ::= inc |>));;;
  mret revised.

(** The evidence was bound to an earlier incarnation or worker boot. *)
Definition needs_rebinding (existing : ReplicaRecord) (cluster : ClusterRecord) : bool :=
  negb (rlo_cluster_incarnation (rp_location existing) =? cl_incarnation cluster) ||
  (valid (rp_worker_boot_id existing) && valid (cl_worker_boot_id cluster) &&
   negb (rp_worker_boot_id existing =? cl_worker_boot_id cluster)).

Definition rebound (existing : ReplicaRecord) (cluster : ClusterRecord) : ReplicaRecord :=
  if needs_rebinding existing cluster
  then existing
         <| rp_location ::= λ l, l <| rlo_cluster_incarnation := cl_incarnation cluster |> |>
         <| rp_worker_boot_id := cl_worker_boot_id cluster |>
  else existing.

(** The record a revalidation writes: fresh evidence, and the authority a recorded
    commit entitles it to. *)
Definition revalidated_replica (plane : ControlPlane) (tick : Z) (cluster : ClusterRecord)
    (rebinding : bool) (replica : ReplicaRecord) : ReplicaRecord :=
  let next := pl_next_id plane in
  let revised :=
    replica
      <| rp_evidence ::= λ e, e <| re_revalidation_required := false |>
           <| re_evidence_generation := next |>
           <| re_capability_generation := u64 (next + 1) |>
           <| re_verified_at := tick |> <| re_coordinator_epoch := pl_coordinator_epoch plane |> |>
      <| rp_availability := RA.PRESENT |>
      <| rp_last_epoch := pl_coordinator_epoch plane |> <| rp_updated_at := tick |>
      <| rp_last_error :=
           if rebinding
           then "revalidated and rebound to cluster incarnation " +:+
                id_to_string (cl_incarnation cluster)
           else "" |> in
  if rp_commit_recorded replica
  then revised <| rp_lifecycle := RL.AUTHORITATIVE |> <| rp_counts_toward_factor := true |>
         <| rp_authority :=
              if is_active_owner
                   (find_ownership plane (rp_state_id revised) (rp_state_generation revised))
                   (rp_replica_id revised)
              then RAS.AUTHORITATIVE_OWNER else RAS.AUTHORITATIVE_FOR_REUSE |>
  else revised <| rp_lifecycle := RL.PREPARED |> <| rp_authority := RAS.CANDIDATE |>
         <| rp_counts_toward_factor := false |>.

Definition revalidate_replica (transition : ReplicaTransition) (plane : ControlPlane)
    (config : FabricConfig) : M ReplicaRecord :=
  let! existing := require (find_replica plane (rt_replica_id transition)) EC.UNKNOWN_REPLICA in
  refuse_if (mismatched (rt_replica_generation transition) (rp_replica_generation existing))
    EC.STALE_REPLICA_GENERATION;;;
  refuse_if (mismatched (rt_expected_coordinator_epoch transition) (pl_coordinator_epoch plane))
    EC.STALE_EPOCH;;;
  refuse_if (replica_is_terminal existing) EC.ILLEGAL_TRANSITION;;;
  let! bound_cluster :=
    require (find_cluster plane (rlo_cluster_id (rp_location existing)))
      EC.STALE_CLUSTER_INCARNATION in
  refuse_if (negb (cl_live_authority bound_cluster)) EC.STALE_CLUSTER_INCARNATION;;;
  refuse_if (mismatched (rt_cluster_incarnation transition) (cl_incarnation bound_cluster))
    EC.STALE_CLUSTER_INCARNATION;;;
  let replica := rebound existing bound_cluster in
  refuse_if (bool_decide (rp_integrity replica = RI.MISMATCH) ||
             bool_decide (rp_integrity replica = RI.CORRUPT) ||
             bool_decide (rp_lifecycle replica = RL.CORRUPT)) EC.INTEGRITY_MISMATCH;;;
  refuse_if (bool_decide (rp_integrity replica ≠ RI.VERIFIED)) EC.INTEGRITY_UNKNOWN;;;
  let! cluster :=
    require (find_cluster plane (rlo_cluster_id (rp_location replica)))
      EC.STALE_CLUSTER_INCARNATION in
  refuse_if (negb (cl_live_authority cluster) ||
             negb (cl_incarnation cluster =? rlo_cluster_incarnation (rp_location replica)))
    EC.STALE_CLUSTER_INCARNATION;;;
  let! state := require_state plane (rp_state_id replica) (rp_state_generation replica) in
  refuse_if
    (bool_decide (rp_compatibility replica ≠ RCS.COMPATIBLE) &&
     bool_decide (evaluate_compatibility (state_requirement state)
                    (Some (cluster_compatibility_descriptor cluster))
                    (sg_compatibility_generation state) false ≠ CRes.COMPATIBLE))
    EC.COMPATIBILITY_UNKNOWN;;;
  let! tick := get_tick in
  let revised :=
    revalidated_replica plane tick bound_cluster (needs_rebinding existing bound_cluster) replica in
  put_replica_and_set plane revised true;;;
  emit (SET_NEXT_ID (u64 (pl_next_id plane + 2)));;;
  mret revised.

(** ** Queries *)

Definition query_replica (plane : ControlPlane) (replica_id : Z) : Result ReplicaRecord :=
  match find_replica plane replica_id with
  | Some record => Ok record
  | None => Err EC.UNKNOWN_REPLICA
  end.

Definition list_replicas (plane : ControlPlane) (state_id generation : Z) : list ReplicaRecord :=
  replicas_of_state plane state_id generation.

Definition query_replica_set (plane : ControlPlane) (state_id generation : Z)
    : Result ReplicaSetRecord :=
  match find_replica_set plane state_id generation with
  | Some set => Ok (rebuild_replica_set plane set)
  | None => Err EC.UNKNOWN_STATE
  end.

(** [max 0 (required - actual)] on unsigned values. *)
Definition shortfall (required actual : Z) : Z := if actual <? required then required - actual else 0.

Definition reconcile_replica_set (plane : ControlPlane) (state_id generation : Z)
    : Result ReplicaSetReconciliation :=
  match find_replica_set plane state_id generation with
  | None => Err EC.UNKNOWN_STATE
  | Some set =>
      let rebuilt := rebuild_replica_set plane set in
      let requirements := rs_requirements rebuilt in
      Ok (mkReplicaSetReconciliation rebuilt
            (rs_authoritative_count rebuilt <? rr_minimum_authoritative_replicas requirements)
            (rs_authoritative_count rebuilt >? rr_maximum_replicas requirements)
            (shortfall (rr_minimum_authoritative_replicas requirements)
               (rs_authoritative_count rebuilt))
            (shortfall (rr_cluster_diversity requirements) (rs_distinct_clusters rebuilt))
            (shortfall (rr_region_diversity requirements) (rs_distinct_regions rebuilt))
            (map rm_replica_id (rs_degraded_members rebuilt))
            (explain_replica_set rebuilt))
  end.

Definition list_replica_sets (plane : ControlPlane) : list ReplicaSetRecord :=
  map (rebuild_replica_set plane) (values (pl_replica_sets plane)).
