(* ===== verification/FabricOps.v ===== *)
(** * Planning, transactions and ownership ([fabric_ops.cpp])

    Candidate construction, the authorization of a replication or migration, its
    commit and cancellation, ownership hand-over, reuse evaluation and the rendered
    explanations. *)

From S2P Require Import Prelude Taxonomy Model Cost Compatibility ModelOps Authority ControlPlane.
From S2P Require Import Placement FabricCore FabricState FabricReplica.

Local Open Scope Z_scope.

(** ** Planning *)

Definition build_candidate (plane : ControlPlane) (config : FabricConfig) (cluster : ClusterRecord)
    (state : StateGenerationRecord) (source : option ReplicaRecord) : PlacementCandidate :=
  let requirement := state_requirement state in
  let cost_policy := pp_cost_policy (cfg_default_placement_policy config) in
  let transfer_bytes :=
    match source with Some s => rp_logical_size s | None => sg_logical_size state end in
  let inbound := cp_inbound_bytes_per_tick (cl_capacity cluster) in
  let hosted :=
    List.filter (λ r, (rp_state_id r =? sg_state_id state) &&
                      (rlo_cluster_id (rp_location r) =? cl_cluster_id cluster) &&
                      negb (replica_is_terminal r)) (values (pl_replicas plane)) in
  let in_flight :=
    List.filter (λ o, negb (operation_is_terminal o) &&
                      (op_destination_cluster o =? cl_cluster_id cluster))
      (values (pl_operations plane)) in
  PlacementCandidate_default
    <| pcd_cluster_id := cl_cluster_id cluster |>
    <| pcd_cluster_incarnation := if cl_live_authority cluster then cl_incarnation cluster else 0 |>
    <| pcd_region := clo_region (cl_location cluster) |>
    <| pcd_failure_domain := clo_failure_domain (cl_location cluster) |>
    <| pcd_health := cl_health cluster |>
    <| pcd_capabilities := cl_capabilities cluster |>
    <| pcd_capacity := cl_capacity cluster |>
    <| pcd_evidence := cl_evidence cluster |>
    <| pcd_logical_size := sg_logical_size state |>
    <| pcd_transfer_bytes := transfer_bytes |>
    <| pcd_expected_reuse := sg_expected_reuse state |>
    <| pcd_achievable_durability :=
         if bool_decide (sg_durability state = DC.ARCHIVAL) then RD.ARCHIVAL
         else if enum_value (sg_durability state) >=? enum_value DC.DURABLE then RD.DURABLE
         else RD.STANDARD |>
    <| pcd_compatibility :=
         evaluate_compatibility requirement (Some (cluster_compatibility_descriptor cluster))
           (cq_generation requirement) false |>
    <| pcd_integrity_evidence_available :=
         match source with Some s => bool_decide (rp_integrity s = RI.VERIFIED) | None => false end |>
    <| pcd_transfer_cost :=
         price_bytes cost_policy (cpo_transfer_micro_per_mib cost_policy) transfer_bytes |>
    <| pcd_storage_cost :=
         price_bytes cost_policy (cpo_storage_micro_per_mib_tick cost_policy)
           (sg_logical_size state) |>
    <| pcd_compute_cost :=
         price_bytes cost_policy (cpo_compute_micro_per_mib cost_policy) (sg_logical_size state) |>
    <| pcd_reconstruction_cost :=
         if cost_known (ri_estimated_cost (sg_reconstruction state))
         then ri_estimated_cost (sg_reconstruction state)
         else price_bytes cost_policy (cpo_compute_micro_per_mib cost_policy)
                (sg_logical_size state) |>
    <| pcd_predicted_transfer_ticks :=
         if (inbound >? 0) && size_known transfer_bytes
         then u64 (sz_bytes transfer_bytes + inbound - 1) / inbound else 0 |>
    <| pcd_source_cluster_healthy :=
         match source with Some s => bool_decide (rp_availability s = RA.PRESENT) | None => false end |>
    <| pcd_existing_replica_count := count32 hosted |>
    <| pcd_already_hosts_current_replica :=
         existsb (λ r, rp_commit_recorded r && (rp_state_generation r =? sg_generation state))
           hosted |>
    <| pcd_in_flight_operations := count32 in_flight |>.

Definition build_request (plane : ControlPlane) (state_id generation : Z) (set : ReplicaSetRecord)
    (policy : ReplicationPolicyRecord) (placement : PlacementPolicyRecord)
    (source : option ReplicaRecord) (intent : DecisionKind) : PlacementRequest :=
  PlacementRequest_default
    <| pr_state_id := state_id |> <| pr_state_generation := generation |>
    <| pr_policy := placement |> <| pr_replication_policy := policy |>
    <| pr_intent := intent |> <| pr_now := pl_logical_time plane |>
    <| pr_preferred_source :=
         match source with Some s => rlo_cluster_id (rp_location s) | None => 0 end |>
    <| pr_current_clusters := map rm_cluster_id (rs_authoritative_members set) |>
    <| pr_current_regions := map rm_region (rs_authoritative_members set) |>
    <| pr_current_failure_domains := map rm_failure_domain (rs_authoritative_members set) |>.

(** Candidates are the clusters that are not retired; a valid destination
    narrows them to one. *)
Definition candidate_clusters (plane : ControlPlane) (destination : Z) : list ClusterRecord :=
  List.filter (λ c, bool_decide (cl_lifecycle c ≠ CL.RETIRED) &&
                    negb (valid destination && negb (cl_cluster_id c =? destination)))
    (values (pl_clusters plane)).

Definition plan_into (plane : ControlPlane) (config : FabricConfig) (state : StateGenerationRecord)
    (set : ReplicaSetRecord) (policy : ReplicationPolicyRecord)
    (placement : PlacementPolicyRecord) (intent : DecisionKind) : PlacementEvaluation :=
  let source :=
    select_source_replica plane (sg_state_id state) (sg_generation state) 0 (Some policy)
      (pl_logical_time plane) in
  let request :=
    (build_request plane (sg_state_id state) (sg_generation state) set policy placement source intent)
      <| pr_candidates := map (λ c, build_candidate plane config c state source)
                            (candidate_clusters plane 0) |> in
  evaluate_placement request (Some state).

(** ** Authorization *)

Definition authorized_operation (plane : ControlPlane) (tick : Z) (state : StateGenerationRecord)
    (state_id generation : Z) (set : ReplicaSetRecord) (policy : ReplicationPolicyRecord)
    (placement : PlacementPolicyRecord) (source : ReplicaRecord) (destination : ClusterRecord)
    (chosen : Z) (kind : OperationKind) (destructive_move : bool) : OperationRecord :=
  let next := pl_next_id plane in
  OperationRecord_default
    <| op_operation_id := next |> <| op_operation_generation := 1 |>
    <| op_kind := kind |> <| op_state := OS.RESERVED |>
    <| op_state_id := state_id |> <| op_state_generation := generation |>
    <| op_source_replica := rp_replica_id source |>
    <| op_source_replica_generation := rp_replica_generation source |>
    <| op_source_cluster := rlo_cluster_id (rp_location source) |>
    <| op_source_incarnation := rlo_cluster_incarnation (rp_location source) |>
    <| op_destination_cluster := chosen |>
    <| op_destination_incarnation := cl_incarnation destination |>
    <| op_migration_id := u64 (next + 1) |> <| op_migration_generation := 1 |>
    <| op_transfer_id := u64 (next + 2) |> <| op_transfer_generation := 1 |>
    <| op_reservation_id := u64 (next + 3) |> <| op_reservation_generation := 1 |>
    <| op_source_replica_set_generation := rs_generation set |>
    <| op_placement_generation := rs_placement_generation set |>
    <| op_placement_policy_generation := pp_generation placement |>
    <| op_replication_policy_generation := rpp_generation policy |>
    <| op_replication_policy_id := rpp_replication_policy_id policy |>
    <| op_replication_policy_generation_recorded := rpp_generation policy |>
    <| op_placement_policy_id := pp_placement_policy_id placement |>
    <| op_planned_epoch := pl_coordinator_epoch plane |>
    <| op_last_epoch := pl_coordinator_epoch plane |>
    <| op_transfer_bytes :=
         if size_known (rp_logical_size source) then rp_logical_size source
         else sg_logical_size state |>
    <| op_transferred_bytes := size_of 0 |>
    <| op_expected_digest := sg_content_digest state |>
    <| op_failure_action := rpp_failure_action policy |>
    <| op_planned_at := tick |> <| op_updated_at := tick |>
    <| op_reservation_expires_at := u64 (tick + kReservationWindowTicks) |>
    <| op_destructive_move := destructive_move |>
    <| op_reason := "authorized by deterministic placement under placement policy " +:+
         id_to_string (pp_placement_policy_id placement) +:+ " and replication policy " +:+
         id_to_string (rpp_replication_policy_id policy) |>
    <| op_journal := ["planned destination cluster " +:+ id_to_string chosen;
                      "reserved transfer " +:+ id_to_string (u64 (next + 2))] |>
    <| op_destination_replica := u64 (next + 4) |>
    <| op_destination_replica_generation := 1 |>.

Definition destination_replica (plane : ControlPlane) (tick : Z) (state : StateGenerationRecord)
    (state_id generation : Z) (set : ReplicaSetRecord) (source : ReplicaRecord)
    (destination : ClusterRecord) (chosen : Z) (operation : OperationRecord) : ReplicaRecord :=
  ReplicaRecord_default
    <| rp_replica_id := op_destination_replica operation |> <| rp_replica_generation := 1 |>
    <| rp_state_id := state_id |> <| rp_state_generation := generation |>
    <| rp_replica_set_id := rs_replica_set_id set |>
    <| rp_replica_set_generation := rs_generation set |>
    <| rp_location :=
         mkReplicaLocation chosen (cl_incarnation destination)
           (clo_region (cl_location destination)) (clo_site (cl_location destination))
           (clo_failure_domain (cl_location destination))
           (clo_descriptor (cl_location destination)) |>
    <| rp_lifecycle := RL.RESERVED |> <| rp_integrity := RI.UNVERIFIED |>
    <| rp_compatibility := RCS.UNKNOWN |> <| rp_durability := RD.UNKNOWN |>
    <| rp_availability := RA.UNKNOWN |> <| rp_authority := RAS.CANDIDATE |>
    <| rp_content_digest := sg_content_digest state |>
    <| rp_digest_algorithm := sg_digest_algorithm state |>
    <| rp_compatibility_id := sg_compatibility_id state |>
    <| rp_compatibility_generation := sg_compatibility_generation state |>
    <| rp_logical_size := sg_logical_size state |>
    <| rp_transferred_bytes := size_of 0 |>
    <| rp_provenance :=
         StateProvenance_default <| sp_producer := "cross-cluster-state-fabric" |>
           <| sp_origin_cluster := rlo_cluster_id (rp_location source) |>
           <| sp_origin_incarnation := rlo_cluster_incarnation (rp_location source) |>
           <| sp_source_generation := generation |>
           <| sp_source_replica := rp_replica_id source |>
           <| sp_operation := op_operation_id operation |>
           <| sp_worker_boot := rp_worker_boot_id source |>
           <| sp_coordinator_epoch := pl_coordinator_epoch plane |>
           <| sp_recorded_at := tick |> |>
    <| rp_worker_id := cl_worker_id destination |>
    <| rp_worker_boot_id := cl_worker_boot_id destination |>
    <| rp_created_epoch := pl_coordinator_epoch plane |>
    <| rp_last_epoch := pl_coordinator_epoch plane |>
    <| rp_created_at := tick |> <| rp_updated_at := tick |>
    <| rp_transfer_id := op_transfer_id operation |>
    <| rp_transfer_generation := op_transfer_generation operation |>
    <| rp_operation_id := op_operation_id operation |>
    <| rp_operation_generation := op_operation_generation operation |>.

Definition authorization_of (plane : ControlPlane) (tick : Z) (state : StateGenerationRecord)
    (set : ReplicaSetRecord) (operation : OperationRecord) : TransferAuthorization :=
  TransferAuthorization_default
    <| ta_operation_id := op_operation_id operation |>
    <| ta_operation_generation := op_operation_generation operation |>
    <| ta_kind := op_kind operation |>
    <| ta_migration_id := op_migration_id operation |>
    <| ta_migration_generation := op_migration_generation operation |>
    <| ta_transfer_id := op_transfer_id operation |>
    <| ta_transfer_generation := op_transfer_generation operation |>
    <| ta_reservation_id := op_reservation_id operation |>
    <| ta_reservation_generation := op_reservation_generation operation |>
    <| ta_state_id := op_state_id operation |>
    <| ta_state_generation := op_state_generation operation |>
    <| ta_replica_set_id := rs_replica_set_id set |>
    <| ta_replica_set_generation := rs_generation set |>
    <| ta_source_replica := op_source_replica operation |>
    <| ta_source_replica_generation := op_source_replica_generation operation |>
    <| ta_source_cluster := op_source_cluster operation |>
    <| ta_source_incarnation := op_source_incarnation operation |>
    <| ta_destination_replica := op_destination_replica operation |>
    <| ta_destination_replica_generation := op_destination_replica_generation operation |>
    <| ta_destination_cluster := op_destination_cluster operation |>
    <| ta_destination_incarnation := op_destination_incarnation operation |>
    <| ta_placement_id := rs_placement_id set |>
    <| ta_placement_generation := rs_placement_generation set |>
    <| ta_coordinator_epoch := pl_coordinator_epoch plane |>
    <| ta_transfer_bytes := op_transfer_bytes operation |>
    <| ta_expected_digest := sg_content_digest state |>
    <| ta_digest_algorithm := sg_digest_algorithm state |>
    <| ta_reservation_expires_at := op_reservation_expires_at operation |>
    <| ta_authorized_at := tick |>
    <| ta_destructive_move := op_destructive_move operation |>.

Definition healthy_source (plane : ControlPlane) (policy : ReplicationPolicyRecord)
    (source : ReplicaRecord) : bool :=
  negb (er_require_healthy_source (rpp_source_rules policy)) ||
  match find_cluster plane (rlo_cluster_id (rp_location source)) with
  | Some cluster => cluster_admits_new_authority cluster CH.UNKNOWN 0 (pl_logical_time plane)
  | None => false
  end.

Definition reserve_counters (operation : OperationRecord) (counters : FabricCounters)
    : FabricCounters :=
  let counters :=
    counters <| fc_operations_planned ::= inc |> <| fc_operations_reserved ::= inc |>
      <| fc_transfers_started ::= inc |> in
  let counters :=
    if size_known (op_transfer_bytes operation)
    then counters <| fc_reserved_bytes ::= λ b, u64 (b + sz_bytes (op_transfer_bytes operation)) |>
    else counters in
  counters <| fc_reserved_transfer_slots ::= inc |>.

Definition authorize_transaction (plane : ControlPlane) (config : FabricConfig)
    (state_id generation destination_cluster source_cluster : Z) (kind : OperationKind)
    (destructive_move : bool) (replication_policy_id placement_policy_id expected_epoch : Z)
    : M TransferAuthorization :=
  refuse_if (mismatched expected_epoch (pl_coordinator_epoch plane)) EC.STALE_EPOCH;;;
  let! state := require (find_state plane state_id generation) EC.UNKNOWN_STATE in
  refuse_if (negb (is_current state)) EC.STALE_STATE_GENERATION;;;
  let! stored_set := require (find_replica_set plane state_id generation) EC.UNKNOWN_STATE in
  let set := rebuild_replica_set plane stored_set in
  let! policy :=
    require (resolve_replication_policy plane config replication_policy_id) EC.UNKNOWN_POLICY in
  let! placement :=
    require (resolve_placement_policy plane config placement_policy_id) EC.UNKNOWN_POLICY in
  refuse_if (negb (operation_capacity_available plane state_id
                     (er_maximum_in_flight_operations_per_state (rpp_destination_rules policy))))
    EC.RESOURCE_EXHAUSTED;;;
  let! source :=
    require (select_source_replica plane state_id generation source_cluster (Some policy)
               (pl_logical_time plane)) EC.NO_AUTHORITATIVE_REPLICA in
  refuse_if (negb (healthy_source plane policy source)) EC.SOURCE_INELIGIBLE;;;
  let candidates :=
    map (λ c, build_candidate plane config c state (Some source))
      (candidate_clusters plane destination_cluster) in
  let request :=
    (build_request plane state_id generation set policy placement (Some source)
       (if bool_decide (kind = OpK.MIGRATION) then DK.MIGRATE else DK.REPLICATE))
      <| pr_candidates := candidates |> in
  refuse_if (length candidates =? 0)%nat EC.UNKNOWN_CLUSTER;;;
  let evaluation := evaluate_placement request (Some state) in
  let chosen := pe_chosen_cluster evaluation in
  refuse_if (negb (valid chosen)) EC.DESTINATION_INELIGIBLE;;;
  refuse_if ((chosen =? rlo_cluster_id (rp_location source)) &&
             negb (er_allow_same_cluster (rpp_destination_rules policy)))
    EC.DESTINATION_INELIGIBLE;;;
  let! destination := require (find_cluster plane chosen) EC.DESTINATION_INELIGIBLE in
  refuse_if (negb (cl_live_authority destination)) EC.DESTINATION_INELIGIBLE;;;
  let! tick := get_tick in
  let operation :=
    authorized_operation plane tick state state_id generation set policy placement source destination
      chosen kind destructive_move in
  let authorization := authorization_of plane tick state set operation in
  emit (PUT_OPERATION operation);;;
  emit (PUT_AUTHORIZATION authorization);;;
  put_replica_and_set plane
    (destination_replica plane tick state state_id generation set source destination chosen operation)
    false;;;
  emit (PUT_COUNTERS (reserve_counters operation (pl_counters plane)));;;
  emit (SET_NEXT_ID (u64 (pl_next_id plane + 5)));;;
  mret authorization.

Definition authorize_replication (request : ReplicationRequest) (plane : ControlPlane)
    (config : FabricConfig) : M TransferAuthorization :=
  authorize_transaction plane config (rq_state_id request) (rq_state_generation request)
    (rq_destination_cluster request) (rq_source_cluster request) OpK.REPLICATION false
    (rpp_replication_policy_id (rq_replication_policy request))
    (pp_placement_policy_id (rq_placement_policy request))
    (rq_expected_coordinator_epoch request).

Definition authorize_migration (request : MigrationRequest) (plane : ControlPlane)
    (config : FabricConfig) : M TransferAuthorization :=
  authorize_transaction plane config (mq_state_id request) (mq_state_generation request)
    (mq_destination_cluster request) (mq_source_cluster request) OpK.MIGRATION
    (mq_retire_source_after_commit request)
    (rpp_replication_policy_id (mq_replication_policy request))
    (pp_placement_policy_id (mq_placement_policy request))
    (mq_expected_coordinator_epoch request).

(** ** Commit and cancellation *)

Definition retired_source (plane : ControlPlane) (tick : Z) (source : ReplicaRecord)
    : ReplicaRecord :=
  source <| rp_lifecycle := RL.RETIRED |> <| rp_authority := RAS.HISTORICAL |>
    <| rp_counts_toward_factor := false |> <| rp_availability := RA.ABSENT |>
    <| rp_last_epoch := pl_coordinator_epoch plane |> <| rp_updated_at := tick |>
    <| rp_last_error := "retired after a legal destination commit" |>.

(** The source a destructive commit retires, if there is one. *)
Definition source_to_retire (plane : ControlPlane) (operation : OperationRecord)
    (commit : OperationCommit) (committed : ReplicaRecord) : option ReplicaRecord :=
  if op_destructive_move operation && oc_retire_source commit then
    match find_replica plane (op_source_replica operation) with
    | Some source =>
        if negb (replica_is_terminal source) &&
           negb (rp_replica_id source =? rp_replica_id committed)
        then Some source else None
    | None => None
    end
  else None.

Definition commit_operation (commit : OperationCommit) (plane : ControlPlane)
    (config : FabricConfig) : M OperationRecord :=
  let! existing := require (find_operation plane (oc_operation_id commit)) EC.UNKNOWN_OPERATION in
  refuse_if (mismatched (oc_expected_coordinator_epoch commit) (pl_coordinator_epoch plane))
    EC.STALE_EPOCH;;;
  refuse_if (mismatched (oc_operation_generation commit) (op_operation_generation existing))
    EC.STALE_OPERATION_GENERATION;;;
  if operation_is_terminal existing then
    if (bool_decide (op_state existing = OS.COMPLETE) ||
        bool_decide (op_state existing = OS.ADDED_TO_REPLICA_SET)) &&
       (op_commit_id existing =? oc_commit_id commit)
    then mret existing
    else refuse EC.COMMIT_CONFLICT
  else
    refuse_if (oc_retire_source commit && negb (op_destructive_move existing)) EC.POLICY_VIOLATION;;;
    let! destination :=
      require (find_replica plane (op_destination_replica existing)) EC.UNKNOWN_REPLICA in
    let! state := require_state plane (op_state_id existing) (op_state_generation existing) in
    let! set :=
      require (find_replica_set plane (op_state_id existing) (op_state_generation existing))
        EC.UNKNOWN_STATE in
    refuse_if (valid (op_source_replica_set_generation existing) &&
               negb (rs_generation set =? op_source_replica_set_generation existing))
      EC.STALE_REPLICA_SET_GENERATION;;;
    refuse_if (bool_decide (rp_lifecycle destination ≠ RL.PREPARED)) EC.TRANSFER_INCOMPLETE;;;
    refuse_if (bool_decide (rp_integrity destination ≠ RI.VERIFIED)) EC.INTEGRITY_UNKNOWN;;;
    refuse_if (bool_decide (rp_compatibility destination ≠ RCS.COMPATIBLE))
      EC.COMPATIBILITY_UNKNOWN;;;
    refuse_if (re_revalidation_required (rp_evidence destination)) EC.REVALIDATION_REQUIRED;;;
    let! cluster :=
      require (find_cluster plane (rlo_cluster_id (rp_location destination)))
        EC.STALE_CLUSTER_INCARNATION in
    refuse_if (negb (cl_live_authority cluster) ||
               negb (cl_incarnation cluster =? rlo_cluster_incarnation (rp_location destination)))
      EC.STALE_CLUSTER_INCARNATION;;;
    let policy := resolve_replication_policy plane config (op_replication_policy_id existing) in
    refuse_if (rs_authoritative_count (rebuild_replica_set plane set) >=?
               maximum_authoritative policy) EC.OVER_REPLICATED;;;
    let migration := bool_decide (op_kind existing = OpK.MIGRATION) in
    let! result :=
      plan_authoritative_commit plane destination state set (oc_commit_id commit)
        (migration || requires_single_authoritative_owner (sg_consistency state))
        (migration || op_destructive_move existing) in
    let! tick := get_tick in
    let committed := result.1 in
    let counters := (pl_counters plane) <| fc_replicas_committed ::= inc |> in
    let counters :=
      if result.2 then counters <| fc_ownership_transfers ::= inc |> else counters in
    let counters := counters <| fc_operations_committed ::= inc |> in
    let operation :=
      existing <| op_state := OS.COMPLETE |> <| op_last_epoch := pl_coordinator_epoch plane |>
        <| op_commit_id := oc_commit_id commit |> <| op_destination_verified := true |>
        <| op_destination_committed := true |> <| op_recovery_required := false |>
        <| op_updated_at := tick |>
        <| op_committed_replica_set_generation := rp_replica_set_generation committed |>
        <| op_journal ::= journal_push "destination committed as authoritative" |> in
    match source_to_retire plane existing commit committed with
    | Some source =>
        put_replica_and_set plane (retired_source plane tick source) true;;;
        let operation :=
          operation <| op_source_retired := true |>
            <| op_journal ::= journal_push "source retired after destination commit" |> in
        emit (PUT_OPERATION operation);;;
        emit (PUT_COUNTERS (counters <| fc_replicas_retired ::= inc |>));;;
        mret operation
    | None =>
        emit (PUT_OPERATION operation);;;
        emit (PUT_COUNTERS counters);;;
        mret operation
    end.

Definition commit_migration (commit : OperationCommit) (plane : ControlPlane)
    (config : FabricConfig) : M OperationRecord := commit_operation commit plane config.

Definition cancellation_outcome (state : OperationState) : CancellationOutcome :=
  match state with
  | OS.PLANNED | OS.RESERVED | OS.STAGING_DESTINATION => CO.CANCELLED_BEFORE_TRANSFER
  | OS.TRANSFERRING => CO.CANCELLED_DURING_TRANSFER
  | OS.TRANSFERRED | OS.VERIFYING | OS.PREPARED => CO.CANCELLED_BEFORE_COMMIT
  | _ => CO.OUTCOME_UNKNOWN
  end.

Definition abandoned_replica (plane : ControlPlane) (tick : Z) (destination : ReplicaRecord)
    : ReplicaRecord :=
  destination <| rp_lifecycle := RL.ABANDONED |> <| rp_authority := RAS.NONE |>
    <| rp_counts_toward_factor := false |> <| rp_availability := RA.ABSENT |>
    <| rp_last_epoch := pl_coordinator_epoch plane |> <| rp_updated_at := tick |>
    <| rp_last_error := "the operation was cancelled" |>.

Definition cancel_operation (cancellation : OperationCancellation) (plane : ControlPlane)
    (config : FabricConfig) : M OperationRecord :=
  let! existing :=
    require (find_operation plane (ocn_operation_id cancellation)) EC.UNKNOWN_OPERATION in
  refuse_if (mismatched (ocn_expected_coordinator_epoch cancellation) (pl_coordinator_epoch plane))
    EC.STALE_EPOCH;;;
  refuse_if (mismatched (ocn_operation_generation cancellation) (op_operation_generation existing))
    EC.STALE_OPERATION_GENERATION;;;
  let! tick := get_tick in
  if bool_decide (op_state existing = OS.COMPLETE) ||
     bool_decide (op_state existing = OS.ADDED_TO_REPLICA_SET) || op_destination_committed existing
  then
    let operation :=
      existing <| op_cancellation := CO.COMMIT_ALREADY_AUTHORITATIVE |> <| op_updated_at := tick |>
        <| op_journal ::= journal_push
             "cancellation refused: the destination commit is already authoritative" |> in
    emit (PUT_OPERATION operation);;;
    mret operation
  else if operation_is_terminal existing then mret existing
  else
    let outcome := cancellation_outcome (op_state existing) in
    let operation :=
      existing <| op_cancellation := outcome |> <| op_state := OS.CANCELLED |>
        <| op_last_epoch := pl_coordinator_epoch plane |> <| op_updated_at := tick |>
        <| op_reason := ocn_reason cancellation |> <| op_destination_committed := false |>
        <| op_journal ::= journal_push ("cancelled: " +:+ to_string outcome) |> in
    let counters := (pl_counters plane) <| fc_operations_cancelled ::= inc |> in
    let destination :=
      match find_replica plane (op_destination_replica operation) with
      | Some d => if negb (replica_is_terminal d) && negb (rp_commit_recorded d) then Some d else None
      | None => None
      end in
    match destination with
    | Some d =>
        put_replica_and_set plane (abandoned_replica plane tick d) true;;;
        emit (PUT_OPERATION operation);;;
        emit (PUT_COUNTERS (counters <| fc_replicas_abandoned ::= inc |>));;;
        mret operation
    | None =>
        emit (PUT_OPERATION operation);;;
        emit (PUT_COUNTERS counters);;;
        mret operation
    end.

(** ** Ownership *)

Definition promoted_owner (plane : ControlPlane) (tick commit : Z) (new_owner : ReplicaRecord)
    : ReplicaRecord :=
  new_owner <| rp_authority := RAS.AUTHORITATIVE_OWNER |> <| rp_lifecycle := RL.AUTHORITATIVE |>
    <| rp_commit_recorded := true |> <| rp_counts_toward_factor := true |>
    <| rp_commit_id := commit |> <| rp_provenance ::= λ p, p <| sp_commit := commit |> |>
    <| rp_last_epoch := pl_coordinator_epoch plane |> <| rp_updated_at := tick |>.

(** Demotes the recorded owner unless it is terminal or is the new owner. *)
Definition demote_old_owner (plane : ControlPlane) (tick owner : Z) (new_owner : ReplicaRecord)
    : M unit :=
  match find_replica plane owner with
  | Some old_owner =>
      if negb (replica_is_terminal old_owner) &&
         negb (rp_replica_id old_owner =? rp_replica_id new_owner)
      then emit (PUT_REPLICA (demoted_owner plane tick "ownership handed over" old_owner))
      else mret tt
  | None => mret tt
  end.

Definition transfer_ownership (request : OwnershipTransferRequest) (plane : ControlPlane)
    (config : FabricConfig) : M OwnershipRecord :=
  let! state := require_state plane (oq_state_id request) (oq_state_generation request) in
  refuse_if (negb (requires_single_authoritative_owner (sg_consistency state))) EC.NOT_SUPPORTED;;;
  refuse_if (mismatched (oq_expected_coordinator_epoch request) (pl_coordinator_epoch plane))
    EC.STALE_EPOCH;;;
  let! ownership :=
    require (find_ownership plane (oq_state_id request) (oq_state_generation request))
      EC.AUTHORITY_NOT_ESTABLISHED in
  refuse_if (negb (ow_active ownership)) EC.AUTHORITY_NOT_ESTABLISHED;;;
  if valid (oq_handoff_commit request) && (ow_commit ownership =? oq_handoff_commit request) &&
     (ow_owner_replica ownership =? oq_new_owner_replica request)
  then mret ownership
  else
    refuse_if (negb (ow_owner_replica ownership =? oq_expected_current_owner request))
      EC.SPLIT_BRAIN_RISK;;;
    let! new_owner := require (find_replica plane (oq_new_owner_replica request)) EC.UNKNOWN_REPLICA in
    refuse_if (mismatched (oq_new_owner_replica_generation request) (rp_replica_generation new_owner))
      EC.STALE_REPLICA_GENERATION;;;
    refuse_if (bool_decide (rp_integrity new_owner ≠ RI.VERIFIED) ||
               bool_decide (rp_compatibility new_owner ≠ RCS.COMPATIBLE))
      EC.AUTHORITY_NOT_ESTABLISHED;;;
    refuse_if (negb (rp_commit_recorded new_owner) &&
               bool_decide (rp_lifecycle new_owner ≠ RL.PREPARED)) EC.TRANSFER_INCOMPLETE;;;
    refuse_if (negb (rp_state_id new_owner =? oq_state_id request) ||
               negb (rp_state_generation new_owner =? oq_state_generation request))
      EC.STALE_STATE_GENERATION;;;
    let! cluster :=
      require (find_cluster plane (rlo_cluster_id (rp_location new_owner)))
        EC.STALE_CLUSTER_INCARNATION in
    refuse_if (negb (cl_live_authority cluster)) EC.STALE_CLUSTER_INCARNATION;;;
    refuse_if (negb (rlo_cluster_id (rp_location new_owner) =? oq_new_owner_cluster request))
      EC.INVALID_ARGUMENT;;;
    refuse_if (negb (cl_live_authority cluster) ||
               negb (cl_incarnation cluster =? rlo_cluster_incarnation (rp_location new_owner)))
      EC.STALE_CLUSTER_INCARNATION;;;
    refuse_if (negb (valid (oq_handoff_commit request))) EC.INVALID_ARGUMENT;;;
    let! tick := get_tick in
    let record :=
      ownership <| ow_owner_replica := rp_replica_id new_owner |>
        <| ow_owner_replica_generation := rp_replica_generation new_owner |>
        <| ow_owner_cluster := rlo_cluster_id (rp_location new_owner) |>
        <| ow_owner_incarnation := rlo_cluster_incarnation (rp_location new_owner) |>
        <| ow_epoch := pl_coordinator_epoch plane |>
        <| ow_commit := oq_handoff_commit request |>
        <| ow_established_at := tick |> <| ow_active := true |> in
    demote_old_owner plane tick (ow_owner_replica ownership) new_owner;;;
    put_replica_and_set plane (promoted_owner plane tick (oq_handoff_commit request) new_owner) true;;;
    emit (PUT_OWNERSHIP record);;;
    emit (PUT_COUNTERS ((pl_counters plane) <| fc_ownership_transfers ::= inc |>));;;
    mret record.

(** ** Queries *)

Definition query_operation (plane : ControlPlane) (operation_id : Z) : Result OperationRecord :=
  match find_operation plane operation_id with
  | Some record => Ok record
  | None => Err EC.UNKNOWN_OPERATION
  end.

Definition list_operations (plane : ControlPlane) : list OperationRecord :=
  values (pl_operations plane).

Definition query_authorization (plane : ControlPlane) (operation_id : Z)
    : Result TransferAuthorization :=
  match find_authorization plane operation_id with
  | Some record => Ok record
  | None => Err EC.UNKNOWN_OPERATION
  end.

Module Query.

Definition evaluate_placement (plane : ControlPlane) (request : PlacementRequest)
    : Result PlacementEvaluation :=
  match find_state plane (pr_state_id request) (pr_state_generation request) with
  | Some state => Ok (Placement.evaluate_placement request (Some state))
  | None => Err EC.UNKNOWN_STATE
  end.

(** The shared body of [plan_replication] and [plan_migration]. *)
Definition plan (plane : ControlPlane) (config : FabricConfig)
    (state_id generation replication_policy_id placement_policy_id : Z) (intent : DecisionKind)
    : Result PlacementEvaluation :=
  match find_state plane state_id generation, find_replica_set plane state_id generation with
  | Some state, Some set =>
      match resolve_replication_policy plane config replication_policy_id,
            resolve_placement_policy plane config placement_policy_id with
      | Some policy, Some placement =>
          Ok (plan_into plane config state set policy placement intent)
      | _, _ => Err EC.UNKNOWN_POLICY
      end
  | _, _ => Err EC.UNKNOWN_STATE
  end.

Definition plan_replication (plane : ControlPlane) (config : FabricConfig)
    (request : ReplicationRequest) : Result PlacementEvaluation :=
  plan plane config (rq_state_id request) (rq_state_generation request)
    (rpp_replication_policy_id (rq_replication_policy request))
    (pp_placement_policy_id (rq_placement_policy request)) DK.REPLICATE.

Definition plan_migration (plane : ControlPlane) (config : FabricConfig)
    (request : MigrationRequest) : Result PlacementEvaluation :=
  plan plane config (mq_state_id request) (mq_state_generation request)
    (rpp_replication_policy_id (mq_replication_policy request))
    (pp_placement_policy_id (mq_placement_policy request)) DK.MIGRATE.

End Query.

(** *** Reuse *)

(** What the loop of [evaluate_reuse] carries: the best permitted replica, the
    last assessment it kept, and the lowest rejected replica. *)
Record ReuseScan := mkReuseScan {
  rsc_best : option ReplicaRecord;
  rsc_assessment : ReplicaAuthorityAssessment;
  rsc_rejected : option (Z * Z)
}.

Definition reuse_context (plane : ControlPlane) (config : FabricConfig)
    (state : StateGenerationRecord) (cluster : ClusterRecord) (set : ReplicaSetRecord)
    : AuthorityContext :=
  mkAuthorityContext (Some state) (Some cluster) (Some set)
    (resolve_replication_policy plane config 0) (pl_coordinator_epoch plane)
    (pl_logical_time plane).

Definition scan_reuse (context : AuthorityContext) (scan : ReuseScan) (replica : ReplicaRecord)
    : ReuseScan :=
  let assessment := assess_replica_authority replica context in
  if assessment_permits_reuse assessment then
    let better :=
      match rsc_best scan with
      | None => true
      | Some best => rp_replica_id replica <? rp_replica_id best
      end in
    if better then mkReuseScan (Some replica) assessment (rsc_rejected scan) else scan
  else
    let lower :=
      match rsc_rejected scan with
      | None => true
      | Some (id, _) => rp_replica_id replica <? id
      end in
    if lower
    then mkReuseScan (rsc_best scan) assessment
           (Some (rp_replica_id replica, rp_replica_generation replica))
    else scan.

Definition durable_copy_finding (r : ReplicaRecord) : string :=
  "a durable historical copy exists as replica " +:+ id_to_string (rp_replica_id r) +:+
  " in cluster " +:+ id_to_string (rlo_cluster_id (rp_location r)) +:+
  " and remains durable without being reusable".

Definition evaluate_reuse (plane : ControlPlane) (config : FabricConfig)
    (state_id generation cluster_id : Z) : ReuseEvaluation :=
  let refused (code : ErrorCode) (reason : string) :=
    ReuseEvaluation_default <| rev_state_id := state_id |> <| rev_state_generation := generation |>
      <| rev_cluster_id := cluster_id |> <| rev_decision := DK.REJECT |> <| rev_code := code |>
      <| rev_reason := reason |> <| rev_findings := [reason] |> in
  match find_state plane state_id generation with
  | None => refused EC.UNKNOWN_STATE "the state generation is not registered"
  | Some state =>
  match find_cluster plane cluster_id with
  | None => refused EC.UNKNOWN_CLUSTER "the cluster is not registered"
  | Some cluster =>
      let set :=
        rebuild_replica_set plane
          (default ReplicaSetRecord_default (find_replica_set plane state_id generation)) in
      let label := state_generation_label state_id generation in
      let findings :=
        ["state: " +:+ label;
         "state lifecycle: " +:+ to_string (sg_lifecycle state);
         "replica set generation: " +:+ id_to_string (rs_generation set);
         "replica set state: " +:+ to_string (rs_state set);
         "authoritative replicas: " +:+ to_string_u64 (rs_authoritative_count set) +:+
         " (minimum " +:+
         to_string_u64 (rr_minimum_authoritative_replicas (rs_requirements set)) +:+ ")"] in
      let replicas := replicas_of_state plane state_id generation in
      let scan :=
        fold_left (scan_reuse (reuse_context plane config state cluster set))
          (List.filter (λ r, rlo_cluster_id (rp_location r) =? cluster_id) replicas)
          (mkReuseScan None ReplicaAuthorityAssessment_default None) in
      let evaluation :=
        ReuseEvaluation_default <| rev_state_id := state_id |>
          <| rev_state_generation := generation |> <| rev_cluster_id := cluster_id |>
          <| rev_assessment := rsc_assessment scan |> in
      match rsc_best scan with
      | None =>
          let '(replica, replica_generation, code, reason) :=
            match rsc_rejected scan with
            | Some (id, gen) => (id, gen, ra_code (rsc_assessment scan), ra_reason (rsc_assessment scan))
            | None => (0, 0, EC.NO_AUTHORITATIVE_REPLICA,
                       "no replica of " +:+ label +:+ " exists in cluster " +:+
                       id_to_string cluster_id)
            end in
          evaluation <| rev_decision := DK.REJECT |> <| rev_replica := replica |>
            <| rev_replica_generation := replica_generation |> <| rev_code := code |>
            <| rev_reason := reason |>
            <| rev_findings :=
                 findings ++ ["reuse rejected: " +:+ reason] ++
                 map durable_copy_finding (List.filter replica_survives_cluster_loss replicas) |>
      | Some best =>
          evaluation <| rev_replica := rp_replica_id best |>
            <| rev_replica_generation := rp_replica_generation best |> <| rev_code := EC.OK |>
            <| rev_decision :=
                 if cluster_id =? cfg_home_cluster config then DK.REUSE_LOCAL else DK.REUSE_REMOTE |>
            <| rev_findings :=
                 findings ++
                 (if is_current state then []
                  else ["historical generation: reuse is a historical read, not current authority"]) ++
                 [ra_reason (rsc_assessment scan)] |>
            <| rev_reason := "replica " +:+ id_to_string (rp_replica_id best) +:+ " in cluster " +:+
                 id_to_string cluster_id +:+ " is authoritative for reuse of " +:+ label |>
      end
  end end.

(** ** Explanations *)

Module Explain.

Definition labeled (label value : string) : string := label +:+ ": " +:+ value.

Definition explain_reuse (plane : ControlPlane) (config : FabricConfig)
    (state_id generation cluster_id : Z) : Explanation :=
  let value := evaluate_reuse plane config state_id generation cluster_id in
  let a := rev_assessment value in
  mkExplanation "Cross-Cluster State Fabric reuse decision"
    ([labeled "State" (state_generation_label state_id generation);
      labeled "Requesting cluster" (id_to_string cluster_id);
      labeled "Decision" (to_string (rev_decision value));
      labeled "Result" (to_string (rev_code value));
      labeled "Replica" (if valid (rev_replica value) then id_to_string (rev_replica value) else "none");
      labeled "Reason" (rev_reason value);
      labeled "Physically present" (yes_no (ra_physically_present a));
      labeled "Transfer complete" (yes_no (ra_transfer_complete a));
      labeled "Integrity verified" (yes_no (ra_integrity_verified a));
      labeled "Compatibility verified" (yes_no (ra_compatibility_verified a));
      labeled "Current generation" (yes_no (ra_current_for_state_generation a));
      labeled "Member of current replica set" (yes_no (ra_member_of_current_replica_set_generation a));
      labeled "Cluster incarnation current" (yes_no (ra_cluster_incarnation_current a));
      labeled "Authoritative for reuse" (yes_no (ra_authoritative_for_reuse a))] ++
     rev_findings value).

Definition explain_operation_record (plane : ControlPlane) (operation_id : Z)
    : Result Explanation :=
  match find_operation plane operation_id with
  | Some record =>
      Ok (mkExplanation "Cross-Cluster State Fabric operation" (explain_operation record))
  | None => Err EC.UNKNOWN_OPERATION
  end.

Definition explain_replica_set_state (plane : ControlPlane) (state_id generation : Z)
    : Result Explanation :=
  match reconcile_replica_set plane state_id generation with
  | Err code => Err code
  | Ok r =>
      Ok (mkExplanation "Cross-Cluster State Fabric replica set"
            (rsr_findings r ++
             [labeled "Under replicated" (yes_no (rsr_under_replicated r));
              labeled "Over replicated" (yes_no (rsr_over_replicated r));
              labeled "Authoritative shortfall" (to_string_u64 (rsr_authoritative_shortfall r))] ++
             map (λ id, "excluded replica: " +:+ id_to_string id) (rsr_excluded_replicas r)))
  end.

Definition render_placement (value : PlacementEvaluation) : Explanation :=
  mkExplanation "Cross-Cluster State Fabric placement decision"
    ([labeled "State" (state_generation_label (pe_state_id value) (pe_state_generation value));
      labeled "Decision" (to_string (pe_decision value));
      labeled "Placement policy generation" (id_to_string (pe_placement_policy_generation value));
      labeled "Chosen cluster"
        (if valid (pe_chosen_cluster value) then id_to_string (pe_chosen_cluster value) else "none");
      labeled "Score" (to_string_i64 (pe_chosen_score value))] ++
     pe_reasons value).

End Explain.
