(* ===== verification/Lifecycle.v ===== *)
(** * Coordinator lifecycle ([fabric_lifecycle.cpp], the replay half of
      [PersistenceStore::load])

    Loading a snapshot and its journal, the recovery pass a restarted coordinator
    runs, and the small lifecycle mutations.  The byte level of the store is not
    here: a journal is a list of decoded records and a snapshot a decoded plane. *)

From S2P Require Import Prelude Taxonomy Model ModelOps ControlPlane FabricCore FabricReplica.

Local Open Scope Z_scope.

(** ** Replay *)

Record JournalRecordImage := mkJournalRecordImage {
  jr_effects : list Effect;
  jr_sequence : Z;
  jr_tick : Z
}.

(** One turn of the replay loop of [PersistenceStore::load]. *)
Definition replay_record (plane : ControlPlane) (record : JournalRecordImage) : ControlPlane :=
  let plane := apply_all plane (jr_effects record) in
  let plane :=
    if jr_tick record >? pl_logical_time plane
    then plane <| pl_logical_time := jr_tick record |> else plane in
  if jr_sequence record >? pl_durable_sequence plane
  then plane <| pl_durable_sequence := jr_sequence record |> else plane.

Definition maxima {V} (ids : V → list Z) (records : list V) (highest : Z) : Z :=
  fold_left (λ h r, fold_left Z.max (ids r) h) records highest.

(** The identity high-water mark [load] recomputes from the records. *)
Definition highest_identity (plane : ControlPlane) : Z :=
  let h := maxima (λ r, [sg_state_id r; sg_generation r; sg_replica_set_id r; sg_compatibility_id r])
             (values (pl_states plane)) 0 in
  let h := maxima (λ r, [cl_cluster_id r; cl_incarnation r; cl_worker_id r; cl_worker_boot_id r])
             (values (pl_clusters plane)) h in
  let h := maxima (λ r, [rp_replica_id r; rp_replica_generation r]) (values (pl_replicas plane)) h in
  let h := maxima (λ r, [rs_replica_set_id r; rs_generation r]) (values (pl_replica_sets plane)) h in
  let h := maxima (λ r, [op_operation_id r; op_migration_id r; op_transfer_id r; op_reservation_id r])
             (values (pl_operations plane)) h in
  let h := maxima (λ r, [ta_operation_id r; ta_transfer_id r]) (values (pl_authorizations plane)) h in
  let h := maxima (λ r, [cr_compatibility_id r]) (values (pl_compatibility_records plane)) h in
  let h := maxima (λ r, [pp_placement_policy_id r]) (values (pl_placement_policies plane)) h in
  maxima (λ r, [rpp_replication_policy_id r]) (values (pl_replication_policies plane)) h.

(** What [load] does once the files are decoded: [snapshot] is the decoded plane
    with its sequence, [journal] the complete records with the truncation flag. *)
Definition load_images (snapshot : option (ControlPlane * Z))
    (journal : option (list JournalRecordImage * bool)) (max_records : Z) : Result ControlPlane :=
  let plane :=
    match snapshot with
    | Some (image, sequence) => image <| pl_durable_sequence := sequence |>
    | None => ControlPlane_default
    end in
  let plane :=
    match journal with
    | Some (records, truncated) =>
        let plane :=
          plane <| pl_journal_records := Z.of_nat (length records) |>
            <| pl_journal_tail_truncated := if truncated then 1 else 0 |> in
        let plane := fold_left replay_record records plane in
        if truncated
        then plane <| pl_persistence_detail :=
               "journal contained a truncated tail record which was discarded as an unacknowledged mutation" |>
        else plane
    | None => plane
    end in
  let plane := plane <| pl_persistence_enabled := true |> <| pl_recovered := true |> in
  let plane := plane <| pl_next_id := u64 (highest_identity plane + 1) |> in
  if record_count plane >? max_records then Err EC.RESOURCE_EXHAUSTED
  else if negb (validate plane) then Err EC.PERSISTENCE_CORRUPT
  else Ok plane.

(** ** Recovery *)

Record RecoveryOutcome := mkRecoveryOutcome {
  ro_state : OperationState;
  ro_destination_trusted : bool;
  ro_destination_abandoned : bool;
  ro_reason : string
}.

Definition classify_recovery (state : OperationState) : RecoveryOutcome :=
  match state with
  | OS.PLANNED | OS.RESERVED | OS.STAGING_DESTINATION | OS.TRANSFERRING =>
      mkRecoveryOutcome OS.ABANDONED false true
        "abandoned during coordinator recovery: the transfer had not completed, so the destination copy carries no authority"
  | OS.TRANSFERRED | OS.VERIFYING | OS.PREPARED =>
      mkRecoveryOutcome OS.OUTCOME_UNKNOWN false false
        "outcome unknown after coordinator restart: a completed transfer was never committed, so the destination requires explicit revalidation"
  | OS.COMMITTED | OS.ADDED_TO_REPLICA_SET =>
      mkRecoveryOutcome OS.COMPLETE true false
        "completed: the destination commit was already durable before the restart"
  | OS.SOURCE_RETIRING =>
      mkRecoveryOutcome OS.OUTCOME_UNKNOWN false false
        "source retirement was interrupted: the source is preserved and the retirement requires explicit reissue"
  | other => mkRecoveryOutcome other false false "terminal state preserved"
  end.

Definition recover_cluster (c : ClusterRecord) : ClusterRecord :=
  c <| cl_evidence ::= λ e, e <| ce_revalidation_required := true |> <| ce_present := false |> |>
    <| cl_lifecycle ::= λ l, match l with CL.ACTIVE => CL.SUSPECT | _ => l end |>.

Definition recover_replica (r : ReplicaRecord) : ReplicaRecord :=
  if replica_is_terminal r then r
  else r <| rp_evidence ::= λ e, e <| re_revalidation_required := true |> |>
         <| rp_availability := RA.UNKNOWN |>.

Definition recovery_abandon (r : ReplicaRecord) : ReplicaRecord :=
  r <| rp_lifecycle := RL.ABANDONED |> <| rp_authority := RAS.NONE |>
    <| rp_counts_toward_factor := false |> <| rp_availability := RA.ABSENT |>
    <| rp_last_error := "abandoned during coordinator recovery" |>.

Definition recovery_quarantine (r : ReplicaRecord) : ReplicaRecord :=
  r <| rp_lifecycle := RL.QUARANTINED |> <| rp_authority := RAS.FENCED |>
    <| rp_counts_toward_factor := false |> <| rp_availability := RA.UNKNOWN |>
    <| rp_evidence ::= λ e, e <| re_revalidation_required := true |> |>
    <| rp_last_error := "quarantined during coordinator recovery" |>.

(** The effect of one recovered operation on its destination and the counters. *)
Definition recover_destination (outcome : RecoveryOutcome) (destination : Z) (plane : ControlPlane)
    : ControlPlane :=
  if ro_destination_abandoned outcome then
    let plane := plane <| pl_counters ::= λ c, c <| fc_operations_abandoned ::= inc |> |> in
    match pl_replicas plane !! destination with
    | Some r =>
        if rp_commit_recorded r then plane
        else plane <| pl_replicas ::= <[destination := recovery_abandon r]> |>
                   <| pl_counters ::= λ c, c <| fc_replicas_abandoned ::= inc |> |>
    | None => plane
    end
  else if bool_decide (ro_state outcome = OS.OUTCOME_UNKNOWN) then
    match pl_replicas plane !! destination with
    | Some r =>
        if negb (rp_commit_recorded r) && negb (replica_is_terminal r)
        then plane <| pl_replicas ::= <[destination := recovery_quarantine r]> |>
                   <| pl_counters ::= λ c, c <| fc_replicas_quarantined ::= inc |> |>
        else plane
    | None => plane
    end
  else plane <| pl_counters ::= λ c, c <| fc_operations_committed ::= inc |> |>.

(** A pass that neither abandons the destination nor leaves it unknown. *)
Definition recovery_committed (outcome : RecoveryOutcome) : bool :=
  negb (ro_destination_abandoned outcome) && bool_decide (ro_state outcome ≠ OS.OUTCOME_UNKNOWN).

Definition recovered_operation (epoch now : Z) (outcome : RecoveryOutcome)
    (operation : OperationRecord) : OperationRecord :=
  operation <| op_state := ro_state outcome |>
    <| op_recovery_required := negb (ro_destination_trusted outcome) |>
    <| op_last_epoch := epoch |>
    <| op_updated_at := now |>
    <| op_journal ::= journal_push ("recovery: " +:+ ro_reason outcome) |>
    <| op_destination_committed := recovery_committed outcome |>
    <| op_destination_verified ::= λ v, recovery_committed outcome || v |>.

(** One turn of the operation loop of [initialize]. *)
Definition recover_operation (plane : ControlPlane) (entry : Z * OperationRecord) : ControlPlane :=
  let operation := entry.2 in
  if operation_is_terminal operation then plane
  else
    let outcome := classify_recovery (op_state operation) in
    let plane :=
      plane <| pl_logical_time ::= inc |>
        <| pl_counters ::= λ c, c <| fc_operations_recovered ::= inc |> |> in
    (recover_destination outcome (op_destination_replica operation) plane)
      <| pl_operations ::=
           <[entry.1 := recovered_operation (pl_coordinator_epoch plane) (pl_logical_time plane)
                          outcome operation]> |>.

(** The recovery block of [Fabric::Impl::initialize], stage by stage: live evidence
    is withdrawn under a new epoch, ... *)
Definition recover_evidence (plane : ControlPlane) : ControlPlane :=
  plane <| pl_coordinator_epoch ::= id_next |> <| pl_replay_generation ::= inc |>
    <| pl_clusters ::= fmap recover_cluster |>
    <| pl_replicas ::= fmap recover_replica |>.

(** ... in-flight operations are classified, ... *)
Definition recover_operations (plane : ControlPlane) : ControlPlane :=
  fold_left recover_operation (entries (pl_operations plane)) plane.

(** ... and every replica set is marked and rebuilt. *)
Definition withdraw_set (epoch : Z) (set : ReplicaSetRecord) : ReplicaSetRecord :=
  set <| rs_revalidation_required := true |> <| rs_epoch := epoch |>.

Definition withdraw_sets (plane : ControlPlane) : ControlPlane :=
  plane <| pl_replica_sets ::= fmap (withdraw_set (pl_coordinator_epoch plane)) |>.

Definition rebuild_sets (plane : ControlPlane) : ControlPlane :=
  plane <| pl_replica_sets ::= fmap (rebuild_replica_set plane) |>.

Definition recover (has_store : bool) (plane : ControlPlane) : ControlPlane :=
  let plane :=
    recompute_derived_counters
      (rebuild_sets (withdraw_sets (recover_operations (recover_evidence plane)))) in
  if has_store
  then plane <| pl_persistence_detail := "control plane recovered after coordinator restart" |>
  else plane.

(** The epoch a start establishes: at least the configured one, never absent. *)
Definition epoch_floor (config : FabricConfig) (epoch : Z) : Z :=
  let epoch := if cfg_epoch_start config >? epoch then cfg_epoch_start config else epoch in
  if negb (valid epoch) then 1 else epoch.

Definition clock_floor (config : FabricConfig) (now : Z) : Z :=
  if cfg_logical_start config >? now then cfg_logical_start config else now.

(** The identity, epoch and clock floor every start establishes. *)
Definition adopt_config (config : FabricConfig) (plane : ControlPlane) : Result ControlPlane :=
  if valid (pl_coordinator_id plane) && negb (pl_coordinator_id plane =? cfg_coordinator_id config)
  then Err EC.PERSISTENCE_CORRUPT
  else
    Ok (plane <| pl_coordinator_id := cfg_coordinator_id config |>
          <| pl_coordinator_epoch ::= epoch_floor config |>
          <| pl_logical_time ::= clock_floor config |>).

(** What [initialize] makes of the plane: [loaded] is the result of the load when a
    persistence directory is configured. *)
Definition initial_plane (config : FabricConfig) (loaded : option ControlPlane)
    : Result ControlPlane :=
  let plane :=
    match loaded with
    | Some p => p <| pl_persistence_enabled := true |>
    | None => ControlPlane_default
    end in
  let recovered := match loaded with Some p => pl_recovered p | None => false end in
  match adopt_config config plane with
  | Err code => Err code
  | Ok plane =>
      Ok (if recovered then recover (if loaded then true else false) plane else plane)
  end.

(** ** Lifecycle mutations *)

Definition advance_time (delta : Z) (plane : ControlPlane) (config : FabricConfig) : M Z :=
  refuse_if (delta =? 0) EC.INVALID_ARGUMENT;;;
  let! tick := get_tick in
  let out := u64 (tick + delta - 1) in
  (λ mu, (Ok tt, mu <| mu_tick := out |>));;;
  mret out.

Definition advance_epoch (plane : ControlPlane) (config : FabricConfig) : M Z :=
  let next := id_next (pl_coordinator_epoch plane) in
  (λ mu, (Ok tt, mu <| mu_epoch := next |>));;;
  emit (SET_EPOCH next);;;
  mret next.

(** [Fabric::Impl::status], as far as it reads the plane. *)
Definition status (plane : ControlPlane) (persistence_enabled recovered_from_durable : bool)
    : FabricStatus :=
  mkFabricStatus (pl_coordinator_id plane) (pl_coordinator_epoch plane) (pl_logical_time plane)
    (pl_durable_sequence plane) (pl_journal_records plane) (pl_replay_generation plane)
    persistence_enabled (pl_persistence_healthy plane) recovered_from_durable
    (negb (pl_journal_tail_truncated plane =? 0)) (pl_persistence_detail plane)
    (Z.of_nat (size (pl_states plane))) (Z.of_nat (size (pl_clusters plane)))
    (Z.of_nat (size (pl_replicas plane))) (Z.of_nat (size (pl_replica_sets plane)))
    (Z.of_nat (size (pl_operations plane)))
    (derived_counters plane
       ((pl_counters plane) <| fc_durable_commits := pl_durable_sequence plane |>
          <| fc_journal_records_applied := pl_journal_records plane |>
          <| fc_snapshots_written := pl_snapshots_written plane |>)).

Section lifecycle.
Context {S : Type} `{PersistenceStore S}.

(** [Fabric::Impl::initialize] on an opened store and its load result. *)
Definition initialize (config : FabricConfig) (opened : option (S * Result ControlPlane))
    : Result (Impl S) :=
  let start (store : option S) (loaded : option ControlPlane) : Result (Impl S) :=
    match initial_plane config loaded with
    | Err code => Err code
    | Ok plane =>
        let im :=
          mkImpl plane config store false
            (match loaded with Some p => pl_recovered p | None => false end) 0 in
        match store with
        | None => Ok im
        | Some _ =>
            match force_checkpoint_locked im with
            | (Ok _, im') => Ok im'
            | (Err code, _) => Err code
            end
        end
    end in
  match opened with
  | None => start None None
  | Some (store, Ok plane) => start (Some store) (Some plane)
  | Some (_, Err code) => Err code
  end.

(** [Fabric::open]. *)
Definition open (config : FabricConfig) (opened : option (S * Result ControlPlane))
    : Result (Impl S) :=
  if negb (valid (cfg_coordinator_id config)) then Err EC.INVALID_ARGUMENT
  else initialize config opened.

(** [Fabric::persist]. *)
Definition persist (im : Impl S) : Result unit * Impl S := force_checkpoint_locked im.

Definition shutdown (im : Impl S) : Result unit * Impl S :=
  if im_shutting_down im then (Ok tt, im)
  else
    let im := im <| im_shutting_down := true |> in
    match im_store im with
    | Some _ => force_checkpoint_locked im
    | None => (Ok tt, im)
    end.
End lifecycle.
