(* ===== verification/Fabric.v ===== *)
(** * The public mutations of [Fabric] as requests ([fabric.hpp])

    Every mutating method of the class as a constructor, its body, and the
    execution of one request and of a history through [mutate]. *)

From S2P Require Import Prelude Taxonomy Model ModelOps ControlPlane FabricCore FabricState.
From S2P Require Import FabricReplica FabricOps Lifecycle.

Local Open Scope Z_scope.

Inductive request :=
  | RegisterState (spec : StateGenerationSpec)
  | PublishStateGeneration (spec : StateGenerationSpec)
  | CommitStateGeneration (state_id generation commit_id : Z)
  | RegisterCluster (registration : ClusterRegistration)
  | PublishClusterEvidence (update : ClusterEvidenceUpdate)
  | MarkClusterUnreachable (cluster_id incarnation : Z) (reason : string)
  | RetireCluster (cluster_id incarnation : Z)
  | PublishCompatibility (record : CompatibilityRecord)
  | PublishPlacementPolicy (policy : PlacementPolicyRecord)
  | PublishReplicationPolicy (policy : ReplicationPolicyRecord)
  | RegisterReplica (registration : ReplicaRegistration)
  | RecordTransferProgress (progress : TransferProgress)
  | RecordTransferCompletion (completion : TransferCompletion)
  | VerifyReplica (verification : ReplicaVerification)
  | CommitReplica (commit : ReplicaCommit)
  | RetireReplica (transition : ReplicaTransition)
  | QuarantineReplica (transition : ReplicaTransition)
  | RevalidateReplica (transition : ReplicaTransition)
  | AuthorizeReplication (replication : ReplicationRequest)
  | AuthorizeMigration (migration : MigrationRequest)
  | CommitOperation (commit : OperationCommit)
  | CancelOperation (cancellation : OperationCancellation)
  | TransferOwnership (ownership : OwnershipTransferRequest)
  | AdvanceTime (delta : Z)
  | AdvanceEpoch.

(** Drops the response. *)
Definition void {A} (m : M A) : M unit := mbind m (λ _, mret tt).

Definition body (q : request) (plane : ControlPlane) (config : FabricConfig) : M unit :=
  match q with
  | RegisterState spec => void (register_state spec plane config)
  | PublishStateGeneration spec => void (publish_state_generation spec plane config)
  | CommitStateGeneration s g c => void (commit_state_generation s g c plane config)
  | RegisterCluster r => void (register_cluster r plane config)
  | PublishClusterEvidence u => void (publish_cluster_evidence u plane config)
  | MarkClusterUnreachable c i reason => void (mark_cluster_unreachable c i reason plane config)
  | RetireCluster c i => void (retire_cluster c i plane config)
  | PublishCompatibility r => void (publish_compatibility r plane config)
  | PublishPlacementPolicy p => void (publish_placement_policy p plane config)
  | PublishReplicationPolicy p => void (publish_replication_policy p plane config)
  | RegisterReplica r => void (register_replica r plane config)
  | RecordTransferProgress p => void (record_transfer_progress p plane config)
  | RecordTransferCompletion c => void (record_transfer_completion c plane config)
  | VerifyReplica v => void (verify_replica v plane config)
  | CommitReplica c => void (commit_replica c plane config)
  | RetireReplica t => void (retire_replica t plane config)
  | QuarantineReplica t => void (quarantine_replica t plane config)
  | RevalidateReplica t => void (revalidate_replica t plane config)
  | AuthorizeReplication r => void (authorize_replication r plane config)
  | AuthorizeMigration m => void (authorize_migration m plane config)
  | CommitOperation c => void (commit_operation c plane config)
  | CancelOperation c => void (cancel_operation c plane config)
  | TransferOwnership o => void (transfer_ownership o plane config)
  | AdvanceTime delta => void (advance_time delta plane config)
  | AdvanceEpoch => void (advance_epoch plane config)
  end.

(** The coordinator epoch a request was addressed to; zero when it names none. *)
Definition expected_epoch (q : request) : Z :=
  match q with
  | RegisterCluster r => crg_expected_coordinator_epoch r
  | PublishClusterEvidence u => ceu_expected_coordinator_epoch u
  | RegisterReplica r => rrg_expected_coordinator_epoch r
  | RecordTransferProgress p => tp_expected_coordinator_epoch p
  | RecordTransferCompletion c => tc_expected_coordinator_epoch c
  | VerifyReplica v => rvf_expected_coordinator_epoch v
  | CommitReplica c => rc_expected_coordinator_epoch c
  | RetireReplica t | QuarantineReplica t | RevalidateReplica t => rt_expected_coordinator_epoch t
  | AuthorizeReplication r => rq_expected_coordinator_epoch r
  | AuthorizeMigration m => mq_expected_coordinator_epoch m
  | CommitOperation c => oc_expected_coordinator_epoch c
  | CancelOperation c => ocn_expected_coordinator_epoch c
  | TransferOwnership o => oq_expected_coordinator_epoch o
  | _ => 0
  end.

(** ** Runs *)

(** The effects a request makes durable: those of a success, and those of an
    error that asked for its effects to be kept. *)
Definition outcome_effects (q : request) (plane : ControlPlane) (config : FabricConfig)
    : list Effect :=
  let '(status, mu) := body q plane config (start_mutation plane) in
  match status with
  | Ok _ => mu_effects mu
  | Err _ => if mu_commit_before_return mu then mu_effects mu else []
  end.

Section runs.
Context {S : Type} `{PersistenceStore S}.

Definition exec (q : request) (im : Impl S) : Result unit * Impl S := mutate (body q) im.

(** A history: the requests one coordinator serves in order, whatever their
    results. *)
Definition run (qs : list request) (im : Impl S) : Impl S :=
  fold_left (λ im q, (exec q im).2) qs im.
End runs.
