(* ===== verification/Scenario.v ===== *)
(** * A concrete history

    Two clusters, one single-writer state, a committed owner on the first cluster
    and a destructive migration to the second.  The runtimes of this history are
    the inputs at which the theorems about arbitrary histories are instantiated. *)

From S2P Require Import Prelude Taxonomy Model ModelOps Cost ControlPlane FabricCore FabricState.
From S2P Require Import FabricReplica FabricOps Lifecycle Fabric.

Local Open Scope Z_scope.

(** A runtime without a persistence directory has no store to call. *)
#[export] Instance no_store : PersistenceStore Empty_set := {|
  store_append := λ (s : Empty_set) _ _ _ _, match s with end;
  store_write_checkpoint := λ (s : Empty_set) _, match s with end
|}.

Definition digest_one : Digest := mkDigest (repeat 1 32).

Definition demo_config : FabricConfig :=
  FabricConfig_default <| cfg_coordinator_id := 1 |>
    <| cfg_home_cluster := 10 |>
    <| cfg_default_placement_policy :=
         PlacementPolicyRecord_default <| pp_placement_policy_id := 3 |> |>
    <| cfg_default_replication_policy := make_replication_policy 2 1 RPF.N_REPLICAS 1 |>.

Definition demo_cluster (id region : Z) : request :=
  RegisterCluster
    (ClusterRegistration_default <| crg_cluster_id := id |> <| crg_region := region |>
       <| crg_failure_domain := region |>
       <| crg_capacity := ClusterCapacity_default
            <| cp_total_logical_bytes := 1000000 |> <| cp_free_transfer_slots := 8 |>
            <| cp_inbound_bytes_per_tick := 100 |> |>).

Definition demo_state : request :=
  RegisterState
    (StateGenerationSpec_default <| ss_state_id := 5 |> <| ss_generation := 1 |>
       <| ss_consistency := CM.SINGLE_WRITER |> <| ss_content_digest := digest_one |>
       <| ss_logical_size := size_of 4096 |>).

Definition demo_replica (cluster : Z) : request :=
  RegisterReplica
    (ReplicaRegistration_default <| rrg_state_id := 5 |> <| rrg_state_generation := 1 |>
       <| rrg_replica_id := 100 |>
       <| rrg_location := ReplicaLocation_default <| rlo_cluster_id := cluster |> |>).

Definition demo_completion (replica operation : Z) : request :=
  RecordTransferCompletion
    (TransferCompletion_default <| tc_replica_id := replica |> <| tc_operation_id := operation |>
       <| tc_measured_digest := digest_one |> <| tc_bytes_transferred := 4096 |>).

Definition demo_verification (replica operation : Z) : request :=
  VerifyReplica
    (ReplicaVerification_default <| rvf_replica_id := replica |> <| rvf_operation_id := operation |>
       <| rvf_integrity_verified := true |> <| rvf_measured_digest := digest_one |>).

Definition demo_commit (replica commit : Z) : request :=
  CommitReplica
    (ReplicaCommit_default <| rc_replica_id := replica |> <| rc_commit_id := commit |>
       <| rc_make_authoritative_owner := true |>).

(** Up to the committed owner. *)
Definition setup : list request :=
  [demo_cluster 10 1; demo_cluster 20 2; demo_state; CommitStateGeneration 5 1 900;
   demo_replica 10; demo_completion 100 0; demo_verification 100 0; demo_commit 100 901].

Definition demo_start : Impl Empty_set :=
  match initialize demo_config None with
  | Ok im => im
  | Err _ => mkImpl ControlPlane_default demo_config None true false 0
  end.

(** The runtime after a history. *)
Definition after (qs : list request) : Impl Empty_set := run qs demo_start.

(** The migration: operation 902, destination replica 906 on cluster 20. *)
Definition demo_migration : request :=
  AuthorizeMigration
    (MigrationRequest_default <| mq_state_id := 5 |> <| mq_state_generation := 1 |>
       <| mq_destination_cluster := 20 |> <| mq_retire_source_after_commit := true |>).

Definition demo_operation_commit : OperationCommit :=
  mkOperationCommit 902 1 990 0 true.

Definition authorized : list request := setup ++ [demo_migration].

Definition migration : list request :=
  authorized ++ [demo_completion 906 902; demo_verification 906 902].

Definition migrated : list request := migration ++ [CommitOperation demo_operation_commit].

(** ** The same history on a store *)

(** A store that never fails: the last snapshot and the journal since. *)
Record MemoryStore := mkMemoryStore {
  ms_snapshot : option (ControlPlane * Z);
  ms_journal : list JournalRecordImage
}.

#[export] Instance memory_store : PersistenceStore MemoryStore := {|
  store_append := λ s effects sequence tick epoch,
    (None, mkMemoryStore (ms_snapshot s)
             (ms_journal s ++ [mkJournalRecordImage effects sequence tick]));
  store_write_checkpoint := λ _ plane,
    (None, mkMemoryStore (Some (plane, pl_durable_sequence plane)) [])
|}.

Definition memory_load (s : MemoryStore) : Result ControlPlane :=
  load_images (ms_snapshot s) (Some (ms_journal s, false)) 250000.

Definition empty_store : MemoryStore := mkMemoryStore None [].

(** [Fabric::open] on a directory in the given condition. *)
Definition open_memory (s : MemoryStore) : Impl MemoryStore :=
  match initialize demo_config (Some (s, memory_load s)) with
  | Ok im => im
  | Err _ => mkImpl ControlPlane_default demo_config None true false 0
  end.

Definition stored (qs : list request) : MemoryStore :=
  default empty_store (im_store (run qs (open_memory empty_store))).

(** What a restart after the history loads, and the runtime it leads to. *)
Definition reloaded (qs : list request) : ControlPlane :=
  match memory_load (stored qs) with Ok p => p | Err _ => ControlPlane_default end.

Definition restarted (qs : list request) : Impl MemoryStore := open_memory (stored qs).

Definition restarts (qs : list request) : Prop :=
  initialize demo_config (Some (stored qs, Ok (reloaded qs))) = Ok (restarted qs) ∧
  pl_recovered (reloaded qs) = true.

Example restarts_setup : restarts setup.
Proof. split; vm_compute; reflexivity. Qed.

Example restarts_migration : restarts migration ∧
  pl_coordinator_epoch (reloaded migration) = 2 ∧
  pl_coordinator_epoch (im_plane (restarted migration)) = 3.
Proof. unfold restarts. split_and!; vm_compute; reflexivity. Qed.
