(* ===== verification/Persistence.v ===== *)
(** * The durable format ([detail/control_plane.cpp])

    Redo effects, journal records, the journal file, the control plane image and the
    snapshot file as bytes: encoders, decoders, the scan of a journal that may end
    in a torn record, and what is read back. *)

From S2P Require Import Prelude Taxonomy Model Bytes Digest Crc Cost Compatibility ModelOps.
From S2P Require Import ControlPlane Effects FabricCore FabricState Lifecycle Encoding.
From S2P Require Import RecordCodecs Fabric Scenario.

Local Open Scope Z_scope.
Local Open Scope reader_scope.

Definition kSnapshotMagic : Z := 0x43435353.
Definition kJournalMagic : Z := 0x4343534A.
Definition kRecordMagic : Z := 0x52454331.
Definition kControlPlaneFormatVersion : Z := 1.
Definition kSnapshotHeaderBytes : nat := 32.
Definition kJournalHeaderBytes : nat := 12.
Definition kRecordHeaderBytes : nat := 12.
Definition kMaxPayloadBytes : Z := 512 * 1024 * 1024.
Definition kMaxJournalEffectsPerRecord : Z := 64.
Definition kMaxDecodedRecords : Z := 2000000.
Definition kMaxDecodedStates : Z := 2000000.
Definition kMaxDecodedClusters : Z := 65536.
Definition kMaxDecodedReplicas : Z := 4000000.
Definition kMaxDecodedOperations : Z := 1000000.

(** ** Effects *)

(** The numbers of [EffectKind]. *)
Definition effect_kind (effect : Effect) : Z :=
  match effect with
  | PUT_STATE _ => 1 | PUT_CLUSTER _ => 2 | PUT_REPLICA _ => 3 | PUT_REPLICA_SET _ => 4
  | PUT_OPERATION _ => 5 | PUT_AUTHORIZATION _ => 6 | PUT_OWNERSHIP _ => 7
  | PUT_COMPATIBILITY _ => 8 | PUT_PLACEMENT_POLICY _ => 9 | PUT_REPLICATION_POLICY _ => 10
  | PUT_COUNTERS _ => 11 | SET_EPOCH _ => 12 | SET_NEXT_ID _ => 13
  end.

Definition encode_effect (effect : Effect) : list Z :=
  ByteWriter.u16 (effect_kind effect) ++
  match effect with
  | PUT_STATE r => encode_StateGenerationRecord r
  | PUT_CLUSTER r => encode_ClusterRecord r
  | PUT_REPLICA r => encode_ReplicaRecord r
  | PUT_REPLICA_SET r => encode_ReplicaSetRecord r
  | PUT_OPERATION r => encode_OperationRecord r
  | PUT_AUTHORIZATION r => encode_TransferAuthorization r
  | PUT_OWNERSHIP r => encode_OwnershipRecord r
  | PUT_COMPATIBILITY r => encode_CompatibilityRecord r
  | PUT_PLACEMENT_POLICY r => encode_PlacementPolicyRecord r
  | PUT_REPLICATION_POLICY r => encode_ReplicationPolicyRecord r
  | PUT_COUNTERS c => encode_FabricCounters c
  | SET_EPOCH e => encode_id e
  | SET_NEXT_ID n => ByteWriter.u64 n
  end.

(** A decoder that returns false without an error is turned into a corruption. *)
Definition decode_record {A} (m : Reader A) : Reader A := λ r,
  match m r with
  | (Some a, r') => (Some a, r')
  | (None, r') => if br_ok r' then Reader.fail EC.PERSISTENCE_CORRUPT r' else (None, r')
  end.

Definition decode_effect : Reader Effect :=
  raw <- Reader.u16;;
  if (raw <? 1) || (raw >? 13) then Reader.fail EC.PERSISTENCE_CORRUPT
  else
    match raw with
    | 1 => record <- decode_record decode_StateGenerationRecord;; rret (PUT_STATE record)
    | 2 => record <- decode_record decode_ClusterRecord;; rret (PUT_CLUSTER record)
    | 3 => record <- decode_record decode_ReplicaRecord;; rret (PUT_REPLICA record)
    | 4 => record <- decode_record decode_ReplicaSetRecord;; rret (PUT_REPLICA_SET record)
    | 5 => record <- decode_record decode_OperationRecord;; rret (PUT_OPERATION record)
    | 6 => record <- decode_record decode_TransferAuthorization;; rret (PUT_AUTHORIZATION record)
    | 7 => record <- decode_record decode_OwnershipRecord;; rret (PUT_OWNERSHIP record)
    | 8 => record <- decode_record decode_CompatibilityRecord;; rret (PUT_COMPATIBILITY record)
    | 9 => record <- decode_record decode_PlacementPolicyRecord;; rret (PUT_PLACEMENT_POLICY record)
    | 10 =>
        record <- decode_record decode_ReplicationPolicyRecord;; rret (PUT_REPLICATION_POLICY record)
    | 11 => counters <- decode_record decode_FabricCounters;; rret (PUT_COUNTERS counters)
    | 12 => epoch <- decode_id;; rret (SET_EPOCH epoch)
    | _ => scalar <- Reader.u64;; rret (SET_NEXT_ID scalar)
    end.

Definition encodable_effect (effect : Effect) : bool :=
  match effect with
  | PUT_STATE r => encodable_StateGenerationRecord r
  | PUT_CLUSTER r => encodable_ClusterRecord r
  | PUT_REPLICA r => encodable_ReplicaRecord r
  | PUT_REPLICA_SET r => encodable_ReplicaSetRecord r
  | PUT_OPERATION r => encodable_OperationRecord r
  | PUT_AUTHORIZATION r => encodable_TransferAuthorization r
  | PUT_OWNERSHIP r => encodable_OwnershipRecord r
  | PUT_COMPATIBILITY r => encodable_CompatibilityRecord r
  | PUT_PLACEMENT_POLICY r => encodable_PlacementPolicyRecord r
  | PUT_REPLICATION_POLICY r => encodable_ReplicationPolicyRecord r
  | PUT_COUNTERS c => encodable_FabricCounters c
  | SET_EPOCH e => fits_u64 e
  | SET_NEXT_ID n => fits_u64 n
  end.

(** ** Journal records *)

Definition journal_payload (effects : list Effect) (sequence tick epoch : Z) : list Z :=
  ByteWriter.u16 1 ++ ByteWriter.u64 sequence ++ ByteWriter.u64 tick ++ encode_id epoch ++
  ByteWriter.u16 (Z.of_nat (length effects) mod 2 ^ 16) ++ concat (map encode_effect effects).

(** The three words in front of a payload. *)
Definition record_header (payload : list Z) : list Z :=
  ByteWriter.u32 kRecordMagic ++ ByteWriter.u32 (u32 (Z.of_nat (length payload))) ++
  ByteWriter.u32 (Crc32c.crc32c payload).

Definition encode_journal_record (effects : list Effect) (sequence tick epoch : Z) : list Z :=
  let payload := journal_payload effects sequence tick epoch in
  record_header payload ++ ByteWriter.raw payload.

(** The body of [decode_journal_record] on its reader. *)
Definition read_journal_record : Reader JournalRecordImage :=
  command <- Reader.u16;;
  if negb (command =? 1) then Reader.fail EC.PERSISTENCE_UNSUPPORTED_VERSION
  else
    sequence <- Reader.u64;; tick <- Reader.u64;; epoch <- decode_id;;
    count <- Reader.u16;;
    if count >? kMaxJournalEffectsPerRecord then Reader.fail EC.RESOURCE_EXHAUSTED
    else
      effects <- decode_elements (Z.to_nat count) decode_effect;;
      ended <- Reader.require_end;;
      rret (mkJournalRecordImage effects sequence tick).

Definition decode_journal_record (payload : list Z) : option JournalRecordImage :=
  (read_journal_record (make_reader payload)).1.

(** ** The journal file *)

Record JournalScanResult := mkJournalScanResult {
  sc_records : list JournalRecordImage;
  sc_complete_records : Z;
  sc_trailing_partial_bytes : Z;
  sc_header_bytes : Z
}.

#[export] Instance JournalScanResult_eta : Eta JournalScanResult := λ r,
  mkJournalScanResult (sc_records r) (sc_complete_records r) (sc_trailing_partial_bytes r)
    (sc_header_bytes r).

Definition push_record (record : JournalRecordImage) (result : JournalScanResult)
    : JournalScanResult :=
  result <| sc_records ::= λ l, l ++ [record] |> <| sc_complete_records ::= inc |>.

Definition read_record_header : Reader (Z * Z * Z) :=
  record_magic <- Reader.u32;; length <- Reader.u32;; payload_checksum <- Reader.u32;;
  rret (record_magic, length, payload_checksum).

(** The loop of [scan_journal] over the bytes from the offset on.  Every turn
    consumes a record header at least, so as many turns as there are bytes are
    enough ([scan_loop_fuel]). *)
Fixpoint scan_loop (fuel : nat) (rest : list Z) (result : JournalScanResult)
    : Result JournalScanResult :=
  match fuel with
  | O => Ok result
  | S fuel =>
      let remaining := length rest in
      if (remaining =? 0)%nat then Ok result
      else if (remaining <? kRecordHeaderBytes)%nat then
        Ok (result <| sc_trailing_partial_bytes := Z.of_nat remaining |>)
      else match (read_record_header (make_reader (take kRecordHeaderBytes rest))).1 with
           | None => Ok (result <| sc_trailing_partial_bytes := Z.of_nat remaining |>)
           | Some (record_magic, length, payload_checksum) =>
               let available := Z.of_nat (remaining - kRecordHeaderBytes) in
               if negb (record_magic =? kRecordMagic) then Err EC.PERSISTENCE_CORRUPT
               else if length >? kMaxPayloadBytes then Err EC.PERSISTENCE_CORRUPT
               else if available <? length then
                 Ok (result <| sc_trailing_partial_bytes := Z.of_nat remaining |>)
               else
                 let payload := take (Z.to_nat length) (drop kRecordHeaderBytes rest) in
                 if negb (Crc32c.crc32c payload =? payload_checksum)
                 then Err EC.PERSISTENCE_CORRUPT
                 else match decode_journal_record payload with
                      | None => Err EC.PERSISTENCE_CORRUPT
                      | Some record =>
                          scan_loop fuel (drop (kRecordHeaderBytes + Z.to_nat length) rest)
                            (push_record record result)
                      end
           end
  end.

Definition read_journal_header : Reader (Z * Z * Z * Z) :=
  magic <- Reader.u32;; version <- Reader.u16;; reserved <- Reader.u16;; checksum <- Reader.u32;;
  rret (magic, version, reserved, checksum).

Definition scan_journal (image : list Z) : Result JournalScanResult :=
  let result := mkJournalScanResult [] 0 0 0 in
  if (length image <? kJournalHeaderBytes)%nat then
    if (length image =? 0)%nat then Ok result else Err EC.PERSISTENCE_TRUNCATED
  else
    match (read_journal_header (make_reader (take kJournalHeaderBytes image))).1 with
    | None => Err EC.PERSISTENCE_TRUNCATED
    | Some (magic, version, reserved, checksum) =>
        if negb (magic =? kJournalMagic) then Err EC.PERSISTENCE_CORRUPT
        else if negb (version =? kControlPlaneFormatVersion)
        then Err EC.PERSISTENCE_UNSUPPORTED_VERSION
        else
          let header_bytes :=
            ByteWriter.u32 magic ++ ByteWriter.u16 version ++ ByteWriter.u16 reserved ++
            ByteWriter.u32 0 in
          if negb (Crc32c.crc32c header_bytes =? checksum) then Err EC.PERSISTENCE_CORRUPT
          else scan_loop (length image) (drop kJournalHeaderBytes image)
                 (result <| sc_header_bytes := Z.of_nat kJournalHeaderBytes |>)
    end.

(** The header [append] and [write_checkpoint] give a journal. *)
Definition journal_header : list Z :=
  ByteWriter.u32 kJournalMagic ++ ByteWriter.u16 kControlPlaneFormatVersion ++ ByteWriter.u16 0 ++
  ByteWriter.u32 (Crc32c.crc32c
    (ByteWriter.u32 kJournalMagic ++ ByteWriter.u16 kControlPlaneFormatVersion ++
     ByteWriter.u16 0 ++ ByteWriter.u32 0)).

(** ** The control plane image *)

Definition encode_map {K V} `{Countable K} `{KeyOrder K} (encode_one : V → list Z) (m : gmap K V)
    : list Z :=
  ByteWriter.u32 (u32 (Z.of_nat (size m))) ++ concat (map encode_one (values m)).

Definition encode_control_plane (plane : ControlPlane) : list Z :=
  encode_id (pl_coordinator_id plane) ++ encode_id (pl_coordinator_epoch plane) ++
  ByteWriter.u64 (pl_logical_time plane) ++ ByteWriter.u64 (pl_durable_sequence plane) ++
  ByteWriter.u64 (pl_replay_generation plane) ++ encode_FabricCounters (pl_counters plane) ++
  encode_map encode_StateGenerationRecord (pl_states plane) ++
  encode_map encode_ClusterRecord (pl_clusters plane) ++
  encode_map encode_ReplicaRecord (pl_replicas plane) ++
  encode_map encode_ReplicaSetRecord (pl_replica_sets plane) ++
  encode_map encode_OperationRecord (pl_operations plane) ++
  encode_map encode_TransferAuthorization (pl_authorizations plane) ++
  encode_map encode_OwnershipRecord (pl_ownership plane) ++
  encode_map encode_CompatibilityRecord (pl_compatibility_records plane) ++
  encode_map encode_PlacementPolicyRecord (pl_placement_policies plane) ++
  encode_map encode_ReplicationPolicyRecord (pl_replication_policies plane).

(** The loop over one collection: a record under a key already taken is refused. *)
Fixpoint decode_entries {K V} `{Countable K} (count : nat) (key : V → K) (decode_one : Reader V)
    (m : gmap K V) : Reader (gmap K V) :=
  match count with
  | O => rret m
  | S count =>
      record <- decode_one;;
      match m !! key record with
      | Some _ => Reader.fail EC.PERSISTENCE_CORRUPT
      | None => decode_entries count key decode_one (<[key record := record]> m)
      end
  end.

Definition decode_map {K V} `{Countable K} (max_count : Z) (key : V → K) (decode_one : Reader V)
    : Reader (gmap K V) :=
  count <- Reader.u32;;
  if count >? max_count then Reader.fail EC.PERSISTENCE_CORRUPT
  else decode_entries (Z.to_nat count) key decode_one ∅.

Definition decode_control_plane : Reader ControlPlane :=
  coordinator_id <- decode_id;; coordinator_epoch <- decode_id;; logical_time <- Reader.u64;;
  durable_sequence <- Reader.u64;; replay_generation <- Reader.u64;;
  counters <- decode_FabricCounters;;
  states <- decode_map kMaxDecodedStates state_key decode_StateGenerationRecord;;
  clusters <- decode_map kMaxDecodedClusters cl_cluster_id decode_ClusterRecord;;
  replicas <- decode_map kMaxDecodedReplicas rp_replica_id decode_ReplicaRecord;;
  replica_sets <- decode_map kMaxDecodedRecords set_key decode_ReplicaSetRecord;;
  operations <- decode_map kMaxDecodedOperations op_operation_id decode_OperationRecord;;
  authorizations <- decode_map kMaxDecodedOperations ta_operation_id decode_TransferAuthorization;;
  ownership <- decode_map kMaxDecodedRecords ownership_key decode_OwnershipRecord;;
  compatibility_records <-
    decode_map kMaxDecodedClusters cr_compatibility_id decode_CompatibilityRecord;;
  placement_policies <-
    decode_map kMaxDecodedClusters pp_placement_policy_id decode_PlacementPolicyRecord;;
  replication_policies <-
    decode_map kMaxDecodedClusters rpp_replication_policy_id decode_ReplicationPolicyRecord;;
  rret (ControlPlane_default <| pl_coordinator_id := coordinator_id |>
    <| pl_coordinator_epoch := coordinator_epoch |> <| pl_logical_time := logical_time |>
    <| pl_durable_sequence := durable_sequence |> <| pl_replay_generation := replay_generation |>
    <| pl_counters := counters |> <| pl_states := states |> <| pl_clusters := clusters |>
    <| pl_replicas := replicas |> <| pl_replica_sets := replica_sets |>
    <| pl_operations := operations |> <| pl_authorizations := authorizations |>
    <| pl_ownership := ownership |> <| pl_compatibility_records := compatibility_records |>
    <| pl_placement_policies := placement_policies |>
    <| pl_replication_policies := replication_policies |>).

(** ** The snapshot file *)

Definition snapshot_header (sequence length payload_checksum header_checksum : Z) : list Z :=
  ByteWriter.u32 kSnapshotMagic ++ ByteWriter.u16 kControlPlaneFormatVersion ++ ByteWriter.u16 0 ++
  ByteWriter.u64 sequence ++ ByteWriter.u64 length ++ ByteWriter.u32 payload_checksum ++
  ByteWriter.u32 header_checksum.

Definition encode_snapshot (plane : ControlPlane) : list Z :=
  let payload := encode_control_plane plane in
  let header := snapshot_header (pl_durable_sequence plane) (Z.of_nat (length payload))
    (Crc32c.crc32c payload) in
  header (Crc32c.crc32c (header 0)) ++ payload.

Definition read_snapshot_header : Reader (Z * Z * Z * Z * Z * Z * Z) :=
  magic <- Reader.u32;; version <- Reader.u16;; reserved <- Reader.u16;; sequence <- Reader.u64;;
  payload_length <- Reader.u64;; payload_checksum <- Reader.u32;; header_checksum <- Reader.u32;;
  rret (magic, version, reserved, sequence, payload_length, payload_checksum, header_checksum).

(** The snapshot half of [PersistenceStore::load]: the plane and the sequence the
    header carries. *)
Definition load_snapshot (bytes : list Z) : Result (ControlPlane * Z) :=
  if (length bytes <? kSnapshotHeaderBytes)%nat then Err EC.PERSISTENCE_TRUNCATED
  else
    match (read_snapshot_header (make_reader (take kSnapshotHeaderBytes bytes))).1 with
    | None => Err EC.PERSISTENCE_TRUNCATED
    | Some (magic, version, reserved, sequence, payload_length, payload_checksum, header_checksum) =>
        if negb (magic =? kSnapshotMagic) then Err EC.PERSISTENCE_CORRUPT
        else if negb (version =? kControlPlaneFormatVersion)
        then Err EC.PERSISTENCE_UNSUPPORTED_VERSION
        else
          let header_bytes :=
            ByteWriter.u32 magic ++ ByteWriter.u16 version ++ ByteWriter.u16 reserved ++
            ByteWriter.u64 sequence ++ ByteWriter.u64 payload_length ++
            ByteWriter.u32 payload_checksum ++ ByteWriter.u32 0 in
          if negb (Crc32c.crc32c header_bytes =? header_checksum) then Err EC.PERSISTENCE_CORRUPT
          else match checked_add (Z.of_nat kSnapshotHeaderBytes) payload_length with
               | None => Err EC.PERSISTENCE_CORRUPT
               | Some expected_size =>
                   if negb (expected_size =? Z.of_nat (length bytes)) then Err EC.PERSISTENCE_CORRUPT
                   else if payload_length >? kMaxPayloadBytes then Err EC.RESOURCE_EXHAUSTED
                   else
                     let payload := take (Z.to_nat payload_length) (drop kSnapshotHeaderBytes bytes) in
                     if negb (Crc32c.crc32c payload =? payload_checksum)
                     then Err EC.PERSISTENCE_CORRUPT
                     else match decode_control_plane (make_reader payload) with
                          | (None, _) => Err EC.PERSISTENCE_CORRUPT
                          | (Some plane, reader) =>
                              match (Reader.require_end reader).1 with
                              | None => Err EC.PERSISTENCE_CORRUPT
                              | Some _ => Ok (plane, sequence)
                              end
                          end
               end
    end.

(** ** What can be made durable *)

Definition encodable_map {K V} `{Countable K} `{KeyOrder K} (max_count : Z) (key : V → K)
    (ok : V → bool) (m : gmap K V) : bool :=
  (Z.of_nat (size m) <=? max_count) &&
  forallb (λ entry, bool_decide (key entry.2 = entry.1) && ok entry.2) (entries m).

Definition encodable_plane (plane : ControlPlane) : bool :=
  fits_u64 (pl_coordinator_id plane) && fits_u64 (pl_coordinator_epoch plane) &&
  fits_u64 (pl_logical_time plane) && fits_u64 (pl_durable_sequence plane) &&
  fits_u64 (pl_replay_generation plane) && encodable_FabricCounters (pl_counters plane) &&
  encodable_map kMaxDecodedStates state_key encodable_StateGenerationRecord (pl_states plane) &&
  encodable_map kMaxDecodedClusters cl_cluster_id encodable_ClusterRecord (pl_clusters plane) &&
  encodable_map kMaxDecodedReplicas rp_replica_id encodable_ReplicaRecord (pl_replicas plane) &&
  encodable_map kMaxDecodedRecords set_key encodable_ReplicaSetRecord (pl_replica_sets plane) &&
  encodable_map kMaxDecodedOperations op_operation_id encodable_OperationRecord
    (pl_operations plane) &&
  encodable_map kMaxDecodedOperations ta_operation_id encodable_TransferAuthorization
    (pl_authorizations plane) &&
  encodable_map kMaxDecodedRecords ownership_key encodable_OwnershipRecord (pl_ownership plane) &&
  encodable_map kMaxDecodedClusters cr_compatibility_id encodable_CompatibilityRecord
    (pl_compatibility_records plane) &&
  encodable_map kMaxDecodedClusters pp_placement_policy_id encodable_PlacementPolicyRecord
    (pl_placement_policies plane) &&
  encodable_map kMaxDecodedClusters rpp_replication_policy_id encodable_ReplicationPolicyRecord
    (pl_replication_policies plane) &&
  (Z.of_nat (length (encode_control_plane plane)) <=? kMaxPayloadBytes).

(** What a snapshot keeps of a plane; the rest is what a fresh plane has. *)
Definition snapshot_image (plane : ControlPlane) : ControlPlane :=
  ControlPlane_default <| pl_coordinator_id := pl_coordinator_id plane |>
    <| pl_coordinator_epoch := pl_coordinator_epoch plane |>
    <| pl_logical_time := pl_logical_time plane |>
    <| pl_durable_sequence := pl_durable_sequence plane |>
    <| pl_replay_generation := pl_replay_generation plane |>
    <| pl_counters := pl_counters plane |> <| pl_states := pl_states plane |>
    <| pl_clusters := pl_clusters plane |> <| pl_replicas := pl_replicas plane |>
    <| pl_replica_sets := pl_replica_sets plane |> <| pl_operations := pl_operations plane |>
    <| pl_authorizations := pl_authorizations plane |> <| pl_ownership := pl_ownership plane |>
    <| pl_compatibility_records := pl_compatibility_records plane |>
    <| pl_placement_policies := pl_placement_policies plane |>
    <| pl_replication_policies := pl_replication_policies plane |>.

Definition encodable_journal_record (effects : list Effect) (sequence tick epoch : Z) : bool :=
  fits_u64 sequence && fits_u64 tick && fits_u64 epoch &&
  fits_list kMaxJournalEffectsPerRecord encodable_effect effects &&
  (Z.of_nat (length (journal_payload effects sequence tick epoch)) <=? kMaxPayloadBytes).

(** ** Reading back a whole buffer *)

Lemma reads_buffer {A} (m : Reader A) v enc :
  reads m v enc → Z.of_nat (length enc) ≤ u64_max →
  m (make_reader enc) = (Some v, mkByteReader enc (length enc) true EC.OK).
Proof.
  intros Hm Hl. specialize (Hm [] [] EC.OK). rewrite app_nil_r in Hm. by apply Hm.
Qed.

Lemma reads_to_end_end {A} (v : A) : reads_to_end (rbind Reader.require_end (λ _, rret v)) v [].
Proof.
  intros pre e _. unfold rbind, Reader.require_end. simpl. by rewrite app_nil_r, Nat.eqb_refl.
Qed.

(** ** Effects *)

Lemma reads_decode_record {A} (m : Reader A) v enc :
  reads m v enc → reads (decode_record m) v enc.
Proof. intros Hm pre post e Hl. unfold decode_record. by rewrite (Hm pre post e Hl). Qed.

Lemma reads_effect effect :
  encodable_effect effect = true → reads decode_effect effect (encode_effect effect).
Proof.
  intros He. unfold encode_effect.
  eapply reads_bind; [apply reads_u16; destruct effect; simpl; lia|].
  destruct effect; cbn [effect_kind Z.ltb Z.gtb Z.compare Pos.compare Pos.compare_cont orb];
    (eapply reads_map; [|apply reads_ret]);
    first [apply reads_decode_record; by eauto with codec|by eauto with codec].
Qed.

Lemma reads_journal_payload effects sequence tick epoch :
  encodable_journal_record effects sequence tick epoch = true →
  reads_to_end read_journal_record (mkJournalRecordImage effects sequence tick)
    (journal_payload effects sequence tick epoch).
Proof.
  intros H. unfold encodable_journal_record in H. split_fits H.
  apply andb_true_iff in Hf0 as [Hn%Z.leb_le He]. clear Hf.
  unfold journal_payload. pose proof (eq_refl : kMaxJournalEffectsPerRecord = 64).
  eapply reads_to_end_bind; [apply reads_u16; lia|]. cbn [Z.eqb Pos.eqb negb].
  do 3 (eapply reads_to_end_bind; [by eauto with codec|]).
  rewrite Z.mod_small by lia. eapply reads_to_end_bind; [apply reads_u16; lia|]. cbv beta.
  destruct (Z.gtb_spec (Z.of_nat (length effects)) kMaxJournalEffectsPerRecord); [lia|].
  rewrite Nat2Z.id.
  rewrite <-(app_nil_r (concat _)). eapply reads_to_end_bind; [|apply reads_to_end_end].
  by apply (reads_elements encodable_effect); [apply reads_effect|].
Qed.

Lemma decode_encoded_record effects sequence tick epoch :
  encodable_journal_record effects sequence tick epoch = true →
  decode_journal_record (journal_payload effects sequence tick epoch) =
  Some (mkJournalRecordImage effects sequence tick).
Proof.
  intros H. apply (reads_journal_payload _ _ _ _ H []).
  apply andb_true_iff in H as [_ H%Z.leb_le]. 
  rewrite app_nil_l. by transitivity kMaxPayloadBytes.
Qed.

(** ** The scan *)

Lemma length_record_header payload : length (record_header payload) = kRecordHeaderBytes.
Proof. reflexivity. Qed.

Lemma reads_record_header payload :
  Z.of_nat (length payload) ≤ kMaxPayloadBytes →
  (read_record_header (make_reader (record_header payload))).1 =
  Some (kRecordMagic, Z.of_nat (length payload), Crc32c.crc32c payload).
Proof.
  intros Hl. unfold kMaxPayloadBytes in Hl.
  erewrite reads_buffer; [reflexivity| |by rewrite length_record_header].
  unfold record_header, u32. rewrite Z.mod_small by lia.
  eapply reads_bind; [apply reads_u32; unfold kRecordMagic; lia|].
  eapply reads_bind; [apply reads_u32; lia|].
  eapply reads_map; [apply reads_u32, crc32c_range|]. apply reads_ret.
Qed.

(** One complete record is pushed and passed. *)
Lemma scan_loop_record fuel effects sequence tick epoch rest result :
  encodable_journal_record effects sequence tick epoch = true →
  scan_loop (S fuel) (encode_journal_record effects sequence tick epoch ++ rest) result =
  scan_loop fuel rest (push_record (mkJournalRecordImage effects sequence tick) result).
Proof.
  intros H. pose proof (decode_encoded_record _ _ _ _ H) as Hd.
  apply andb_true_iff in H as [_ Hl%Z.leb_le]. unfold encode_journal_record, ByteWriter.raw.
  revert Hd Hl. generalize (journal_payload effects sequence tick epoch). intros payload Hd Hl.
  pose proof (length_record_header payload) as Hh. cbv zeta. rewrite <-(assoc_L (++)).
  cbn [scan_loop]. rewrite take_app_length' by done. rewrite reads_record_header by done.
  rewrite !length_app, Hh. unfold kRecordHeaderBytes at 1 2.
  destruct (Nat.eqb_spec (12 + (length payload + length rest)) 0); [lia|].
  destruct (Nat.ltb_spec (12 + (length payload + length rest)) 12); [lia|].
  rewrite Z.eqb_refl. cbn [negb].
  destruct (Z.gtb_spec (Z.of_nat (length payload)) kMaxPayloadBytes); [lia|].
  rewrite Nat2Z.id.
  destruct (Z.ltb_spec (Z.of_nat (kRecordHeaderBytes + (length payload + length rest) -
    kRecordHeaderBytes)) (Z.of_nat (length payload))); [lia|].
  rewrite drop_app_length', take_app_length by done.
  rewrite Z.eqb_refl, Hd. cbn [negb].
  rewrite (assoc_L (++)), drop_app_length'; [done|]. rewrite length_app, Hh. lia.
Qed.

(** A record cut anywhere is reported as trailing bytes. *)
Lemma scan_loop_torn fuel k effects sequence tick epoch result :
  encodable_journal_record effects sequence tick epoch = true →
  (k < length (encode_journal_record effects sequence tick epoch))%nat →
  sc_trailing_partial_bytes result = 0 →
  scan_loop (S fuel) (take k (encode_journal_record effects sequence tick epoch)) result =
  Ok (result <| sc_trailing_partial_bytes := Z.of_nat k |>).
Proof.
  intros H Hk Hr. apply andb_true_iff in H as [_ Hl%Z.leb_le].
  unfold encode_journal_record, ByteWriter.raw in *. cbv zeta in *.
  revert Hk Hl. generalize (journal_payload effects sequence tick epoch). intros payload Hk Hl.
  pose proof (length_record_header payload) as Hh. rewrite length_app, Hh in Hk.
  cbn [scan_loop]. rewrite length_take, length_app, Hh, Nat.min_l by lia.
  destruct (Nat.eqb_spec k 0) as [->|]; [by destruct result; simplify_eq/=|].
  destruct (Nat.ltb_spec k kRecordHeaderBytes) as [|Hk12]; [done|].
  rewrite take_take, Nat.min_l, take_app_length', reads_record_header by done.
  rewrite Z.eqb_refl. cbn [negb].
  destruct (Z.gtb_spec (Z.of_nat (length payload)) kMaxPayloadBytes); [lia|].
  destruct (Z.ltb_spec (Z.of_nat (k - kRecordHeaderBytes)) (Z.of_nat (length payload))); [done|lia].
Qed.

(** As many turns as there are bytes are enough: more change nothing. *)
Lemma scan_loop_fuel fuel fuel' rest result :
  (length rest ≤ fuel)%nat → (length rest ≤ fuel')%nat →
  scan_loop fuel rest result = scan_loop fuel' rest result.
Proof.
  revert fuel' rest result. induction fuel as [|fuel IH]; intros fuel' rest result Hf Hf'.
  { destruct fuel'; [done|]. by destruct rest; [|simpl in Hf; lia]. }
  destruct fuel' as [|fuel']; [by destruct rest; [|simpl in Hf'; lia]|].
  cbn [scan_loop]. destruct (Nat.eqb_spec (length rest) 0); [done|].
  destruct (length rest <? kRecordHeaderBytes)%nat; [done|].
  destruct (read_record_header _).1 as [[[magic len] checksum]|]; [|done].
  destruct (negb (magic =? _)); [done|]. destruct (len >? _); [done|].
  destruct (_ <? len); [done|]. destruct (negb _); [done|].
  destruct (decode_journal_record _); [|done].
  apply IH; rewrite length_drop; unfold kRecordHeaderBytes; lia.
Qed.

(** ** The journal as a list of entries *)

(** One call of [append]. *)
Record JournalEntry := mkJournalEntry {
  je_effects : list Effect;
  je_sequence : Z;
  je_tick : Z;
  je_epoch : Z
}.

Definition entry_bytes (e : JournalEntry) : list Z :=
  encode_journal_record (je_effects e) (je_sequence e) (je_tick e) (je_epoch e).
Definition entry_image (e : JournalEntry) : JournalRecordImage :=
  mkJournalRecordImage (je_effects e) (je_sequence e) (je_tick e).
Definition entry_encodable (e : JournalEntry) : bool :=
  encodable_journal_record (je_effects e) (je_sequence e) (je_tick e) (je_epoch e).

Definition journal_bytes (l : list JournalEntry) : list Z :=
  journal_header ++ concat (map entry_bytes l).

Definition scanned (l : list JournalEntry) (trailing : Z) : JournalScanResult :=
  mkJournalScanResult (map entry_image l) (u64 (Z.of_nat (length l))) trailing
    (Z.of_nat kJournalHeaderBytes).

Lemma push_scanned l e trailing :
  push_record (entry_image e) (scanned l trailing) = scanned (l ++ [e]) trailing.
Proof.
  unfold push_record, scanned. rewrite map_app, length_app. cbn. f_equal.
  unfold inc, u64. rewrite Zplus_mod_idemp_l. f_equal. lia.
Qed.

Lemma scan_loop_entry fuel e rest result :
  entry_encodable e = true →
  scan_loop (S fuel) (entry_bytes e ++ rest) result =
  scan_loop fuel rest (push_record (entry_image e) result).
Proof. apply scan_loop_record. Qed.

Lemma entry_bytes_nonempty e : (12 ≤ length (entry_bytes e))%nat.
Proof.
  unfold entry_bytes, encode_journal_record. rewrite length_app, length_record_header.
  unfold kRecordHeaderBytes. lia.
Qed.

Lemma scan_entries l done rest fuel :
  forallb entry_encodable l = true → (length (concat (map entry_bytes l)) + length rest ≤ fuel)%nat →
  scan_loop fuel (concat (map entry_bytes l) ++ rest) (scanned done 0) =
  scan_loop (length rest) rest (scanned (done ++ l) 0).
Proof.
  revert done fuel. induction l as [|e l IH]; intros done fuel; cbn [map concat forallb].
  { intros _ Hf. rewrite app_nil_r. apply scan_loop_fuel; lia. }
  intros [He Hl]%andb_true_iff Hf. rewrite length_app in Hf.
  pose proof (entry_bytes_nonempty e). destruct fuel as [|fuel]; [lia|].
  rewrite <-(assoc_L (++)), scan_loop_entry by done.
  rewrite push_scanned, IH by (done || lia). by rewrite <-(assoc_L (++)).
Qed.

(** The header checks of [scan_journal] pass on the header [append] writes. *)
Lemma scan_journal_header rest :
  scan_journal (journal_header ++ rest) =
  scan_loop (kJournalHeaderBytes + length rest) rest (scanned [] 0).
Proof.
  unfold scan_journal. rewrite length_app.
  assert (length journal_header = kJournalHeaderBytes) as Hh by (vm_compute; reflexivity).
  rewrite Hh. destruct (Nat.ltb_spec (kJournalHeaderBytes + length rest) kJournalHeaderBytes); [lia|].
  rewrite take_app_length', drop_app_length' by done.
  replace (read_journal_header (make_reader journal_header)).1 with
    (Some (kJournalMagic, kControlPlaneFormatVersion, 0, Crc32c.crc32c
      (ByteWriter.u32 kJournalMagic ++ ByteWriter.u16 kControlPlaneFormatVersion ++
       ByteWriter.u16 0 ++ ByteWriter.u32 0))) by (vm_compute; reflexivity).
  rewrite !Z.eqb_refl. reflexivity.
Qed.

Lemma scan_torn_journal l torn k :
  forallb entry_encodable l = true → entry_encodable torn = true →
  (k < length (entry_bytes torn))%nat →
  scan_journal (journal_bytes l ++ take k (entry_bytes torn)) = Ok (scanned l (Z.of_nat k)).
Proof.
  intros Hl Ht Hk. unfold journal_bytes. rewrite <-(assoc_L (++)), scan_journal_header.
  rewrite scan_entries; [|done|rewrite length_app; lia].
  rewrite app_nil_l. rewrite (scan_loop_fuel _ (S (length (take k (entry_bytes torn))))) by lia.
  unfold entry_bytes in *. by rewrite scan_loop_torn.
Qed.

Lemma scan_whole_journal l :
  forallb entry_encodable l = true → scan_journal (journal_bytes l) = Ok (scanned l 0).
Proof.
  intros Hl. unfold journal_bytes. rewrite <-(app_nil_r (concat _)), scan_journal_header.
  rewrite scan_entries; [done|done|rewrite length_app; simpl; lia].
Qed.

(** ** The control plane image *)

Section maps.
Context {K V : Type} `{Countable K} `{KeyOrder K} (key : V → K).
Context (enc : V → list Z) (dec : Reader V) (ok : V → bool) (laws : codec_laws enc dec ok).

Lemma reads_entries (l : list (K * V)) (m : gmap K V) :
  NoDup l.*1 → (∀ k, k ∈ l.*1 → m !! k = None) →
  forallb (λ entry, bool_decide (key entry.2 = entry.1) && ok entry.2) l = true →
  reads (decode_entries (length l) key dec m) (list_to_map l ∪ m) (concat (map enc (map snd l))).
Proof.
  revert m. induction l as [|[k v] l IH]; intros m Hnd Hfresh Hok; cbn [map concat length decode_entries].
  { rewrite list_to_map_nil, (left_id_L ∅ (∪)). apply reads_ret. }
  cbn [forallb fst snd] in Hok. rewrite !andb_true_iff, bool_decide_eq_true in Hok.
  destruct Hok as [[Hk Hv] Hok]. rewrite fmap_cons in Hnd, Hfresh. cbn [fst snd] in *.
  apply list.NoDup_cons in Hnd as [Hnin Hnd].
  eapply reads_bind; [by apply (laws_reads _ _ _ laws)|]. cbv beta. rewrite Hk.
  rewrite (Hfresh k) by set_solver. rewrite list_to_map_cons.
  rewrite <-insert_union_l, insert_union_r by (by apply not_elem_of_list_to_map).
  apply IH; [done| |done].
  intros k' Hin. rewrite lookup_insert_ne; [apply Hfresh; set_solver|by intros ->].
Qed.

Lemma reads_encoded_map max (m : gmap K V) :
  max < 2 ^ 32 → encodable_map max key ok m = true →
  reads (decode_map max key dec) m (encode_map enc m).
Proof.
  intros Hmax [Hsize%Z.leb_le Hok]%andb_true_iff. unfold encode_map, values.
  replace (u32 (Z.of_nat (size m))) with (Z.of_nat (size m))
    by (unfold u32; rewrite Z.mod_small; lia).
  eapply reads_bind; [apply reads_u32; lia|]. cbv beta.
  destruct (Z.gtb_spec (Z.of_nat (size m)) max); [lia|].
  rewrite Nat2Z.id, <-length_entries.
  rewrite <-(list_to_map_entries m) at 2. rewrite <-(right_id_L ∅ (∪) (list_to_map _)).
  apply reads_entries; [apply NoDup_entries_keys|intros; apply lookup_empty|done].
Qed.
End maps.

#[export] Hint Extern 1 (reads (decode_map _ _ _) _ _) =>
  eapply reads_encoded_map; [|reflexivity|eassumption] : codec.

Lemma reads_control_plane plane :
  encodable_plane plane = true →
  reads decode_control_plane (snapshot_image plane) (encode_control_plane plane).
Proof.
  intros H. unfold encodable_plane in H. split_fits H.
  unfold encode_control_plane, decode_control_plane.
  do 15 (eapply reads_bind; [solve [eauto 3 with codec]|cbv beta]).
  eapply reads_map; [solve [eauto 3 with codec]|]. apply reads_ret.
Qed.

(** ** The snapshot file *)

Lemma length_snapshot_header sequence length payload_checksum header_checksum :
  List.length (snapshot_header sequence length payload_checksum header_checksum) =
  kSnapshotHeaderBytes.
Proof. reflexivity. Qed.

Lemma reads_snapshot_header sequence length payload_checksum header_checksum :
  fits_u64 sequence = true → fits_u64 length = true → fits_u32 payload_checksum = true →
  fits_u32 header_checksum = true →
  (read_snapshot_header
    (make_reader (snapshot_header sequence length payload_checksum header_checksum))).1 =
  Some (kSnapshotMagic, kControlPlaneFormatVersion, 0, sequence, length, payload_checksum,
        header_checksum).
Proof.
  intros. erewrite reads_buffer; [reflexivity| |by rewrite length_snapshot_header].
  eapply reads_bind; [apply reads_u32; unfold kSnapshotMagic; lia|].
  eapply reads_bind; [apply reads_u16; unfold kControlPlaneFormatVersion; lia|].
  eapply reads_bind; [apply reads_u16; lia|].
  do 3 (eapply reads_bind; [by eauto with codec|]).
  eapply reads_map; [by eauto with codec|]. apply reads_ret.
Qed.

Lemma crc_fits data : fits_u32 (Crc32c.crc32c data) = true.
Proof.
  destruct (crc32c_range data). apply andb_true_iff. split; [by apply Z.leb_le|by apply Z.ltb_lt].
Qed.

Lemma load_encoded_snapshot plane :
  encodable_plane plane = true →
  load_snapshot (encode_snapshot plane) = Ok (snapshot_image plane, pl_durable_sequence plane).
Proof.
  intros H. pose proof (reads_control_plane _ H) as Hr.
  unfold encodable_plane in H. split_fits H. apply Z.leb_le in Hf.
  unfold encode_snapshot. cbv zeta. revert Hf Hr.
  generalize (encode_control_plane plane). intros payload Hl Hr.
  unfold load_snapshot. set (checksum := Crc32c.crc32c (snapshot_header _ _ _ 0)).
  pose proof (length_snapshot_header (pl_durable_sequence plane) (Z.of_nat (length payload))
    (Crc32c.crc32c payload) checksum) as Hh.
  rewrite length_app, Hh.
  destruct (Nat.ltb_spec (kSnapshotHeaderBytes + length payload) kSnapshotHeaderBytes); [lia|].
  rewrite take_app_length', drop_app_length' by done.
  assert (fits_u64 (Z.of_nat (length payload)) = true) as Hfit.
  { apply andb_true_iff. unfold kMaxPayloadBytes in Hl.
    split; [apply Z.leb_le|apply Z.ltb_lt]; lia. }
  rewrite reads_snapshot_header; [|done|done|apply crc_fits|apply crc_fits].
  rewrite !Z.eqb_refl. cbn [negb]. unfold checked_add.
  destruct (Z.gtb_spec (Z.of_nat kSnapshotHeaderBytes) (u64_max - Z.of_nat (length payload))) as [Hg|_].
  { unfold kMaxPayloadBytes, u64_max, kSnapshotHeaderBytes in *. lia. }
  destruct (Z.eqb_spec (Z.of_nat kSnapshotHeaderBytes + Z.of_nat (length payload))
    (Z.of_nat (kSnapshotHeaderBytes + length payload))); [|lia]. cbn [negb].
  destruct (Z.gtb_spec (Z.of_nat (length payload)) kMaxPayloadBytes); [lia|].
  rewrite Nat2Z.id, firstn_all, Z.eqb_refl. cbn [negb].
  rewrite (reads_buffer _ _ _ Hr) by (by transitivity kMaxPayloadBytes).
  unfold Reader.require_end. simpl. by rewrite Nat.eqb_refl.
Qed.

Lemma snapshot_image_records plane : same_records (snapshot_image plane) plane.
Proof. by split. Qed.

(** ** Properties *)

(** C11: a crash while a record is appended loses nothing that was complete.  The
    journal made of any encodable records, followed by any strict prefix of one
    more record, scans successfully: exactly the complete records come back, in order,
    and the torn bytes are counted and ignored. *)
Theorem torn_tail_is_ignored (l : list JournalEntry) (torn : JournalEntry) (k : nat) :
  forallb entry_encodable l = true → entry_encodable torn = true →
  (k < length (entry_bytes torn))%nat →
  scan_journal (journal_bytes l ++ take k (entry_bytes torn)) =
  Ok (mkJournalScanResult (map entry_image l) (u64 (Z.of_nat (length l))) (Z.of_nat k) 12).
Proof. apply scan_torn_journal. Qed.

(** The records a history appends. *)
Definition journal_of (qs : list request) : list JournalEntry :=
  map (λ r, mkJournalEntry (jr_effects r) (jr_sequence r) (jr_tick r) 1) (ms_journal (stored qs)).

Lemma torn_tail_is_ignored_witness :
  let l := journal_of authorized in
  let torn := mkJournalEntry [SET_EPOCH 7] 90 5 7 in
  (length l > 0)%nat ∧
  scan_journal (journal_bytes l ++ take 30 (entry_bytes torn)) =
  Ok (mkJournalScanResult (map entry_image l) (u64 (Z.of_nat (length l))) 30 12).
Proof.
  intros l torn. split; [vm_compute; lia|].
  apply (torn_tail_is_ignored l torn 30).
  - vm_compute. reflexivity.
  - vm_compute. reflexivity.
  - vm_compute. lia.
Defined.

(** A snapshot is read back.  Loading the file written for a control plane
    within the format's bounds passes every header, size and checksum test and returns the
    records, counters, epoch and sequence of that plane, and planes with the same
    snapshot have the same records. *)
Theorem snapshot_round_trip (plane : ControlPlane) :
  encodable_plane plane = true →
  load_snapshot (encode_snapshot plane) = Ok (snapshot_image plane, pl_durable_sequence plane) ∧
  same_records (snapshot_image plane) plane ∧
  ∀ other, encodable_plane other = true → encode_snapshot other = encode_snapshot plane →
    same_records other plane.
Proof.
  intros Hp. split; [by apply load_encoded_snapshot|]. split; [apply snapshot_image_records|].
  intros other Ho E. pose proof (load_encoded_snapshot _ Ho) as H.
  rewrite E, (load_encoded_snapshot _ Hp) in H. 
  apply (f_equal (λ r, match r with Ok (image, _) => image | Err _ => plane end)) in H.
  cbv beta iota in H. transitivity (snapshot_image other); [symmetry; apply snapshot_image_records|].
  rewrite <-H. apply snapshot_image_records.
Qed.

Lemma snapshot_round_trip_witness :
  encodable_plane (im_plane (after migrated)) = true ∧
  load_snapshot (encode_snapshot (im_plane (after migrated))) =
    Ok (snapshot_image (im_plane (after migrated)), pl_durable_sequence (im_plane (after migrated))).
Proof.
  assert (encodable_plane (im_plane (after migrated)) = true) as H by (vm_compute; reflexivity).
  split; [exact H|]. exact (proj1 (snapshot_round_trip _ H)).
Defined.
