(* ===== verification/Engine.v ===== *)
(** * The mutation engine

    What [persist_and_apply] and [mutate] do to the runtime, for any store: a
    request either leaves the records as they were or applies exactly the effects
    it emitted. *)

From S2P Require Import Prelude Taxonomy Model ModelOps ControlPlane Effects FabricCore.
From S2P Require Import MutationLogic Lifecycle Fabric.

Local Open Scope Z_scope.

Section engine.
Context {S : Type} `{PersistenceStore S}.
Implicit Types im : Impl S.

Lemma observe_tick_records t p : same_records (observe_tick t p) p.
Proof. unfold observe_tick. by destruct (t >? pl_logical_time p). Qed.

Lemma apply_mutation_records mu seq p :
  same_records (apply_mutation mu seq p) (apply_all p (mu_effects mu)).
Proof.
  unfold apply_mutation. generalize (apply_all p (mu_effects mu)). intros q.
  transitivity (observe_tick (mu_tick mu) q); [|apply observe_tick_records].
  generalize (observe_tick (mu_tick mu) q). by split.
Qed.

Lemma force_checkpoint_records im :
  same_records (im_plane (force_checkpoint_locked im).2) (im_plane im) ∧
  im_config (force_checkpoint_locked im).2 = im_config im ∧
  im_shutting_down (force_checkpoint_locked im).2 = im_shutting_down im.
Proof.
  unfold force_checkpoint_locked. destruct (im_store im) as [s|]; [|done].
  by destruct (store_write_checkpoint s (im_plane im)) as [[e|] s'].
Qed.

Lemma checkpoint_if_due_records im :
  same_records (im_plane (checkpoint_if_due im).2) (im_plane im) ∧
  im_config (checkpoint_if_due im).2 = im_config im ∧
  im_shutting_down (checkpoint_if_due im).2 = im_shutting_down im.
Proof.
  unfold checkpoint_if_due. destruct (_ && _); [|done].
  pose proof (force_checkpoint_records im) as Hf.
  destruct (force_checkpoint_locked im) as [[u|code] im']; [done|].
  by destruct (cfg_require_durable_commits (im_config im')).
Qed.

Lemma append_mutation_records mu im :
  same_records (im_plane (append_mutation mu im).2) (im_plane im) ∧
  im_config (append_mutation mu im).2 = im_config im ∧
  im_shutting_down (append_mutation mu im).2 = im_shutting_down im ∧
  pl_durable_sequence (im_plane (append_mutation mu im).2) = pl_durable_sequence (im_plane im).
Proof.
  unfold append_mutation. destruct (im_store im) as [s|]; [|done]. cbv zeta.
  destruct (store_append _ _ _ _ _) as [[e|] s']; [|done].
  by destruct (cfg_require_durable_commits (im_config im)).
Qed.

(** The two ways [persist_and_apply] ends: refused with the records untouched, or
    applied. *)
Inductive persisted (mu : FabricMutation) (im : Impl S) : Result unit * Impl S → Prop :=
  | persist_refused code im' :
      same_records (im_plane im') (im_plane im) → mu_effects mu ≠ [] →
      persisted mu im (Err code, im')
  | persist_applied r im' :
      same_records (im_plane im') (apply_all (im_plane im) (mu_effects mu)) →
      persisted mu im (r, im').

Lemma persist_and_apply_cases mu im : persisted mu im (persist_and_apply mu im).
Proof.
  unfold persist_and_apply. destruct (mu_effects mu) as [|e es] eqn:He.
  { apply persist_applied. rewrite He. apply observe_tick_records. }
  assert (mu_effects mu ≠ []) as Hne by (by rewrite He). clear He.
  destruct (append_mutation_records mu im) as (E & _).
  destruct (append_mutation mu im) as [[code|] im1]; simpl in E; [by apply persist_refused|].
  destruct (checkpoint_if_due_records (apply_locked mu im1)) as (Ec & _).
  destruct (checkpoint_if_due (apply_locked mu im1)) as [r im2]. simpl in Ec.
  apply persist_applied. rewrite Ec, <-E. apply apply_mutation_records.
Qed.

Lemma persist_and_apply_frame mu im :
  im_config (persist_and_apply mu im).2 = im_config im ∧
  im_shutting_down (persist_and_apply mu im).2 = im_shutting_down im.
Proof.
  unfold persist_and_apply. destruct (mu_effects mu); [done|].
  destruct (append_mutation_records mu im) as (_ & Hc & Hs & _).
  destruct (append_mutation mu im) as [[code|] im1]; simpl in Hc, Hs; [done|].
  destruct (checkpoint_if_due_records (apply_locked mu im1)) as (_ & -> & ->). done.
Qed.

(** ** [mutate] *)

Section mutate.
Context {Response : Type} (fn : ControlPlane → FabricConfig → M Response) (im : Impl S).

Let outcome := fn (im_plane im) (im_config im) (start_mutation (im_plane im)).

(** The effects a body leaves to be kept. *)
Definition kept_effects : list Effect :=
  match outcome with
  | (Ok _, mu) => mu_effects mu
  | (Err _, mu) => if mu_commit_before_return mu then mu_effects mu else []
  end.

Lemma mutate_records :
  same_records (im_plane (mutate fn im).2) (im_plane im) ∨
  same_records (im_plane (mutate fn im).2) (apply_all (im_plane im) kept_effects).
Proof.
  unfold mutate, kept_effects. destruct (im_shutting_down im); [by left|].
  fold outcome. destruct outcome as [[a|code] mu].
  - pose proof (persist_and_apply_cases mu im) as Hp.
    destruct (persist_and_apply mu im) as [[u|c] im']; inversion Hp; subst; auto.
  - destruct (mu_commit_before_return mu); [|by left]. simpl.
    pose proof (persist_and_apply_cases mu im) as Hp.
    destruct (persist_and_apply mu im) as [[u|c] im']; inversion Hp; subst; auto.
Qed.

Lemma mutate_frame :
  im_config (mutate fn im).2 = im_config im ∧
  im_shutting_down (mutate fn im).2 = im_shutting_down im.
Proof.
  unfold mutate. destruct (im_shutting_down im) eqn:Es; [done|]. fold outcome. rewrite <-Es.
  destruct outcome as [[a|code] mu].
  - pose proof (persist_and_apply_frame mu im) as Hp.
    by destruct (persist_and_apply mu im) as [[u|c] im'].
  - destruct (mu_commit_before_return mu); [|done]. simpl.
    pose proof (persist_and_apply_frame mu im) as Hp.
    by destruct (persist_and_apply mu im) as [[u|c] im'].
Qed.

(** Success means applied. *)
Lemma mutate_Ok_records a :
  (mutate fn im).1 = Ok a →
  ∃ mu, outcome = (Ok a, mu) ∧
    same_records (im_plane (mutate fn im).2) (apply_all (im_plane im) (mu_effects mu)).
Proof.
  unfold mutate. destruct (im_shutting_down im); [done|]. fold outcome.
  destruct outcome as [[b|code] mu].
  - pose proof (persist_and_apply_cases mu im) as Hp.
    destruct (persist_and_apply mu im) as [[u|c] im']; [|done]. intros [= ->].
    exists mu. split; [done|]. by inversion Hp.
  - destruct (mu_commit_before_return mu); [|done]. simpl.
    by destruct (persist_and_apply mu im) as [[u|c] im'].
Qed.

(** A refusal that does not ask for its effects to be kept changes nothing, not
    even the clock. *)
Lemma mutate_refused code mu :
  outcome = (Err code, mu) → mu_commit_before_return mu = false → (mutate fn im).2 = im.
Proof.
  intros E Hc. unfold mutate. destruct (im_shutting_down im); [done|]. fold outcome.
  by rewrite E, Hc.
Qed.
End mutate.
End engine.
