(* ===== verification/Admissible.v ===== *)
(** * The effects every mutation may emit

    [plane_inv] is the invariant of a coordinator: the image is structurally
    consistent, a replica that counts toward the replication factor has a recorded
    commit, and a replica that claims ownership is live and is the one the active
    ownership record of its generation names.  [admissible] is the condition on a
    single effect under which the invariant is kept; the body of every mutation
    that writes no ownership record emits only admissible effects. *)

From S2P Require Import Prelude Taxonomy Model ModelOps ControlPlane Effects Consistency.
From S2P Require Import FabricCore MutationLogic FabricState FabricReplica FabricOps Lifecycle.

Local Open Scope Z_scope.

(** ** The invariant *)

(** The active ownership record of the replica's generation names it. *)
Definition names_owner (p : ControlPlane) (r : ReplicaRecord) : Prop :=
  is_active_owner (pl_ownership p !! replica_state_key r) (rp_replica_id r) = true.

Record replica_sound (own : ReplicaRecord → Prop) (r : ReplicaRecord) : Prop := {
  sound_counts : rp_counts_toward_factor r = true → rp_commit_recorded r = true;
  sound_owner : rp_authority r = RAS.AUTHORITATIVE_OWNER → replica_is_terminal r = false ∧ own r
}.

(** Records are stored under the key they carry. *)
Record keyed (p : ControlPlane) : Prop := {
  keyed_set : ∀ key s, pl_replica_sets p !! key = Some s → set_key s = key;
  keyed_cluster : ∀ id c, pl_clusters p !! id = Some c → cl_cluster_id c = id;
  keyed_operation : ∀ id o, pl_operations p !! id = Some o → op_operation_id o = id;
  keyed_ownership : ∀ key o, pl_ownership p !! key = Some o → ownership_key o = key
}.

Lemma keyed_apply_all p es : keyed p → keyed (apply_all p es).
Proof.
  intros []. split; intros k r; rewrite_apply_all;
    intros [[_ ?]|[? _]]%lookup_put_all_inv; auto.
Qed.

Record plane_inv (p : ControlPlane) : Prop := {
  inv_consistent : consistent p;
  inv_keyed : keyed p;
  inv_replica : ∀ id r, pl_replicas p !! id = Some r → replica_sound (names_owner p) r
}.

(** The invariant reads the record maps only. *)
Record same_maps (p q : ControlPlane) : Prop := {
  maps_states : pl_states q = pl_states p;
  maps_clusters : pl_clusters q = pl_clusters p;
  maps_replicas : pl_replicas q = pl_replicas p;
  maps_replica_sets : pl_replica_sets q = pl_replica_sets p;
  maps_operations : pl_operations q = pl_operations p;
  maps_ownership : pl_ownership q = pl_ownership p
}.

Lemma consistent_maps p q : same_maps p q → consistent p → consistent q.
Proof.
  intros [Est Ecl Erp Ers Eop Eow] Hp. split; rewrite ?Erp, ?Ers, ?Eop, ?Eow, ?Est.
  - apply (con_replica_id _ Hp).
  - intros id r [? ? ?]%(con_replica _ Hp). split; rewrite ?Est, ?Ecl, ?Ers; auto.
  - intros k s (?&?&?)%(con_set _ Hp). unfold set_bound, known_member. rewrite Est, Erp. auto.
  - apply (con_operation _ Hp).
  - apply (con_ownership _ Hp).
  - apply (con_state _ Hp).
Qed.

Lemma plane_inv_maps p q : same_maps p q → plane_inv p → plane_inv q.
Proof.
  intros Hpq [Hc Hk Hr]. split; [by eapply consistent_maps|..];
    destruct Hpq as [Est Ecl Erp Ers Eop Eow].
  - destruct Hk. split; rewrite ?Ers, ?Ecl, ?Eop, ?Eow; auto.
  - intros id r. rewrite Erp. intros [? ?]%Hr. split; [done|].
    unfold names_owner in *. by rewrite Eow.
Qed.

Lemma same_records_maps p q : same_records p q → same_maps p q.
Proof. intros []. by split. Qed.

#[export] Instance plane_inv_proper : Proper (same_records ==> iff) plane_inv.
Proof.
  intros p q Hpq. split; apply plane_inv_maps, same_records_maps; [done|by symmetry].
Qed.

(** The identity of a replica: nothing rewrites it after registration. *)
Definition binding (r : ReplicaRecord) : Z * (Z * Z) * Z * Z :=
  (rp_replica_id r, replica_state_key r, rlo_cluster_id (rp_location r), rp_replica_set_id r).

Lemma binding_inv r r' :
  binding r' = binding r →
  rp_replica_id r' = rp_replica_id r ∧ replica_state_key r' = replica_state_key r ∧
  rlo_cluster_id (rp_location r') = rlo_cluster_id (rp_location r) ∧
  rp_replica_set_id r' = rp_replica_set_id r.
Proof.
  intros E. split_and!; [exact (f_equal (λ b, b.1.1.1) E)|exact (f_equal (λ b, b.1.1.2) E)|
    exact (f_equal (λ b, b.1.2) E)|exact (f_equal (λ b, b.2) E)].
Qed.

Definition sound_effect (own : ReplicaRecord → Prop) (e : Effect) : Prop :=
  match e with
  | PUT_REPLICA r => replica_sound own r
  | PUT_OWNERSHIP _ => False
  | _ => True
  end.

Definition admissible (p : ControlPlane) (e : Effect) : Prop :=
  references p e ∧ sound_effect (names_owner p) e.

Lemma omap_nil {V} (sel : Effect → option V) es :
  Forall (λ e, sel e = None) es → omap sel es = [].
Proof. induction 1 as [|e es He _ IH]; [done|]. simpl. by rewrite He. Qed.

Lemma sound_no_ownership own es : Forall (sound_effect own) es → omap put_ownership es = [].
Proof.
  intros Hes. apply omap_nil. eapply List.Forall_impl; [|exact Hes]. by intros [].
Qed.

Lemma plane_inv_apply_all p es :
  plane_inv p → consistent (apply_all p es) → Forall (sound_effect (names_owner p)) es →
  plane_inv (apply_all p es).
Proof.
  intros Hp Hc Hes. split; [done|apply keyed_apply_all, Hp|]. intros id r Hr.
  assert (pl_ownership (apply_all p es) = pl_ownership p) as Hown.
  { by rewrite apply_all_ownership, (sound_no_ownership _ _ Hes). }
  assert (replica_sound (names_owner p) r) as [? ?].
  { rewrite apply_all_replicas in Hr. apply lookup_put_all_inv in Hr as [[Hin _]|[Hr _]].
    - put_inv Hin. rewrite list.Forall_forall in Hes. by apply (Hes (PUT_REPLICA r)).
    - by eapply inv_replica. }
  split; [done|]. unfold names_owner. by rewrite Hown.
Qed.

Lemma admissible_apply_all p es :
  plane_inv p → Forall (admissible p) es → plane_inv (apply_all p es).
Proof.
  intros Hp Hes. apply plane_inv_apply_all; [done| |].
  - apply consistent_apply_all_pre; [apply Hp|].
    eapply List.Forall_impl; [|exact Hes]. by intros e [].
  - eapply List.Forall_impl; [|exact Hes]. by intros e [].
Qed.

(** ** Effects on one replica and its set *)

Section effects.
Context (p : ControlPlane) (Hp : plane_inv p).

Lemma find_replica_id id r : find_replica p id = Some r → rp_replica_id r = id.
Proof. apply con_replica_id, Hp. Qed.

Lemma references_revised id r r' :
  find_replica p id = Some r → binding r' = binding r → references p (PUT_REPLICA r').
Proof.
  intros Hr (_&E2&E3&E4)%binding_inv.
  destruct (con_replica _ (inv_consistent _ Hp) _ _ Hr) as [? ? ?].
  split; by rewrite ?E2, ?E3, ?E4.
Qed.

(** A record that keeps the binding of a stored replica and stays sound. *)
Lemma admissible_revised id r r' :
  find_replica p id = Some r → binding r' = binding r →
  (rp_counts_toward_factor r' = true → rp_commit_recorded r' = true) →
  (rp_authority r' = RAS.AUTHORITATIVE_OWNER →
     replica_is_terminal r' = false ∧
     (rp_authority r = RAS.AUTHORITATIVE_OWNER ∨ names_owner p r)) →
  admissible p (PUT_REPLICA r').
Proof.
  intros Hr Hb Hcount Hown. split; [by eapply references_revised|].
  split; [done|]. intros Ha. destruct (Hown Ha) as [? Hn]. split; [done|].
  assert (names_owner p r) as Hn'.
  { destruct Hn as [Hn|Hn]; [|done]. by apply (inv_replica _ Hp _ _ Hr). }
  unfold names_owner in *. apply binding_inv in Hb as (->&->&_). done.
Qed.

Lemma rebuild_members set :
  Forall (known_member p) (rs_authoritative_members (rebuild_replica_set p set)) ∧
  Forall (known_member p) (rs_degraded_members (rebuild_replica_set p set)).
Proof.
  assert (∀ f, Forall (known_member p)
      (map make_member (List.filter f (live_members p (set_key set))))) as Hall.
  { intros f. apply List.Forall_forall. intros m (r & <- & Hr)%in_map_iff.
    apply filter_In in Hr as [Hr _]. unfold live_members, generation_replicas in Hr.
    rewrite !filter_In in Hr. destruct Hr as [[Hr _] _].
    apply list_elem_of_In, elem_of_values in Hr as [id Hid].
    unfold known_member. simpl. by rewrite (con_replica_id _ (inv_consistent _ Hp) _ _ Hid), Hid. }
  unfold rebuild_replica_set, recompute_replica_set. repeat case_match; split; apply Hall.
Qed.

Lemma rebuild_key set : set_key (rebuild_replica_set p set) = set_key set.
Proof. unfold rebuild_replica_set, recompute_replica_set. by repeat case_match. Qed.

Lemma set_lookup_key sid gen set :
  find_replica_set p sid gen = Some set → is_Some (pl_states p !! (sid, gen)).
Proof. intros Hs. by apply (con_set _ (inv_consistent _ Hp)) in Hs as [? _]. Qed.

Lemma references_bump sid gen tick epoch advance :
  is_Some (pl_states p !! (sid, gen)) →
  references p (bump_replica_set_effect p sid gen tick epoch advance).
Proof.
  intros Hs. unfold bump_replica_set_effect, bumped_replica_set. simpl.
  destruct (find_replica_set p sid gen) as [set|] eqn:E.
  - apply (keyed_set _ (inv_keyed _ Hp)) in E.
    pose proof (rebuild_key set) as Hk. destruct (rebuild_members set) as [? ?]. rewrite E in Hk.
    revert Hk. unfold set_bound, set_key. generalize dependent (rebuild_replica_set p set).
    intros s ?? [= <- <-]. by destruct advance, (valid (rs_generation s)).
  - destruct advance; simpl; split; try done; by split; constructor.
Qed.

Lemma emits_put_replica_and_set r advance :
  admissible p (PUT_REPLICA r) →
  emits (admissible p) (put_replica_and_set p r advance) (λ _, True).
Proof.
  intros Hr. unfold put_replica_and_set. emits_auto; [done|].
  split; [|done]. apply references_bump. apply Hr.
Qed.

Lemma references_operation id o o' :
  find_operation p id = Some o → operation_state_key o' = operation_state_key o →
  admissible p (PUT_OPERATION o').
Proof.
  intros Ho E. split; [|done]. simpl. rewrite E.
  by apply (con_operation _ (inv_consistent _ Hp)) in Ho.
Qed.

Lemma emits_advance_operation id gen next note :
  emits (admissible p) (advance_operation p id gen next note) (λ _, True).
Proof.
  unfold advance_operation. emits_auto. eapply references_operation; [done|].
  unfold advanced_operation. by repeat case_match.
Qed.

Lemma emits_guard_replica id gen inc boot epoch :
  emits (admissible p) (guard_replica p id gen inc boot epoch)
    (λ r, find_replica p id = Some r ∧ replica_is_terminal r = false).
Proof. unfold guard_replica. emits_auto. simplify_eq/=. done. Qed.

Lemma emits_validate_text P text : emits P (validate_text text) (λ _, True).
Proof. unfold validate_text. eapply emits_true, emits_refuse_if. Qed.

Lemma emits_validate_spec P spec : emits P (validate_spec spec) (λ _, True).
Proof. unfold validate_spec. emits_auto; eapply emits_true, emits_refuse_if. Qed.

Lemma emits_require_state P sid gen :
  emits P (require_state p sid gen) (λ s, find_state p sid gen = Some s).
Proof. apply emits_require. Qed.
End effects.

#[export] Hint Resolve emits_put_replica_and_set emits_advance_operation emits_guard_replica
  emits_validate_text emits_validate_spec emits_require_state : emits.

(** Closes the goals of effects that name no other record. *)
Ltac plain_effect := by split.

(** ** States *)

Section operations.
Context (p : ControlPlane) (config : FabricConfig) (Hp : plane_inv p).
Local Hint Resolve Hp : emits.

Lemma emits_publish_state_generation spec :
  emits (admissible p) (publish_state_generation spec p config) (λ _, True).
Proof. unfold publish_state_generation. emits_auto. plain_effect. Qed.

Lemma admissible_supersede tick old :
  Forall (admissible p) (supersede_effects p tick old).
Proof.
  unfold supersede_effects. apply Forall_app_2; [by repeat constructor|]. apply Forall_app_2.
  - apply list.Forall_fmap, list.Forall_forall. intros r Hr.
    unfold replicas_of_state in Hr. apply list_elem_of_In, filter_In in Hr as [Hr _].
    apply list_elem_of_In, elem_of_values in Hr as [id Hr].
    eapply (admissible_revised p Hp id r); [done|..]; unfold supersede_replica;
      destruct (rp_lifecycle r); done.
  - destruct (find_replica_set p _ _) as [s|] eqn:E; [|constructor].
    constructor; [|constructor]. split; [|done].
    pose proof (keyed_set _ (inv_keyed _ Hp) _ _ E) as Hk.
    apply (con_set _ (inv_consistent _ Hp)) in E. by rewrite <-Hk in E.
Qed.

Lemma emits_commit_state_generation sid gen commit :
  emits (admissible p) (commit_state_generation sid gen commit p config) (λ _, True).
Proof.
  unfold commit_state_generation. emits_auto; try plain_effect.
  all: apply Forall_concat, list.Forall_fmap, list.Forall_forall; intros old _;
    apply admissible_supersede.
Qed.

(** ** Clusters and policy *)

Lemma fence_replica_binding l a text tick r : binding (fence_replica l a text tick r) = binding r.
Proof. unfold fence_replica. by destruct (rp_lifecycle r). Qed.

Lemma fence_replica_fields l a text tick r :
  rp_authority (fence_replica l a text tick r) = RAS.FENCED ∧
  rp_counts_toward_factor (fence_replica l a text tick r) = false ∧
  re_revalidation_required (rp_evidence (fence_replica l a text tick r)) = true.
Proof. unfold fence_replica. by destruct (rp_lifecycle r). Qed.

Lemma admissible_fence l a text tick rs :
  Forall (λ r, find_replica p (rp_replica_id r) = Some r) rs →
  Forall (admissible p) (fence_effects p (fence_replica l a text tick) tick rs).
Proof.
  intros Hrs. apply Forall_concat, list.Forall_fmap.
  eapply List.Forall_impl; [|exact Hrs]. intros r Hr. simpl. constructor.
  - destruct (fence_replica_fields l a text tick r) as (E1&E2&_).
    eapply (admissible_revised p Hp _ r); [exact Hr|apply fence_replica_binding| |]; congruence.
  - unfold fenced_set_effects. destruct (find_replica_set p _ _) as [s|] eqn:E; [|constructor].
    constructor; [|constructor]. split; [|done].
    pose proof (keyed_set _ (inv_keyed _ Hp) _ _ E) as Hk.
    apply (con_set _ (inv_consistent _ Hp)) in E. by rewrite <-Hk in E.
Qed.

Lemma filter_values_found f :
  Forall (λ r, find_replica p (rp_replica_id r) = Some r) (List.filter f (values (pl_replicas p))).
Proof.
  apply List.Forall_forall. intros r [Hr _]%filter_In.
  apply list_elem_of_In, elem_of_values in Hr as [id Hr].
  by rewrite (find_replica_id p Hp id r Hr).
Qed.

Lemma emits_register_cluster r : emits (admissible p) (register_cluster r p config) (λ _, True).
Proof.
  unfold register_cluster. emits_auto; try plain_effect.
  apply admissible_fence. case_match; [apply filter_values_found|constructor].
Qed.

Lemma emits_publish_cluster_evidence u :
  emits (admissible p) (publish_cluster_evidence u p config) (λ _, True).
Proof. unfold publish_cluster_evidence. emits_auto; plain_effect. Qed.

Lemma emits_mark_cluster_unreachable c i reason :
  emits (admissible p) (mark_cluster_unreachable c i reason p config) (λ _, True).
Proof.
  unfold mark_cluster_unreachable. emits_auto; try plain_effect.
  apply admissible_fence, filter_values_found.
Qed.

Lemma emits_retire_cluster c i : emits (admissible p) (retire_cluster c i p config) (λ _, True).
Proof.
  unfold retire_cluster. emits_auto; try plain_effect.
  apply admissible_fence, filter_values_found.
Qed.

Lemma emits_publish_compatibility r :
  emits (admissible p) (publish_compatibility r p config) (λ _, True).
Proof. unfold publish_compatibility. emits_auto; plain_effect. Qed.

Lemma emits_publish_placement_policy r :
  emits (admissible p) (publish_placement_policy r p config) (λ _, True).
Proof. unfold publish_placement_policy. emits_auto; plain_effect. Qed.

Lemma emits_publish_replication_policy r :
  emits (admissible p) (publish_replication_policy r p config) (λ _, True).
Proof. unfold publish_replication_policy. emits_auto; plain_effect. Qed.

(** ** Replica reports *)

(** A stored replica keeps the claims it had. *)
Lemma stored_sound id r :
  find_replica p id = Some r →
  (rp_counts_toward_factor r = true → rp_commit_recorded r = true) ∧
  (rp_authority r = RAS.AUTHORITATIVE_OWNER → replica_is_terminal r = false ∧ names_owner p r).
Proof. intros Hr. by destruct (inv_replica _ Hp _ _ Hr). Qed.
End operations.

(** The revision of the replica a guard returned: same binding, and the claims
    are dropped or kept. *)
Ltac revised :=
  match goal with
  | Hp : plane_inv ?p, Hr : find_replica ?p ?id = Some ?r |- admissible ?p (PUT_REPLICA _) =>
      let S1 := fresh in let S2 := fresh in
      destruct (stored_sound p Hp _ _ Hr) as [S1 S2];
      eapply (admissible_revised p Hp id r); [exact Hr|reflexivity|simpl; auto; try done|
        simpl; intros Ha; first [discriminate Ha|tauto|(split; [reflexivity|tauto])]]
  end.

(** The effects left by [emits_auto] on a replica report. *)
Ltac report_effect :=
  first
    [ exact I
    | plain_effect
    | match goal with Hp : plane_inv ?p |- emits _ (put_replica_and_set _ _ _) _ =>
        apply (emits_put_replica_and_set p Hp); revised end
    | match goal with Hp : plane_inv ?p |- admissible _ (PUT_OPERATION _) =>
        eapply (references_operation p Hp); [eassumption|reflexivity] end
    | revised ].
Ltac report := emits_auto; cbv beta in *; destruct_and?; report_effect.

Section reports.
Context (p : ControlPlane) (config : FabricConfig) (Hp : plane_inv p).
Local Hint Resolve Hp : emits.

Lemma emits_record_transfer_progress t :
  emits (admissible p) (record_transfer_progress t p config) (λ _, True).
Proof. unfold record_transfer_progress. report. Qed.

Lemma emits_record_transfer_completion t :
  emits (admissible p) (record_transfer_completion t p config) (λ _, True).
Proof. unfold record_transfer_completion, record_and_refuse. report. Qed.

Lemma emits_retire_replica t : emits (admissible p) (retire_replica t p config) (λ _, True).
Proof. unfold retire_replica, guard_transition. report. Qed.

Lemma emits_quarantine_replica t : emits (admissible p) (quarantine_replica t p config) (λ _, True).
Proof. unfold quarantine_replica, guard_transition. report. Qed.

Lemma emits_cancel_operation c : emits (admissible p) (cancel_operation c p config) (λ _, True).
Proof.
  unfold cancel_operation. emits_auto; cbv beta in *; try plain_effect.
  all: try (eapply (references_operation p Hp); [eassumption|reflexivity]).
  match goal with H : context [find_replica p ?id] |- _ =>
    destruct (find_replica p id) as [d|] eqn:E; [|discriminate H]; case_match; simplify_eq end.
  report_effect.
Qed.

Lemma emits_persist_and_fail v r' counters next code message :
  admissible p (PUT_REPLICA r') →
  emits (admissible p) (persist_and_fail v p r' counters next code message) (λ _, True).
Proof. intros. unfold persist_and_fail. emits_auto; try plain_effect. Qed.

Lemma emits_persist_prepared v r' counters next :
  admissible p (PUT_REPLICA r') →
  emits (admissible p) (persist_prepared v p r' counters next) (λ _, True).
Proof. intros. unfold persist_prepared. emits_auto; plain_effect. Qed.
(** A revision that keeps the binding, the commit and the claims of [r]. *)
Record keeps_claims (r r' : ReplicaRecord) : Prop := {
  keeps_binding : binding r' = binding r;
  keeps_counts : rp_counts_toward_factor r' = rp_counts_toward_factor r;
  keeps_commit : rp_commit_recorded r' = rp_commit_recorded r;
  keeps_authority : rp_authority r' = rp_authority r
}.

(** A further revision of it that is not terminal, and drops or keeps the claims. *)
Lemma admissible_keeps id r r' r'' :
  find_replica p id = Some r → keeps_claims r r' →
  binding r'' = binding r' → rp_commit_recorded r'' = rp_commit_recorded r' →
  (rp_counts_toward_factor r'' = true → rp_counts_toward_factor r' = true) →
  (rp_authority r'' = RAS.AUTHORITATIVE_OWNER →
     replica_is_terminal r'' = false ∧ rp_authority r' = RAS.AUTHORITATIVE_OWNER) →
  admissible p (PUT_REPLICA r'').
Proof.
  intros Hr [Kb Kc Km Ka] Hb Hm Hc Ha. destruct (stored_sound p Hp _ _ Hr) as [S1 S2].
  eapply (admissible_revised p Hp id r); [done|congruence| |].
  - rewrite Hm, Km. intros ?. apply S1. rewrite <-Kc. auto.
  - intros [? ?]%Ha. split; [done|]. left. congruence.
Qed.

Ltac keeps :=
  eapply admissible_keeps; [eassumption|eassumption|reflexivity|reflexivity|simpl; try done|
    simpl; intros Ha; first [discriminate Ha|(split; [reflexivity|exact Ha])]].

(** The two ways a verification ends, told apart by their head. *)
Ltac outcome :=
  lazymatch goal with
  | |- emits _ (persist_prepared _ _ _ _ _) _ => apply emits_persist_prepared
  | |- _ => apply emits_persist_and_fail
  end.

Lemma emits_verify_against_cluster v state cluster id r r' counters next :
  find_replica p id = Some r → keeps_claims r r' →
  emits (admissible p) (verify_against_cluster v p state cluster r' counters next) (λ _, True).
Proof.
  intros Hr Hk. unfold verify_against_cluster. emits_auto.
  all: outcome.
  all: keeps.
Qed.

Lemma emits_verify_against_descriptor v requirement d g id r r' counters next :
  find_replica p id = Some r → keeps_claims r r' →
  emits (admissible p) (verify_against_descriptor v p requirement d g r' counters next) (λ _, True).
Proof.
  intros Hr Hk. unfold verify_against_descriptor. emits_auto.
  all: outcome.
  all: try keeps. destruct d; keeps.
Qed.

Lemma emits_verify_replica v : emits (admissible p) (verify_replica v p config) (λ _, True).
Proof.
  unfold verify_replica. emits_auto; cbv beta in *; destruct_and?.
  all: first
    [ apply emits_persist_and_fail; eapply admissible_keeps;
        [eassumption|by split|reflexivity|reflexivity|simpl; try done|
         simpl; intros Ha; first [discriminate Ha|(split; [reflexivity|exact Ha])]]
    | eapply emits_verify_against_descriptor; [eassumption|by split]
    | eapply emits_verify_against_cluster; [eassumption|by split] ].
Qed.

Lemma rebound_keeps r c : keeps_claims r (rebound r c).
Proof. unfold rebound. by destruct (needs_rebinding r c). Qed.

Lemma admissible_revalidated tick c rebinding id r r' :
  find_replica p id = Some r → keeps_claims r r' →
  admissible p (PUT_REPLICA (revalidated_replica p tick c rebinding r')).
Proof.
  intros Hr [Kb Kc Km Ka]. unfold revalidated_replica.
  eapply (admissible_revised p Hp id r); [done|..].
  - rewrite <-Kb. by destruct (rp_commit_recorded r').
  - destruct (rp_commit_recorded r') eqn:E; simpl; congruence.
  - destruct (rp_commit_recorded r'); simpl; [|done].
    destruct (is_active_owner _ _) eqn:Hown; [|done]. intros _. split; [done|]. right.
    apply binding_inv in Kb as (Ei&Ek&_). unfold names_owner. by rewrite <-Ei, <-Ek.
Qed.

Lemma emits_revalidate_replica t : emits (admissible p) (revalidate_replica t p config) (λ _, True).
Proof.
  unfold revalidate_replica. emits_auto; cbv beta in *; try plain_effect.
  apply (emits_put_replica_and_set p Hp).
  eapply admissible_revalidated; [eassumption|apply rebound_keeps].
Qed.

(** ** Authorization *)

Lemma emits_authorize_transaction s g d src kind destructive rpol ppol epoch :
  emits (admissible p) (authorize_transaction p config s g d src kind destructive rpol ppol epoch)
    (λ _, True).
Proof.
  unfold authorize_transaction. emits_auto; cbv beta in *; try plain_effect.
  all: assert (is_Some (pl_states p !! (s, g))) as Hs by (eexists; eassumption).
  - by split.
  - apply (emits_put_replica_and_set p Hp). split; [|by split].
    split; [done|by eexists|]. intros _. by eexists.
Qed.
End reports.
