(* ===== verification/Ownership.v ===== *)
(** * Authoritative commits and ownership changes

    The exact effects of [plan_authoritative_commit], [commit_replica],
    [commit_operation] and [transfer_ownership] when they succeed, and the proof
    that each of them leaves at most one owner. *)

From S2P Require Import Prelude Taxonomy Model ModelOps ControlPlane Effects Consistency.
From S2P Require Import FabricCore MutationLogic FabricState FabricReplica FabricOps Admissible.

Local Open Scope Z_scope.

(** ** Lists of effects that hand ownership over *)

Definition owner_effect (key : Z * Z) (n : Z) (e : Effect) : Prop :=
  match e with
  | PUT_REPLICA r =>
      replica_sound (λ r, rp_replica_id r = n ∧ replica_state_key r = key) r
  | PUT_OWNERSHIP o => ownership_key o = key ∧ is_active_owner (Some o) n = true
  | _ => True
  end.

(** The effects make replica [n] the owner of [key]: only it may claim ownership,
    the ownership record names it, and every other owner of the generation is
    rewritten. *)
Record owner_change (p : ControlPlane) (key : Z * Z) (n : Z) (es : list Effect) : Prop := {
  change_effects : Forall (owner_effect key n) es;
  change_written : ∃ o, PUT_OWNERSHIP o ∈ es;
  change_demoted : ∀ id r, pl_replicas p !! id = Some r → replica_state_key r = key →
    rp_authority r = RAS.AUTHORITATIVE_OWNER → id ≠ n →
    ∃ r', PUT_REPLICA r' ∈ es ∧ rp_replica_id r' = id
}.

Lemma elem_of_omap_intro {V} (sel : Effect → option V) (es : list Effect) e v :
  e ∈ es → sel e = Some v → v ∈ omap sel es.
Proof. intros. apply list_elem_of_omap. eauto. Qed.

Lemma owner_change_inv p key n es :
  plane_inv p → consistent (apply_all p es) → owner_change p key n es →
  plane_inv (apply_all p es).
Proof.
  intros Hp Hc [Hes [o Ho] Hdem]. rewrite list.Forall_forall in Hes.
  split; [done|apply keyed_apply_all, Hp|]. intros id r Hr.
  rewrite apply_all_replicas in Hr. unfold names_owner. rewrite apply_all_ownership.
  assert (∃ o', put_all ownership_key (omap put_ownership es) (pl_ownership p) !! key = Some o' ∧
    is_active_owner (Some o') n = true) as (o' & Ho' & Hact).
  { destruct (Hes _ Ho) as [<- Ha].
    destruct (put_all_written ownership_key (omap put_ownership es) (pl_ownership p) o) as [o' Ho'].
    { by eapply elem_of_omap_intro. }
    exists o'. split; [done|]. apply lookup_put_all_inv in Ho' as [[Hin _]|[_ Hno]].
    - put_inv Hin. by apply (Hes (PUT_OWNERSHIP o')).
    - exfalso. eapply Hno; [by eapply elem_of_omap_intro|done]. }
  apply lookup_put_all_inv in Hr as [[Hin <-]|[Hr Hnone]].
  - put_inv Hin. destruct (Hes (PUT_REPLICA r)) as [Hcount Hown]; [done|]. split; [done|].
    intros (?&Hid&Hk)%Hown. split; [done|]. rewrite Hid, Hk, Ho'. done.
  - destruct (inv_replica _ Hp _ _ Hr) as [Hcount Hown]. split; [done|]. intros Ha.
    destruct (Hown Ha) as [Hterm Hn]. split; [done|].
    pose proof (con_replica_id _ (inv_consistent _ Hp) _ _ Hr) as Hid.
    destruct (decide (replica_state_key r = key)) as [Hk|Hk].
    + rewrite Hk, Ho'. destruct (decide (id = n)) as [->|Hne]; [by rewrite Hid|].
      destruct (Hdem id r) as (r' & Hin & Hid'); [done..|].
      exfalso. eapply Hnone; [by eapply elem_of_omap_intro|done].
    + rewrite put_all_other; [done|]. intros o1 Hin. put_inv Hin.
      destruct (Hes (PUT_OWNERSHIP o1)) as [-> _]; [done|]. congruence.
Qed.

(** ** The effects of [plan_authoritative_commit] *)

(** Adds effects to a mutation. *)
Definition extends (mu mu' : FabricMutation) (es : list Effect) : Prop :=
  mu_effects mu' = mu_effects mu ++ es ∧ mu_tick mu' = mu_tick mu ∧
  mu_commit_before_return mu' = mu_commit_before_return mu.

Lemma extends_refl mu : extends mu mu [].
Proof. split; [by rewrite app_nil_r|done]. Qed.

Lemma extends_emit mu mu' es e :
  extends mu mu' es → extends mu (mu' <| mu_effects ::= λ l, l ++ [e] |>) (es ++ [e]).
Proof. intros (H1&H2&H3). split; [|done]. simpl. by rewrite H1, app_assoc. Qed.

Lemma extends_trans mu1 mu2 mu3 es fs :
  extends mu1 mu2 es → extends mu2 mu3 fs → extends mu1 mu3 (es ++ fs).
Proof.
  intros (H1&H2&H3) (H4&H5&H6). split; [by rewrite H4, H1, app_assoc|]. split; congruence.
Qed.

Lemma extends_emit2 mu mu' es e f :
  extends mu mu' es →
  extends mu (mu' <| mu_effects ::= λ l, l ++ [e] |> <| mu_effects ::= λ l, l ++ [f] |>)
    (es ++ [e; f]).
Proof.
  intros He. change [e; f] with ([e] ++ [f]). rewrite app_assoc. by do 2 apply extends_emit.
Qed.

Lemma emit_all_run es mu u mu' : emit_all es mu = (Ok u, mu') → extends mu mu' es.
Proof.
  revert mu. induction es as [|e es IH]; intros mu H; simpl in H.
  - apply mret_Ok in H as [_ ->]. apply extends_refl.
  - apply mbind_Ok in H as (? & ? & ->%emit_Ok & H). apply IH in H.
    exact (extends_trans _ _ _ _ _ (extends_emit _ _ [] _ (extends_refl _)) H).
Qed.

(** Finds the list of effects of a run that was inverted. *)
Ltac extend := repeat first [apply extends_refl|apply extends_emit|eassumption].

Lemma put_replica_and_set_run p r advance mu u mu' tick :
  put_replica_and_set p r advance mu = (Ok u, mu') → mu_tick mu = tick →
  extends mu mu' [PUT_REPLICA r;
    bump_replica_set_effect p (rp_state_id r) (rp_state_generation r) tick
      (pl_coordinator_epoch p) advance].
Proof.
  unfold put_replica_and_set. intros H <-. run_ok H. exact (extends_emit _ _ _ _
    (extends_emit _ _ _ _ (extends_refl _))).
Qed.

(** The demotions a hand-over writes for the recorded owner. *)
Definition demotions (p : ControlPlane) (tick : Z) (text : string) (owner : Z) : list Effect :=
  match find_replica p owner with
  | Some previous =>
      if replica_is_terminal previous then []
      else [PUT_REPLICA (demoted_owner p tick text previous)]
  | None => []
  end.

Lemma demote_previous_run p tick text owner mu u mu' :
  demote_previous p tick text owner mu = (Ok u, mu') →
  extends mu mu' (demotions p tick text owner).
Proof.
  unfold demote_previous, demotions. intros H.
  destruct (find_replica p owner) as [r|]; [destruct (replica_is_terminal r)|]; run_ok H; extend.
  apply (extends_emit _ _ _ _ (extends_refl _)).
Qed.

Definition handed_over : string := "ownership handed over by an authorized migration".

(** The record an authoritative commit leaves. *)
Definition authoritative_replica (p : ControlPlane) (tick commit : Z) (set : ReplicaSetRecord)
    (make_owner : bool) (target : ReplicaRecord) : ReplicaRecord :=
  (committed_replica p tick commit set target) <| rp_authority :=
    if make_owner then RAS.AUTHORITATIVE_OWNER else RAS.AUTHORITATIVE_FOR_REUSE |>.

Definition commit_demotions (p : ControlPlane) (tick : Z) (target : ReplicaRecord) : list Effect :=
  match pl_ownership p !! replica_state_key target with
  | Some o =>
      if owned_by_another (Some o) (rp_replica_id target)
      then demotions p tick handed_over (ow_owner_replica o) else []
  | None => []
  end.

Definition plan_effects (p : ControlPlane) (tick commit : Z) (set : ReplicaSetRecord)
    (make_owner : bool) (target : ReplicaRecord) : list Effect :=
  let r := authoritative_replica p tick commit set make_owner target in
  (if make_owner
   then commit_demotions p tick target ++ [PUT_OWNERSHIP (owner_record p tick commit set r)]
   else []) ++
  [PUT_REPLICA r;
   bump_replica_set_effect p (rp_state_id target) (rp_state_generation target) tick
     (pl_coordinator_epoch p) true].

Lemma plan_authoritative_commit_run p target state set commit make_owner takeover mu res mu' :
  plan_authoritative_commit p target state set commit make_owner takeover mu = (Ok res, mu') →
  res = (authoritative_replica p (mu_tick mu) commit set make_owner target, make_owner) ∧
  extends mu mu' (plan_effects p (mu_tick mu) commit set make_owner target) ∧
  (requires_single_authoritative_owner (sg_consistency state) = true → make_owner = true) ∧
  (make_owner = true → takeover = false →
     owned_by_another (pl_ownership p !! replica_state_key target) (rp_replica_id target) = false).
Proof.
  unfold plan_authoritative_commit, find_ownership, plan_effects, commit_demotions.
  intros H. run_ok H; fold (replica_state_key target) in *;
    (split; [reflexivity|split; [|split; [intros Hs; by rewrite ?Hs in R|]]]).
  - run_ok R0; [|done]. rewrite B0. apply demote_previous_run in R0.
    eapply (extends_trans _ _ _ _ _ (extends_emit _ _ _ _ R0)).
    destruct R0 as (_&Ht&_). exact (put_replica_and_set_run _ _ _ _ _ _ _ R1 Ht).
  - intros _ ->. by apply mbind_Ok in R0 as (? & ? & [? ?]%refuse_if_Ok & _).
  - run_ok R0. pose proof (put_replica_and_set_run _ _ _ _ _ _ (mu_tick mu) R1 eq_refl) as R2.
    destruct (pl_ownership p !! replica_state_key target) as [o|]; [rewrite B0|];
      exact (extends_trans _ _ _ _ _ (extends_emit _ _ _ _ (extends_refl _)) R2).
  - done.
  - exact (put_replica_and_set_run _ _ _ _ _ _ (mu_tick mu) R0 eq_refl).
  - done.
Qed.

(** ** An authoritative commit keeps the invariant *)

Section commit.
Context (p : ControlPlane) (Hp : plane_inv p).
Context (id : Z) (target : ReplicaRecord) (Htarget : find_replica p id = Some target).
Context (tick commit : Z) (set : ReplicaSetRecord).

Lemma references_plan make_owner :
  Forall (references p) (plan_effects p tick commit set make_owner target).
Proof.
  destruct (con_replica _ (inv_consistent _ Hp) _ _ Htarget) as [Hst Hcl Hset].
  unfold plan_effects. apply Forall_app_2.
  - destruct make_owner; [|constructor]. apply Forall_app_2.
    + unfold commit_demotions, demotions. repeat case_match; constructor; [|constructor].
      by eapply (references_revised p Hp).
    + by repeat constructor.
  - constructor; [|constructor; [|constructor]].
    + by apply (references_revised p Hp id target).
    + by apply (references_bump p Hp).
Qed.

Lemma plan_owner_effects :
  Forall (owner_effect (replica_state_key target) (rp_replica_id target))
    (plan_effects p tick commit set true target).
Proof.
  unfold plan_effects. apply Forall_app_2; [apply Forall_app_2|].
  - unfold commit_demotions, demotions.
    destruct (pl_ownership p !! _) as [o|]; [|constructor].
    case_match; [|constructor].
    destruct (find_replica p (ow_owner_replica o)) as [r|] eqn:Hr; [|constructor].
    case_match; constructor; [|constructor]. split; [|done].
    exact (proj1 (stored_sound p Hp _ _ Hr)).
  - constructor; [|constructor]. split; [done|]. simpl. apply Z.eqb_refl.
  - repeat constructor.
Qed.

Lemma plan_owner_change :
  owner_change p (replica_state_key target) (rp_replica_id target)
    (plan_effects p tick commit set true target).
Proof.
  split; [apply plan_owner_effects| |].
  - eexists. unfold plan_effects. rewrite !elem_of_app. left. right.
    by apply list_elem_of_singleton.
  - intros i r Hr Hk Ha Hne. destruct (inv_replica _ Hp _ _ Hr) as [_ Hown].
    destruct (Hown Ha) as [Hterm Hn]. unfold names_owner in Hn. rewrite Hk in Hn.
    pose proof (con_replica_id _ (inv_consistent _ Hp) _ _ Hr) as Hid.
    exists (demoted_owner p tick handed_over r). split; [|done].
    unfold plan_effects. rewrite !elem_of_app. left. left. unfold commit_demotions, demotions.
    destruct (pl_ownership p !! replica_state_key target) as [o|]; [|done]. simpl in Hn |- *.
    apply andb_true_iff in Hn as [-> Ho]. apply Z.eqb_eq in Ho. rewrite Ho, Hid.
    destruct (Z.eqb_spec i (rp_replica_id target)); [done|]. simpl.
    unfold find_replica. rewrite Hr, Hterm. by apply list_elem_of_singleton.
Qed.

(** Effects that may follow: they claim no ownership. *)
Definition unclaimed (e : Effect) : Prop := references p e ∧ sound_effect (λ _, False) e.

Lemma unclaimed_owner_effect key n e : unclaimed e → owner_effect key n e.
Proof.
  intros [_ Hs]. destruct e; simpl in *; try done.
  destruct Hs as [? Ho]. split; [done|]. by intros [_ []]%Ho.
Qed.

Lemma unclaimed_admissible e : unclaimed e → admissible p e.
Proof.
  intros [? Hs]. split; [done|]. destruct e; simpl in *; try done.
  destruct Hs as [? Ho]. split; [done|]. by intros [_ []]%Ho.
Qed.

Lemma plan_shared_admissible :
  Forall (admissible p) (plan_effects p tick commit set false target).
Proof.
  pose proof (references_plan false) as Hr. revert Hr. unfold plan_effects. simpl.
  intros (H1 & (H2 & _)%list.Forall_cons)%list.Forall_cons.
  constructor; [|constructor; [|constructor]]; by split.
Qed.

Lemma plan_commit_inv make_owner fs :
  Forall unclaimed fs →
  plane_inv (apply_all p (plan_effects p tick commit set make_owner target ++ fs)).
Proof.
  intros Hfs. destruct make_owner.
  - apply owner_change_inv with (replica_state_key target) (rp_replica_id target); [done| |].
    + apply consistent_apply_all_pre; [apply Hp|]. apply Forall_app_2; [apply references_plan|].
      eapply List.Forall_impl; [|exact Hfs]. by intros e [].
    + destruct plan_owner_change as [He [o Ho] Hd]. split.
      * apply Forall_app_2; [done|]. eapply List.Forall_impl; [|exact Hfs].
        intros e. apply unclaimed_owner_effect.
      * exists o. apply elem_of_app. by left.
      * intros i r Hr Hk Ha Hne. destruct (Hd i r Hr Hk Ha Hne) as (r' & ? & ?).
        exists r'. split; [|done]. apply elem_of_app. by left.
  - apply admissible_apply_all; [done|]. apply Forall_app_2; [apply plan_shared_admissible|].
    eapply List.Forall_impl; [|exact Hfs]. intros e. apply unclaimed_admissible.
Qed.
End commit.

(** ** Successful [commit_replica] *)

(** The evidence both commits check before they make a replica authoritative. *)
Record commit_evidence (p : ControlPlane) (target : ReplicaRecord) (set : ReplicaSetRecord)
    (policy : option ReplicationPolicyRecord) : Prop := {
  ev_cluster : ∃ c, find_cluster p (rlo_cluster_id (rp_location target)) = Some c ∧
    cl_live_authority c = true ∧ cl_incarnation c = rlo_cluster_incarnation (rp_location target);
  ev_set : find_replica_set p (rp_state_id target) (rp_state_generation target) = Some set;
  ev_fresh : re_revalidation_required (rp_evidence target) = false;
  ev_room : rs_authoritative_count (rebuild_replica_set p set) < maximum_authoritative policy
}.

Lemma commit_replica_run c p config mu r mu' :
  commit_replica c p config mu = (Ok r, mu') →
  (find_replica p (rc_replica_id c) = Some r ∧ rp_commit_recorded r = true ∧
   rp_commit_id r = rc_commit_id c ∧ mu' = mu) ∨
  ∃ target set counters, let make := rc_make_authoritative_owner c in
    find_replica p (rc_replica_id c) = Some target ∧
    rp_commit_recorded target = false ∧
    commit_evidence p target set (resolve_replication_policy p config 0) ∧
    (rc_require_integrity_verified c = true → rp_integrity target = RI.VERIFIED) ∧
    (rc_require_compatibility_verified c = true → rp_compatibility target = RCS.COMPATIBLE) ∧
    owned_by_another (pl_ownership p !! replica_state_key target) (rp_replica_id target) &&
      make = false ∧
    r = authoritative_replica p (mu_tick mu) (rc_commit_id c) set make target ∧
    extends mu mu'
      (plan_effects p (mu_tick mu) (rc_commit_id c) set make target ++ [PUT_COUNTERS counters]).
Proof.
  unfold commit_replica, require_state. intros H. run_ok H.
  - left. split_and!; try done. lia.
  - right.
    match goal with R : plan_authoritative_commit _ _ _ _ _ _ _ _ = _ |- _ =>
      apply plan_authoritative_commit_run in R as (-> & Hext & _ & Htake) end.
    do 3 eexists. split; [eassumption|]. split; [assumption|]. split_and!.
    + split; [|eassumption|assumption|lia]. eexists. split; [eassumption|].
      bool_simpl. tauto.
    + by apply guard_eq.
    + by apply guard_eq.
    + destruct (rc_make_authoritative_owner c); [|by rewrite andb_false_r].
      rewrite andb_true_r. by apply Htake.
    + reflexivity.
    + apply extends_emit. exact Hext.
Qed.

(** ** Successful [commit_operation] *)

Section operation_commit.
Context (p : ControlPlane) (config : FabricConfig) (commit : OperationCommit).

(** What a commit establishes about the operation before anything is written. *)
Record commit_ready (existing : OperationRecord) (target : ReplicaRecord)
    (state : StateGenerationRecord) (set : ReplicaSetRecord) : Prop := {
  cr_operation : find_operation p (oc_operation_id commit) = Some existing;
  cr_running : operation_is_terminal existing = false;
  cr_destructive : oc_retire_source commit = true → op_destructive_move existing = true;
  cr_target : find_replica p (op_destination_replica existing) = Some target;
  cr_state : find_state p (op_state_id existing) (op_state_generation existing) = Some state;
  cr_set : find_replica_set p (op_state_id existing) (op_state_generation existing) = Some set;
  cr_generation : op_source_replica_set_generation existing ≠ 0 →
    rs_generation set = op_source_replica_set_generation existing;
  cr_prepared : rp_lifecycle target = RL.PREPARED;
  cr_integrity : rp_integrity target = RI.VERIFIED;
  cr_compatibility : rp_compatibility target = RCS.COMPATIBLE;
  cr_fresh : re_revalidation_required (rp_evidence target) = false;
  cr_cluster : ∃ c, find_cluster p (rlo_cluster_id (rp_location target)) = Some c ∧
    cl_live_authority c = true ∧ cl_incarnation c = rlo_cluster_incarnation (rp_location target);
  cr_room : rs_authoritative_count (rebuild_replica_set p set) <
    maximum_authoritative (resolve_replication_policy p config (op_replication_policy_id existing))
}.

(** Migrations and single-owner states hand ownership to the destination. *)
Definition commit_makes_owner (existing : OperationRecord) (state : StateGenerationRecord) : bool :=
  bool_decide (op_kind existing = OpK.MIGRATION) ||
  requires_single_authoritative_owner (sg_consistency state).

Definition retirement_effects (tick : Z) (existing : OperationRecord) (committed : ReplicaRecord)
    : list Effect :=
  match source_to_retire p existing commit committed with
  | Some source =>
      [PUT_REPLICA (retired_source p tick source);
       bump_replica_set_effect p (rp_state_id source) (rp_state_generation source) tick
         (pl_coordinator_epoch p) true]
  | None => []
  end.

Lemma commit_operation_run mu op mu' :
  commit_operation commit p config mu = (Ok op, mu') →
  (find_operation p (oc_operation_id commit) = Some op ∧ operation_is_terminal op = true ∧
   op_commit_id op = oc_commit_id commit ∧ mu' = mu) ∨
  ∃ existing target state set counters,
    let make := commit_makes_owner existing state in
    let committed := authoritative_replica p (mu_tick mu) (oc_commit_id commit) set make target in
    commit_ready existing target state set ∧
    op_state op = OS.COMPLETE ∧ op_commit_id op = oc_commit_id commit ∧
    op_destination_committed op = true ∧
    op_operation_id op = op_operation_id existing ∧
    op_operation_generation op = op_operation_generation existing ∧
    operation_state_key op = operation_state_key existing ∧
    extends mu mu'
      (plan_effects p (mu_tick mu) (oc_commit_id commit) set make target ++
       retirement_effects (mu_tick mu) existing committed ++
       [PUT_OPERATION op; PUT_COUNTERS counters]).
Proof.
  unfold commit_operation, require_state, retirement_effects, commit_makes_owner. cbv zeta.
  intros H. run_ok H.
  { left. bool_simpl. tauto. }
  all: right;
    match goal with
    | Ro : find_operation p _ = Some ?o, Rt : find_replica p _ = Some ?t,
      Rs : find_state p _ _ = Some ?st, Rset : find_replica_set p _ _ = Some ?se,
      R : plan_authoritative_commit _ _ _ _ _ _ _ _ = (Ok ?res, _) |- _ =>
        exists o, t, st, se; assert (commit_ready o t st se) as Hready;
        [ split; try assumption; try (by apply guard_neq); try lia
        | apply plan_authoritative_commit_run in R as (Hres & Hext & _ & _); subst res; eexists;
          do 6 (split; [done|]); split; [reflexivity|] ]
    end.
  all: try (intros Hv; rewrite Hv in *; by destruct (op_destructive_move _)).
  all: try (eexists; split; [eassumption|]; bool_simpl; tauto).
  all: try (intros Hv%valid_true; rewrite Hv in *; simpl in *; lia).
  - cbn [fst] in *. rewrite O. rewrite app_assoc. apply extends_emit2.
    eapply extends_trans; [exact Hext|]. destruct Hext as (_ & Ht & _). rewrite Ht in *.
    exact (put_replica_and_set_run _ _ _ _ _ _ (mu_tick mu) R15 Ht).
  - cbn [fst] in *. rewrite O. simpl. by apply extends_emit2.
Qed.
End operation_commit.

(** ** Successful [transfer_ownership] *)

Definition transfer_demotions (p : ControlPlane) (tick : Z) (owner : Z) (new_owner : ReplicaRecord)
    : list Effect :=
  match find_replica p owner with
  | Some old_owner =>
      if negb (replica_is_terminal old_owner) &&
         negb (rp_replica_id old_owner =? rp_replica_id new_owner)
      then [PUT_REPLICA (demoted_owner p tick "ownership handed over" old_owner)] else []
  | None => []
  end.

Lemma demote_old_owner_run p tick owner new_owner mu u mu' :
  demote_old_owner p tick owner new_owner mu = (Ok u, mu') →
  extends mu mu' (transfer_demotions p tick owner new_owner).
Proof.
  unfold demote_old_owner, transfer_demotions. intros H.
  destruct (find_replica p owner) as [r|]; [destruct (_ && _)|]; run_ok H;
    first [apply extends_refl|exact (extends_emit _ _ [] _ (extends_refl _))].
Qed.

Definition transfer_effects (p : ControlPlane) (tick commit : Z) (owner : Z)
    (new_owner : ReplicaRecord) (record : OwnershipRecord) (counters : FabricCounters)
    : list Effect :=
  transfer_demotions p tick owner new_owner ++
  [PUT_REPLICA (promoted_owner p tick commit new_owner);
   bump_replica_set_effect p (rp_state_id new_owner) (rp_state_generation new_owner) tick
     (pl_coordinator_epoch p) true] ++
  [PUT_OWNERSHIP record; PUT_COUNTERS counters].

Section transfer.
Context (p : ControlPlane) (config : FabricConfig) (request : OwnershipTransferRequest).

(** What a hand-over that writes establishes. *)
Record transfer_ready (previous : OwnershipRecord) (new_owner : ReplicaRecord) : Prop := {
  tr_previous : pl_ownership p !! (oq_state_id request, oq_state_generation request) = Some previous;
  tr_active : ow_active previous = true;
  tr_expected : ow_owner_replica previous = oq_expected_current_owner request;
  tr_new : find_replica p (oq_new_owner_replica request) = Some new_owner;
  tr_key : replica_state_key new_owner = (oq_state_id request, oq_state_generation request);
  tr_integrity : rp_integrity new_owner = RI.VERIFIED;
  tr_compatibility : rp_compatibility new_owner = RCS.COMPATIBLE;
  tr_committed : rp_commit_recorded new_owner = true ∨ rp_lifecycle new_owner = RL.PREPARED;
  tr_cluster : ∃ c, find_cluster p (rlo_cluster_id (rp_location new_owner)) = Some c ∧
    cl_live_authority c = true ∧ cl_incarnation c = rlo_cluster_incarnation (rp_location new_owner)
}.

Lemma transfer_ownership_run mu record mu' :
  transfer_ownership request p config mu = (Ok record, mu') →
  (pl_ownership p !! (oq_state_id request, oq_state_generation request) = Some record ∧
   ow_owner_replica record = oq_new_owner_replica request ∧ mu' = mu) ∨
  ∃ previous new_owner counters,
    transfer_ready previous new_owner ∧
    ownership_key record = ownership_key previous ∧
    is_active_owner (Some record) (rp_replica_id new_owner) = true ∧
    ow_epoch record = pl_coordinator_epoch p ∧
    extends mu mu' (transfer_effects p (mu_tick mu) (oq_handoff_commit request)
      (ow_owner_replica previous) new_owner record counters).
Proof.
  unfold transfer_ownership, require_state, find_ownership. intros H. run_ok H.
  { left. bool_simpl. naive_solver. }
  all: right;
    match goal with
    | Ro : pl_ownership p !! _ = Some ?o, Rn : find_replica p (oq_new_owner_replica _) = Some ?r
      |- _ => exists o, r; eexists; assert (transfer_ready o r) as Hready;
        [split; try assumption|do 4 (split; [simpl; rewrite ?Z.eqb_refl; done|])]
    end.
  all: try (bool_simpl; tauto).
  all: try (unfold replica_state_key; bool_simpl; f_equal; tauto).
  all: try match goal with H : bool_decide _ || bool_decide _ = false |- _ =>
         apply orb_false_iff in H as [? ?]; by apply guard_neq end.
  all: try (eexists; split; [eassumption|]; bool_simpl; tauto).
  all: try match goal with H : negb ?b && bool_decide _ = false |- ?b = true ∨ _ =>
         destruct b; [by left|right; by apply guard_neq] end.
  unfold transfer_effects. rewrite app_assoc. apply extends_emit2.
  apply demote_old_owner_run in R15.
  eapply extends_trans; [exact R15|]. destruct R15 as (_&Ht&_).
  exact (put_replica_and_set_run _ _ _ _ _ _ _ R16 Ht).
Qed.

(** The hand-over is an ownership change, so the invariant survives it. *)
Lemma transfer_inv tick previous new_owner record counters :
  plane_inv p → transfer_ready previous new_owner →
  ownership_key record = ownership_key previous →
  is_active_owner (Some record) (rp_replica_id new_owner) = true →
  plane_inv (apply_all p (transfer_effects p tick (oq_handoff_commit request)
    (ow_owner_replica previous) new_owner record counters)).
Proof.
  intros Hp [Hprev Hact _ Hnew Hkey _ _ _ _] Hrk Hra.
  pose proof (keyed_ownership _ (inv_keyed _ Hp) _ _ Hprev) as Hok.
  destruct (con_replica _ (inv_consistent _ Hp) _ _ Hnew) as [Hst Hcl Hset].
  apply owner_change_inv with (replica_state_key new_owner) (rp_replica_id new_owner); [done| |].
  - apply consistent_apply_all_pre; [apply Hp|]. unfold transfer_effects, transfer_demotions.
    apply Forall_app_2; [|apply Forall_app_2].
    + repeat case_match; constructor; [|constructor]. by eapply (references_revised p Hp).
    + constructor; [by apply (references_revised p Hp (oq_new_owner_replica request) new_owner)|].
      constructor; [|constructor]. by apply (references_bump p Hp).
    + constructor; [|by repeat constructor]. simpl. by rewrite Hrk, Hok, <-Hkey.
  - split.
    + unfold transfer_effects, transfer_demotions. apply Forall_app_2; [|apply Forall_app_2].
      * destruct (find_replica p (ow_owner_replica previous)) as [r|] eqn:Hr; [|constructor].
        case_match; constructor; [|constructor]. split; [|done].
        exact (proj1 (stored_sound p Hp _ _ Hr)).
      * by repeat constructor.
      * constructor; [|by repeat constructor]. split; [congruence|done].
    + exists record. unfold transfer_effects. rewrite !elem_of_app. right. right. by left.
    + intros i r Hr Hk Ha Hne. destruct (inv_replica _ Hp _ _ Hr) as [_ Hown].
      destruct (Hown Ha) as [Hterm Hn]. unfold names_owner in Hn.
      rewrite Hk, Hkey, Hprev in Hn. simpl in Hn. apply andb_true_iff in Hn as [_ Hn].
      apply Z.eqb_eq in Hn. pose proof (con_replica_id _ (inv_consistent _ Hp) _ _ Hr) as Hid.
      exists (demoted_owner p tick "ownership handed over" r). split; [|done].
      unfold transfer_effects, transfer_demotions. rewrite elem_of_app. left.
      unfold find_replica. rewrite Hn, Hid, Hr, Hterm, Hid.
      destruct (Z.eqb_spec i (rp_replica_id new_owner)); [done|]. by apply list_elem_of_singleton.
Qed.
End transfer.
