(* ===== verification/Recovery.v ===== *)
(** * What a restart does

    The recovery pass keeps the invariant, advances the epoch, resolves every
    in-flight operation and leaves no replica authoritative until it is
    revalidated. *)

From S2P Require Import Prelude Taxonomy Model Cost ModelOps Authority ControlPlane Effects.
From S2P Require Import Consistency FabricCore MutationLogic FabricReplica Lifecycle Admissible.

Local Open Scope Z_scope.

(** ** The invariant *)

(** A revision of all replicas that keeps what the invariant reads. *)
Lemma map_replicas_inv p q (f : ReplicaRecord → ReplicaRecord) (g : ClusterRecord → ClusterRecord) :
  (∀ r, keeps_claims r (f r) ∧ replica_is_terminal (f r) = replica_is_terminal r) →
  (∀ c, cl_cluster_id (g c) = cl_cluster_id c) →
  pl_states q = pl_states p → pl_clusters q = g <$> pl_clusters p →
  pl_replicas q = f <$> pl_replicas p → pl_replica_sets q = pl_replica_sets p →
  pl_operations q = pl_operations p → pl_ownership q = pl_ownership p →
  plane_inv p → plane_inv q.
Proof.
  intros Hf Hg Est Ecl Erp Ers Eop Eow [Hc Hk Hr].
  assert (∀ id r, pl_replicas q !! id = Some r → ∃ r0, pl_replicas p !! id = Some r0 ∧ r = f r0)
    as Hinv.
  { intros id r. rewrite Erp, lookup_fmap. destruct (pl_replicas p !! id) as [r0|]; [|done].
    intros [= <-]. eauto. }
  split; [split|split|].
  - intros id r (r0 & Hr0 & ->)%Hinv. destruct (Hf r0) as [[Kb _ _ _] _].
    apply binding_inv in Kb as (->&_). by eapply con_replica_id.
  - intros id r (r0 & Hr0 & ->)%Hinv. destruct (Hf r0) as [[Kb _ _ _] _].
    apply binding_inv in Kb as (_&Ek&Ec&Es).
    destruct (con_replica _ Hc _ _ Hr0) as [? ? ?].
    split; rewrite ?Ek, ?Ec, ?Es, ?Est, ?Ers; [done| |done].
    rewrite Ecl, lookup_fmap. by apply fmap_is_Some.
  - rewrite Ers. intros k s (?&Ha&Hd)%(con_set _ Hc). unfold set_bound, known_member. rewrite Est, Erp.
    split; [done|]. split; (eapply List.Forall_impl; [|eassumption]); intros m Hm;
      rewrite lookup_fmap; by apply fmap_is_Some.
  - rewrite Eop, Est. apply (con_operation _ Hc).
  - rewrite Eow, Est. apply (con_ownership _ Hc).
  - rewrite Est. apply (con_state _ Hc).
  - rewrite Ers. apply (keyed_set _ Hk).
  - rewrite Ecl. intros id c. rewrite lookup_fmap.
    destruct (pl_clusters p !! id) as [c0|] eqn:E; [|done]. intros [= <-]. rewrite Hg.
    by eapply keyed_cluster.
  - rewrite Eop. apply (keyed_operation _ Hk).
  - rewrite Eow. apply (keyed_ownership _ Hk).
  - intros id r (r0 & Hr0 & ->)%Hinv. destruct (Hf r0) as [[Kb Kc Km Ka] Ht].
    apply binding_inv in Kb as (Ei&Ek&_). destruct (Hr _ _ Hr0) as [S1 S2].
    split; [by rewrite Kc, Km|]. rewrite Ka, Ht. intros [? Hn]%S2. split; [done|].
    unfold names_owner in *. by rewrite Ei, Ek, Eow.
Qed.

Lemma recover_replica_keeps r :
  keeps_claims r (recover_replica r) ∧
  replica_is_terminal (recover_replica r) = replica_is_terminal r.
Proof.
  unfold recover_replica. destruct (replica_is_terminal r) eqn:E; split; by first [split|exact E].
Qed.

(** The replica a recovered operation rewrites, if any. *)
Definition recovered_destination (outcome : RecoveryOutcome) (r : ReplicaRecord)
    : option ReplicaRecord :=
  if ro_destination_abandoned outcome then
    if rp_commit_recorded r then None else Some (recovery_abandon r)
  else if bool_decide (ro_state outcome = OS.OUTCOME_UNKNOWN) &&
          (negb (rp_commit_recorded r) && negb (replica_is_terminal r))
  then Some (recovery_quarantine r) else None.

(** The effects one recovered operation amounts to. *)
Definition destination_effects (p : ControlPlane) (outcome : RecoveryOutcome) (d : Z)
    : list Effect :=
  match pl_replicas p !! d ≫= recovered_destination outcome with
  | Some r' => [PUT_REPLICA r']
  | None => []
  end.

Definition recovery_effects (p : ControlPlane) (o : OperationRecord) : list Effect :=
  let outcome := classify_recovery (op_state o) in
  destination_effects p outcome (op_destination_replica o) ++
  [PUT_OPERATION (recovered_operation (pl_coordinator_epoch p) (inc (pl_logical_time p)) outcome o)].

Lemma recovered_destination_binding outcome r r' :
  recovered_destination outcome r = Some r' →
  binding r' = binding r ∧ rp_counts_toward_factor r' = false ∧
  rp_authority r' ≠ RAS.AUTHORITATIVE_OWNER ∧ rp_commit_recorded r = false.
Proof.
  unfold recovered_destination. intros H.
  destruct (ro_destination_abandoned outcome); [destruct (rp_commit_recorded r) eqn:?|];
    try case_match; simplify_eq; bool_simpl; naive_solver.
Qed.

Lemma recover_destination_replicas outcome d p :
  pl_replicas (recover_destination outcome d p) =
  match pl_replicas p !! d ≫= recovered_destination outcome with
  | Some r' => <[d := r']> (pl_replicas p)
  | None => pl_replicas p
  end.
Proof.
  unfold recover_destination, recovered_destination.
  destruct (ro_destination_abandoned outcome).
  - change (pl_replicas (p <| pl_counters ::= λ c, c <| fc_operations_abandoned ::= inc |> |>))
      with (pl_replicas p).
    destruct (pl_replicas p !! d) as [r|]; [|done]. simpl. by destruct (rp_commit_recorded r).
  - destruct (bool_decide _); [|by destruct (pl_replicas p !! d)].
    destruct (pl_replicas p !! d) as [r|]; [|done]. simpl.
    by destruct (negb (rp_commit_recorded r) && _).
Qed.

Lemma recover_destination_frame outcome d p :
  pl_states (recover_destination outcome d p) = pl_states p ∧
  pl_clusters (recover_destination outcome d p) = pl_clusters p ∧
  pl_replica_sets (recover_destination outcome d p) = pl_replica_sets p ∧
  pl_operations (recover_destination outcome d p) = pl_operations p ∧
  pl_ownership (recover_destination outcome d p) = pl_ownership p ∧
  pl_coordinator_epoch (recover_destination outcome d p) = pl_coordinator_epoch p.
Proof.
  unfold recover_destination.
  destruct (ro_destination_abandoned outcome).
  - change (pl_replicas (p <| pl_counters ::= λ c, c <| fc_operations_abandoned ::= inc |> |>))
      with (pl_replicas p).
    destruct (pl_replicas p !! d) as [r|]; [|done]. by destruct (rp_commit_recorded r).
  - destruct (bool_decide _); [|done].
    destruct (pl_replicas p !! d) as [r|]; [|done].
    by destruct (negb (rp_commit_recorded r) && _).
Qed.

Lemma recover_operation_maps p id o :
  plane_inv p → op_operation_id o = id → operation_is_terminal o = false →
  same_maps (apply_all p (recovery_effects p o)) (recover_operation p (id, o)).
Proof.
  intros Hp <- Ht. unfold recover_operation, recovery_effects, destination_effects.
  cbn [fst snd]. rewrite Ht. cbv zeta. generalize (classify_recovery (op_state o)).
  intros outcome.
  match goal with |- same_maps _ (set_field _ _ (recover_destination _ _ ?q)) =>
    destruct (recover_destination_frame outcome (op_destination_replica o) q) as (E1&E2&E3&E4&E5&_);
    pose proof (recover_destination_replicas outcome (op_destination_replica o) q) as E6;
    assert (pl_replicas q = pl_replicas p) as E7 by reflexivity;
    revert E1 E2 E3 E4 E5 E6; rewrite E7; clear E7;
    generalize (recover_destination outcome (op_destination_replica o) q)
  end.
  intros q' E1 E2 E3 E4 E5 E6.
  assert (∀ r', pl_replicas p !! op_destination_replica o ≫= recovered_destination outcome = Some r' →
    rp_replica_id r' = op_destination_replica o) as Hid.
  { intros r' (r & Hr & (Hb & _)%recovered_destination_binding)%bind_Some.
    apply binding_inv in Hb as [-> _]. by eapply con_replica_id; [apply Hp|]. }
  unfold destination_effects in *. revert E6 Hid.
  generalize (pl_replicas p !! op_destination_replica o ≫= recovered_destination outcome).
  intros [r'|] E6 Hid.
  - rewrite <-(Hid r' eq_refl) in E6. clear Hid.
    split; [exact E1|exact E2|exact E6|exact E3| |exact E5]. simpl. by rewrite E4.
  - split; [exact E1|exact E2|exact E6|exact E3| |exact E5].
    simpl. by rewrite E4.
Qed.

Lemma recovery_effects_admissible p o :
  plane_inv p → is_Some (pl_states p !! operation_state_key o) →
  Forall (admissible p) (recovery_effects p o).
Proof.
  intros Hp Ho. unfold recovery_effects, destination_effects. apply Forall_app_2.
  - destruct (_ ≫= _) as [r'|] eqn:E; [|constructor]. constructor; [|constructor].
    apply bind_Some in E as (r & Hr & E).
    apply recovered_destination_binding in E as (Hb & Hc & Ha & _).
    eapply (admissible_revised p Hp _ r); [exact Hr|done|congruence|done].
  - constructor; [by split|constructor].
Qed.

Lemma recover_operation_inv p id o :
  plane_inv p → op_operation_id o = id → is_Some (pl_states p !! operation_state_key o) →
  plane_inv (recover_operation p (id, o)).
Proof.
  intros Hp Hid Ho. destruct (operation_is_terminal o) eqn:Ht.
  - unfold recover_operation. simpl. by rewrite Ht.
  - eapply plane_inv_maps; [by apply recover_operation_maps|].
    by apply admissible_apply_all, recovery_effects_admissible.
Qed.

Lemma recover_operation_frame p id o :
  pl_states (recover_operation p (id, o)) = pl_states p ∧
  pl_coordinator_epoch (recover_operation p (id, o)) = pl_coordinator_epoch p ∧
  pl_clusters (recover_operation p (id, o)) = pl_clusters p ∧
  pl_replica_sets (recover_operation p (id, o)) = pl_replica_sets p.
Proof.
  unfold recover_operation. cbn [fst snd]. destruct (operation_is_terminal o); [done|]. cbv zeta.
  match goal with |- context [recover_destination ?a ?d ?q] =>
    destruct (recover_destination_frame a d q) as (E1&E2&E3&_&_&E6);
    revert E1 E2 E3 E6; generalize (recover_destination a d q) end.
  intros q' E1 E2 E3 E6. split_and!; [exact E1|exact E6|exact E2|exact E3].
Qed.

(** The operation loop, over any listing of operations whose states exist. *)
Lemma recover_operations_inv l p :
  plane_inv p →
  Forall (λ e : Z * OperationRecord,
    op_operation_id e.2 = e.1 ∧ is_Some (pl_states p !! operation_state_key e.2)) l →
  plane_inv (fold_left recover_operation l p).
Proof.
  revert p. induction l as [|[id o] l IH]; intros p Hp Hl; [done|].
  apply list.Forall_cons in Hl as [[Hid Ho] Hl]. simpl in Hid, Ho |- *.
  apply IH; [by apply recover_operation_inv|].
  eapply List.Forall_impl; [|exact Hl]. intros e.
  by rewrite (proj1 (recover_operation_frame p id o)).
Qed.

(** Rewriting every replica set with members the plane knows. *)
Lemma map_sets_inv p q (f : ReplicaSetRecord → ReplicaSetRecord) :
  (∀ s, set_key (f s) = set_key s) →
  (∀ k s, pl_replica_sets p !! k = Some s → Forall (known_member p) (rs_authoritative_members (f s)) ∧
     Forall (known_member p) (rs_degraded_members (f s))) →
  pl_states q = pl_states p → pl_clusters q = pl_clusters p → pl_replicas q = pl_replicas p →
  pl_replica_sets q = f <$> pl_replica_sets p →
  pl_operations q = pl_operations p → pl_ownership q = pl_ownership p →
  plane_inv p → plane_inv q.
Proof.
  intros Hf Hm Est Ecl Erp Ers Eop Eow [Hc Hk Hr].
  assert (∀ k s, pl_replica_sets q !! k = Some s →
    ∃ s0, pl_replica_sets p !! k = Some s0 ∧ s = f s0) as Hinv.
  { intros k s. rewrite Ers, lookup_fmap. destruct (pl_replica_sets p !! k); [|done].
    intros [= <-]. eauto. }
  split; [split|split|]; rewrite ?Erp, ?Eop, ?Eow, ?Est, ?Ecl; try apply Hc; try apply Hk.
  - intros id r [? ? ?]%(con_replica _ Hc). split; rewrite ?Est, ?Ecl; auto.
    intros Hs. rewrite Ers, lookup_fmap. by apply fmap_is_Some; auto.
  - intros k s (s0 & Hs & ->)%Hinv. destruct (Hm _ _ Hs) as [? ?].
    destruct (con_set _ Hc _ _ Hs) as [? _].
    unfold set_bound, known_member in *. by rewrite Est, Erp.
  - intros k s (s0 & Hs & ->)%Hinv. rewrite Hf. by eapply keyed_set.
  - intros id r [? ?]%Hr. split; [done|]. unfold names_owner in *. by rewrite Eow.
Qed.

Lemma recover_evidence_inv p : plane_inv p → plane_inv (recover_evidence p).
Proof.
  apply map_replicas_inv with recover_replica recover_cluster; try done.
  apply recover_replica_keeps.
Qed.

Lemma recover_operations_plane_inv p : plane_inv p → plane_inv (recover_operations p).
Proof.
  intros Hp. apply recover_operations_inv; [done|].
  apply list.Forall_forall. intros [id o] Ho%elem_of_entries. simpl. split.
  - apply (keyed_operation _ (inv_keyed _ Hp) _ _ Ho).
  - apply (con_operation _ (inv_consistent _ Hp) _ _ Ho).
Qed.

Lemma withdraw_sets_inv p : plane_inv p → plane_inv (withdraw_sets p).
Proof.
  intros Hp. apply (map_sets_inv p _ (withdraw_set (pl_coordinator_epoch p))); try done.
  intros k s Hs. by destruct (con_set _ (inv_consistent _ Hp) _ _ Hs) as (_ & ? & ?).
Qed.

Lemma rebuild_sets_inv p : plane_inv p → plane_inv (rebuild_sets p).
Proof.
  intros Hp. apply (map_sets_inv p _ (rebuild_replica_set p)); try done.
  - intros s. apply rebuild_key.
  - intros k s _. by apply rebuild_members.
Qed.

Lemma recover_maps has_store p :
  same_maps (rebuild_sets (withdraw_sets (recover_operations (recover_evidence p))))
    (recover has_store p).
Proof.
  unfold recover. generalize (rebuild_sets (withdraw_sets (recover_operations (recover_evidence p)))).
  intros q. by destruct has_store.
Qed.

Lemma recover_inv has_store p : plane_inv p → plane_inv (recover has_store p).
Proof.
  intros Hp. eapply plane_inv_maps; [apply recover_maps|].
  by apply rebuild_sets_inv, withdraw_sets_inv, recover_operations_plane_inv, recover_evidence_inv.
Qed.

Lemma adopt_config_inv config p q : adopt_config config p = Ok q → plane_inv p → plane_inv q.
Proof.
  unfold adopt_config. intros H. apply plane_inv_maps. revert H.
  destruct (_ && _); [done|]. intros [= <-]. by split.
Qed.

Lemma empty_plane_inv : plane_inv ControlPlane_default.
Proof. split; [split|split|]; intros ? ? H; simpl in H; by rewrite lookup_empty in H. Qed.

Lemma initial_plane_inv config loaded p :
  initial_plane config loaded = Ok p → (∀ q, loaded = Some q → plane_inv q) → plane_inv p.
Proof.
  unfold initial_plane. intros H Hl.
  destruct (adopt_config config _) as [q|] eqn:E; [|done]. injection H as <-.
  apply adopt_config_inv in E; cycle 1.
  { destruct loaded as [l|]; [|apply empty_plane_inv].
    eapply plane_inv_maps; [|by apply Hl]. by split. }
  destruct loaded as [l|]; [|done]. destruct (pl_recovered l); [by apply recover_inv|done].
Qed.

(** ** The epoch *)

Lemma recover_operations_frame l p :
  pl_states (fold_left recover_operation l p) = pl_states p ∧
  pl_coordinator_epoch (fold_left recover_operation l p) = pl_coordinator_epoch p ∧
  pl_clusters (fold_left recover_operation l p) = pl_clusters p ∧
  pl_replica_sets (fold_left recover_operation l p) = pl_replica_sets p.
Proof.
  revert p. induction l as [|[id o] l IH]; intros p; [done|]. simpl.
  destruct (IH (recover_operation p (id, o))) as (->&->&->&->). apply recover_operation_frame.
Qed.

Lemma recover_epoch has_store p :
  pl_coordinator_epoch (recover has_store p) = id_next (pl_coordinator_epoch p).
Proof.
  transitivity (pl_coordinator_epoch (recover_operations (recover_evidence p))).
  - unfold recover. generalize (recover_operations (recover_evidence p)). intros q.
    by destruct has_store.
  - unfold recover_operations. by destruct (recover_operations_frame
      (entries (pl_operations (recover_evidence p))) (recover_evidence p)) as (_&->&_).
Qed.

(** ** Operations *)

(** The state an operation is found in after a restart. *)
Definition recovered_state (s : OperationState) : OperationState :=
  if operation_state_is_terminal s then s else ro_state (classify_recovery s).

Lemma recover_operation_operations p id o :
  pl_operations (recover_operation p (id, o)) = pl_operations p ∧ operation_is_terminal o = true ∨
  operation_is_terminal o = false ∧
  ∃ epoch now, pl_operations (recover_operation p (id, o)) =
    <[id := recovered_operation epoch now (classify_recovery (op_state o)) o]> (pl_operations p).
Proof.
  unfold recover_operation. cbn [fst snd]. destruct (operation_is_terminal o); [by left|]. right.
  split; [done|]. cbv zeta.
  match goal with |- context [recover_destination ?a ?d ?q] =>
    destruct (recover_destination_frame a d q) as (_&_&_&E4&_&_);
    revert E4; generalize (recover_destination a d q) end.
  intros q' E4. cbn [pl_operations set_field]. rewrite E4. do 2 eexists. reflexivity.
Qed.

Lemma recover_operation_other p id o k :
  k ≠ id → pl_operations (recover_operation p (id, o)) !! k = pl_operations p !! k.
Proof.
  intros Hk. destruct (recover_operation_operations p id o) as [[-> _]|(_ & e & n & ->)]; [done|].
  by rewrite lookup_insert_ne.
Qed.

Lemma recover_operation_self p id o :
  pl_operations p !! id = Some o →
  op_state <$> pl_operations (recover_operation p (id, o)) !! id =
  Some (recovered_state (op_state o)).
Proof.
  intros Ho. unfold recovered_state. fold (operation_is_terminal o).
  destruct (recover_operation_operations p id o) as [[-> ->]|(-> & e & n & ->)].
  - by rewrite Ho.
  - by rewrite lookup_insert_eq.
Qed.

Lemma recover_operations_other l p k :
  k ∉ l.*1 → pl_operations (fold_left recover_operation l p) !! k = pl_operations p !! k.
Proof.
  revert p. induction l as [|[id o] l IH]; intros p Hk; [done|]. simpl in *.
  apply not_elem_of_cons in Hk as [Hne Hk]. by rewrite IH, recover_operation_other.
Qed.

Lemma recover_operations_lookup l p k o :
  NoDup l.*1 → (k, o) ∈ l → pl_operations p !! k = Some o →
  op_state <$> pl_operations (fold_left recover_operation l p) !! k =
  Some (recovered_state (op_state o)).
Proof.
  revert p. induction l as [|[id o'] l IH]; intros p Hnd Hin Ho; [by apply elem_of_nil in Hin|].
  simpl in Hnd |- *. apply list.NoDup_cons in Hnd as [Hnew Hnd].
  apply elem_of_cons in Hin as [[= <- <-]|Hin].
  - by rewrite recover_operations_other, recover_operation_self.
  - apply IH; [done..|]. rewrite recover_operation_other; [done|].
    intros ->. apply Hnew. apply list_elem_of_fmap. by exists (id, o).
Qed.

Lemma recover_operation_states has_store p k :
  op_state <$> pl_operations (recover has_store p) !! k =
  recovered_state ∘ op_state <$> pl_operations p !! k.
Proof.
  rewrite (maps_operations _ _ (recover_maps has_store p)).
  change (pl_operations (rebuild_sets (withdraw_sets (recover_operations (recover_evidence p)))))
    with (pl_operations (recover_operations (recover_evidence p))).
  change (pl_operations p) with (pl_operations (recover_evidence p)).
  generalize (recover_evidence p). clear p. intros p. unfold recover_operations.
  destruct (pl_operations p !! k) as [o|] eqn:Ho.
  - apply recover_operations_lookup; [apply NoDup_entries_keys|by apply elem_of_entries|done].
  - rewrite recover_operations_other; [by rewrite Ho|].
    intros ([k' o'] & -> & Hin)%list_elem_of_fmap. apply elem_of_entries in Hin.
    simpl in Ho. congruence.
Qed.

Lemma recovered_state_resolved s :
  operation_state_is_terminal (recovered_state s) = true ∨ recovered_state s = OS.OUTCOME_UNKNOWN.
Proof. destruct s; vm_compute; auto. Qed.

(** ** Replicas *)

(** Terminal, or in need of revalidation: no authority either way. *)
Definition disarmed (r : ReplicaRecord) : Prop :=
  replica_is_terminal r = true ∨ re_revalidation_required (rp_evidence r) = true.

Lemma disarmed_not_authoritative r context :
  disarmed r → ra_authoritative_for_reuse (assess_replica_authority r context) = false.
Proof.
  intros Hr. apply not_true_iff_false. intros [[] _]%authoritative_core. destruct Hr as [Ht|?].
  - unfold replica_is_terminal in Ht. bool_simpl. destruct Ht, core_lifecycle; congruence.
  - congruence.
Qed.

Definition all_disarmed (p : ControlPlane) : Prop := map_Forall (λ _, disarmed) (pl_replicas p).

Lemma recover_evidence_disarmed p : all_disarmed (recover_evidence p).
Proof.
  intros id r. simpl. rewrite lookup_fmap. destruct (pl_replicas p !! id) as [r0|]; [|done].
  intros [= <-]. unfold recover_replica, disarmed. destruct (replica_is_terminal r0) eqn:E; auto.
Qed.

Lemma recover_operation_disarmed p e : all_disarmed p → all_disarmed (recover_operation p e).
Proof.
  destruct e as [id o]. intros Hp. unfold recover_operation. cbn [fst snd].
  destruct (operation_is_terminal o); [done|]. cbv zeta.
  match goal with |- context [recover_destination ?a ?d ?q] =>
    pose proof (recover_destination_replicas a d q) as E; revert E;
    assert (pl_replicas q = pl_replicas p) as -> by reflexivity;
    generalize (recover_destination a d q); intros q' E
  end.
  unfold all_disarmed. cbn [pl_replicas set_field]. rewrite E. clear E.
  destruct (_ ≫= _) as [r'|] eqn:Hr; [|done]. apply map_Forall_insert_2; [|done].
  apply bind_Some in Hr as (r & _ & Hr). unfold recovered_destination in Hr.
  unfold disarmed. repeat case_match; simplify_eq; auto.
Qed.

Lemma recover_disarmed has_store p : all_disarmed (recover has_store p).
Proof.
  unfold all_disarmed. rewrite (maps_replicas _ _ (recover_maps has_store p)).
  change (all_disarmed (recover_operations (recover_evidence p))).
  pose proof (recover_evidence_disarmed p) as Hp. revert Hp. unfold recover_operations.
  generalize (entries (pl_operations (recover_evidence p))). generalize (recover_evidence p).
  intros q l. revert q. induction l as [|e l IH]; intros q Hq; [done|].
  by apply IH, recover_operation_disarmed.
Qed.
