(* ===== verification/Invariants.v ===== *)
(** * Invariants of every reachable control plane

    A coordinator moves by serving requests, by checkpointing, and by being
    restarted from what it made durable.  [plane_inv] holds of every plane such a
    history reaches; the single-owner, structural and counting properties are its
    consequences. *)

From S2P Require Import Prelude Taxonomy Model ModelOps ControlPlane Effects Consistency.
From S2P Require Import FabricCore MutationLogic FabricState FabricReplica FabricOps Lifecycle.
From S2P Require Import Fabric Engine Admissible Ownership Recovery Scenario.

Local Open Scope Z_scope.

(** ** Registrations: the two bodies whose effects refer to each other *)

Section registration.
Context (p : ControlPlane) (config : FabricConfig) (Hp : plane_inv p).

Lemma validate_spec_run spec mu u mu' : validate_spec spec mu = (Ok u, mu') → mu' = mu.
Proof. unfold validate_spec, validate_text. intros H. by run_ok H. Qed.

Lemma register_state_run spec mu r mu' :
  register_state spec p config mu = (Ok r, mu') →
  mu' = mu ∨ ∃ set counters next,
    extends mu mu' [PUT_STATE r; PUT_REPLICA_SET set; PUT_COUNTERS counters; SET_NEXT_ID next] ∧
    set_key set = state_key r ∧ rs_authoritative_members set = [] ∧ rs_degraded_members set = [].
Proof.
  unfold register_state. intros H. apply mbind_Ok in H as (? & ? & ->%validate_spec_run & H).
  run_ok H; [by left|]. right. do 3 eexists.
  split; [exact (extends_emit2 _ _ _ _ _ (extends_emit2 _ _ _ _ _ (extends_refl _)))|].
  done.
Qed.

Lemma register_state_inv spec mu r mu' :
  register_state spec p config mu = (Ok r, mu') → mu_effects mu = [] →
  plane_inv (apply_all p (mu_effects mu')).
Proof.
  intros [->|(set & counters & next & (-> & _) & Hk & Ha & Hd)]%register_state_run ->; [done|].
  simpl app. apply plane_inv_apply_all; [done| |by repeat constructor].
  apply consistent_apply_all; [apply Hp|].
  constructor; [done|]. constructor; [|by repeat constructor].
  split; [|by rewrite Ha, Hd]. rewrite Hk, apply_all_states. apply put_all_written. by left.
Qed.

Lemma register_replica_run reg mu r mu' :
  register_replica reg p config mu = (Ok r, mu') →
  mu' = mu ∨ ∃ counters next,
    is_Some (pl_states p !! replica_state_key r) ∧
    is_Some (pl_clusters p !! rlo_cluster_id (rp_location r)) ∧
    rp_counts_toward_factor r = false ∧ rp_authority r = RAS.CANDIDATE ∧
    rp_commit_recorded r = false ∧ find_replica p (rp_replica_id r) = None ∧
    extends mu mu' [PUT_REPLICA r;
      bump_replica_set_effect p (rp_state_id r) (rp_state_generation r) (mu_tick mu)
        (pl_coordinator_epoch p) false; PUT_COUNTERS counters; SET_NEXT_ID next].
Proof.
  unfold register_replica, require_state. intros H. run_ok H; [by left|]. right. do 2 eexists.
  do 5 (split; [by first [reflexivity|eexists]|]). split.
  - unfold has_key in *. bool_simpl. by apply eq_None_not_Some.
  - match goal with R : put_replica_and_set _ _ _ _ = _ |- _ =>
      exact (extends_emit2 _ _ _ _ _ (put_replica_and_set_run _ _ _ _ _ _ _ R eq_refl)) end.
Qed.

(** The set written beside the record is the one its membership refers to. *)
Lemma bumped_set_key sid gen tick epoch advance :
  set_key (bumped_replica_set p sid gen tick epoch advance) = (sid, gen).
Proof.
  unfold bumped_replica_set. destruct (find_replica_set p sid gen) as [s|] eqn:E.
  - apply (keyed_set _ (inv_keyed _ Hp)) in E. rewrite <-E, <-(rebuild_key p s).
    generalize (rebuild_replica_set p s). intros s'. by destruct advance, (valid (rs_generation s')).
  - by destruct advance.
Qed.

Lemma register_replica_inv reg mu r mu' :
  register_replica reg p config mu = (Ok r, mu') → mu_effects mu = [] →
  plane_inv (apply_all p (mu_effects mu')).
Proof.
  intros [->|(counters & next & Hs & Hc & Hcount & Ha & _ & _ & (-> & _))]%register_replica_run ->;
    [done|]. simpl app. apply plane_inv_apply_all; [done| |].
  - apply consistent_apply_all; [apply Hp|]. constructor; [|constructor; [|by repeat constructor]].
    + match goal with |- references (apply_all p ?es) _ => pose proof (apply_all_le es p) as Hle end.
      split; [by apply (le_states _ _ Hle)|by apply (le_clusters _ _ Hle)|]. intros _.
      rewrite apply_all_replica_sets. unfold bump_replica_set_effect. simpl omap.
      change (replica_state_key r) with (rp_state_id r, rp_state_generation r).
      rewrite <-(bumped_set_key (rp_state_id r) (rp_state_generation r) (mu_tick mu)
        (pl_coordinator_epoch p) false).
      apply put_all_written. by left.
    + eapply references_le; [apply apply_all_le|]. by apply (references_bump p Hp).
  - constructor; [|by repeat constructor]. split; [by rewrite Hcount|by rewrite Ha].
Qed.
End registration.

(** ** Every request keeps the invariant *)

Section requests.
Context (p : ControlPlane) (config : FabricConfig) (Hp : plane_inv p).

(** The effects a body leaves, kept on success or on an error that asks for it. *)
Definition kept {A} (m : M A) : list Effect :=
  let '(status, mu) := void m (start_mutation p) in
  match status with
  | Ok _ => mu_effects mu
  | Err _ => if mu_commit_before_return mu then mu_effects mu else []
  end.

Lemma emits_kept {A} (m : M A) :
  emits (admissible p) m (λ _, True) → plane_inv (apply_all p (kept m)).
Proof.
  intros Hm. assert (emits (admissible p) (void m) (λ _, True)) as Hv.
  { eapply emits_bind; [exact Hm|]. intros. by apply emits_ret. }
  destruct (emits_run _ _ _ (start_mutation p) Hv eq_refl) as [Hes _]. unfold kept.
  destruct (void m (start_mutation p)) as [[u|code] mu]; simpl in Hes.
  - by apply admissible_apply_all.
  - destruct (mu_commit_before_return mu); [by apply admissible_apply_all|done].
Qed.

Lemma quiet_kept {A} (m : M A) :
  quiet m →
  (∀ a mu', m (start_mutation p) = (Ok a, mu') → plane_inv (apply_all p (mu_effects mu'))) →
  plane_inv (apply_all p (kept m)).
Proof.
  intros Hq Hok. specialize (Hq (start_mutation p)). unfold kept, void, mbind.
  destruct (m (start_mutation p)) as [[a|code] mu] eqn:E; simpl in *; [by eapply Hok|].
  by rewrite Hq.
Qed.

Lemma quiet_put_replica_and_set r advance : quiet (put_replica_and_set p r advance).
Proof. unfold put_replica_and_set. quiet_auto. Qed.
Lemma quiet_validate_spec spec : quiet (validate_spec spec).
Proof. unfold validate_spec, validate_text. quiet_auto. Qed.
Lemma quiet_plan t st s c mk tk : quiet (plan_authoritative_commit p t st s c mk tk).
Proof.
  unfold plan_authoritative_commit, demote_previous, put_replica_and_set. quiet_auto.
Qed.
Hint Resolve quiet_put_replica_and_set quiet_validate_spec quiet_plan : quiet.

Lemma quiet_register_state spec : quiet (register_state spec p config).
Proof. unfold register_state. quiet_auto. Qed.
Lemma quiet_register_replica r : quiet (register_replica r p config).
Proof. unfold register_replica, require_state. quiet_auto. Qed.
Lemma quiet_commit_replica c : quiet (commit_replica c p config).
Proof. unfold commit_replica, require_state. quiet_auto. Qed.
Lemma quiet_commit_operation c : quiet (commit_operation c p config).
Proof. unfold commit_operation, require_state. quiet_auto. Qed.
Lemma quiet_transfer_ownership o : quiet (transfer_ownership o p config).
Proof. unfold transfer_ownership, require_state, demote_old_owner. quiet_auto. Qed.

Lemma commit_replica_inv c r mu' :
  commit_replica c p config (start_mutation p) = (Ok r, mu') →
  plane_inv (apply_all p (mu_effects mu')).
Proof.
  intros [(_&_&_&->)|(t & s & cs & Ht & _ & _ & _ & _ & _ & _ & (-> & _))]%commit_replica_run;
    [done|]. simpl app. eapply plan_commit_inv; [done|exact Ht|]. by repeat constructor.
Qed.

Lemma commit_operation_inv c o mu' :
  commit_operation c p config (start_mutation p) = (Ok o, mu') →
  plane_inv (apply_all p (mu_effects mu')).
Proof.
  intros [(_&_&_&->)|(ex & t & st & s & cs & Hr & _ & _ & _ & _ & _ & Hk & (-> & _))]%commit_operation_run;
    [done|]. simpl app. eapply plan_commit_inv; [done|apply (cr_target _ _ _ _ _ _ _ Hr)|].
  apply Forall_app_2.
  - unfold retirement_effects, source_to_retire. case_match; [|constructor].
    destruct (op_destructive_move ex && _); [|done].
    destruct (find_replica p (op_source_replica ex)) as [src|] eqn:Hs; [|done].
    case_match; [|done]. simplify_eq.
    assert (replica_bound p (retired_source p (mu_tick (start_mutation p)) r)) as Hb.
    { by eapply (references_revised p Hp). }
    constructor; [by split|]. constructor; [|constructor]. split; [|done].
    apply (references_bump p Hp). apply (bound_state _ _ Hb).
  - constructor; [|by repeat constructor]. split; [|done]. simpl. rewrite Hk.
    apply (con_operation _ (inv_consistent _ Hp) _ _ (cr_operation _ _ _ _ _ _ _ Hr)).
Qed.

Lemma transfer_ownership_inv q o mu' :
  transfer_ownership q p config (start_mutation p) = (Ok o, mu') →
  plane_inv (apply_all p (mu_effects mu')).
Proof.
  intros [(_&_&->)|(prev & n & cs & Hr & Hk & Ha & _ & (-> & _))]%transfer_ownership_run; [done|].
  simpl app. by eapply transfer_inv.
Qed.

Lemma emits_advance_time delta : emits (admissible p) (advance_time delta p config) (λ _, True).
Proof.
  unfold advance_time. emits_auto.
  apply emits_nothing with (Q := λ _, True). by intros mu.
Qed.

Lemma emits_advance_epoch : emits (admissible p) (advance_epoch p config) (λ _, True).
Proof.
  unfold advance_epoch. emits_auto; [|plain_effect].
  apply emits_nothing with (Q := λ _, True). by intros mu.
Qed.

Lemma request_inv q : plane_inv (apply_all p (outcome_effects q p config)).
Proof.
  destruct q.
  - apply quiet_kept; [apply quiet_register_state|]. intros r mu' H. by eapply register_state_inv.
  - by apply emits_kept, emits_publish_state_generation.
  - by apply emits_kept, emits_commit_state_generation.
  - by apply emits_kept, emits_register_cluster.
  - by apply emits_kept, emits_publish_cluster_evidence.
  - by apply emits_kept, emits_mark_cluster_unreachable.
  - by apply emits_kept, emits_retire_cluster.
  - by apply emits_kept, emits_publish_compatibility.
  - by apply emits_kept, emits_publish_placement_policy.
  - by apply emits_kept, emits_publish_replication_policy.
  - apply quiet_kept; [apply quiet_register_replica|]. intros r mu' H.
    by eapply register_replica_inv.
  - by apply emits_kept, emits_record_transfer_progress.
  - by apply emits_kept, emits_record_transfer_completion.
  - by apply emits_kept, emits_verify_replica.
  - apply quiet_kept; [apply quiet_commit_replica|]. intros r mu'. apply commit_replica_inv.
  - by apply emits_kept, emits_retire_replica.
  - by apply emits_kept, emits_quarantine_replica.
  - by apply emits_kept, emits_revalidate_replica.
  - by apply emits_kept, emits_authorize_transaction.
  - by apply emits_kept, emits_authorize_transaction.
  - apply quiet_kept; [apply quiet_commit_operation|]. intros r mu'. apply commit_operation_inv.
  - by apply emits_kept, emits_cancel_operation.
  - apply quiet_kept; [apply quiet_transfer_ownership|]. intros r mu'.
    apply transfer_ownership_inv.
  - apply emits_kept, emits_advance_time.
  - apply emits_kept, emits_advance_epoch.
Qed.
End requests.

(** ** Reachable runtimes *)

Section reachable.
Context {S : Type} `{PersistenceStore S}.
Implicit Types im : Impl S.

(** A coordinator starts empty, or from what an earlier reachable runtime made
    durable; then it serves requests, persists and shuts down.  The store may
    fail in any way; a restart from an older image is a restart of the runtime
    that wrote it. *)
Inductive reachable : Impl S → Prop :=
  | reach_start config store im :
      initialize config (Some (store, Ok ControlPlane_default)) = Ok im → reachable im
  | reach_start_volatile config im : initialize config None = Ok im → reachable im
  | reach_restart config store loaded im im' :
      reachable im → same_records loaded (im_plane im) →
      initialize config (Some (store, Ok loaded)) = Ok im' → reachable im'
  | reach_request q im : reachable im → reachable (exec q im).2
  | reach_persist im : reachable im → reachable (persist im).2
  | reach_shutdown im : reachable im → reachable (shutdown im).2.

Lemma kept_outcome q im : kept_effects (body q) im = outcome_effects q (im_plane im) (im_config im).
Proof.
  unfold kept_effects, outcome_effects. by destruct (body q _ _ _) as [[u|code] mu].
Qed.

Lemma exec_inv q im : plane_inv (im_plane im) → plane_inv (im_plane (exec q im).2).
Proof.
  intros Hp. destruct (mutate_records (body q) im) as [E|E]; unfold exec; rewrite E; [done|].
  rewrite kept_outcome. by apply request_inv.
Qed.

Lemma initialize_inv config opened im :
  initialize config opened = Ok im →
  (∀ store q, opened = Some (store, Ok q) → plane_inv q) → plane_inv (im_plane im).
Proof.
  unfold initialize. intros Hi Hl.
  destruct opened as [[store [loaded|code]]|]; [|done|].
  - destruct (initial_plane config (Some loaded)) as [plane|] eqn:E; [|done].
    match type of Hi with context [force_checkpoint_locked ?i] =>
      pose proof (force_checkpoint_records i) as [Hf _];
      destruct (force_checkpoint_locked i) as [[u|c] im1] end; [|done].
    injection Hi as <-. simpl in Hf. rewrite Hf. eapply initial_plane_inv; [exact E|].
    intros q [= <-]. by eapply Hl.
  - destruct (initial_plane config None) as [plane|] eqn:E; [|done].
    injection Hi as <-. simpl. by eapply initial_plane_inv.
Qed.

Lemma reachable_inv im : reachable im → plane_inv (im_plane im).
Proof.
  induction 1 as [config store im Hi|config im Hi|config store loaded im im' _ IH Hl Hi|q im _ IH
    |im _ IH|im _ IH].
  - eapply initialize_inv; [exact Hi|]. intros ? ? [= _ <-]. apply empty_plane_inv.
  - by eapply initialize_inv.
  - eapply initialize_inv; [exact Hi|]. intros ? ? [= _ <-]. by rewrite Hl.
  - by apply exec_inv.
  - unfold persist. by destruct (force_checkpoint_records im) as [-> _].
  - unfold shutdown. destruct (im_shutting_down im); [done|]. cbv zeta.
    match goal with |- context [match ?o with Some _ => _ | None => _ end] => destruct o end; [|done].
    match goal with |- context [force_checkpoint_locked ?i] =>
      destruct (force_checkpoint_records i) as [-> _] end. done.
Qed.

(** The replicas of a generation that claim to own it. *)
Definition claims_ownership (r : ReplicaRecord) : bool :=
  bool_decide (rp_authority r = RAS.AUTHORITATIVE_OWNER).

Definition owners (p : ControlPlane) (key : Z * Z) : list ReplicaRecord :=
  List.filter claims_ownership (generation_replicas p key).

Lemma elem_of_owners p key r :
  r ∈ owners p key ↔
  r ∈ values (pl_replicas p) ∧ replica_state_key r = key ∧ rp_authority r = RAS.AUTHORITATIVE_OWNER.
Proof.
  unfold owners, generation_replicas. rewrite !list_elem_of_In, !filter_In.
  unfold claims_ownership. rewrite !bool_decide_eq_true. tauto.
Qed.

Lemma owner_named p key r :
  plane_inv p → r ∈ owners p key →
  replica_is_terminal r = false ∧ is_active_owner (pl_ownership p !! key) (rp_replica_id r) = true.
Proof.
  intros Hp ([id Hr]%elem_of_values & Hk & Ha)%elem_of_owners.
  destruct (sound_owner _ _ (inv_replica _ Hp _ _ Hr) Ha) as [? Hn]. split; [done|].
  unfold names_owner in Hn. by rewrite Hk in Hn.
Qed.

Lemma values_replica_ids p : plane_inv p → NoDup (map rp_replica_id (values (pl_replicas p))).
Proof.
  intros Hp. unfold values.
  assert (map rp_replica_id (entries (pl_replicas p)).*2 = (entries (pl_replicas p)).*1) as ->.
  { change (rp_replica_id <$> (entries (pl_replicas p)).*2 = (entries (pl_replicas p)).*1).
    rewrite <-list_fmap_compose. apply list_fmap_ext. intros i [id r] Hi%list_elem_of_lookup_2.
    apply elem_of_entries in Hi. by apply (con_replica_id _ (inv_consistent _ Hp)). }
  apply NoDup_entries_keys.
Qed.

Lemma at_most_one_owner p key : plane_inv p → (length (owners p key) ≤ 1)%nat.
Proof.
  intros Hp.
  assert (NoDup (map rp_replica_id (owners p key))) as Hnd.
  { unfold owners, generation_replicas. pose proof (values_replica_ids p Hp) as Hv.
    induction (values (pl_replicas p)) as [|r l IH]; [constructor|].
    simpl in Hv. apply list.NoDup_cons in Hv as [Hn Hv]. simpl.
    destruct (bool_decide (replica_state_key r = key)); [|auto]. simpl.
    destruct (claims_ownership r); [|auto]. simpl. apply list.NoDup_cons. split; [|auto].
    intros Hin. apply Hn. rewrite !list_elem_of_In, in_map_iff in *.
    destruct Hin as (r' & ? & Hr'). exists r'. split; [done|].
    apply filter_In in Hr' as [Hr' _]. by apply filter_In in Hr' as [? _]. }
  destruct (owners p key) as [|r1 [|r2 l]] eqn:E; simpl; try lia. exfalso.
  assert (r1 ∈ owners p key) as [_ N1]%(owner_named p key r1 Hp) by (rewrite E; by left).
  assert (r2 ∈ owners p key) as [_ N2]%(owner_named p key r2 Hp) by (rewrite E; right; by left).
  destruct (pl_ownership p !! key) as [o|]; [|done]. simpl in *.
  apply list.NoDup_cons in Hnd as [Hnd _]. apply Hnd, elem_of_cons. left. lia.
Qed.
End reachable.

(** The runtimes of the example history are reachable. *)
Lemma demo_reachable qs : reachable (after qs).
Proof.
  unfold after, run. assert (reachable demo_start) as H.
  { eapply (reach_start_volatile demo_config). reflexivity. }
  revert H. generalize demo_start. induction qs as [|q qs IH]; intros im H; [done|].
  simpl. by apply IH, reach_request.
Qed.

(** ** Properties *)

(** C1: split-brain freedom.  In every runtime a coordinator can reach, through any
    history of requests, store failures and restarts, each state generation has at
    most one replica that claims ownership, that replica is not retired or
    abandoned, and it is the replica the active ownership record names. *)
Theorem single_authoritative_owner {S} `{PersistenceStore S} (im : Impl S) (key : Z * Z) :
  reachable im →
  (length (owners (im_plane im) key) ≤ 1)%nat ∧
  ∀ r, r ∈ owners (im_plane im) key →
    replica_is_terminal r = false ∧
    is_active_owner (pl_ownership (im_plane im) !! key) (rp_replica_id r) = true.
Proof.
  intros Hp%reachable_inv. split; [by apply at_most_one_owner|].
  intros r. by apply owner_named.
Qed.

Lemma single_authoritative_owner_witness :
  (length (owners (im_plane (after migrated)) (5%Z, 1%Z)) ≤ 1)%nat ∧
  map rp_replica_id (owners (im_plane (after migrated)) (5, 1)) = [906].
Proof.
  split; [|vm_compute; reflexivity].
  exact (proj1 (single_authoritative_owner (after migrated) (5, 1) (demo_reachable migrated))).
Defined.

(** C2: structural integrity.  Every reachable control plane passes [validate]: every
    replica, replica set, operation and ownership record refers to records that
    exist, under the keys they are stored at, so a load never rejects what the
    coordinator itself wrote as corrupt. *)
Theorem reachable_planes_validate {S} `{PersistenceStore S} (im : Impl S) :
  reachable im → validate (im_plane im) = true.
Proof. intros Hp%reachable_inv. apply validate_consistent, Hp. Qed.

Lemma reachable_planes_validate_witness : validate (im_plane (after migrated)) = true.
Proof. exact (reachable_planes_validate (after migrated) (demo_reachable migrated)). Defined.
