(* ===== verification/Fencing.v ===== *)
(** * Epoch fencing and atomic refusals

    A request addressed to another coordinator epoch is refused and changes
    nothing; a refusal leaves the runtime as it was unless it is one of the three
    adverse reports the program records; the epoch never goes back and a restart
    moves it forward, so requests addressed to the crashed coordinator are
    refused. *)

From S2P Require Import Prelude Taxonomy Model ModelOps Authority ControlPlane Effects FabricCore.
From S2P Require Import MutationLogic FabricState FabricReplica FabricOps Lifecycle Fabric Engine.
From S2P Require Import Admissible Recovery Invariants Scenario.

Local Open Scope Z_scope.

(** ** Bodies that refuse before they write *)

Definition refuses {A} (m : M A) : Prop := ∀ mu, ∃ code, m mu = (Err code, mu).

Lemma refuses_refuse_if {B} b code (f : unit → M B) :
  (b = false → refuses (f tt)) → refuses (mbind (refuse_if b code) f).
Proof. intros Hf mu. destruct b; [by eexists|]. by apply Hf. Qed.

Lemma refuses_guard {B} b code (f : unit → M B) : b = true → refuses (mbind (refuse_if b code) f).
Proof. intros ->. intros mu. by eexists. Qed.

Lemma refuses_require {A B} (o : option A) code (f : A → M B) :
  (∀ a, o = Some a → refuses (f a)) → refuses (mbind (require o code) f).
Proof. intros Hf mu. destruct o as [a|]; [by apply Hf|by eexists]. Qed.

Lemma refuses_assoc {A B C} (m : M A) (f : A → M B) (g : B → M C) :
  refuses (mbind m (λ a, mbind (f a) g)) → refuses (mbind (mbind m f) g).
Proof.
  intros Hm mu. destruct (Hm mu) as [code E]. exists code. rewrite <-E. unfold mbind.
  by destruct (m mu) as [[a|c] mu'].
Qed.

Lemma mismatched_epoch e current : e ≠ 0 → e ≠ current → mismatched e current = true.
Proof. intros. unfold mismatched, valid. lia. Qed.

(** Walks the guards of a body to the one that fails. *)
Ltac refuses_step :=
  match goal with
  | |- refuses (mbind (mbind _ _) _) => apply refuses_assoc
  | H : ?b = true |- refuses (mbind (refuse_if ?b _) _) => apply refuses_guard; exact H
  | |- refuses (mbind (refuse_if _ _) _) => apply refuses_refuse_if; intros _
  | |- refuses (mbind (require _ _) _) => apply refuses_require; intros ? _
  end.

Section stale.
Context (p : ControlPlane) (config : FabricConfig).

Lemma stale_epoch_refused q :
  expected_epoch q ≠ 0 → expected_epoch q ≠ pl_coordinator_epoch p → refuses (body q p config).
Proof.
  intros H0 Hne. pose proof (mismatched_epoch _ _ H0 Hne) as Hm.
  destruct q; simpl in H0, Hm; try done; unfold body, void;
    unfold register_cluster, publish_cluster_evidence, register_replica, record_transfer_progress,
      record_transfer_completion, verify_replica, commit_replica, retire_replica, quarantine_replica,
      revalidate_replica, authorize_replication, authorize_migration, authorize_transaction,
      commit_operation, cancel_operation, transfer_ownership, guard_transition, guard_replica,
      require_state;
    cbv zeta; repeat refuses_step.
Qed.
End stale.

(** ** Which refusals are recorded *)

(** Only these bodies ask for their effects to be kept on an error. *)
Definition reports_adversity (q : request) : bool :=
  match q with
  | RecordTransferProgress _ | RecordTransferCompletion _ | VerifyReplica _ => true
  | _ => false
  end.

Lemma quiet_void {A} (m : M A) : quiet m → quiet (void m).
Proof. intros. unfold void. by apply quiet_bind. Qed.

Lemma quiet_body q p config : reports_adversity q = false → quiet (body q p config).
Proof.
  destruct q; try done; intros _; apply quiet_void;
    try first [apply quiet_register_state|apply quiet_register_replica|apply quiet_commit_replica
      |apply quiet_commit_operation|apply quiet_transfer_ownership].
  all: unfold publish_state_generation, commit_state_generation, register_cluster,
    publish_cluster_evidence, mark_cluster_unreachable, retire_cluster, publish_compatibility,
    publish_placement_policy, publish_replication_policy, retire_replica, quarantine_replica,
    revalidate_replica, authorize_replication, authorize_migration, authorize_transaction,
    cancel_operation, advance_time, advance_epoch, guard_transition, guard_replica, require_state,
    validate_spec, validate_text, put_replica_and_set; quiet_auto; try done.
Qed.

(** ** The epoch *)

Section epoch.
Context {S : Type} `{PersistenceStore S}.

Lemma exec_epoch_mono q (im : Impl S) :
  pl_coordinator_epoch (im_plane im) ≤ pl_coordinator_epoch (im_plane (exec q im).2).
Proof.
  unfold exec. destruct (mutate_records (body q) im) as [E|E]; rewrite (same_epoch _ _ E); [lia|].
  rewrite apply_all_epoch. apply (proj1 (fold_raise_epoch _ _)).
Qed.

Lemma exec_refused q (im : Impl S) :
  im_shutting_down im = false → refuses (body q (im_plane im) (im_config im)) →
  ∃ code, exec q im = (Err code, im).
Proof.
  intros Hs Hr. destruct (Hr (start_mutation (im_plane im))) as [code E].
  exists code. unfold exec, mutate. by rewrite Hs, E.
Qed.
End epoch.

Lemma initialize_epoch {S} `{PersistenceStore S} config store loaded (im : Impl S) :
  initialize config (Some (store, Ok loaded)) = Ok im →
  pl_recovered loaded = true →
  pl_coordinator_epoch (im_plane im) = id_next (epoch_floor config (pl_coordinator_epoch loaded)) ∧
  im_shutting_down im = false.
Proof.
  unfold initialize, initial_plane. intros Hi Hrec.
  destruct (adopt_config config _) as [plane|] eqn:E; [|done]. rewrite Hrec in Hi.
  assert (pl_coordinator_epoch plane = epoch_floor config (pl_coordinator_epoch loaded)) as Hep.
  { unfold adopt_config in E. destruct (_ && _); [done|]. by injection E as <-. }
  match type of Hi with context [force_checkpoint_locked ?i] =>
    destruct (force_checkpoint_records i) as (Hf & _ & Hs);
    destruct (force_checkpoint_locked i) as [[u|c] im1] end; [|done].
  injection Hi as <-. cbn [snd] in Hf. split; [|exact Hs].
  rewrite (same_epoch _ _ Hf). cbn [im_plane]. by rewrite recover_epoch, Hep.
Qed.

Lemma epoch_floor_bound config e : e ≤ epoch_floor config e ∨ e < 0.
Proof. unfold epoch_floor, valid. repeat case_match; lia. Qed.

(** The replicas of a restarted runtime. *)
Lemma initialize_disarmed {S} `{PersistenceStore S} config store loaded (im : Impl S) :
  initialize config (Some (store, Ok loaded)) = Ok im → pl_recovered loaded = true →
  all_disarmed (im_plane im) ∧
  ∀ id, op_state <$> pl_operations (im_plane im) !! id =
    recovered_state ∘ op_state <$> pl_operations loaded !! id.
Proof.
  unfold initialize, initial_plane. intros Hi Hrec.
  destruct (adopt_config config _) as [plane|] eqn:E; [|done]. rewrite Hrec in Hi.
  assert (pl_operations plane = pl_operations loaded) as Hop.
  { unfold adopt_config in E. destruct (_ && _); [done|]. by injection E as <-. }
  match type of Hi with context [force_checkpoint_locked ?i] =>
    destruct (force_checkpoint_records i) as (Hf & _);
    destruct (force_checkpoint_locked i) as [[u|c] im1] end; [|done].
  injection Hi as <-. cbn [snd] in Hf. unfold all_disarmed.
  rewrite (same_replicas _ _ Hf), (same_operations _ _ Hf). cbn [im_plane].
  split; [apply recover_disarmed|]. intros id. by rewrite recover_operation_states, Hop.
Qed.

(** ** Properties *)

(** C3: epoch fencing.  A request that names a coordinator epoch other than the
    current one is refused and leaves the runtime untouched, whatever the request
    is and whatever the store would do. *)
Theorem stale_requests_are_refused {S} `{PersistenceStore S} (q : request) (im : Impl S) :
  im_shutting_down im = false →
  expected_epoch q ≠ 0 → expected_epoch q ≠ pl_coordinator_epoch (im_plane im) →
  ∃ code, exec q im = (Err code, im).
Proof.
  intros Hs H0 Hne. apply exec_refused; [done|]. by apply stale_epoch_refused.
Qed.

Definition stale_commit : request :=
  CommitOperation (demo_operation_commit <| oc_expected_coordinator_epoch := 7 |>).

Lemma stale_requests_are_refused_witness :
  pl_coordinator_epoch (im_plane (after migration)) = 1 ∧
  ∃ code, exec stale_commit (after migration) = (Err code, after migration).
Proof.
  split; [vm_compute; reflexivity|].
  apply (stale_requests_are_refused stale_commit (after migration)); vm_compute; congruence.
Defined.



(** The coordinator epoch never decreases, through any history of requests and
    whatever the store does. *)
Theorem epoch_is_monotone {S} `{PersistenceStore S} (qs : list request) (im : Impl S) :
  pl_coordinator_epoch (im_plane im) ≤ pl_coordinator_epoch (im_plane (run qs im)).
Proof.
  revert im. induction qs as [|q qs IH]; intros im; simpl; [lia|].
  etrans; [apply (exec_epoch_mono q im)|apply IH].
Qed.

(** C5: a restart fences the coordinator it replaces.  A runtime initialised from a
    recovered image serves no request addressed to an epoch that image reached
    (below the last 64-bit value): each is refused and changes nothing. *)
Theorem restart_fences_previous_epochs {S} `{PersistenceStore S} config store loaded
    (im : Impl S) (q : request) :
  initialize config (Some (store, Ok loaded)) = Ok im → pl_recovered loaded = true →
  0 < expected_epoch q ≤ pl_coordinator_epoch loaded →
  epoch_floor config (pl_coordinator_epoch loaded) < u64_max →
  ∃ code, exec q im = (Err code, im).
Proof.
  intros Hi Hrec Hq Hmax. destruct (initialize_epoch _ _ _ _ Hi Hrec) as [Hep Hs].
  pose proof (epoch_floor_bound config (pl_coordinator_epoch loaded)) as Hb.
  apply exec_refused; [done|]. apply stale_epoch_refused; [lia|]. rewrite Hep. unfold id_next.
  unfold u64_max in Hmax. rewrite u64_id; lia.
Qed.

Lemma restart_fences_previous_epochs_witness :
  let q := CommitOperation (demo_operation_commit <| oc_expected_coordinator_epoch := 2 |>) in
  ∃ code, exec q (restarted migration) = (Err code, restarted migration).
Proof.
  intros q.
  apply (restart_fences_previous_epochs demo_config (stored migration) (reloaded migration)
    (restarted migration) q); vm_compute; repeat split; congruence.
Defined.

(** C6: a restart trusts no live evidence.  After recovery no replica is
    authoritative for reuse, as a replication source or for retiring a migration
    source, in any context, until it is revalidated. *)
Theorem restart_leaves_no_authority {S} `{PersistenceStore S} config store loaded (im : Impl S)
    id r context :
  initialize config (Some (store, Ok loaded)) = Ok im → pl_recovered loaded = true →
  pl_replicas (im_plane im) !! id = Some r →
  let a := assess_replica_authority r context in
  ra_authoritative_for_reuse a = false ∧ ra_authoritative_as_replication_source a = false ∧
  ra_authoritative_for_migration_source_retirement a = false.
Proof.
  intros Hi Hrec Hr a. destruct (initialize_disarmed _ _ _ _ Hi Hrec) as [Hd _].
  pose proof (disarmed_not_authoritative r context (Hd _ _ Hr)) as Ha.
  destruct (assess_flags_agree r context) as (_ & Hsrc & Hret & _). unfold a in *.
  rewrite Hsrc, Ha. split_and!; [done..|].
  destruct (ra_authoritative_for_migration_source_retirement _); [|done].
  destruct (Hret eq_refl) as [? _]. congruence.
Qed.

Lemma restart_leaves_no_authority_witness :
  ∃ r, pl_replicas (im_plane (restarted setup)) !! 100 = Some r ∧
    rp_authority r = RAS.AUTHORITATIVE_OWNER ∧
    ∀ context, ra_authoritative_for_reuse (assess_replica_authority r context) = false.
Proof.
  destruct (pl_replicas (im_plane (restarted setup)) !! 100) as [r|] eqn:E;
    [|vm_compute in E; discriminate E].
  exists r. split; [reflexivity|]. split; [vm_compute in E; injection E as <-; reflexivity|].
  intros context.
  exact (proj1 (restart_leaves_no_authority demo_config (stored setup) (reloaded setup)
    (restarted setup) 100 r context (proj1 restarts_setup) (proj2 restarts_setup) E)).
Defined.

(** C7: a restart resolves every in-flight operation.  After recovery each operation
    is terminal or explicitly [OUTCOME_UNKNOWN]: one whose transfer had not
    completed is abandoned, one that was transferred but not committed is unknown,
    one whose commit was durable is complete, and terminal ones are unchanged. *)
Theorem restart_resolves_operations {S} `{PersistenceStore S} config store loaded (im : Impl S)
    id o :
  initialize config (Some (store, Ok loaded)) = Ok im → pl_recovered loaded = true →
  pl_operations (im_plane im) !! id = Some o →
  (operation_is_terminal o = true ∨ op_state o = OS.OUTCOME_UNKNOWN) ∧
  ∃ before, pl_operations loaded !! id = Some before ∧
    op_state o =
      match op_state before with
      | OS.PLANNED | OS.RESERVED | OS.STAGING_DESTINATION | OS.TRANSFERRING => OS.ABANDONED
      | OS.TRANSFERRED | OS.VERIFYING | OS.PREPARED | OS.SOURCE_RETIRING => OS.OUTCOME_UNKNOWN
      | OS.COMMITTED | OS.ADDED_TO_REPLICA_SET => OS.COMPLETE
      | other => other
      end.
Proof.
  intros Hi Hrec Ho. destruct (initialize_disarmed _ _ _ _ Hi Hrec) as [_ Hops].
  specialize (Hops id). rewrite Ho in Hops. simpl in Hops.
  destruct (pl_operations loaded !! id) as [before|]; [|done]. injection Hops as E. simpl in E.
  unfold operation_is_terminal. rewrite E. split; [apply recovered_state_resolved|].
  exists before. split; [done|]. by destruct (op_state before).
Qed.

Lemma restart_resolves_operations_witness :
  ∃ o, pl_operations (im_plane (restarted migration)) !! 902 = Some o ∧
    (operation_is_terminal o = true ∨ op_state o = OS.OUTCOME_UNKNOWN).
Proof.
  destruct (pl_operations (im_plane (restarted migration)) !! 902) as [o|] eqn:E;
    [|vm_compute in E; discriminate E].
  exists o. split; [reflexivity|].
  exact (proj1 (restart_resolves_operations demo_config (stored migration) (reloaded migration)
    (restarted migration) 902 o (proj1 (proj1 restarts_migration)) (proj2 (proj1 restarts_migration))
    E)).
Defined.
