(* ===== verification/Durability.v ===== *)
(** * Durability

    A store promises that a successful append adds one record to the journal, and
    that a checkpoint replaces the snapshot before it empties the journal.  Under
    that promise the control plane a restart loads has the records of the live
    one, after any history and at any point of a checkpoint. *)

From S2P Require Import Prelude Taxonomy Model ModelOps ControlPlane Effects Consistency.
From S2P Require Import FabricCore MutationLogic Lifecycle Fabric Engine Admissible Recovery.
From S2P Require Import Invariants Scenario.

Local Open Scope Z_scope.

(** ** The promise of a store *)

Notation journal := (list JournalRecordImage).

(** [contents] is what a load finds: the snapshot and the complete journal records.
    [healthy] is lost when an append fails part way, which the program does not
    roll back, and regained by a complete checkpoint. *)
Class DurableStore (S : Type) `{PersistenceStore S} := {
  contents : S → option (ControlPlane * Z) * journal;
  healthy : S → Prop;
  append_law s effects sequence tick epoch r s' :
    store_append s effects sequence tick epoch = (r, s') → healthy s' →
    healthy s ∧
    contents s' =
      match r with
      | None => ((contents s).1,
                 (contents s).2 ++ [mkJournalRecordImage effects sequence tick])
      | Some _ => contents s
      end;
  checkpoint_law s plane r s' :
    store_write_checkpoint s plane = (r, s') → healthy s' →
    (r ≠ None ∧ healthy s ∧ contents s' = contents s) ∨
    ((r ≠ None → healthy s) ∧ ∃ image, same_records image plane ∧
       contents s' = (Some (image, pl_durable_sequence plane),
                      if r then (contents s).2 else []))
}.

(** ** Replay *)

Lemma replay_record_records p record :
  same_records (replay_record p record) (apply_all p (jr_effects record)).
Proof.
  unfold replay_record. generalize (apply_all p (jr_effects record)). intros q.
  destruct (jr_tick record >? pl_logical_time q);
    match goal with |- context [if ?b then _ else _] => destruct b end; by split.
Qed.

Lemma replay_records l p q :
  same_records p q → same_records (fold_left replay_record l p) (apply_all q (concat (map jr_effects l))).
Proof.
  revert p q. induction l as [|record l IH]; intros p q Hpq; [done|]. simpl.
  rewrite apply_all_app. apply IH. by rewrite replay_record_records, Hpq.
Qed.

(** The plane a snapshot and a journal stand for. *)
Definition replayed (c : option (ControlPlane * Z) * journal) : ControlPlane :=
  fold_left replay_record c.2
    (match c.1 with
     | Some (image, sequence) => image <| pl_durable_sequence := sequence |>
     | None => ControlPlane_default
     end).

Lemma replayed_snoc snapshot l record :
  same_records (replayed (snapshot, l ++ [record]))
    (apply_all (replayed (snapshot, l)) (jr_effects record)).
Proof. unfold replayed. simpl. rewrite fold_left_app. apply replay_record_records. Qed.

(** A crash between the replacement of the snapshot and of the journal: the whole
    journal is replayed over an image that already contains it. *)
Lemma replayed_again snapshot l image sequence :
  same_records image (replayed (snapshot, l)) →
  same_records (replayed (Some (image, sequence), l)) image.
Proof.
  intros E. unfold replayed at 1. simpl.
  set (base := match snapshot with
               | Some (i, n) => i <| pl_durable_sequence := n |>
               | None => ControlPlane_default end) in *.
  assert (same_records image (apply_all base (concat (map jr_effects l)))) as E'.
  { rewrite E. unfold replayed. by apply replay_records. }
  etrans; [apply (replay_records l _ image); by split|].
  rewrite E'. apply apply_all_idemp.
Qed.

(** ** The live plane is what the store holds *)

Section durable.
Context {S : Type} `{DurableStore S}.
Implicit Types im : Impl S.

Definition durable im : Prop :=
  cfg_require_durable_commits (im_config im) = true ∧
  ∀ s, im_store im = Some s → healthy s → same_records (replayed (contents s)) (im_plane im).

Lemma durable_checkpoint im : durable im → durable (force_checkpoint_locked im).2.
Proof.
  intros [Hc Hd]. unfold force_checkpoint_locked. destruct (im_store im) as [s|] eqn:Es;
    [|split; [done|]; intros s Hs; simpl in Hs; congruence].
  destruct (store_write_checkpoint s (im_plane im)) as [r s'] eqn:Ew.
  assert (healthy s' → same_records (replayed (contents s')) (im_plane im)) as Hs'.
  { intros Hh.
    destruct (checkpoint_law _ _ _ _ Ew Hh) as [(_ & Hh0 & ->)|(Hh0 & image & Ei & ->)].
    - by apply Hd.
    - transitivity image; [|done]. destruct r.
      + apply (replayed_again (contents s).1). rewrite Ei, <-surjective_pairing.
        symmetry. by apply Hd, Hh0.
      + unfold replayed. simpl. by split. }
  destruct r as [e|]; split; try exact Hc; intros s0 [= <-] Hh; (etrans; [by apply Hs'|]); by split.
Qed.

Lemma durable_append mu im :
  durable im →
  match append_mutation mu im with
  | (Some _, im') => durable im'
  | (None, im') =>
      im_config im' = im_config im ∧ cfg_require_durable_commits (im_config im') = true ∧
      same_records (im_plane im') (im_plane im) ∧
      ∀ s, im_store im' = Some s → healthy s →
        same_records (replayed (contents s)) (apply_all (im_plane im) (mu_effects mu))
  end.
Proof.
  intros [Hc Hd]. unfold append_mutation. cbv zeta.
  destruct (im_store im) as [s|] eqn:Es; [|by rewrite Es].
  destruct (store_append _ _ _ _ _) as [r s'] eqn:Ea.
  destruct r as [e|]; [rewrite Hc|].
  - split; [exact Hc|]. intros s0 [= <-] Hh. destruct (append_law _ _ _ _ _ _ _ Ea Hh) as [? ->].
    by apply Hd.
  - do 2 (split; [done|]). split; [by split|]. intros s0 [= <-] Hh.
    destruct (append_law _ _ _ _ _ _ _ Ea Hh) as [Hh0 ->].
    rewrite replayed_snoc. simpl. rewrite <-surjective_pairing. by rewrite (Hd s).
Qed.

Lemma durable_persist_and_apply mu im : durable im → durable (persist_and_apply mu im).2.
Proof.
  intros Hd. unfold persist_and_apply. destruct (mu_effects mu) as [|e es] eqn:He.
  { destruct Hd as [Hc Hd]. split; [done|]. intros s Hs Hh. cbn [im_plane set_field].
    transitivity (im_plane im); [by apply Hd|]. symmetry. apply observe_tick_records. }
  pose proof (durable_append mu im Hd) as Ha.
  destruct (append_mutation mu im) as [[code|] im1]; [done|].
  destruct Ha as (_ & Hc & Hp & Hs).
  assert (durable (apply_locked mu im1)) as Hd1.
  { split; [done|]. intros s Es Hh. etrans; [by apply Hs|]. rewrite <-Hp. symmetry.
    apply apply_mutation_records. }
  unfold checkpoint_if_due. destruct (_ && _); [|done].
  pose proof (durable_checkpoint _ Hd1) as Hck.
  destruct (force_checkpoint_locked (apply_locked mu im1)) as [[u|c] im2]; [done|].
  by destruct (cfg_require_durable_commits (im_config im2)).
Qed.

Lemma durable_exec q im : durable im → durable (exec q im).2.
Proof.
  intros Hd. unfold exec, mutate. destruct (im_shutting_down im); [done|].
  destruct (body q _ _ _) as [[a|code] mu].
  - pose proof (durable_persist_and_apply mu im Hd) as Hp.
    by destruct (persist_and_apply mu im) as [[u|c] im'].
  - destruct (mu_commit_before_return mu); [|done]. simpl.
    pose proof (durable_persist_and_apply mu im Hd) as Hp.
    by destruct (persist_and_apply mu im) as [[u|c] im'].
Qed.

Lemma durable_run qs im : durable im → durable (run qs im).
Proof.
  revert im. induction qs as [|q qs IH]; intros im Hd; [done|]. simpl. by apply IH, durable_exec.
Qed.
End durable.

(** ** Loading *)

(** What [load] assembles before it checks bounds and structure. *)
Definition assembled (c : option (ControlPlane * Z) * journal) (truncated : bool) : ControlPlane :=
  let plane := match c.1 with
               | Some (image, sequence) => image <| pl_durable_sequence := sequence |>
               | None => ControlPlane_default
               end in
  let plane := plane <| pl_journal_records := Z.of_nat (length c.2) |>
                 <| pl_journal_tail_truncated := if truncated then 1 else 0 |> in
  let plane := fold_left replay_record c.2 plane in
  let plane := if truncated then plane <| pl_persistence_detail :=
    "journal contained a truncated tail record which was discarded as an unacknowledged mutation" |>
    else plane in
  let plane := plane <| pl_persistence_enabled := true |> <| pl_recovered := true |> in
  plane <| pl_next_id := u64 (highest_identity plane + 1) |>.

Lemma load_images_assembled c truncated bound :
  load_images c.1 (Some (c.2, truncated)) bound =
  if record_count (assembled c truncated) >? bound then Err EC.RESOURCE_EXHAUSTED
  else if negb (validate (assembled c truncated)) then Err EC.PERSISTENCE_CORRUPT
  else Ok (assembled c truncated).
Proof. reflexivity. Qed.

Lemma assembled_records c truncated : same_records (assembled c truncated) (replayed c).
Proof.
  unfold assembled, replayed.
  set (base := match c.1 with
               | Some (i, n) => i <| pl_durable_sequence := n |>
               | None => ControlPlane_default end).
  set (base' := base <| pl_journal_records := _ |> <| pl_journal_tail_truncated := _ |>).
  assert (same_records (fold_left replay_record c.2 base') (fold_left replay_record c.2 base)) as E.
  { rewrite (replay_records c.2 base' base) by (by split).
    symmetry. by apply replay_records. }
  etrans; [|exact E]. generalize (fold_left replay_record c.2 base'). intros q.
  destruct truncated; by split.
Qed.

Lemma same_records_count p q : same_records p q → record_count p = record_count q.
Proof. intros []. unfold record_count. congruence. Qed.

Lemma load_ok c truncated bound p :
  same_records (replayed c) p → plane_inv p → record_count p ≤ bound →
  ∃ loaded, load_images c.1 (Some (c.2, truncated)) bound = Ok loaded ∧ same_records loaded p ∧
    pl_recovered loaded = true.
Proof.
  intros Hc Hp Hb. pose proof (assembled_records c truncated) as Ha. rewrite Hc in Ha.
  exists (assembled c truncated). split; [|by split].
  rewrite load_images_assembled, (same_records_count _ _ Ha).
  destruct (Z.gtb_spec (record_count p) bound); [lia|].
  assert (validate (assembled c truncated) = true) as ->; [|done].
  apply validate_consistent, inv_consistent. by rewrite Ha.
Qed.

Section start.
Context {S : Type} `{DurableStore S}.

Lemma durable_initialize config store loaded (im : Impl S) :
  initialize config (Some (store, Ok loaded)) = Ok im →
  cfg_require_durable_commits config = true → durable im.
Proof.
  unfold initialize. intros Hi Hc.
  destruct (initial_plane config (Some loaded)) as [plane|]; [|done].
  unfold force_checkpoint_locked in Hi. cbn [im_store] in Hi.
  destruct (store_write_checkpoint store _) as [[e|] s'] eqn:Ew; [done|]. injection Hi as <-.
  split; [exact Hc|]. intros s [= <-] Hh.
  destruct (checkpoint_law _ _ _ _ Ew Hh) as [(? & _)|(_ & image & Ei & ->)]; [done|].
  transitivity image; [unfold replayed; simpl; by split|]. etrans; [exact Ei|]. by split.
Qed.

Lemma run_inv qs (im : Impl S) : plane_inv (im_plane im) → plane_inv (im_plane (run qs im)).
Proof.
  revert im. induction qs as [|q qs IH]; intros im Hp; [done|]. simpl. by apply IH, exec_inv.
Qed.
End start.

(** ** Properties *)


#[export] Instance memory_durable : DurableStore MemoryStore.
Proof.
  refine {| contents := λ s, (ms_snapshot s, ms_journal s); healthy := λ _, True |}.
  - intros s es n t e r s' [= <- <-] _. done.
  - intros s plane r s' [= <- <-] _. right. split; [done|]. by exists plane.
Defined.

Definition durable_config : FabricConfig := demo_config <| cfg_require_durable_commits := true |>.

Definition durable_start : Impl MemoryStore :=
  match initialize durable_config (Some (empty_store, Ok ControlPlane_default)) with
  | Ok im => im
  | Err _ => mkImpl ControlPlane_default durable_config None true false 0
  end.


(** Replay is idempotent.  Replaying a journal over an image that already
    contains it leaves the records as they are, so a crash after the snapshot is
    replaced and before the journal is emptied loses and duplicates nothing. *)
Theorem replay_over_newer_snapshot_is_harmless (snapshot : option (ControlPlane * Z))
    (l : journal) (image : ControlPlane) (sequence : Z) :
  same_records image (replayed (snapshot, l)) →
  same_records (replayed (Some (image, sequence), l)) image.
Proof. apply replayed_again. Qed.

Lemma replay_over_newer_snapshot_is_harmless_witness :
  let s := stored setup in
  let live := replayed (ms_snapshot s, ms_journal s) in
  same_records (replayed (Some (live, 0), ms_journal s)) live.
Proof.
  intros s live. apply (replay_over_newer_snapshot_is_harmless (ms_snapshot s)). reflexivity.
Defined.
