(* ===== verification/FileStore.v ===== *)
(** * The file store ([PersistenceStore] of [detail/control_plane.cpp],
      [detail/platform_io.hpp])

    The durable store over two files.  The operating system is the interface
    [FileSystem]; its laws say what a success means and what a failure cannot
    have touched.  The store meets the promise of [Durability], so the bytes it
    leaves, even with a torn record at the end, load to the live records. *)

From Stdlib Require Import Ascii.
From S2P Require Import Prelude Taxonomy Model Bytes Crc ModelOps ControlPlane Effects Consistency.
From S2P Require Import FabricCore MutationLogic Lifecycle Encoding RecordCodecs Persistence.
From S2P Require Import Fabric Engine Admissible Recovery Invariants Scenario Durability.

Local Open Scope Z_scope.

(** ** The operating system *)

(** The primitives of [platform_io.hpp].  A failure is a [StoreError]. *)
Class FileSystem (F : Type) := {
  file_exists : F → string → StoreError + bool;
  read_file : F → string → StoreError + list Z;
  write_file_durable : F → string → list Z → option StoreError * F;
  append_file_durable : F → string → list Z → option StoreError * F;
  atomic_replace : F → string → string → option StoreError * F
}.

(** Their contract: [content] is what a path holds. *)
Class FileSystemLaws (F : Type) `{FileSystem F} := {
  content : F → string → option (list Z);
  write_law f path data r f' :
    write_file_durable f path data = (r, f') →
    (r = None → content f' path = Some data) ∧
    ∀ other, other ≠ path → content f' other = content f other;
  append_law_fs f path data r f' :
    append_file_durable f path data = (r, f') →
    (r = None → content f' path = Some (default [] (content f path) ++ data)) ∧
    ∀ other, other ≠ path → content f' other = content f other;
  replace_law f source target r f' :
    atomic_replace f source target = (r, f') →
    match r with
    | None => content f' target = content f source ∧
              ∀ other, other ≠ source → other ≠ target → content f' other = content f other
    | Some _ => ∀ other, content f' other = content f other
    end;
  exists_law f path b : file_exists f path = inr b → b = bool_decide (is_Some (content f path))
}.

(** ** Paths *)

Definition kSnapshotName : string := "control.snapshot".
Definition kJournalName : string := "control.journal".

Fixpoint last_char (text : string) : option Ascii.ascii :=
  match text with
  | EmptyString => None
  | String c EmptyString => Some c
  | String _ rest => last_char rest
  end.

Definition join_path (directory name : string) : string :=
  match last_char directory with
  | None => name
  | Some last =>
      if bool_decide (last = "/"%char) || bool_decide (last = "\"%char)
      then directory +:+ name else directory +:+ "/" +:+ name
  end.

(** ** The store *)

Section store.
Context {F : Type} `{FileSystem F}.

(** [st_held] is an auxiliary variable the program does not have: the checkpointed
    plane and the appended records the two files are known to hold, or [None] once
    a write may have left something the loader refuses. *)
Record FileStore := mkFileStore {
  st_directory : string;
  st_files : F;
  st_held : option (option ControlPlane * list JournalEntry)
}.

Definition snapshot_path (s : FileStore) : string := join_path (st_directory s) kSnapshotName.
Definition journal_path (s : FileStore) : string := join_path (st_directory s) kJournalName.
Definition tmp (path : string) : string := path +:+ ".tmp".

Definition held_append (entry : JournalEntry) (s : FileStore)
    : option (option ControlPlane * list JournalEntry) :=
  match st_held s with
  | Some (snapshot, l) => if entry_encodable entry then Some (snapshot, l ++ [entry]) else None
  | None => None
  end.

(** [PersistenceStore::append] *)
Definition append (s : FileStore) (effects : list Effect) (sequence tick epoch : Z)
    : option StoreError * FileStore :=
  let record := encode_journal_record effects sequence tick epoch in
  match file_exists (st_files s) (journal_path s) with
  | inl error => (Some error, s)
  | inr exists_already =>
      let '(failed, files) :=
        if exists_already then (None, st_files s)
        else append_file_durable (st_files s) (journal_path s) journal_header in
      match failed with
      | Some error => (Some error, mkFileStore (st_directory s) files None)
      | None =>
          match append_file_durable files (journal_path s) record with
          | (Some error, files) => (Some error, mkFileStore (st_directory s) files None)
          | (None, files) =>
              (None, mkFileStore (st_directory s) files
                       (held_append (mkJournalEntry effects sequence tick epoch) s))
          end
      end
  end.

Definition held_snapshot (plane : ControlPlane) (s : FileStore)
    : option (option ControlPlane * list JournalEntry) :=
  match st_held s with
  | Some (_, l) => if encodable_plane plane then Some (Some plane, l) else None
  | None => None
  end.

(** [PersistenceStore::write_checkpoint] on the image of [encode_snapshot]. *)
Definition write_checkpoint (s : FileStore) (plane : ControlPlane) : option StoreError * FileStore :=
  match write_file_durable (st_files s) (tmp (snapshot_path s)) (encode_snapshot plane) with
  | (Some error, files) => (Some error, mkFileStore (st_directory s) files (st_held s))
  | (None, files) =>
      match atomic_replace files (tmp (snapshot_path s)) (snapshot_path s) with
      | (Some error, files) => (Some error, mkFileStore (st_directory s) files (st_held s))
      | (None, files) =>
          match write_file_durable files (tmp (journal_path s)) journal_header with
          | (Some error, files) =>
              (Some error, mkFileStore (st_directory s) files (held_snapshot plane s))
          | (None, files) =>
              match atomic_replace files (tmp (journal_path s)) (journal_path s) with
              | (Some error, files) =>
                  (Some error, mkFileStore (st_directory s) files (held_snapshot plane s))
              | (None, files) =>
                  (None, mkFileStore (st_directory s) files
                           (if encodable_plane plane then Some (Some plane, []) else None))
              end
          end
      end
  end.

#[export] Instance file_store : PersistenceStore FileStore := {|
  store_append := append;
  store_write_checkpoint := write_checkpoint
|}.

(** One file of [load]: absent, or its bytes. *)
Definition read_if_present (files : F) (path : string) : Result (option (list Z)) :=
  match file_exists files path with
  | inl error => Err (se_code error)
  | inr false => Ok None
  | inr true =>
      match read_file files path with
      | inl error => Err (se_code error)
      | inr bytes => Ok (Some bytes)
      end
  end.

(** [PersistenceStore::load] *)
Definition load (s : FileStore) (max_records : Z) : Result ControlPlane :=
  match read_if_present (st_files s) (snapshot_path s) with
  | Err code => Err code
  | Ok snapshot_file =>
      match (match snapshot_file with
             | None => Ok None
             | Some bytes => match load_snapshot bytes with
                             | Err code => Err code
                             | Ok image => Ok (Some image)
                             end
             end) with
      | Err code => Err code
      | Ok snapshot =>
          match read_if_present (st_files s) (journal_path s) with
          | Err code => Err code
          | Ok None => load_images snapshot None max_records
          | Ok (Some bytes) =>
              match scan_journal bytes with
              | Err code => Err code
              | Ok scan =>
                  load_images snapshot
                    (Some (sc_records scan, negb (sc_trailing_partial_bytes scan =? 0))) max_records
              end
          end
      end
  end.
End store.
Arguments FileStore : clear implicits.

(** ** The paths are distinct *)

Lemma append_cancel_l (pre a b : string) : pre +:+ a = pre +:+ b → a = b.
Proof. induction pre as [|c pre IH]; [done|]. intros [= E]. auto. Qed.

Lemma append_assoc' (a b c : string) : (a +:+ b) +:+ c = a +:+ (b +:+ c).
Proof. induction a as [|x a IH]; [done|]. exact (f_equal (String x) IH). Qed.

Lemma join_path_prefix directory : ∃ pre, ∀ name, join_path directory name = pre +:+ name.
Proof.
  unfold join_path. destruct (last_char directory) as [c|]; [|by exists ""].
  destruct (_ || _); [by exists directory|]. exists (directory +:+ "/"). intros name.
  by rewrite append_assoc'.
Qed.

Section paths.
Context {F : Type} (s : FileStore F).

Lemma paths_distinct :
  snapshot_path s ≠ journal_path s ∧
  tmp (snapshot_path s) ≠ snapshot_path s ∧ tmp (snapshot_path s) ≠ journal_path s ∧
  tmp (journal_path s) ≠ snapshot_path s ∧ tmp (journal_path s) ≠ journal_path s.
Proof.
  unfold snapshot_path, journal_path, tmp.
  destruct (join_path_prefix (st_directory s)) as [pre Hpre]. rewrite !Hpre, !append_assoc'.
  split_and!; intros E; apply append_cancel_l in E; discriminate E.
Qed.
End paths.

(** ** What the files hold *)

Section holds.
Context {F : Type} `{FileSystemLaws F}.
Implicit Types s : FileStore F.

Record holds s (snapshot : option ControlPlane) (l : list JournalEntry) : Prop := {
  holds_snapshot :
    match snapshot with
    | None => content (st_files s) (snapshot_path s) = None
    | Some plane => encodable_plane plane = true ∧
                    content (st_files s) (snapshot_path s) = Some (encode_snapshot plane)
    end;
  holds_journal :
    (content (st_files s) (journal_path s) = None ∧ l = []) ∨
    content (st_files s) (journal_path s) = Some (journal_bytes l);
  holds_entries : forallb entry_encodable l = true
}.

(** The auxiliary variable says the truth. *)
Definition faithful s : Prop := ∀ snapshot l, st_held s = Some (snapshot, l) → holds s snapshot l.

(** [holds] reads two paths. *)
Lemma holds_same s s' snapshot l :
  st_directory s' = st_directory s →
  content (st_files s') (snapshot_path s) = content (st_files s) (snapshot_path s) →
  content (st_files s') (journal_path s) = content (st_files s) (journal_path s) →
  holds s snapshot l → holds s' snapshot l.
Proof.
  intros Ed Es Ej [Hs Hj He]. assert (snapshot_path s' = snapshot_path s) as Ps by
    (unfold snapshot_path; by rewrite Ed).
  assert (journal_path s' = journal_path s) as Pj by (unfold journal_path; by rewrite Ed).
  split; rewrite ?Ps, ?Pj, ?Es, ?Ej; done.
Qed.

Lemma journal_bytes_snoc l e : journal_bytes (l ++ [e]) = journal_bytes l ++ entry_bytes e.
Proof.
  unfold journal_bytes. rewrite map_app, concat_app. cbn [map concat].
  by rewrite app_nil_r, (assoc_L (++)).
Qed.

Lemma faithful_append s effects sequence tick epoch r s' :
  append s effects sequence tick epoch = (r, s') → faithful s → faithful s'.
Proof.
  unfold append. intros Ha Hs. cbv zeta in Ha.
  destruct (file_exists _ _) as [error|b] eqn:Ex; [by simplify_eq|]. apply exists_law in Ex.
  set (jp := journal_path s) in *.
  destruct (if b then _ else _) as [failed files1] eqn:E1. destruct failed as [error|];
    [by simplify_eq/=|].
  destruct (append_file_durable files1 _ _) as [[error|] files2] eqn:E2; [by simplify_eq/=|].
  injection Ha as <- <-. apply append_law_fs in E2 as [Hc2 Ho2]. specialize (Hc2 eq_refl).
  intros snapshot l Hh. unfold held_append in Hh. cbn [st_held] in Hh.
  destruct (st_held s) as [[snap l0]|] eqn:Eh; [|done].
  destruct (entry_encodable _) eqn:Ee; [|done]. injection Hh as -> <-.
  destruct (Hs _ _ Eh) as [Hsnap Hj He]. fold jp in Hj.
  assert (content files1 jp = Some (journal_bytes l0) ∧
    ∀ other, other ≠ jp → content files1 other = content (st_files s) other) as [Hc1 Ho1].
  { destruct b; simplify_eq.
    - split; [|done]. destruct Hj as [[Hn _]|?]; [|done]. rewrite Hn in Ex. done.
    - apply append_law_fs in E1 as [Hc1 ?]. split; [|done]. rewrite Hc1 by done.
      destruct Hj as [[-> ->]|Hj]; [by rewrite <-(app_nil_r journal_header)|].
      by rewrite Hj in Ex. }
  assert (snapshot_path s ≠ jp) as Hne by apply paths_distinct.
  split.
  - change (snapshot_path (mkFileStore _ _ _)) with (snapshot_path s). cbn [st_files].
    rewrite (Ho2 _ Hne), (Ho1 _ Hne). exact Hsnap.
  - right. change (journal_path (mkFileStore _ _ _)) with jp. cbn [st_files].
    by rewrite Hc2, Hc1, journal_bytes_snoc.
  - rewrite forallb_app, He. cbn [forallb]. by rewrite Ee.
Qed.

Lemma faithful_checkpoint s plane r s' :
  write_checkpoint s plane = (r, s') → faithful s → faithful s'.
Proof.
  unfold write_checkpoint. intros Hw Hs.
  destruct (paths_distinct s) as (Hsj & Hts & Htj & Hjs & Hjj).
  destruct (write_file_durable (st_files s) _ _) as [r1 f1] eqn:E1.
  apply write_law in E1 as [Hc1 Ho1].
  assert (∀ h f, (∀ p, p ≠ tmp (snapshot_path s) → content f p = content (st_files s) p) →
    st_held s = h → faithful (mkFileStore (st_directory s) f h)) as Hkeep.
  { intros h f Hf <- snapshot l Hh. apply (holds_same s); [done|by apply Hf|by apply Hf|by apply Hs]. }
  destruct r1 as [error|]; [injection Hw as <- <-; by apply Hkeep|]. specialize (Hc1 eq_refl).
  destruct (atomic_replace f1 _ _) as [r2 f2] eqn:E2. apply replace_law in E2.
  destruct r2 as [error|].
  { injection Hw as <- <-. apply Hkeep; [|done]. intros p Hp. rewrite E2. auto. }
  destruct E2 as [Hc2 Ho2]. rewrite Hc1 in Hc2.
  assert (content f2 (journal_path s) = content (st_files s) (journal_path s)) as Hj2.
  { rewrite Ho2, Ho1; auto. }
  assert (∀ f, content f (snapshot_path s) = content f2 (snapshot_path s) →
    content f (journal_path s) = content f2 (journal_path s) →
    faithful (mkFileStore (st_directory s) f (held_snapshot plane s))) as Hnew.
  { intros f Hfs Hfj snapshot l Hh. unfold held_snapshot in Hh. cbn [st_held] in Hh.
    destruct (st_held s) as [[snap l0]|] eqn:Eh; [|done].
    destruct (encodable_plane plane) eqn:Ee; [|done]. injection Hh as <- <-.
    destruct (Hs _ _ Eh) as [_ Hj He].
    split; [|change (journal_path (mkFileStore _ _ _)) with (journal_path s)|done]; cbn [st_files].
    - split; [done|]. by rewrite <-Hc2.
    - by rewrite Hfj, Hj2. }
  destruct (write_file_durable f2 _ _) as [r3 f3] eqn:E3. apply write_law in E3 as [Hc3 Ho3].
  destruct r3 as [error|]; [injection Hw as <- <-; apply Hnew; apply Ho3; auto|].
  specialize (Hc3 eq_refl).
  destruct (atomic_replace f3 _ _) as [r4 f4] eqn:E4. apply replace_law in E4.
  destruct r4 as [error|].
  { injection Hw as <- <-. apply Hnew; rewrite E4; apply Ho3; auto. }
  destruct E4 as [Hc4 Ho4]. injection Hw as <- <-. intros snapshot l Hh. cbn [st_held] in Hh.
  destruct (encodable_plane plane) eqn:Ee; [|done]. injection Hh as <- <-. split; cbn [st_files].
  - split; [done|]. change (snapshot_path (mkFileStore _ _ _)) with (snapshot_path s).
    rewrite Ho4, Ho3; auto.
  - right. change (journal_path (mkFileStore _ _ _)) with (journal_path s). rewrite Hc4, Hc3.
    by rewrite <-(app_nil_r journal_header) at 1.
  - done.
Qed.
End holds.

(** ** The file store keeps the promise of a store *)

Definition held_contents {F} (s : FileStore F) : option (ControlPlane * Z) * list JournalRecordImage :=
  match st_held s with
  | Some (snapshot, l) =>
      (option_map (λ plane, (snapshot_image plane, pl_durable_sequence plane)) snapshot,
       map entry_image l)
  | None => (None, [])
  end.

#[export] Instance file_durable {F} `{FileSystem F} : DurableStore (FileStore F).
Proof.
  refine {| contents := held_contents; healthy := λ s, is_Some (st_held s) |}.
  - intros s effects sequence tick epoch r s' Ha Hh. unfold store_append, file_store, append in Ha.
    destruct (file_exists _ _) as [error|b]; [by simplify_eq|].
    destruct (if b then _ else _) as [[error|] f1]; [by destruct Hh; simplify_eq|].
    destruct (append_file_durable f1 _ _) as [[error|] f2]; [by destruct Hh; simplify_eq|].
    injection Ha as <- <-. unfold held_contents, held_append in *. cbn [st_held] in *.
    destruct (st_held s) as [[snapshot l]|]; [|by destruct Hh].
    destruct (entry_encodable _); [|by destruct Hh]. split; [done|]. cbn [fst snd].
    by rewrite map_app.
  - intros s plane r s' Hw Hh. unfold store_write_checkpoint, file_store, write_checkpoint in Hw.
    destruct (write_file_durable _ _ _) as [[error|] f1]; [by left; simplify_eq|].
    destruct (atomic_replace _ _ _) as [[error|] f2]; [by left; simplify_eq|].
    right. unfold held_contents, held_snapshot in *.
    destruct (write_file_durable _ _ _) as [[error|] f3];
      [|destruct (atomic_replace _ _ _) as [[error|] f4]]; injection Hw as <- <-; cbn [st_held] in *;
      repeat match type of Hh with
        | is_Some (match ?x with _ => _ end) => destruct x as [[? ?]|]
        | is_Some (if ?x then _ else _) => destruct x
        end; try (by destruct Hh);
      (split; [done|]; exists (snapshot_image plane); split; [apply snapshot_image_records|done]).
Defined.

(** ** Loading the files *)

Section loading.
Context {F : Type} `{FileSystemLaws F}.
Implicit Types s : FileStore F.

(** The operating system answers for a path, and truthfully. *)
Definition readable (files : F) (path : string) : Prop :=
  file_exists files path = inr (bool_decide (is_Some (content files path))) ∧
  ∀ bytes, content files path = Some bytes → read_file files path = inr bytes.

Lemma read_readable files path :
  readable files path → read_if_present files path = Ok (content files path).
Proof.
  intros [He Hr]. unfold read_if_present. rewrite He.
  destruct (content files path) as [bytes|]; [|done].
  by rewrite bool_decide_true, (Hr bytes).
Qed.

(** The journal file after a crash while [torn] was being appended. *)
Definition torn_tail (k : nat) (torn : JournalEntry) (journal : option (list Z)) : option (list Z) :=
  option_map (λ bytes, bytes ++ take k (entry_bytes torn)) journal.

Lemma load_holds s snapshot l bound k torn :
  match snapshot with
  | None => content (st_files s) (snapshot_path s) = None
  | Some plane => encodable_plane plane = true ∧
                  content (st_files s) (snapshot_path s) = Some (encode_snapshot plane)
  end →
  content (st_files s) (journal_path s) = torn_tail k torn (Some (journal_bytes l)) →
  forallb entry_encodable l = true → entry_encodable torn = true →
  (k < length (entry_bytes torn))%nat →
  readable (st_files s) (snapshot_path s) → readable (st_files s) (journal_path s) →
  load s bound =
  load_images (option_map (λ plane, (snapshot_image plane, pl_durable_sequence plane)) snapshot)
    (Some (map entry_image l, negb (Z.of_nat k =? 0))) bound.
Proof.
  intros Hs Hj Hl Ht Hk Rs Rj. unfold load. rewrite (read_readable _ _ Rs), (read_readable _ _ Rj).
  rewrite Hj. cbn [torn_tail option_map]. rewrite (scan_torn_journal l torn k Hl Ht Hk).
  destruct snapshot as [plane|]; [|by rewrite Hs].
  destruct Hs as [He ->]. by rewrite (load_encoded_snapshot _ He).
Qed.

(** Without a journal the snapshot is all there is. *)
Lemma load_no_journal snapshot bound p :
  same_records (replayed (snapshot, [])) p → plane_inv p → record_count p ≤ bound →
  ∃ loaded, load_images snapshot None bound = Ok loaded ∧ same_records loaded p.
Proof.
  intros Hc Hp Hb. unfold load_images. cbv zeta.
  match goal with
  | |- context [if record_count ?q >? bound then _ else _] => set (loaded := q)
  end.
  assert (same_records loaded p) as Hl by (rewrite <-Hc; by split). exists loaded.
  rewrite (same_records_count _ _ Hl).
  destruct (Z.gtb_spec (record_count p) bound); [lia|].
  assert (validate loaded = true) as ->; [|done].
  apply validate_consistent, inv_consistent. by rewrite Hl.
Qed.
End loading.

(** ** Histories keep the store faithful *)

Section store_invariant.
Context {S : Type} `{PersistenceStore S} (P : S → Prop).
Context (append_keeps : ∀ s effects sequence tick epoch r s',
  store_append s effects sequence tick epoch = (r, s') → P s → P s').
Context (checkpoint_keeps : ∀ s plane r s', store_write_checkpoint s plane = (r, s') → P s → P s').

Definition store_keeps (im : Impl S) : Prop := ∀ s, im_store im = Some s → P s.

Lemma keeps_checkpoint im : store_keeps im → store_keeps (force_checkpoint_locked im).2.
Proof.
  intros Hk. unfold force_checkpoint_locked. destruct (im_store im) as [s|] eqn:Es; [|done].
  destruct (store_write_checkpoint s _) as [[e|] s'] eqn:Ew; intros s0 [= <-];
    eapply checkpoint_keeps; eauto.
Qed.

Lemma keeps_persist mu im : store_keeps im → store_keeps (persist_and_apply mu im).2.
Proof.
  intros Hk. unfold persist_and_apply. destruct (mu_effects mu) as [|e es] eqn:He; [done|].
  assert (store_keeps (append_mutation mu im).2) as Ha.
  { unfold append_mutation. destruct (im_store im) as [s|] eqn:Es; [|done].
    destruct (store_append s _ _ _ _) as [[err|] s'] eqn:Ea;
      [destruct (cfg_require_durable_commits _)|]; intros s0 [= <-]; eapply append_keeps; eauto. }
  destruct (append_mutation mu im) as [[code|] im1]; [done|]. cbn [snd] in Ha.
  unfold checkpoint_if_due. destruct (_ && _); [|done].
  pose proof (keeps_checkpoint (apply_locked mu im1) Ha) as Hc.
  destruct (force_checkpoint_locked _) as [[u|c] im2]; [done|].
  by destruct (cfg_require_durable_commits _).
Qed.

Lemma keeps_run qs im : store_keeps im → store_keeps (run qs im).
Proof.
  revert im. induction qs as [|q qs IH]; intros im Hk; [done|]. cbn [run]. apply IH.
  unfold exec, mutate. destruct (im_shutting_down im); [done|].
  destruct (body q _ _ _) as [[a|code] mu].
  - pose proof (keeps_persist mu im Hk) as Hp. by destruct (persist_and_apply mu im) as [[u|c] im'].
  - destruct (mu_commit_before_return mu); [|done]. simpl.
    pose proof (keeps_persist mu im Hk) as Hp. by destruct (persist_and_apply mu im) as [[u|c] im'].
Qed.

Lemma keeps_initialize config store initial im :
  P store → initialize config (Some (store, Ok initial)) = Ok im → store_keeps im.
Proof.
  intros Hs. unfold initialize. destruct (initial_plane config (Some initial)) as [plane|]; [|done].
  unfold force_checkpoint_locked. cbn [im_store].
  destruct (store_write_checkpoint store _) as [[e|] s'] eqn:Ew; [done|]. intros [= <-] s [= <-].
  by eapply checkpoint_keeps.
Qed.
End store_invariant.

(** ** Loading what a history left *)

(** Loading intact files, with a torn record at the end of the journal. *)
Lemma load_live_files {F} `{FileSystemLaws F} config (store : FileStore F) initial
    (im : Impl (FileStore F)) (qs : list request) s held files torn k bound :
  faithful store → initialize config (Some (store, Ok initial)) = Ok im → plane_inv initial →
  cfg_require_durable_commits config = true →
  im_store (run qs im) = Some s → st_held s = Some held →
  record_count (im_plane (run qs im)) ≤ bound →
  content files (snapshot_path s) = content (st_files s) (snapshot_path s) →
  content files (journal_path s) = torn_tail k torn (content (st_files s) (journal_path s)) →
  entry_encodable torn = true → (k < length (entry_bytes torn))%nat →
  readable files (snapshot_path s) → readable files (journal_path s) →
  ∃ loaded, load (mkFileStore (st_directory s) files (st_held s)) bound = Ok loaded ∧
    same_records loaded (im_plane (run qs im)).
Proof.
  intros Hf Hi Hp Hc Hs Hh Hb Es Ej Ht Hk Rs Rj. destruct held as [snapshot l].
  pose proof (keeps_initialize faithful faithful_checkpoint _ _ _ _ Hf Hi) as Hkeep.
  pose proof (keeps_run faithful faithful_append faithful_checkpoint qs im Hkeep s Hs _ _ Hh)
    as [Hsnap Hj Hl].
  assert (same_records (replayed (contents s)) (im_plane (run qs im))) as Hr.
  { apply (durable_run qs im (durable_initialize _ _ _ _ Hi Hc)); [done|]. by eexists. }
  assert (plane_inv (im_plane (run qs im))) as Hinv.
  { apply run_inv. eapply initialize_inv; [exact Hi|]. by intros ? ? [= _ <-]. }
  change (contents s) with (held_contents s) in Hr. unfold held_contents in Hr. rewrite Hh in Hr.
  set (s' := mkFileStore (st_directory s) files (st_held s)).
  change (snapshot_path s) with (snapshot_path s') in *.
  change (journal_path s) with (journal_path s') in *.
  rewrite <-Es in Hsnap. destruct Hj as [[Hn ->]|Hj].
  - rewrite Hn in Ej. unfold load. change (st_files s') with files.
    rewrite (read_readable _ _ Rs), (read_readable _ _ Rj), Ej. cbn [torn_tail option_map].
    destruct snapshot as [plane|]; [destruct Hsnap as [He ->]|rewrite Hsnap].
    + rewrite (load_encoded_snapshot _ He). by apply load_no_journal.
    + by apply load_no_journal.
  - rewrite Hj in Ej. erewrite load_holds; [|exact Hsnap|exact Ej|done..].
    destruct (load_ok _ (negb (Z.of_nat k =? 0)) bound _ Hr Hinv Hb) as (loaded & ? & ? & _). eauto.
Qed.

(** ** Properties *)


(** A file system in memory on which nothing fails. *)
#[export] Instance memory_files : FileSystem (gmap string (list Z)) := {|
  file_exists := λ f path, inr (bool_decide (is_Some (f !! path)));
  read_file := λ f path,
    match f !! path with
    | Some bytes => inr bytes
    | None => inl (mkStoreError EC.PERSISTENCE_IO "file size query failed")
    end;
  write_file_durable := λ f path data, (None, <[path := data]> f);
  append_file_durable := λ f path data, (None, <[path := default [] (f !! path) ++ data]> f);
  atomic_replace := λ f source target,
    match f !! source with
    | Some bytes => (None, <[target := bytes]> (delete source f))
    | None => (Some (mkStoreError EC.PERSISTENCE_IO "rename failed"), f)
    end
|}.

#[export] Instance memory_files_laws : FileSystemLaws (gmap string (list Z)).
Proof.
  refine {| content := λ f path, f !! path |}.
  - intros f path data r f' [= <- <-]. split; [intros _; apply lookup_insert_eq|].
    intros other Ho. by rewrite lookup_insert_ne.
  - intros f path data r f' [= <- <-]. split; [intros _; apply lookup_insert_eq|].
    intros other Ho. by rewrite lookup_insert_ne.
  - intros f source target r f'. simpl. destruct (f !! source) as [bytes|] eqn:E;
      intros [= <- <-]; [|done]. split; [by rewrite lookup_insert_eq|].
    intros other Hs Ht. by rewrite lookup_insert_ne, lookup_delete_ne.
  - intros f path b. simpl. by intros [= <-].
Defined.

Definition empty_directory : FileStore (gmap string (list Z)) :=
  mkFileStore "/var/lib/ccsf" ∅ (Some (None, [])).

Definition files_start : Impl (FileStore (gmap string (list Z))) :=
  match initialize durable_config (Some (empty_directory, load empty_directory 1000)) with
  | Ok im => im
  | Err _ => mkImpl ControlPlane_default durable_config None true false 0
  end.

Definition is_ok {A} (r : Result A) : bool := match r with Ok _ => true | Err _ => false end.

Lemma files_started :
  ∃ initial, load empty_directory 1000 = Ok initial ∧ plane_inv initial ∧
    initialize durable_config (Some (empty_directory, Ok initial)) = Ok files_start.
Proof.
  destruct (load empty_directory 1000) as [initial|] eqn:El; [|vm_compute in El; discriminate El].
  exists initial. split; [done|]. split.
  - vm_compute in El. injection El as <-. apply (plane_inv_maps ControlPlane_default); [by split|].
    apply empty_plane_inv.
  - assert (is_ok (initialize durable_config (Some (empty_directory, load empty_directory 1000))) = true)
      as Hok by (vm_compute; reflexivity).
    unfold files_start. rewrite El in *. by destruct (initialize _ _).
Qed.

Lemma empty_directory_faithful : faithful empty_directory.
Proof. intros snapshot l [= <- <-]. split; [done|by left|done]. Qed.

Lemma memory_readable (f : gmap string (list Z)) path : readable f path.
Proof. split; [done|]. intros bytes E. simpl in *. by rewrite E. Qed.

(** A complete migration, with a crash 30 bytes into the next record. *)
Definition files_history : list request := migrated.

Definition torn_entry : JournalEntry := mkJournalEntry [SET_EPOCH 7] 90 5 7.

Definition torn_files (s : FileStore (gmap string (list Z))) : gmap string (list Z) :=
  partial_alter (torn_tail 30 torn_entry) (journal_path s) (st_files s).

Definition intact (s : option (FileStore (gmap string (list Z)))) : bool :=
  match s with Some s => bool_decide (is_Some (st_held s)) | None => false end.

