(* ===== verification/PlatformIO.v ===== *)
(** * Durable file primitives ([detail/platform_io.cpp], the POSIX branch)

    The functions of [platform_io.cpp] over an operating system that keeps what was
    written apart from what was synchronised: a node has its data and what of it is
    known to be on stable storage, a directory its live and its stable names.  What
    each system call does is decided by a script.  The functions meet the contract
    [FileSystemLaws], and a power failure keeps what they reported durable. *)

From Stdlib Require Import Ascii.
From S2P Require Import Prelude Taxonomy Model Bytes ModelOps ControlPlane Effects Consistency FabricCore.
From S2P Require Import Lifecycle.
From S2P Require Import Encoding Persistence Fabric Engine Admissible Recovery Invariants Scenario.
From S2P Require Import Durability FileStore.

Local Open Scope Z_scope.

(** ** The operating system *)

(** [nd_synced] is what the last [fsync] wrote, and [None] when the file was created or
    truncated since. *)
Record Node := mkNode { nd_data : list Z; nd_synced : option (list Z) }.

(** What a call does.  [Moved n] is a [write] of at most [n] bytes; for every other call
    it is a success. *)
Inductive Answer := Moved (n : nat) | Interrupted | Failed.

(** How reading a path turns out. *)
Inductive ReadAnswer := Readable | SizeFails | OpenFails | ReadsOnly (n : nat).

(** How [std::filesystem::status] and [create_directories] turn out. *)
Inductive DirectoryAnswer := IsDirectory | IsOther | Absent | CreateFails.

(** [px_files] are the names the running system sees, [px_stable] those on stable storage,
    each with the number of its node and the node.  A call for which the script has no
    entry succeeds in full. *)
Record Posix := mkPosix {
  px_files : gmap string (Z * Node);
  px_stable : gmap string (Z * Node);
  px_next : Z;
  px_answers : list Answer;
  px_directory_answers : list Answer;
  px_reads : string → ReadAnswer;
  px_exists_fails : string → bool;
  px_directories : string → DirectoryAnswer;
  px_strerror : string
}.

#[export] Instance Posix_eta : Eta Posix := λ p,
  mkPosix (px_files p) (px_stable p) (px_next p) (px_answers p) (px_directory_answers p)
    (px_reads p) (px_exists_fails p) (px_directories p) (px_strerror p).

Module Posix.
Definition next (p : Posix) : option Answer * Posix :=
  match px_answers p with
  | [] => (None, p)
  | a :: rest => (Some a, p <| px_answers := rest |>)
  end.

Definition next_directory (p : Posix) : option Answer * Posix :=
  match px_directory_answers p with
  | [] => (None, p)
  | a :: rest => (Some a, p <| px_directory_answers := rest |>)
  end.

Definition succeeds (answer : option Answer) : bool :=
  match answer with Some Failed | Some Interrupted => false | _ => true end.

(** A change of the node a path names, which is the node a descriptor opened on that path
    refers to. *)
Definition modify (path : string) (f : Node → Node) (p : Posix) : Posix :=
  match px_files p !! path with
  | None => p
  | Some (i, node) =>
      p <| px_files ::= <[path := (i, f node)]> |>
        <| px_stable ::= fmap (λ entry : Z * Node, if entry.1 =? i then (i, f entry.2) else entry) |>
  end.

Definition create (path : string) (p : Posix) : Posix :=
  p <| px_files ::= <[path := (px_next p, mkNode [] None)]> |> <| px_next := px_next p + 1 |>.

(** [open] with [O_WRONLY | O_CREAT] and [O_TRUNC] or [O_APPEND]; [false] is -1. *)
Definition open (path : string) (truncate : bool) (p : Posix) : bool * Posix :=
  let '(answer, p) := next p in
  if negb (succeeds answer) then (false, p)
  else
    match px_files p !! path with
    | None => (true, create path p)
    | Some _ => (true, if truncate then modify path (λ _, mkNode [] None) p else p)
    end.

Definition extend (bytes : list Z) (node : Node) : Node :=
  mkNode (nd_data node ++ bytes) (nd_synced node).

Definition settle (node : Node) : Node := mkNode (nd_data node) (Some (nd_data node)).

(** [fsync] of a file; [false] is an error. *)
Definition fsync (path : string) (p : Posix) : bool * Posix :=
  let '(answer, p) := next p in
  if succeeds answer then (true, modify path settle p) else (false, p).

(** [rename]; [false] is an error. *)
Definition rename (source target : string) (p : Posix) : bool * Posix :=
  let '(answer, p) := next p in
  if negb (succeeds answer) then (false, p)
  else
    match px_files p !! source with
    | None => (false, p)
    | Some entry => (true, p <| px_files := <[target := entry]> (delete source (px_files p)) |>)
    end.

(** Everything before the last ['/']. *)
Fixpoint parent (path : string) : option string :=
  match path with
  | EmptyString => None
  | String c rest =>
      match parent rest with
      | Some directory => Some (String c directory)
      | None => if bool_decide (c = "/"%char) then Some EmptyString else None
      end
  end.

Definition within (directory : string) (entry : string * (Z * Node)) : Prop :=
  parent entry.1 = Some directory.

#[global] Instance within_dec directory entry : Decision (within directory entry).
Proof. unfold within. apply _. Defined.

(** Opening and synchronising a directory makes its names stable; one answer decides
    both calls. *)
Definition sync_directory (directory : string) (p : Posix) : Posix :=
  let '(answer, p) := next_directory p in
  if succeeds answer
  then p <| px_stable := filter (within directory) (px_files p) ∪
                         filter (λ entry, ¬ within directory entry) (px_stable p) |>
  else p.

(** The same calls on a path that is a file. *)
Definition sync_file (path : string) (p : Posix) : Posix :=
  let '(answer, p) := next_directory p in
  if succeeds answer then modify path settle p else p.
End Posix.

(** ** The primitives *)

Definition io_error (message : string) : StoreError := mkStoreError EC.PERSISTENCE_IO message.

Definition errno_text (p : Posix) (what : string) : string :=
  what +:+ " failed: " +:+ px_strerror p.

(** The loop of [write_all] on a descriptor opened on the path. *)
Fixpoint write_loop (answers : list Answer) (fd : string) (data : list Z) (p : Posix)
    : option StoreError * Posix :=
  match data with
  | [] => (None, p <| px_answers := answers |>)
  | _ =>
      match answers with
      | [] => (None, Posix.modify fd (Posix.extend data) (p <| px_answers := [] |>))
      | Moved n :: answers =>
          write_loop answers fd (drop n data) (Posix.modify fd (Posix.extend (take n data)) p)
      | Interrupted :: answers => write_loop answers fd data p
      | Failed :: answers => (Some (io_error (errno_text p "write")), p <| px_answers := answers |>)
      end
  end.

Definition write_all (fd : string) (data : list Z) (p : Posix) : option StoreError * Posix :=
  match write_loop (px_answers p) fd data p with
  | (Some error, p) => (Some error, p)
  | (None, p) =>
      match Posix.fsync fd p with
      | (false, p) => (Some (io_error (errno_text p "fsync")), p)
      | (true, p) => (None, p)
      end
  end.

(** [write_file_durable] and [append_file_durable] differ in how they open. *)
Definition open_and_write (truncate : bool) (path : string) (data : list Z) (p : Posix)
    : option StoreError * Posix :=
  match Posix.open path truncate p with
  | (false, p) => (Some (io_error (errno_text p "open")), p)
  | (true, p) => write_all path data p
  end.

Definition posix_write_file_durable (p : Posix) (path : string) (data : list Z)
    : option StoreError * Posix :=
  open_and_write true path data p.

Definition posix_append_file_durable (p : Posix) (path : string) (data : list Z)
    : option StoreError * Posix :=
  open_and_write false path data p.

(** [target.substr(0, target.find_last_of('/'))]: the whole path when there is no
    ['/'], which is then opened and synchronised as a file. *)
Definition posix_atomic_replace (p : Posix) (source target : string) : option StoreError * Posix :=
  match Posix.rename source target p with
  | (false, p) => (Some (io_error (errno_text p "rename")), p)
  | (true, p) =>
      match Posix.parent target with
      | Some EmptyString => (None, p)
      | Some directory => (None, Posix.sync_directory directory p)
      | None => (None, Posix.sync_file target p)
      end
  end.

Definition posix_content (p : Posix) (path : string) : option (list Z) :=
  (λ entry : Z * Node, nd_data entry.2) <$> px_files p !! path.

Definition posix_file_exists (p : Posix) (path : string) : StoreError + bool :=
  if bool_decide (path = EmptyString) then inl (mkStoreError EC.INVALID_ARGUMENT "empty path")
  else if px_exists_fails p path
  then inl (io_error ("existence check failed: " +:+ px_strerror p))
  else inr (bool_decide (is_Some (posix_content p path))).

Definition posix_file_size (p : Posix) (path : string) : StoreError + Z :=
  match posix_content p path, px_reads p path with
  | Some data, Readable | Some data, OpenFails | Some data, ReadsOnly _ =>
      inr (Z.of_nat (length data))
  | _, _ => inl (io_error ("file size query failed: " +:+ px_strerror p))
  end.

Definition posix_read_file (p : Posix) (path : string) : StoreError + list Z :=
  match posix_file_size p path with
  | inl error => inl error
  | inr size =>
      if size >? 2 ^ 32
      then inl (mkStoreError EC.RESOURCE_EXHAUSTED "control plane file exceeds the bounded read limit")
      else
        match px_reads p path, posix_content p path with
        | OpenFails, _ | _, None => inl (io_error "open for read failed")
        | ReadsOnly n, Some data =>
            if (n <? length data)%nat
            then inl (mkStoreError EC.PERSISTENCE_TRUNCATED "short read while loading file")
            else inr data
        | _, Some data => inr data
        end
  end.

Definition posix_remove_file (p : Posix) (path : string) : option StoreError * Posix :=
  let '(answer, p) := Posix.next p in
  if Posix.succeeds answer then (None, p <| px_files ::= delete path |>)
  else (Some (io_error ("file removal failed: " +:+ px_strerror p)), p).

Definition ensure_directory (p : Posix) (path : string) : option StoreError * Posix :=
  let made := p <| px_directories :=
    λ other, if bool_decide (other = path) then IsDirectory else px_directories p other |> in
  match px_directories p path with
  | IsDirectory => (None, p)
  | IsOther => (Some (io_error "path exists and is not a directory"), p)
  | Absent => (None, made)
  | CreateFails => (Some (io_error ("directory creation failed: " +:+ px_strerror p)), p)
  end.

#[export] Instance posix_files : FileSystem Posix := {|
  file_exists := posix_file_exists;
  read_file := posix_read_file;
  write_file_durable := posix_write_file_durable;
  append_file_durable := posix_append_file_durable;
  atomic_replace := posix_atomic_replace
|}.

(** [PersistenceStore::open].  The store begins with what its files are known to hold. *)
Definition open_store (p : Posix) (directory : string)
    (held : option (option ControlPlane * list JournalEntry)) : Result (FileStore Posix) :=
  if bool_decide (directory = EmptyString) then Err EC.INVALID_ARGUMENT
  else
    match ensure_directory p directory with
    | (Some error, _) => Err (se_code error)
    | (None, p) => Ok (mkFileStore directory p held)
    end.

(** ** The contract *)

Section contract.
Implicit Types p : Posix.

(** Two systems with the same files, stable files and numbering. *)
Definition same_files p p' : Prop :=
  px_files p' = px_files p ∧ px_stable p' = px_stable p ∧ px_next p' = px_next p ∧
  px_directory_answers p' = px_directory_answers p.

Lemma next_same p : same_files p (Posix.next p).2.
Proof. unfold Posix.next. by destruct (px_answers p). Qed.

Lemma content_same p p' path : same_files p p' → posix_content p' path = posix_content p path.
Proof. unfold posix_content. by intros (-> & _). Qed.

Lemma content_modify path f p other :
  posix_content (Posix.modify path f p) other =
  if bool_decide (other = path)
  then (λ entry : Z * Node, nd_data (f entry.2)) <$> px_files p !! path
  else posix_content p other.
Proof.
  unfold posix_content, Posix.modify. case_bool_decide as E.
  - subst other. destruct (px_files p !! path) as [[i node]|] eqn:H; [|by rewrite H].
    cbn. by rewrite lookup_insert_eq.
  - destruct (px_files p !! path) as [[i node]|]; [|done].
    cbn. by rewrite lookup_insert_ne by done.
Qed.

Lemma content_extend path bytes p other :
  posix_content (Posix.modify path (Posix.extend bytes) p) other =
  if bool_decide (other = path) then (λ data, data ++ bytes) <$> posix_content p path
  else posix_content p other.
Proof.
  rewrite content_modify. case_bool_decide; [|done]. unfold posix_content.
  by destruct (px_files p !! path).
Qed.

Lemma content_settle path p other :
  posix_content (Posix.modify path Posix.settle p) other = posix_content p other.
Proof.
  rewrite content_modify. case_bool_decide as E; [|done]. subst. unfold posix_content.
  by destruct (px_files p !! path).
Qed.

(** The loop extends the file by a part of the data, and by all of it when it succeeds. *)
Lemma write_loop_content answers fd data p r p' :
  write_loop answers fd data p = (r, p') →
  (r = None → posix_content p' fd = (λ old, old ++ data) <$> posix_content p fd) ∧
  ∀ other, other ≠ fd → posix_content p' other = posix_content p other.
Proof.
  revert data p. induction answers as [|[n| |] answers IH]; intros data p;
    (destruct data as [|b data]; cbn [write_loop];
     [intros [= <- <-]; split; [intros _; transitivity (posix_content p fd); [reflexivity|]|done];
      destruct (posix_content p fd); cbn [fmap option_fmap option_map]; by rewrite ?app_nil_r|]).
  - intros [= <- <-]. split.
    + intros _. rewrite content_extend, bool_decide_true by done. done.
    + intros other Ho. by rewrite content_extend, bool_decide_false.
  - intros E. apply IH in E as [Hf Ho]. split.
    + intros Hr. rewrite (Hf Hr), content_extend, bool_decide_true by done.
      destruct (posix_content p fd) as [old|]; [|done]. cbn [fmap option_fmap option_map].
      by rewrite <-(assoc_L (++)), take_drop.
    + intros other Hn. by rewrite Ho, content_extend, bool_decide_false.
  - intros E. by apply IH in E.
  - by intros [= <- <-].
Qed.

Lemma write_all_content fd data p r p' :
  write_all fd data p = (r, p') →
  (r = None → posix_content p' fd = (λ old, old ++ data) <$> posix_content p fd) ∧
  ∀ other, other ≠ fd → posix_content p' other = posix_content p other.
Proof.
  unfold write_all. destruct (write_loop _ fd data p) as [[error|] p1] eqn:E;
    apply write_loop_content in E as [Hf Ho]; [by intros [= <- <-]|].
  unfold Posix.fsync. pose proof (next_same p1) as Hn. destruct (Posix.next p1) as [answer p2].
  cbn [snd] in Hn. destruct (Posix.succeeds answer); intros [= <- <-].
  - split; [intros _; rewrite content_settle, (content_same _ _ _ Hn); auto|].
    intros other Hne. by rewrite content_settle, (content_same _ _ _ Hn), Ho.
  - split; [done|]. intros other Hne. by rewrite (content_same _ _ _ Hn), Ho.
Qed.

Lemma open_content path truncate p opened p' :
  Posix.open path truncate p = (opened, p') →
  (opened = true →
   posix_content p' path = Some (if truncate then [] else default [] (posix_content p path))) ∧
  ∀ other, other ≠ path → posix_content p' other = posix_content p other.
Proof.
  unfold Posix.open. pose proof (next_same p) as Hn. destruct (Posix.next p) as [answer p1].
  cbn [snd] in Hn. rewrite <-(content_same _ _ path Hn).
  assert (∀ other, posix_content p1 other = posix_content p other) as Hc
    by (intros other; by apply content_same).
  destruct (Posix.succeeds answer); cbn [negb]; [|by intros [= <- <-]].
  destruct (px_files p1 !! path) as [entry|] eqn:Ef; intros [= <- <-].
  - split.
    + intros _. destruct truncate.
      * by rewrite content_modify, bool_decide_true, Ef.
      * unfold posix_content. by rewrite Ef.
    + intros other Ho. rewrite <-Hc. destruct truncate; [|done].
      by rewrite content_modify, bool_decide_false.
  - assert (posix_content p1 path = None) as Hnone by (unfold posix_content; by rewrite Ef).
    split.
    + intros _. rewrite Hnone. unfold posix_content, Posix.create. cbn.
      rewrite lookup_insert_eq. by destruct truncate.
    + intros other Ho. rewrite <-Hc. unfold posix_content, Posix.create. cbn.
      by rewrite lookup_insert_ne.
Qed.

Lemma open_and_write_content truncate path data p r p' :
  open_and_write truncate path data p = (r, p') →
  (r = None → posix_content p' path =
     Some ((if truncate then [] else default [] (posix_content p path)) ++ data)) ∧
  ∀ other, other ≠ path → posix_content p' other = posix_content p other.
Proof.
  unfold open_and_write. destruct (Posix.open path truncate p) as [[] p1] eqn:E;
    apply open_content in E as [Hf Ho]; [|by intros [= <- <-]].
  intros Hw. apply write_all_content in Hw as [Hf' Ho']. split.
  - intros Hr. by rewrite (Hf' Hr), (Hf eq_refl).
  - intros other Hne. by rewrite Ho', Ho.
Qed.

Lemma sync_directory_files directory p : px_files (Posix.sync_directory directory p) = px_files p.
Proof.
  unfold Posix.sync_directory, Posix.next_directory.
  by destruct (px_directory_answers p) as [|[n| |] answers].
Qed.

Lemma sync_file_content path p other :
  posix_content (Posix.sync_file path p) other = posix_content p other.
Proof.
  unfold Posix.sync_file, Posix.next_directory.
  destruct (px_directory_answers p) as [|[n| |] answers]; cbn [Posix.succeeds];
    try done; by rewrite content_settle.
Qed.

Lemma replace_content source target p r p' :
  posix_atomic_replace p source target = (r, p') →
  match r with
  | None => posix_content p' target = posix_content p source ∧
            ∀ other, other ≠ source → other ≠ target → posix_content p' other = posix_content p other
  | Some _ => ∀ other, posix_content p' other = posix_content p other
  end.
Proof.
  unfold posix_atomic_replace, Posix.rename. pose proof (next_same p) as Hn.
  destruct (Posix.next p) as [answer p1]. cbn [snd] in Hn.
  assert (∀ other, posix_content p1 other = posix_content p other) as Hc
    by (intros other; by apply content_same).
  destruct (Posix.succeeds answer); cbn [negb]; [|by intros [= <- <-]].
  destruct (px_files p1 !! source) as [entry|] eqn:Ef; [|by intros [= <- <-]].
  set (p2 := p1 <| px_files := _ |>).
  assert (posix_content p2 target = posix_content p source ∧
    ∀ other, other ≠ source → other ≠ target → posix_content p2 other = posix_content p other)
    as H2.
  { unfold p2, posix_content. cbn. rewrite lookup_insert_eq. split.
    - specialize (Hc source). unfold posix_content in Hc. by rewrite <-Hc, Ef.
    - intros other Hs Ht. rewrite lookup_insert_ne, lookup_delete_ne by done. apply Hc. }
  clearbody p2. destruct (Posix.parent target) as [[|c directory]|]; intros [= <- <-]; [done| |].
  - unfold posix_content in *. by rewrite sync_directory_files.
  - destruct H2 as [H2 H2']. split; [by rewrite sync_file_content|].
    intros other Hs Ht. rewrite sync_file_content. auto.
Qed.
End contract.

#[export] Instance posix_files_laws : FileSystemLaws Posix.
Proof.
  refine {| content := posix_content |}.
  - intros p path data r p' E. by apply (open_and_write_content true) in E.
  - intros p path data r p' E. by apply (open_and_write_content false) in E.
  - intros p source target r p' E. by apply replace_content.
  - intros p path b. cbn. unfold posix_file_exists. case_bool_decide; [done|].
    destruct (px_exists_fails p path); [done|]. by intros [= <-].
Defined.

(** ** Power failures *)

(** What a node may hold after a power failure: what was synchronised and any part of what
    was written after it, or anything when the file was new. *)
Definition survives (node : Node) (bytes : list Z) : Prop :=
  match nd_synced node with
  | Some base => ∃ k, bytes = base ++ take k (drop (length base) (nd_data node))
  | None => True
  end.

(** [p'] is a system that comes up after a power failure of [p]. *)
Definition crashed (p p' : Posix) : Prop :=
  ∀ path,
    match px_stable p !! path with
    | None => posix_content p' path = None
    | Some (_, node) => ∃ bytes, posix_content p' path = Some bytes ∧ survives node bytes
    end.

(** Numbers are not shared between names, and are below the next one. *)
Record well_numbered (p : Posix) : Prop := {
  wn_injective path other i node node' :
    px_files p !! path = Some (i, node) → px_files p !! other = Some (i, node') → path = other;
  wn_files path i node : px_files p !! path = Some (i, node) → i < px_next p;
  wn_stable path i node : px_stable p !! path = Some (i, node) → i < px_next p
}.

(** A file that is there, under a stable name and synchronised. *)
Definition settled (p : Posix) (path : string) : Prop :=
  ∃ i data, px_files p !! path = Some (i, mkNode data (Some data)) ∧
    px_stable p !! path = Some (i, mkNode data (Some data)).

Lemma settled_content p path :
  settled p path → ∃ data, posix_content p path = Some data.
Proof. intros (i & data & Hf & _). exists data. unfold posix_content. by rewrite Hf. Qed.

Lemma settled_survives p p' path :
  settled p path → crashed p p' → posix_content p' path = posix_content p path.
Proof.
  intros (i & data & Hf & Hs) Hc. specialize (Hc path). rewrite Hs in Hc.
  destruct Hc as (bytes & -> & k & ->). unfold posix_content. rewrite Hf. cbn.
  by rewrite drop_all, take_nil, app_nil_r.
Qed.

Section numbering.
Implicit Types p : Posix.

Lemma well_numbered_same p p' : same_files p p' → well_numbered p → well_numbered p'.
Proof. intros (Hf & Hs & Hn & _) [? ? ?]. split; rewrite ?Hf, ?Hs, ?Hn; eauto. Qed.

Lemma settled_same p p' path : same_files p p' → settled p path → settled p' path.
Proof. intros (Hf & Hs & _) (i & data & ? & ?). exists i, data. by rewrite Hf, Hs. Qed.

(** A change of one node. *)
Lemma lookup_modify path f p other :
  px_files (Posix.modify path f p) !! other =
  if bool_decide (other = path)
  then (λ entry : Z * Node, (entry.1, f entry.2)) <$> px_files p !! path
  else px_files p !! other.
Proof.
  unfold Posix.modify. case_bool_decide as E.
  - subst. destruct (px_files p !! path) as [[i node]|] eqn:Ef; [|by rewrite Ef].
    cbn. by rewrite lookup_insert_eq.
  - destruct (px_files p !! path) as [[i node]|]; [|done]. cbn. by rewrite lookup_insert_ne.
Qed.

Lemma stable_modify path f p other i node :
  px_files p !! path = Some (i, node) →
  px_stable (Posix.modify path f p) !! other =
  (λ entry : Z * Node, if entry.1 =? i then (i, f entry.2) else entry) <$> px_stable p !! other.
Proof. intros Ef. unfold Posix.modify. rewrite Ef. cbn. apply lookup_fmap. Qed.

Lemma modify_next path f p : px_next (Posix.modify path f p) = px_next p.
Proof. unfold Posix.modify. by destruct (px_files p !! path) as [[]|]. Qed.

Lemma modify_directory_answers path f p :
  px_directory_answers (Posix.modify path f p) = px_directory_answers p.
Proof. unfold Posix.modify. by destruct (px_files p !! path) as [[]|]. Qed.

Lemma well_numbered_modify path f p : well_numbered p → well_numbered (Posix.modify path f p).
Proof.
  intros [Hi Hf Hs].
  assert (∀ other i node, px_files (Posix.modify path f p) !! other = Some (i, node) →
    ∃ node', px_files p !! other = Some (i, node')) as Hback.
  { intros other i node. rewrite lookup_modify. case_bool_decide as E; [|eauto].
    subst. destruct (px_files p !! path) as [[j m]|]; [|done]. intros [= -> <-]. eauto. }
  split; rewrite ?modify_next.
  - intros a b i n m Ha Hb. apply Hback in Ha as [? Ha]. apply Hback in Hb as [? Hb]. eauto.
  - intros a i n Ha. apply Hback in Ha as [? Ha]. eauto.
  - intros a i n. destruct (px_files p !! path) as [[j m]|] eqn:Ef.
    + rewrite (stable_modify _ _ _ _ _ _ Ef). destruct (px_stable p !! a) as [[k node]|] eqn:Ea; [|done].
      cbn. destruct (Z.eqb_spec k j); intros [= <- <-]; [subst|]; eauto.
    + unfold Posix.modify. rewrite Ef. eauto.
Qed.

(** Changing the node of another path keeps a file settled. *)
Lemma settled_modify_other path other f p :
  well_numbered p → other ≠ path → settled p path → settled (Posix.modify other f p) path.
Proof.
  intros Hw Hne (i & data & Hf & Hs). exists i, data.
  rewrite lookup_modify, bool_decide_false by done. split; [done|].
  destruct (px_files p !! other) as [[j m]|] eqn:Eo.
  - rewrite (stable_modify _ _ _ _ _ _ Eo), Hs. cbn.
    destruct (Z.eqb_spec i j) as [->|]; [|done]. by destruct (Hne (wn_injective _ Hw _ _ _ _ _ Eo Hf)).
  - unfold Posix.modify. by rewrite Eo.
Qed.

(** A file whose name is stable, whatever part of it is synchronised. *)
Definition named (p : Posix) (path : string) (node : Node) : Prop :=
  ∃ i, px_files p !! path = Some (i, node) ∧ px_stable p !! path = Some (i, node).

Lemma settled_named p path :
  settled p path ↔ ∃ data, named p path (mkNode data (Some data)).
Proof. unfold settled, named. naive_solver. Qed.

Lemma named_modify path f p node : named p path node → named (Posix.modify path f p) path (f node).
Proof.
  intros (i & Hf & Hs). exists i.
  rewrite lookup_modify, bool_decide_true, Hf, (stable_modify _ _ _ _ _ _ Hf), Hs by done.
  cbn. by rewrite Z.eqb_refl.
Qed.

Lemma named_same p p' path node : same_files p p' → named p path node → named p' path node.
Proof. intros (Hf & Hs & _) (i & ? & ?). exists i. by rewrite Hf, Hs. Qed.

(** What opening and writing one path keeps of the others. *)
Record kept (path : string) (p p' : Posix) : Prop := {
  kp_numbered : well_numbered p → well_numbered p';
  kp_settled other : well_numbered p → other ≠ path → settled p other → settled p' other;
  kp_directory : px_directory_answers p' = px_directory_answers p
}.

Lemma kept_refl path p p' : same_files p p' → kept path p p'.
Proof.
  intros Hs. split; [by apply well_numbered_same| |by destruct Hs as (_ & _ & _ & ->)].
  intros other _ _. by apply settled_same.
Qed.

Lemma kept_trans path p1 p2 p3 : kept path p1 p2 → kept path p2 p3 → kept path p1 p3.
Proof. intros [? ? E1] [? ? E2]. split; [auto|auto|by rewrite E2, E1]. Qed.

Lemma kept_modify path f p : kept path p (Posix.modify path f p).
Proof.
  split; [by apply well_numbered_modify| |apply modify_directory_answers].
  intros other Hw Hne. by apply settled_modify_other.
Qed.

Lemma kept_create path p : px_files p !! path = None → kept path p (Posix.create path p).
Proof.
  intros Hnone. split; [| |done].
  - intros [Hi Hf Hs]. split; cbn.
    + intros a b i n m. rewrite !lookup_insert_Some. intros [[<- [= <- <-]]|[Ha Ha']] [[<- E]|[Hb Hb']];
        [done| | |by eapply Hi].
      * apply Hf in Hb'. lia.
      * injection E as <- <-. apply Hf in Ha'. lia.
    + intros a i n. rewrite lookup_insert_Some. intros [[_ [= <- _]]|[_ Ha]]; [lia|].
      apply Hf in Ha. lia.
    + intros a i n Ha. apply Hs in Ha. lia.
  - intros other Hw Hne (i & data & Hf & Hs). exists i, data. cbn. by rewrite lookup_insert_ne.
Qed.

Lemma kept_write_loop answers fd data p r p' :
  write_loop answers fd data p = (r, p') → kept fd p p'.
Proof.
  revert data p. induction answers as [|[n| |] answers IH]; intros data p;
    (destruct data as [|b data]; cbn [write_loop]; [intros [= <- <-]; by apply kept_refl|]).
  - intros [= <- <-]. eapply kept_trans; [|apply kept_modify]. by apply kept_refl.
  - intros E. apply IH in E. eapply kept_trans; [apply kept_modify|exact E].
  - apply IH.
  - intros [= <- <-]. by apply kept_refl.
Qed.

Lemma kept_open_and_write truncate path data p r p' :
  open_and_write truncate path data p = (r, p') → kept path p p'.
Proof.
  unfold open_and_write, Posix.open. pose proof (next_same p) as Hn.
  destruct (Posix.next p) as [answer p1]. cbn [snd] in Hn. apply (kept_refl path) in Hn.
  destruct (Posix.succeeds answer); cbn [negb]; [|by intros [= <- <-]].
  set (opened := match px_files p1 !! path with Some _ => _ | None => _ end).
  assert (∃ p2, opened = (true, p2) ∧ kept path p1 p2) as (p2 & -> & H2).
  { unfold opened. destruct (px_files p1 !! path) eqn:E.
    - eexists. split; [done|]. destruct truncate; [apply kept_modify|by apply kept_refl].
    - eexists. split; [done|]. by apply kept_create. }
  unfold write_all. destruct (write_loop _ path data p2) as [[error|] p3] eqn:E3;
    apply kept_write_loop in E3; pose proof (kept_trans _ _ _ _ (kept_trans _ _ _ _ Hn H2) E3) as H3.
  - by intros [= <- <-].
  - unfold Posix.fsync. pose proof (next_same p3) as Hn3. destruct (Posix.next p3) as [a p4].
    cbn [snd] in Hn3. apply (kept_refl path) in Hn3.
    pose proof (kept_trans _ _ _ _ H3 Hn3) as H4.
    destruct (Posix.succeeds a); intros [= <- <-]; [|done].
    eapply kept_trans; [exact H4|apply kept_modify].
Qed.

(** *** Appending to a settled file *)

Lemma write_loop_named answers fd data p r p' base old :
  named p fd (mkNode old base) → write_loop answers fd data p = (r, p') →
  ∃ k, named p' fd (mkNode (old ++ take k data) base) ∧ (r = None → take k data = data).
Proof.
  revert data p old. induction answers as [|[n| |] answers IH]; intros data p old Hn;
    (destruct data as [|b data]; cbn [write_loop];
     [intros [= <- <-]; exists 0%nat; cbn [take]; rewrite app_nil_r; split; [|done];
      by eapply named_same; [|exact Hn]|]).
  - intros [= <- <-]. exists (length (b :: data)). rewrite firstn_all. split; [|done].
    apply (named_modify fd (Posix.extend (b :: data)) _ (mkNode old base)).
    by eapply named_same; [|exact Hn].
  - intros E. apply (named_modify fd (Posix.extend (take n (b :: data)))) in Hn.
    eapply IH in E as (k & Hk & Hr); [|exact Hn]. exists (n + k)%nat.
    assert (take (n + k) (b :: data) = take n (b :: data) ++ take k (drop n (b :: data))) as Ht.
    { rewrite <-(take_drop n (b :: data)) at 1. rewrite take_app, length_take.
      rewrite take_ge by (rewrite length_take; lia). f_equal.
      destruct (decide (n ≤ length (b :: data))%nat).
      - f_equal. lia.
      - rewrite !(drop_ge (b :: data)) by lia. by rewrite !take_nil. }
    rewrite Ht, (assoc_L (++)). split; [exact Hk|]. intros Hnone. rewrite (Hr Hnone). apply take_drop.
  - intros E. by eapply IH.
  - intros [= <- <-]. exists 0%nat. cbn [take]. rewrite app_nil_r. split; [|done].
    by eapply named_same; [|exact Hn].
Qed.

(** An append that may have been cut short: a power failure now leaves the old bytes and a
    part of the new ones. *)
Definition appended (old data : list Z) (p : Posix) (path : string) : Prop :=
  ∃ k base, named p path (mkNode (old ++ take k data) (Some base)) ∧
    (base = old ∨ base = old ++ take k data).

Lemma append_appends old data p path r p' :
  named p path (mkNode old (Some old)) → open_and_write false path data p = (r, p') →
  appended old data p' path ∧ (r = None → named p' path (mkNode (old ++ data) (Some (old ++ data)))).
Proof.
  intros Hn. unfold open_and_write, Posix.open. pose proof (next_same p) as Hs.
  destruct (Posix.next p) as [answer p1]. cbn [snd] in Hs. apply (named_same _ _ _ _ Hs) in Hn.
  assert (∀ q, named q path (mkNode old (Some old)) → appended old data q path) as Hold.
  { intros q Hq. exists 0%nat, old. cbn [take]. rewrite app_nil_r. auto. }
  destruct (Posix.succeeds answer); cbn [negb]; [|intros [= <- <-]; split; [auto|done]].
  destruct Hn as (i & Hf & Hst). rewrite Hf. unfold write_all.
  destruct (write_loop _ path data p1) as [r2 p2] eqn:E2.
  eapply write_loop_named in E2 as (k & Hk & Hr); [|by exists i].
  destruct r2 as [error|].
  { intros [= <- <-]. split; [|done]. exists k, old. auto. }
  unfold Posix.fsync. pose proof (next_same p2) as Hs2. destruct (Posix.next p2) as [a p3].
  cbn [snd] in Hs2. apply (named_same _ _ _ _ Hs2) in Hk. specialize (Hr eq_refl).
  destruct (Posix.succeeds a); intros [= <- <-].
  - apply (named_modify path Posix.settle) in Hk. unfold Posix.settle in Hk. cbn [nd_data] in Hk.
    split; [exists k, (old ++ take k data); auto|]. intros _. by rewrite Hr in Hk.
  - split; [|done]. exists k, old. auto.
Qed.

Lemma appended_crash old data p p' path :
  appended old data p path → crashed p p' → ∃ k, posix_content p' path = Some (old ++ take k data).
Proof.
  intros (k & base & (i & _ & Hs) & Hb) Hc. specialize (Hc path). rewrite Hs in Hc.
  destruct Hc as (bytes & -> & j & ->). cbn [nd_data]. destruct Hb as [-> | ->].
  - exists (j `min` k)%nat. by rewrite drop_app_length, take_take.
  - exists k. by rewrite drop_all, take_nil, app_nil_r.
Qed.

(** *** Replacing a file *)

(** A file that is there and synchronised, under any name. *)
Definition synced (p : Posix) (path : string) : Prop :=
  ∃ i data, px_files p !! path = Some (i, mkNode data (Some data)).

Lemma fsync_synced path p p' :
  is_Some (px_files p !! path) → Posix.fsync path p = (true, p') → synced p' path.
Proof.
  intros Hf. unfold Posix.fsync. pose proof (next_same p) as (Hs & _).
  destruct (Posix.next p) as [answer p1]. cbn [snd] in Hs. rewrite <-Hs in Hf.
  destruct (Posix.succeeds answer); intros [= <-]. destruct Hf as [[i node] Hf].
  exists i, (nd_data node). by rewrite lookup_modify, bool_decide_true, Hf.
Qed.

Lemma write_synced path data p p' :
  open_and_write true path data p = (None, p') → synced p' path.
Proof.
  unfold open_and_write. destruct (Posix.open path true p) as [[] p1] eqn:E; [|done].
  apply open_content in E as [Hc _]. specialize (Hc eq_refl).
  unfold write_all. destruct (write_loop _ path data p1) as [[error|] p2] eqn:E2; [done|].
  apply write_loop_content in E2 as [Hc2 _]. specialize (Hc2 eq_refl). rewrite Hc in Hc2.
  destruct (Posix.fsync path p2) as [[] p3] eqn:E3; [|done]. intros [= <-].
  eapply fsync_synced; [|exact E3]. unfold posix_content in Hc2.
  destruct (px_files p2 !! path); [by eexists|done].
Qed.

(** The directory of a path can be synchronised. *)
Definition syncs_directory (path : string) : bool :=
  match Posix.parent path with Some (String _ _) => true | _ => false end.

Definition directories_sync (p : Posix) : Prop :=
  Forall (λ answer, Posix.succeeds (Some answer) = true) (px_directory_answers p).

Lemma sync_directory_stable directory p path :
  directories_sync p →
  px_stable (Posix.sync_directory directory p) !! path =
  if bool_decide (Posix.parent path = Some directory) then px_files p !! path else px_stable p !! path.
Proof.
  unfold directories_sync, Posix.sync_directory, Posix.next_directory. intros Hd.
  assert (∀ p1, px_files p1 = px_files p → px_stable p1 = px_stable p →
    (filter (Posix.within directory) (px_files p1) ∪
     filter (λ entry, ¬ Posix.within directory entry) (px_stable p1)) !! path =
    if bool_decide (Posix.parent path = Some directory) then px_files p !! path
    else px_stable p !! path) as Hu.
  { intros p1 -> ->. rewrite lookup_union, !map_lookup_filter. unfold Posix.within. cbn [fst].
    case_bool_decide as E; destruct (px_files p !! path), (px_stable p !! path);
      cbn; repeat case_guard; done || tauto. }
  destruct (px_directory_answers p) as [|a rest]; [by apply Hu|].
  apply list.Forall_cons in Hd as [Ha _]. rewrite Ha. by apply Hu.
Qed.

Lemma sync_directory_next directory p : px_next (Posix.sync_directory directory p) = px_next p.
Proof.
  unfold Posix.sync_directory, Posix.next_directory.
  by destruct (px_directory_answers p) as [|[n| |] answers].
Qed.

Lemma sync_directory_answers directory p :
  directories_sync p → directories_sync (Posix.sync_directory directory p).
Proof.
  unfold directories_sync, Posix.sync_directory, Posix.next_directory.
  destruct (px_directory_answers p) as [|a answers] eqn:E; intros Hd.
  - cbn. by rewrite E.
  - apply list.Forall_cons in Hd as [Ha Hd]. by rewrite Ha.
Qed.

Lemma well_numbered_rename source target entry p :
  well_numbered p → px_files p !! source = Some entry →
  well_numbered (p <| px_files := <[target := entry]> (delete source (px_files p)) |>).
Proof.
  intros [Hi Hf Hs] He. split; cbn; [| |exact Hs].
  - intros a b i n m. rewrite !lookup_insert_Some, !lookup_delete_Some.
    intros [[<- ->]|(Ha & Hsa & Ha')] [[<- E]|(Hb & Hsb & Hb')]; [done| | |by eapply Hi].
    + by destruct (Hsb (Hi _ _ _ _ _ He Hb')).
    + subst entry. by destruct (Hsa (Hi _ _ _ _ _ He Ha')).
  - intros a i n. rewrite lookup_insert_Some, lookup_delete_Some.
    intros [[<- ->]|(_ & _ & Ha)]; eauto.
Qed.

Record replaced (source target : string) (p : Posix) (r : option StoreError) (p' : Posix) : Prop := {
  rd_numbered : well_numbered p';
  rd_directories : directories_sync p';
  rd_other other : other ≠ source → other ≠ target → settled p other → settled p' other;
  rd_target : match r with None => settled p' target | Some _ => settled p target → settled p' target end
}.

Lemma replace_settles source target p r p' :
  well_numbered p → directories_sync p → source ≠ target → syncs_directory target = true →
  synced p source → posix_atomic_replace p source target = (r, p') → replaced source target p r p'.
Proof.
  intros Hw Hd Hne Hsync (i & data & Hsrc). unfold posix_atomic_replace, Posix.rename.
  pose proof (next_same p) as Hn. destruct (Posix.next p) as [answer p1]. cbn [snd] in Hn.
  apply (well_numbered_same _ _ Hn) in Hw as Hw1.
  assert (directories_sync p1) as Hd1 by (unfold directories_sync; destruct Hn as (_ & _ & _ & ->); done).
  assert (∀ other, settled p other → settled p1 other) as Hkeep by (intros other; by apply settled_same).
  destruct (Posix.succeeds answer); cbn [negb]; [|intros [= <- <-]; by split; auto].
  destruct Hn as (Hf & Hst & _). rewrite <-Hf in Hsrc. rewrite Hsrc.
  pose proof (well_numbered_rename source target _ p1 Hw1 Hsrc) as Hw2.
  set (p2 := p1 <| px_files := _ |>) in *.
  assert (px_files p2 = <[target := (i, mkNode data (Some data))]> (delete source (px_files p1))) as Hf2 by done.
  assert (px_stable p2 = px_stable p1) as Hs2 by done.
  assert (directories_sync p2) as Hd2 by done. clearbody p2.
  unfold syncs_directory in Hsync. destruct (Posix.parent target) as [[|c directory]|] eqn:Ep; try done.
  intros [= <- <-]. split.
  - destruct Hw2 as [Hi2 Hl2 Hl2']. split; rewrite ?sync_directory_files, ?sync_directory_next; auto.
    intros path j node. rewrite sync_directory_stable by done. case_bool_decide; eauto.
  - by apply sync_directory_answers.
  - intros other Hos Hot (j & d & Hfo & Hso)%Hkeep. exists j, d.
    rewrite sync_directory_files, sync_directory_stable, Hf2, Hs2 by done.
    rewrite lookup_insert_ne, lookup_delete_ne by done. by case_bool_decide.
  - exists i, data. rewrite sync_directory_files, sync_directory_stable, Hf2 by done.
    by rewrite bool_decide_true, lookup_insert_eq.
Qed.
End numbering.

(** ** The store on this system *)

(** What a start establishes and every operation keeps. *)
Record prepared (s : FileStore Posix) : Prop := {
  pr_numbered : well_numbered (st_files s);
  pr_directories : directories_sync (st_files s);
  pr_snapshot : syncs_directory (snapshot_path s) = true;
  pr_journal : syncs_directory (journal_path s) = true
}.

Definition both_settled (p : Posix) (s : FileStore Posix) : Prop :=
  settled p (snapshot_path s) ∧ settled p (journal_path s).

(** While the files are intact, both are on stable storage. *)
Definition steady (s : FileStore Posix) : Prop :=
  prepared s ∧ (is_Some (st_held s) → both_settled (st_files s) s).

Lemma prepared_files s p held :
  prepared s → well_numbered p → directories_sync p → prepared (mkFileStore (st_directory s) p held).
Proof. intros [_ _ Hs Hj] Hw Hd. by split. Qed.

Lemma kept_directories path p p' : kept path p p' → directories_sync p → directories_sync p'.
Proof. intros [_ _ E] Hd. unfold directories_sync. by rewrite E. Qed.

Lemma steady_append s effects sequence tick epoch r s' :
  append s effects sequence tick epoch = (r, s') → steady s → steady s'.
Proof.
  unfold append. intros Ha [Hp Hset]. cbv zeta in Ha.
  destruct (file_exists _ _) as [error|b] eqn:Ex; [by simplify_eq|].
  destruct (if b then _ else _) as [failed p1] eqn:E1.
  assert (kept (journal_path s) (st_files s) p1) as K1.
  { destruct b; [injection E1 as _ <-; by apply kept_refl|]. eapply kept_open_and_write, E1. }
  assert (prepared (mkFileStore (st_directory s) p1 None)) as Hp1.
  { destruct Hp. apply prepared_files; [done|by apply K1|by eapply kept_directories]. }
  destruct failed as [error|]; [injection Ha as <- <-; split; [exact Hp1|by intros [? ?]]|].
  destruct (append_file_durable p1 _ _) as [r2 p2] eqn:E2.
  pose proof (kept_open_and_write _ _ _ _ _ _ E2) as K2.
  assert (∀ held, prepared (mkFileStore (st_directory s) p2 held)) as Hp2.
  { intros held. destruct Hp1. apply (prepared_files s); [done|by apply K2|by eapply kept_directories]. }
  destruct r2 as [error|]; injection Ha as <- <-; [split; [apply Hp2|by intros [? ?]]|].
  split; [apply Hp2|]. cbn [st_held]. intros Hh.
  assert (is_Some (st_held s)) as Hh0 by (unfold held_append in Hh; by destruct (st_held s); [eexists|]).
  destruct (Hset Hh0) as [Hs Hj].
  assert (b = true) as ->.
  { apply exists_law in Ex. rewrite Ex. apply bool_decide_true. cbn. destruct (settled_content _ _ Hj) as [d ->]. by eexists. }
  injection E1 as <-. split.
  - apply K2; [apply Hp|exact (proj1 (paths_distinct s))|exact Hs].
  - apply settled_named. apply settled_named in Hj as [d Hj].
    eapply append_appends in E2 as [_ Hn]; [|exact Hj]. eauto.
Qed.

(** The first half of a checkpoint, which is also its second half: a temporary file is
    written and takes the place of a path. *)
Definition replace_with (path : string) (bytes : list Z) (p : Posix) : option StoreError * Posix :=
  match posix_write_file_durable p (tmp path) bytes with
  | (Some error, p) => (Some error, p)
  | (None, p) => posix_atomic_replace p (tmp path) path
  end.

Lemma replace_with_settles path bytes p r p' :
  well_numbered p → directories_sync p → tmp path ≠ path → syncs_directory path = true →
  replace_with path bytes p = (r, p') → replaced (tmp path) path p r p'.
Proof.
  intros Hw Hd Hne Hsync. unfold replace_with.
  destruct (posix_write_file_durable p (tmp path) bytes) as [r1 p1] eqn:E1.
  pose proof (kept_open_and_write _ _ _ _ _ _ E1) as K.
  pose proof (kp_numbered _ _ _ K Hw) as Hw1. pose proof (kept_directories _ _ _ K Hd) as Hd1.
  destruct r1 as [error|].
  { intros [= <- <-]. split; [done|done| |].
    - intros other Hos _. by apply K.
    - apply K; [done|]. intros E. by symmetry in E. }
  intros E2. apply write_synced in E1.
  destruct (replace_settles _ _ _ _ _ Hw1 Hd1 Hne Hsync E1 E2) as [Hw2 Hd2 Ho Ht].
  split; [done|done| |].
  - intros other Hos Hot Hset. apply Ho; [done|done|]. by apply K.
  - destruct r as [error|]; [|done]. intros Hset. apply Ht, K; [done| |done].
    intros E. by symmetry in E.
Qed.

(** [write_checkpoint] is two replacements. *)
Lemma write_checkpoint_replaces s plane r s' :
  write_checkpoint s plane = (r, s') →
  let '(r1, p1) := replace_with (snapshot_path s) (encode_snapshot plane) (st_files s) in
  match r1 with
  | Some error => r = Some error ∧ s' = mkFileStore (st_directory s) p1 (st_held s)
  | None =>
      let '(r2, p2) := replace_with (journal_path s) journal_header p1 in
      r = r2 ∧ ∃ held, s' = mkFileStore (st_directory s) p2 held ∧
        (is_Some r2 → is_Some held → is_Some (st_held s))
  end.
Proof.
  unfold write_checkpoint, replace_with. cbn [write_file_durable atomic_replace posix_files].
  destruct (posix_write_file_durable (st_files s) _ _) as [[error|] p1]; [by intros [= <- <-]|].
  destruct (posix_atomic_replace p1 _ _) as [[error|] p2]; [by intros [= <- <-]|].
  assert (is_Some (held_snapshot plane s) → is_Some (st_held s)) as Hh.
  { unfold held_snapshot. destruct (st_held s) as [[]|]; [by eexists|done]. }
  destruct (posix_write_file_durable p2 _ _) as [[error|] p3]; [intros [= <- <-]; split; [done|]; by eexists|].
  destruct (posix_atomic_replace p3 _ _) as [[error|] p4]; intros [= <- <-];
    (split; [done|]); eexists; (split; [done|]); [done|by intros [? ?]].
Qed.

Lemma checkpoint_settles s plane r s' :
  write_checkpoint s plane = (r, s') → prepared s →
  prepared s' ∧
  (r = None → both_settled (st_files s') s') ∧
  (is_Some r → both_settled (st_files s) s → both_settled (st_files s') s') ∧
  (is_Some r → is_Some (st_held s') → is_Some (st_held s)).
Proof.
  intros Hc [Hw Hd Hss Hsj]. apply write_checkpoint_replaces in Hc.
  destruct (paths_distinct s) as (Hsj' & Hts & Htj & Hjs & Hjj).
  destruct (replace_with (snapshot_path s) _ _) as [r1 p1] eqn:E1.
  apply replace_with_settles in E1 as [Hw1 Hd1 Ho1 Ht1]; [|done..].
  destruct r1 as [error|].
  - destruct Hc as [-> ->]. split; [by split|]. split_and!; [done| |done].
    intros _ [Hs Hj]. split; [by apply Ht1|]. apply Ho1; [|done|done]. done.
  - destruct (replace_with (journal_path s) _ p1) as [r2 p2] eqn:E2.
    apply replace_with_settles in E2 as [Hw2 Hd2 Ho2 Ht2]; [|done..].
    destruct Hc as [-> (held & -> & Hh)]. split; [by split|].
    assert (settled p2 (snapshot_path s)) as Hsnap by (apply Ho2; [done|done|exact Ht1]).
    split_and!; [|intros [e ->] [_ Hj]|done].
    + intros ->. by split.
    + split; [exact Hsnap|]. apply Ht2, Ho1; done.
Qed.

Lemma steady_checkpoint s plane r s' :
  write_checkpoint s plane = (r, s') → steady s → steady s'.
Proof.
  intros Hc [Hp Hset]. apply checkpoint_settles in Hc as (Hp' & Hn & He & Hh); [|done].
  split; [done|]. intros Hheld. destruct r as [error|]; [|auto].
  apply He; [by eexists|]. apply Hset, Hh; [by eexists|done].
Qed.

(** Starting a coordinator checkpoints, which puts both files on stable storage. *)
Lemma steady_initialize config store initial im :
  prepared store → initialize config (Some (store, Ok initial)) = Ok im → store_keeps steady im.
Proof.
  intros Hp. unfold initialize. destruct (initial_plane config (Some initial)) as [plane|]; [|done].
  unfold force_checkpoint_locked. cbn [im_store].
  destruct (store_write_checkpoint store _) as [[e|] s'] eqn:Ew; [done|]. intros [= <-] s [= <-].
  apply checkpoint_settles in Ew as (Hp' & Hn & _); [|done]. split; [done|]. auto.
Qed.

(** The system while the store is idle, or at any point of an append. *)
Definition interrupted (s : FileStore Posix) (torn : JournalEntry) (p : Posix) : Prop :=
  p = st_files s ∨
  ∃ r s', append s (je_effects torn) (je_sequence torn) (je_tick torn) (je_epoch torn) = (r, s') ∧
    p = st_files s'.

(** After a power failure the snapshot is as it was, and the journal is followed by a
    part of the record that was being appended. *)
Lemma interrupted_crash s torn p p' :
  steady s → is_Some (st_held s) → interrupted s torn p → crashed p p' →
  posix_content p' (snapshot_path s) = posix_content (st_files s) (snapshot_path s) ∧
  ∃ old k, posix_content (st_files s) (journal_path s) = Some old ∧
    posix_content p' (journal_path s) = Some (old ++ take k (entry_bytes torn)).
Proof.
  intros [Hp Hset] Hh Hi Hc. destruct (Hset Hh) as [Hs Hj].
  assert (∀ q, q = st_files s → crashed q p' →
    posix_content p' (snapshot_path s) = posix_content (st_files s) (snapshot_path s) ∧
    ∃ old k, posix_content (st_files s) (journal_path s) = Some old ∧
      posix_content p' (journal_path s) = Some (old ++ take k (entry_bytes torn))) as Hidle.
  { intros q -> Hq. split; [by apply settled_survives|]. destruct (settled_content _ _ Hj) as [old Ho].
    exists old, 0%nat. rewrite (settled_survives _ _ _ Hj Hq), Ho. cbn [take]. by rewrite app_nil_r. }
  destruct Hi as [-> |(r & s' & Ha & ->)]; [by eapply Hidle|].
  unfold append in Ha. cbv zeta in Ha.
  destruct (file_exists _ _) as [error|b] eqn:Ex; [injection Ha as _ <-; by eapply Hidle|].
  assert (b = true) as ->.
  { apply exists_law in Ex. rewrite Ex. apply bool_decide_true. cbn.
    destruct (settled_content _ _ Hj) as [d ->]. by eexists. }
  destruct (append_file_durable _ _ _) as [r2 p2] eqn:E2.
  assert (st_files s' = p2) as E by (destruct r2; by injection Ha as _ <-). rewrite E in Hc.
  pose proof (kept_open_and_write _ _ _ _ _ _ E2) as K2.
  assert (settled p2 (snapshot_path s)) as Hs2
    by (apply K2; [apply Hp|exact (proj1 (paths_distinct s))|exact Hs]).
  split.
  - rewrite (settled_survives _ _ _ Hs2 Hc).
    by apply (proj2 (open_and_write_content _ _ _ _ _ _ E2)), (proj1 (paths_distinct s)).
  - apply settled_named in Hj as [old Hn]. pose proof (append_appends _ _ _ _ _ _ Hn E2) as [Happ _].
    destruct (appended_crash _ _ _ _ _ Happ Hc) as [k Hk]. exists old, k. split; [|exact Hk].
    destruct Hn as (i & Hf & _). unfold posix_content. by rewrite Hf.
Qed.

(** ** Properties *)


(** A system on which the first calls move few bytes or are interrupted. *)
Definition demo_posix : Posix :=
  mkPosix ∅ ∅ 0 [Moved 1; Moved 5; Interrupted; Moved 0; Moved 40] [] (λ _, Readable) (λ _, false)
    (λ _, Absent) "".

Definition posix_directory : FileStore Posix :=
  match open_store demo_posix "/var/lib/ccsf" (Some (None, [])) with
  | Ok store => store
  | Err _ => mkFileStore "" demo_posix None
  end.

Definition posix_start : Impl (FileStore Posix) :=
  match initialize durable_config (Some (posix_directory, load posix_directory 1000)) with
  | Ok im => im
  | Err _ => mkImpl ControlPlane_default durable_config None true false 0
  end.

Lemma posix_started :
  ∃ initial, plane_inv initial ∧
    initialize durable_config (Some (posix_directory, Ok initial)) = Ok posix_start.
Proof.
  destruct (load posix_directory 1000) as [initial|] eqn:El; [|vm_compute in El; discriminate El].
  exists initial. split.
  - vm_compute in El. injection El as <-. apply (plane_inv_maps ControlPlane_default); [by split|].
    apply empty_plane_inv.
  - assert (is_ok (initialize durable_config (Some (posix_directory, load posix_directory 1000))) = true)
      as Hok by (vm_compute; reflexivity).
    unfold posix_start. rewrite El in *. by destruct (initialize _ _).
Qed.

Lemma posix_directory_prepared : prepared posix_directory.
Proof.
  split; [|by constructor|reflexivity|reflexivity].
  split; intros *; change (px_files _) with (∅ : gmap string (Z * Node));
    change (px_stable _) with (∅ : gmap string (Z * Node)); by rewrite lookup_empty.
Qed.

Lemma posix_directory_faithful : faithful posix_directory.
Proof. intros snapshot l [= <- <-]. split; [reflexivity|left; split; reflexivity|reflexivity]. Qed.

(** What comes up when nothing unsynchronised survives. *)
Definition power_cycle (p : Posix) : Posix :=
  p <| px_files := (λ entry : Z * Node,
         (entry.1, mkNode (default (nd_data entry.2) (nd_synced entry.2)) None)) <$> px_stable p |>.

Lemma power_cycle_crashed p : crashed p (power_cycle p).
Proof.
  intros path. unfold posix_content, power_cycle. cbn. rewrite lookup_fmap.
  destruct (px_stable p !! path) as [[i node]|]; [|done]. cbn. eexists. split; [done|].
  unfold survives. destruct (nd_synced node) as [base|]; [|done]. exists 0%nat. cbn.
  by rewrite app_nil_r.
Qed.

Definition posix_reads_well (p : Posix) (path : string) : bool :=
  match posix_content p path with
  | Some data => (Z.of_nat (length data) <=? 2 ^ 32) && negb (px_exists_fails p path) &&
                 match px_reads p path with Readable => negb (bool_decide (path = EmptyString)) | _ => false end
  | None => false
  end.

Lemma posix_readable p path : posix_reads_well p path = true → readable p path.
Proof.
  unfold posix_reads_well. intros H. destruct (posix_content p path) as [data|] eqn:Ec; [|done].
  split_fits H. destruct (px_reads p path) eqn:Er; try done.
  split; cbn [file_exists read_file content posix_files posix_files_laws].
  - unfold posix_file_exists. rewrite (bool_decide_false (path = "")); [|by destruct (bool_decide (path = "")) eqn:E; [|apply bool_decide_eq_false_1 in E]].
    by destruct (px_exists_fails p path).
  - intros bytes E. rewrite Ec in E. injection E as <-. unfold posix_read_file, posix_file_size.
    rewrite Ec, Er. destruct (Z.gtb_spec (Z.of_nat (length data)) (2 ^ 32)); [|done].
    apply Z.leb_le in H. lia.
Qed.

Definition posix_checks (s : option (FileStore Posix)) : bool :=
  match s with
  | Some s => bool_decide (is_Some (st_held s)) &&
              posix_reads_well (power_cycle (st_files s)) (snapshot_path s) &&
              posix_reads_well (power_cycle (st_files s)) (journal_path s) &&
              bool_decide (posix_content (power_cycle (st_files s)) (journal_path s) ≠
                torn_tail (length (entry_bytes torn_entry)) torn_entry
                  (posix_content (st_files s) (journal_path s)))
  | None => false
  end.


(** A directory that cannot be synchronised: the replacement is reported as done although
    a power failure brings the old file back. *)
Theorem unsynced_replacement_is_reported (p : Posix) source target entry old directory answers c :
  px_answers p = [] → px_directory_answers p = Failed :: answers →
  Posix.parent target = Some (String c directory) →
  px_files p !! source = Some entry → px_stable p !! target = Some (1, mkNode old (Some old)) →
  let '(r, p') := posix_atomic_replace p source target in
  r = None ∧ posix_content p' target = Some (nd_data entry.2) ∧
  posix_content (power_cycle p') target = Some old.
Proof.
  intros Ha Hd Hp Hs Ht. unfold posix_atomic_replace, Posix.rename, Posix.next. rewrite Ha. cbn.
  rewrite Hs, Hp. unfold Posix.sync_directory, Posix.next_directory. cbn. rewrite Hd. cbn.
  unfold posix_content. cbn. rewrite lookup_insert_eq, lookup_fmap, Ht. done.
Qed.
