(* ===== verification/WindowsIO.v ===== *)
(** * Durable file primitives ([detail/platform_io.cpp], the Windows branch)

    The functions of [platform_io.cpp] over files named by wide text: the conversion of a
    path, the loop that writes at most 1 GiB a call and reports a call that makes no
    progress, the flush, and the replacement.  How text is converted and what each call does
    are arguments.  Where one conversion serves every call, the functions meet the contract
    [FileSystemLaws] and so the recovery theorems of the store. *)

From S2P Require Import Prelude Taxonomy Model Bytes ModelOps ControlPlane Effects Consistency FabricCore.
From S2P Require Import Lifecycle.
From S2P Require Import Encoding Persistence Fabric Engine Admissible Recovery Invariants Scenario.
From S2P Require Import Durability FileStore PlatformIO.

Local Open Scope Z_scope.

(** ** The operating system *)

(** [cv_wide] is [MultiByteToWideChar] for UTF-8 ([None] when it reports no characters) and
    [cv_native] the conversion [std::filesystem::path] makes of narrow text. *)
Record Conversion := mkConversion {
  cv_wide : string → option (list Z);
  cv_native : string → list Z
}.

(** What a call does: [Wrote n] is a [WriteFile] of at most [n] bytes and a success of every
    other call; [Refused error] sets the error number. *)
Inductive WindowsAnswer := Wrote (n : Z) | Refused (error : Z).

(** A machine on which paths are converted by [cv]. *)
Record Windows (cv : Conversion) := mkWindows {
  ws_files : gmap (list Z) (list Z);
  ws_answers : list WindowsAnswer;
  ws_reads : string → ReadAnswer;
  ws_exists_fails : string → bool;
  ws_message : string
}.

Arguments mkWindows {cv} _ _ _ _ _.
Arguments ws_files {cv} _.
Arguments ws_answers {cv} _.
Arguments ws_reads {cv} _ _.
Arguments ws_exists_fails {cv} _ _.
Arguments ws_message {cv} _.

#[export] Instance Windows_eta cv : Eta (Windows cv) := λ w,
  mkWindows (ws_files w) (ws_answers w) (ws_reads w) (ws_exists_fails w) (ws_message w).

Module Windows.
Section calls.
Context {cv : Conversion}.
Implicit Types w : Windows cv.

(** A call for which the script has no entry succeeds in full. *)
Definition next (w : Windows cv) : option WindowsAnswer * Windows cv :=
  match ws_answers w with
  | [] => (None, w)
  | a :: rest => (Some a, w <| ws_answers := rest |>)
  end.

(** [CreateFileW] with [CREATE_ALWAYS] or [OPEN_ALWAYS]. *)
Definition create_file (name : list Z) (truncate : bool) (w : Windows cv) : option Z * Windows cv :=
  match next w with
  | (Some (Refused error), w) => (Some error, w)
  | (_, w) =>
      (None, w <| ws_files ::= <[name := if truncate then [] else default [] (ws_files w !! name)]> |>)
  end.

(** [WriteFile] of a chunk on a handle whose position is the end of the file. *)
Definition write_file (name : list Z) (chunk : list Z) (w : Windows cv) : (Z + Z) * Windows cv :=
  match next w with
  | (Some (Refused error), w) => (inl error, w)
  | (answer, w) =>
      let written := match answer with Some (Wrote n) => take (Z.to_nat n) chunk | _ => chunk end in
      (inr (Z.of_nat (length written)),
       w <| ws_files ::= <[name := default [] (ws_files w !! name) ++ written]> |>)
  end.

(** [FlushFileBuffers]. *)
Definition flush (w : Windows cv) : option Z * Windows cv :=
  match next w with
  | (Some (Refused error), w) => (Some error, w)
  | (_, w) => (None, w)
  end.

(** [MoveFileExW] with [MOVEFILE_REPLACE_EXISTING]. *)
Definition move_file (source target : list Z) (w : Windows cv) : option Z * Windows cv :=
  match next w with
  | (Some (Refused error), w) => (Some error, w)
  | (_, w) =>
      match ws_files w !! source with
      | None => (Some 2, w)
      | Some data => (None, w <| ws_files := <[target := data]> (delete source (ws_files w)) |>)
      end
  end.

End calls.
End Windows.

(** ** The primitives *)

Section primitives.
Context {cv : Conversion}.
Implicit Types w : Windows cv.

Definition to_wide (text : string) : list Z :=
  match text with
  | EmptyString => []
  | _ => default [] (cv_wide cv text)
  end.

Definition windows_error (what : string) (error : Z) : StoreError :=
  io_error (what +:+ " failed with error " +:+ to_string_u64 error).

Definition not_utf8 (path : string) : StoreError :=
  mkStoreError EC.INVALID_ARGUMENT ("path is not valid UTF-8: " +:+ path).

(** The largest chunk of one call. *)
Definition kWriteChunk : Z := 0x40000000.

(** The loop of [write_all]: every turn moves a byte or returns, so the bytes left bound the
    turns. *)
Fixpoint write_chunks (fuel : nat) (name : list Z) (data : list Z) (w : Windows cv)
    : option StoreError * Windows cv :=
  match fuel, data with
  | _, [] => (None, w)
  | O, _ => (Some (io_error "WriteFile reported no progress"), w)
  | S fuel, _ =>
      let remaining := Z.of_nat (length data) in
      let chunk := if remaining >? kWriteChunk then kWriteChunk else remaining in
      match Windows.write_file name (take (Z.to_nat chunk) data) w with
      | (inl error, w) => (Some (windows_error "WriteFile" error), w)
      | (inr written, w) =>
          if written =? 0 then (Some (io_error "WriteFile reported no progress"), w)
          else write_chunks fuel name (drop (Z.to_nat written) data) w
      end
  end.

Definition windows_write_all (name : list Z) (data : list Z) (w : Windows cv)
    : option StoreError * Windows cv :=
  match write_chunks (length data) name data w with
  | (Some error, w) => (Some error, w)
  | (None, w) =>
      match Windows.flush w with
      | (Some error, w) => (Some (windows_error "FlushFileBuffers" error), w)
      | (None, w) => (None, w)
      end
  end.

(** The two writers differ in how they open and in what they say. *)
Definition windows_open_and_write (truncate : bool) (w : Windows cv) (path : string) (data : list Z)
    : option StoreError * Windows cv :=
  match to_wide path with
  | [] => (Some (not_utf8 path), w)
  | wide =>
      match Windows.create_file wide truncate w with
      | (Some error, w) =>
          (Some (windows_error (if truncate then "CreateFileW(CREATE_ALWAYS)"
                                else "CreateFileW(OPEN_ALWAYS)") error), w)
      | (None, w) => windows_write_all wide data w
      end
  end.

Definition windows_write_file_durable := windows_open_and_write true.
Definition windows_append_file_durable := windows_open_and_write false.

Definition windows_atomic_replace (w : Windows cv) (source target : string)
    : option StoreError * Windows cv :=
  match to_wide source, to_wide target with
  | [], _ | _, [] => (Some (mkStoreError EC.INVALID_ARGUMENT "path is not valid UTF-8"), w)
  | wide_source, wide_target =>
      match Windows.move_file wide_source wide_target w with
      | (Some error, w) => (Some (windows_error "MoveFileExW" error), w)
      | (None, w) => (None, w)
      end
  end.

(** The checks go through [std::filesystem::path], not through [to_wide]. *)
Definition windows_native (w : Windows cv) (path : string) : option (list Z) :=
  ws_files w !! cv_native cv path.

Definition windows_file_exists (w : Windows cv) (path : string) : StoreError + bool :=
  if bool_decide (path = EmptyString) then inl (mkStoreError EC.INVALID_ARGUMENT "empty path")
  else if ws_exists_fails w path
  then inl (io_error ("existence check failed: " +:+ ws_message w))
  else inr (bool_decide (is_Some (windows_native w path))).

Definition windows_file_size (w : Windows cv) (path : string) : StoreError + Z :=
  match windows_native w path, ws_reads w path with
  | Some data, Readable | Some data, OpenFails | Some data, ReadsOnly _ =>
      inr (Z.of_nat (length data))
  | _, _ => inl (io_error ("file size query failed: " +:+ ws_message w))
  end.

(** [read_file]: the size is asked of the native path, the file is opened by the wide one, and
    what is read is what was asked for or an error. *)
Definition windows_read_file (w : Windows cv) (path : string) : StoreError + list Z :=
  match windows_file_size w path with
  | inl error => inl error
  | inr size =>
      if size >? 2 ^ 32
      then inl (mkStoreError EC.RESOURCE_EXHAUSTED "control plane file exceeds the bounded read limit")
      else
        match to_wide path with
        | [] => inl (not_utf8 path)
        | wide =>
            match ws_reads w path, ws_files w !! wide with
            | OpenFails, _ | _, None => inl (io_error "open for read failed")
            | answer, Some data =>
                let readable := match answer with ReadsOnly n => take n data | _ => data end in
                if (length readable <? Z.to_nat size)%nat
                then inl (mkStoreError EC.PERSISTENCE_TRUNCATED "short read while loading file")
                else inr (take (Z.to_nat size) readable)
            end
        end
  end.

Definition windows_remove_file (w : Windows cv) (path : string) : option StoreError * Windows cv :=
  match Windows.next w with
  | (Some (Refused _), w) => (Some (io_error ("file removal failed: " +:+ ws_message w)), w)
  | (_, w) => (None, w <| ws_files ::= delete (cv_native cv path) |>)
  end.

End primitives.

#[export] Instance windows_files cv : FileSystem (Windows cv) := {|
  file_exists := windows_file_exists;
  read_file := windows_read_file;
  write_file_durable := windows_write_file_durable;
  append_file_durable := windows_append_file_durable;
  atomic_replace := windows_atomic_replace
|}.

(** ** The contract *)

(** Every call names a file the same way, and two paths name two files. *)
Class OneConversion (cv : Conversion) := {
  wide_is_native path : path ≠ EmptyString → cv_wide cv path = Some (cv_native cv path);
  native_nonempty path : path ≠ EmptyString → cv_native cv path ≠ [];
  native_injective path other :
    path ≠ EmptyString → other ≠ EmptyString → cv_native cv path = cv_native cv other → path = other
}.

Section contract.
Context {cv : Conversion}.
Implicit Types w : Windows cv.

Lemma next_files w : ws_files (Windows.next w).2 = ws_files w.
Proof. unfold Windows.next. by destruct (ws_answers w). Qed.

Lemma write_file_files name chunk w r w' :
  Windows.write_file name chunk w = (r, w') →
  match r with
  | inl _ => ws_files w' = ws_files w
  | inr n => 0 ≤ n ≤ Z.of_nat (length chunk) ∧
             ws_files w' = <[name := default [] (ws_files w !! name) ++ take (Z.to_nat n) chunk]> (ws_files w)
  end.
Proof.
  unfold Windows.write_file. pose proof (next_files w) as Hn. destruct (Windows.next w) as [answer w1].
  cbn [snd] in Hn. rewrite <-Hn.
  destruct answer as [[n|error]|]; intros [= <- <-]; [|done|].
  - rewrite length_take. split; [lia|]. cbn. do 2 f_equal.
    rewrite Nat2Z.id. destruct (decide (Z.to_nat n ≤ length chunk)%nat); [by rewrite Nat.min_l by lia|].
    by rewrite Nat.min_r, !take_ge by lia.
  - split; [lia|]. cbn. rewrite Nat2Z.id, take_ge by lia. done.
Qed.

(** The loop extends the file by all of the data when it succeeds, and touches no other. *)
Lemma write_chunks_files fuel name data w r w' old :
  write_chunks fuel name data w = (r, w') → ws_files w !! name = Some old →
  (r = None → ws_files w' !! name = Some (old ++ data)) ∧
  ∀ other, other ≠ name → ws_files w' !! other = ws_files w !! other.
Proof.
  revert data w old. induction fuel as [|fuel IH]; intros [|b data] w old H Hold;
    try (injection H as <- <-; split; [intros _; by rewrite app_nil_r|done]).
  { by injection H as <- <-. }
  cbn [write_chunks] in H. set (all := b :: data) in *.
  set (chunk := take _ all) in H.
  destruct (Windows.write_file name chunk w) as [[error|n] w1] eqn:E; apply write_file_files in E.
  { injection H as <- <-. rewrite E. done. }
  destruct E as [Hn Hf]. rewrite Hold in Hf. cbn [default] in Hf.
  assert (take (Z.to_nat n) chunk = take (Z.to_nat n) all) as Ht.
  { subst chunk. rewrite take_take. f_equal. rewrite length_take in Hn. lia. }
  destruct (n =? 0).
  { injection H as <- <-. split; [done|]. intros other Ho. by rewrite Hf, lookup_insert_ne. }
  apply (IH _ _ (old ++ take (Z.to_nat n) all)) in H as [Hr Ho].
  - split.
    + intros E. rewrite (Hr E). by rewrite <-(assoc_L (++)), take_drop.
    + intros other Hne. rewrite (Ho other Hne), Hf. by rewrite lookup_insert_ne.
  - rewrite Hf, Ht. apply lookup_insert_eq.
Qed.

(** A turn for every byte is enough: more turns change nothing. *)
Lemma write_chunks_fuel fuel name data w :
  (length data ≤ fuel)%nat → write_chunks fuel name data w = write_chunks (length data) name data w.
Proof.
  remember (length data) as turns eqn:Ht. intros Hle. assert (length data ≤ turns)%nat as Hdt by lia.
  clear Ht. revert fuel data w Hle Hdt.
  induction turns as [|turns IH]; intros fuel [|b data] w Hle Hdt; cbn [length] in Hdt;
    [by destruct fuel|lia|by destruct fuel|].
  destruct fuel as [|fuel]; [lia|]. cbn [write_chunks].
  destruct (Windows.write_file _ _ w) as [[error|n] w1] eqn:E; [done|].
  apply write_file_files in E as [Hn _].
  destruct (n =? 0) eqn:E0; [done|]. apply IH; [lia|]. rewrite length_drop. cbn [length]. lia.
Qed.

Lemma write_all_files name data w r w' old :
  windows_write_all name data w = (r, w') → ws_files w !! name = Some old →
  (r = None → ws_files w' !! name = Some (old ++ data)) ∧
  ∀ other, other ≠ name → ws_files w' !! other = ws_files w !! other.
Proof.
  unfold windows_write_all. destruct (write_chunks _ name data w) as [[error|] w1] eqn:E; intros H Hold.
  { injection H as <- <-. by apply (write_chunks_files _ _ _ _ _ _ old) in E. }
  apply (write_chunks_files _ _ _ _ _ _ old) in E as [Hr Ho]; [|done].
  unfold Windows.flush in H. pose proof (next_files w1) as Hn.
  destruct (Windows.next w1) as [answer w2]. cbn [snd] in Hn. rewrite <-Hn in Hr, Ho.
  destruct answer as [[n|error]|]; injection H as <- <-; split; auto; done.
Qed.

Lemma open_and_write_files truncate w path data r w' :
  windows_open_and_write truncate w path data = (r, w') →
  (r = None → to_wide (cv := cv) path ≠ [] ∧ ws_files w' !! to_wide (cv := cv) path =
     Some ((if truncate then [] else default [] (ws_files w !! to_wide (cv := cv) path)) ++ data)) ∧
  ∀ other, other ≠ to_wide (cv := cv) path → ws_files w' !! other = ws_files w !! other.
Proof.
  unfold windows_open_and_write. destruct (to_wide path) as [|c wide] eqn:Ew; [by intros [= <- <-]|].
  set (name := c :: wide). unfold Windows.create_file.
  pose proof (next_files w) as Hn. destruct (Windows.next w) as [answer w1]. cbn [snd] in Hn.
  assert (∀ w2, w2 = w1 <| ws_files ::= <[name := if truncate then [] else default [] (ws_files w1 !! name)]> |> →
    windows_write_all name data w2 = (r, w') →
    (r = None → name ≠ [] ∧ ws_files w' !! name =
      Some ((if truncate then [] else default [] (ws_files w !! name)) ++ data)) ∧
    ∀ other, other ≠ name → ws_files w' !! other = ws_files w !! other) as Hopen.
  { intros w2 -> H. eapply write_all_files in H as [Hr Ho]; [|cbn; apply lookup_insert_eq].
    rewrite Hn in Hr. split; [intros E; split; [done|by apply Hr]|].
    intros other Hne. rewrite (Ho other Hne). cbn. by rewrite lookup_insert_ne, Hn. }
  destruct answer as [[n|error]|]; [by apply Hopen| |by apply Hopen].
  intros [= <- <-]. split; [done|]. intros other _. by rewrite Hn.
Qed.

Lemma replace_files w source target r w' :
  windows_atomic_replace w source target = (r, w') →
  match r with
  | None => to_wide (cv := cv) source ≠ [] ∧ to_wide (cv := cv) target ≠ [] ∧
      ∃ data, ws_files w !! to_wide (cv := cv) source = Some data ∧
        ws_files w' = <[to_wide (cv := cv) target := data]>
                        (delete (to_wide (cv := cv) source) (ws_files w))
  | Some _ => ws_files w' = ws_files w
  end.
Proof.
  unfold windows_atomic_replace. destruct (to_wide source) as [|c1 s1]; [by intros [= <- <-]|].
  destruct (to_wide target) as [|c2 s2]; [by intros [= <- <-]|].
  unfold Windows.move_file. pose proof (next_files w) as Hn.
  destruct (Windows.next w) as [answer w1]. cbn [snd] in Hn. rewrite <-Hn.
  destruct answer as [[n|error]|]; [|by intros [= <- <-]|].
  all: destruct (ws_files w1 !! _) as [data|] eqn:Es; intros [= <- <-]; [|done].
  all: split_and!; [done..|]; exists data; by split.
Qed.

(** What a path holds. *)
Definition windows_content w (path : string) : option (list Z) :=
  if bool_decide (path = EmptyString) then None else windows_native w path.

Context `{!OneConversion cv}.

Lemma to_wide_native path : path ≠ EmptyString → to_wide (cv := cv) path = cv_native cv path.
Proof. destruct path; [done|]. intros H. unfold to_wide. by rewrite wide_is_native. Qed.

Lemma content_elsewhere w w' path :
  (∀ other, other ≠ to_wide (cv := cv) path → ws_files w' !! other = ws_files w !! other) →
  ∀ other, other ≠ path → windows_content w' other = windows_content w other.
Proof.
  intros H other Hne. unfold windows_content, windows_native. case_bool_decide as E; [done|].
  apply H. destruct (decide (path = EmptyString)) as [->|Hp]; [by apply native_nonempty|].
  rewrite to_wide_native by done. intros Hn. by apply Hne, native_injective.
Qed.

Lemma windows_write_content truncate w path data r w' :
  windows_open_and_write truncate w path data = (r, w') →
  (r = None → windows_content w' path =
     Some ((if truncate then [] else default [] (windows_content w path)) ++ data)) ∧
  ∀ other, other ≠ path → windows_content w' other = windows_content w other.
Proof.
  intros H. apply open_and_write_files in H as [Hr Ho]. split; [|by eapply content_elsewhere].
  intros E. destruct (Hr E) as [Hw Hc]. unfold windows_content, windows_native.
  case_bool_decide as Ep; [by subst|]. rewrite to_wide_native in Hc by done. exact Hc.
Qed.

Lemma windows_replace_content w source target r w' :
  windows_atomic_replace w source target = (r, w') →
  match r with
  | None => windows_content w' target = windows_content w source ∧
      ∀ other, other ≠ source → other ≠ target → windows_content w' other = windows_content w other
  | Some _ => ∀ other, windows_content w' other = windows_content w other
  end.
Proof.
  intros H. apply replace_files in H. unfold windows_content, windows_native.
  destruct r as [error|]; [by rewrite H|]. destruct H as (Hs & Ht & data & Hd & ->).
  assert (source ≠ EmptyString) as Hs0 by (by intros ->).
  assert (target ≠ EmptyString) as Ht0 by (by intros ->).
  rewrite !to_wide_native in * by done. rewrite !bool_decide_eq_false_2 by done.
  rewrite lookup_insert_eq. split; [done|]. intros other Hos Hot. case_bool_decide as E; [done|].
  rewrite lookup_insert_ne, lookup_delete_ne; [done|..]; intros Hn; by apply native_injective in Hn.
Qed.

End contract.

(** The contract of the store's files, for every machine that converts paths in one way. *)
#[export] Instance windows_files_laws cv `{!OneConversion cv} : FileSystemLaws (Windows cv).
Proof.
  refine {| content := windows_content |}.
  - intros w path data r w' E. by apply (windows_write_content true) in E.
  - intros w path data r w' E. by apply (windows_write_content false) in E.
  - intros w source target r w' E. by apply windows_replace_content.
  - intros w path b. cbn. unfold windows_file_exists, windows_content. case_bool_decide; [done|].
    destruct (ws_exists_fails w path); [done|]. by intros [= <-].
Defined.

(** ** The store on such a machine *)

(** Paths of single-byte characters: each becomes one wide character. *)
Definition byte_paths : Conversion := mkConversion (λ path, Some (as_bytes path)) as_bytes.

#[export] Instance byte_paths_one : OneConversion byte_paths.
Proof.
  split; [done|by intros [|c path]|]. intros path other _ _. apply as_bytes_inj.
Qed.

(** Whatever the calls answer and whatever history is served, the files of a store that still
    knows what it holds load to the live records. *)
Lemma windows_store_recovers config (store : FileStore (Windows byte_paths)) initial
    (im : Impl (FileStore (Windows byte_paths))) (qs : list request) s bound :
  faithful store → initialize config (Some (store, Ok initial)) = Ok im → plane_inv initial →
  cfg_require_durable_commits config = true →
  im_store (run qs im) = Some s → is_Some (st_held s) →
  record_count (im_plane (run qs im)) ≤ bound →
  readable (st_files s) (snapshot_path s) → readable (st_files s) (journal_path s) →
  ∃ loaded, load (mkFileStore (st_directory s) (st_files s) (st_held s)) bound = Ok loaded ∧
    same_records loaded (im_plane (run qs im)).
Proof.
  intros Hf Hi Hp Hc Hs [held Hh] Hb Rs Rj.
  apply (load_live_files config store initial im qs s held (st_files s) torn_entry 0 bound); try done.
  - destruct (content (st_files s) (journal_path s)); [|done]. cbn. by rewrite app_nil_r.
  - apply Nat.ltb_lt. vm_compute. reflexivity.
Qed.

(** A machine whose calls move few bytes. *)
Definition demo_windows : Windows byte_paths :=
  mkWindows ∅ [Wrote 1; Wrote 3; Wrote 100; Wrote 2; Wrote 7] (λ _, Readable) (λ _, false) "".

Lemma windows_writes_the_rest :
  let '(r, w) := windows_write_file_durable demo_windows "C:\ccsf\control.journal" [1; 2; 3; 4; 5; 6] in
  r = None ∧ windows_content w "C:\ccsf\control.journal" = Some [1; 2; 3; 4; 5; 6].
Proof. vm_compute. split; reflexivity. Qed.

(** ** What the code does not do *)

(** Where the narrow conversion of [std::filesystem::path] is not UTF-8, a file that was written
    is reported as absent. *)
Lemma written_file_is_not_found {cv} (w w' : Windows cv) path wide data answer :
  path ≠ EmptyString → cv_wide cv path = Some wide → wide ≠ cv_native cv path →
  ws_files w !! cv_native cv path = None →
  windows_write_file_durable w path data = (None, w') →
  windows_file_exists w' path = inr answer → answer = false.
Proof.
  intros Hp Hw Hne Hn H He. apply open_and_write_files in H as [_ Ho].
  assert (to_wide (cv := cv) path = wide) as E by (unfold to_wide; destruct path; [done|by rewrite Hw]).
  unfold windows_file_exists in He. rewrite bool_decide_eq_false_2 in He by done.
  destruct (ws_exists_fails w' path); [done|]. injection He as <-. unfold windows_native.
  rewrite Ho by congruence. by rewrite Hn.
Qed.
