(* ===== verification/Transactions.v ===== *)
(** * Replication and migration transactions

    What a successful commit leaves in the control plane, what it refuses, and the
    bound on authoritative replicas. *)

From S2P Require Import Prelude Taxonomy Model Cost ModelOps Authority ControlPlane Effects.
From S2P Require Import Consistency FabricCore MutationLogic FabricState FabricReplica FabricOps.
From S2P Require Import Lifecycle Fabric Engine Admissible Ownership Recovery Invariants Fencing.
From S2P Require Import Scenario.

Local Open Scope Z_scope.

(** ** The replicas a commit writes *)

(** One replica written by [plan_effects] followed by effects [fs]. *)
Inductive commit_write (p : ControlPlane) (target committed : ReplicaRecord) (fs : list Effect)
    : ReplicaRecord → Prop :=
  | write_committed : commit_write p target committed fs committed
  | write_demoted id prev tick text :
      find_replica p id = Some prev → id ≠ rp_replica_id target →
      commit_write p target committed fs (demoted_owner p tick text prev)
  | write_tail r : PUT_REPLICA r ∈ fs → commit_write p target committed fs r.

Lemma plan_writes p tick commit set make target fs r :
  PUT_REPLICA r ∈ plan_effects p tick commit set make target ++ fs →
  commit_write p target (authoritative_replica p tick commit set make target) fs r.
Proof.
  unfold plan_effects. rewrite !elem_of_app, !elem_of_cons, elem_of_nil.
  intros [[Hm|[[= ->]|[Hb|[]]]]|Hf]; [|by constructor|discriminate Hb|by constructor].
  destruct make; [|by apply elem_of_nil in Hm].
  apply elem_of_app in Hm as [Hm|Hm]; [|by apply list_elem_of_singleton in Hm].
  unfold commit_demotions, demotions in Hm.
  destruct (pl_ownership p !! _) as [o|]; [|by apply elem_of_nil in Hm].
  destruct (owned_by_another (Some o) _) eqn:Ho; [|by apply elem_of_nil in Hm].
  destruct (find_replica p (ow_owner_replica o)) as [prev|] eqn:Hp; [|by apply elem_of_nil in Hm].
  destruct (replica_is_terminal prev); [by apply elem_of_nil in Hm|].
  apply list_elem_of_singleton in Hm as [= ->].
  eapply write_demoted; [exact Hp|]. simpl in Ho. lia.
Qed.

(** The record under an identity after effects that write it. *)
Lemma lookup_written p es id r :
  pl_replicas (apply_all p es) !! id = Some r →
  (PUT_REPLICA r ∈ es ∧ rp_replica_id r = id) ∨
  (pl_replicas p !! id = Some r ∧ ∀ r', PUT_REPLICA r' ∈ es → rp_replica_id r' ≠ id).
Proof.
  rewrite apply_all_replicas. intros [[Hin ?]|[? Hn]]%lookup_put_all_inv.
  - left. by put_inv Hin.
  - right. split; [done|]. intros r' Hr'. apply Hn. by eapply elem_of_omap_intro.
Qed.

Lemma written_is_Some p es r :
  PUT_REPLICA r ∈ es → is_Some (pl_replicas (apply_all p es) !! rp_replica_id r).
Proof.
  intros Hr. rewrite apply_all_replicas. apply put_all_written. by eapply elem_of_omap_intro.
Qed.

(** The replica a commit retires, if any. *)
Lemma retirement_write p commit tick existing committed op cs r :
  PUT_REPLICA r ∈ retirement_effects p commit tick existing committed ++
    [PUT_OPERATION op; PUT_COUNTERS cs] →
  ∃ source, source_to_retire p existing commit committed = Some source ∧
    r = retired_source p tick source.
Proof.
  unfold retirement_effects. rewrite elem_of_app, !elem_of_cons, elem_of_nil.
  intros [Hr|[?|[?|[]]]]; [|done|done].
  destruct (source_to_retire p existing commit committed) as [source|]; [|by apply elem_of_nil in Hr].
  exists source. split; [done|]. rewrite !elem_of_cons, elem_of_nil in Hr.
  destruct Hr as [[= ->]|[?|[]]]; done.
Qed.

Section commit.
Context (p : ControlPlane) (Hp : plane_inv p) (config : FabricConfig) (commit : OperationCommit).
Context (existing : OperationRecord) (target : ReplicaRecord) (state : StateGenerationRecord)
  (set : ReplicaSetRecord) (Hready : commit_ready p config commit existing target state set).
Context (tick : Z) (op : OperationRecord) (counters : FabricCounters).

Let make := commit_makes_owner existing state.
Let committed := authoritative_replica p tick (oc_commit_id commit) set make target.
Let tail := retirement_effects p commit tick existing committed ++
  [PUT_OPERATION op; PUT_COUNTERS counters].
Let effects := plan_effects p tick (oc_commit_id commit) set make target ++ tail.

Lemma target_id : rp_replica_id target = op_destination_replica existing.
Proof. apply (find_replica_id p Hp), (cr_target _ _ _ _ _ _ _ Hready). Qed.

Lemma tail_write r :
  PUT_REPLICA r ∈ tail →
  ∃ source, source_to_retire p existing commit committed = Some source ∧
    r = retired_source p tick source.
Proof. apply retirement_write. Qed.

Lemma source_to_retire_inv source :
  source_to_retire p existing commit committed = Some source →
  op_destructive_move existing = true ∧ oc_retire_source commit = true ∧
  find_replica p (op_source_replica existing) = Some source ∧
  rp_replica_id source = op_source_replica existing ∧
  rp_replica_id source ≠ rp_replica_id target.
Proof.
  unfold source_to_retire. destruct (_ && _) eqn:E; [|done].
  destruct (find_replica p (op_source_replica existing)) as [s|] eqn:Hs; [|done].
  destruct (negb _ && negb _) eqn:En; [|done]. intros [= ->].
  apply andb_true_iff in E as [-> ->].
  apply andb_true_iff in En as [_ En]. apply negb_true_iff, Z.eqb_neq in En.
  split_and!; try done. by apply (find_replica_id p Hp).
Qed.

Lemma committed_lookup :
  pl_replicas (apply_all p effects) !! op_destination_replica existing = Some committed.
Proof.
  rewrite <-target_id.
  assert (PUT_REPLICA committed ∈ effects) as Hin.
  { unfold effects, plan_effects. rewrite !elem_of_app. left. right. by left. }
  destruct (written_is_Some p effects committed Hin) as [r Hr].
  assert (rp_replica_id committed = rp_replica_id target) as Hc by done.
  rewrite Hc in Hr. rewrite Hr. f_equal.
  apply lookup_written in Hr as [[Hw Hid]|[_ Hn]]; [|by destruct (Hn _ Hin)].
  apply plan_writes in Hw.
  inversion Hw as [Hq|id prev t text Hprev Hne Hq|r' Ht Hq]; subst r; [done| |].
  - change (rp_replica_id prev = rp_replica_id target) in Hid.
    by rewrite (find_replica_id p Hp _ _ Hprev) in Hid.
  - apply tail_write in Ht as (source & Hs & ->). apply source_to_retire_inv in Hs.
    change (rp_replica_id source = rp_replica_id target) in Hid. tauto.
Qed.

(** Nothing but the source of a destructive move that asked for it is retired. *)
Lemma commit_retires id r :
  find_replica p id = Some r → replica_is_terminal r = false →
  ∃ r', find_replica (apply_all p effects) id = Some r' ∧
    (replica_is_terminal r' = true →
     id = op_source_replica existing ∧ oc_retire_source commit = true ∧
     op_destructive_move existing = true).
Proof.
  intros Hr Ht. pose proof (find_replica_id p Hp _ _ Hr) as Hid.
  destruct (le_replicas _ _ (apply_all_le effects p) id) as [r' Hr']; [by eexists|].
  exists r'. split; [done|]. intros Ht'.
  apply lookup_written in Hr' as [[Hw Hid']|[Hr' _]]; [|unfold find_replica in Hr; congruence].
  apply plan_writes in Hw.
  inversion Hw as [Hq|i prev t text Hprev Hne Hq|r0 Htail Hq]; subst r'.
  - done.
  - change (rp_replica_id prev = id) in Hid'. rewrite (find_replica_id p Hp _ _ Hprev) in Hid'.
    subst i. assert (prev = r) as -> by congruence.
    change (replica_is_terminal r = true) in Ht'. congruence.
  - apply tail_write in Htail as (source & Hs & ->). apply source_to_retire_inv in Hs.
    change (rp_replica_id source = id) in Hid'. destruct Hs as (?&?&_&<-&_). done.
Qed.

(** A live source the commit was asked to retire is retired by the same mutation. *)
Lemma commit_retires_source source :
  op_destructive_move existing = true → oc_retire_source commit = true →
  find_replica p (op_source_replica existing) = Some source → replica_is_terminal source = false →
  op_source_replica existing ≠ op_destination_replica existing →
  pl_replicas (apply_all p effects) !! op_source_replica existing =
    Some (retired_source p tick source).
Proof.
  intros Hd Ho Hs Ht Hne. pose proof (find_replica_id p Hp _ _ Hs) as Hid.
  assert (source_to_retire p existing commit committed = Some source) as Hret.
  { unfold source_to_retire. rewrite Hd, Ho, Hs, Ht. simpl.
    change (rp_replica_id committed) with (rp_replica_id target). rewrite Hid, target_id.
    by destruct (Z.eqb_spec (op_source_replica existing) (op_destination_replica existing)). }
  rewrite apply_all_replicas, lookup_put_all. unfold effects, tail, retirement_effects.
  rewrite Hret, !omap_app. simpl. rewrite last_put_snoc.
  change (rp_replica_id (retired_source p tick source)) with (rp_replica_id source).
  by rewrite Hid, decide_True.
Qed.

Lemma committed_operation_lookup :
  op_operation_id op = op_operation_id existing →
  pl_operations (apply_all p effects) !! oc_operation_id commit = Some op.
Proof.
  intros Hid. pose proof (cr_operation _ _ _ _ _ _ _ Hready) as Ho.
  apply (keyed_operation _ (inv_keyed _ Hp)) in Ho. rewrite Ho in Hid.
  rewrite apply_all_operations, lookup_put_all. unfold effects, tail.
  rewrite app_assoc, omap_app. simpl. by rewrite last_put_snoc, Hid, decide_True.
Qed.
End commit.

(** ** Counting authoritative replicas *)

Definition counted (p : ControlPlane) (key : Z * Z) : list ReplicaRecord :=
  List.filter replica_counts_toward_replication_factor (live_members p key).

Lemma elem_of_counted p key r :
  r ∈ counted p key ↔
  r ∈ values (pl_replicas p) ∧ replica_state_key r = key ∧
  replica_counts_toward_replication_factor r = true.
Proof.
  unfold counted, live_members, generation_replicas.
  rewrite !list_elem_of_In, !filter_In, bool_decide_eq_true, negb_true_iff.
  split; [tauto|]. intros (?&?&Hc). split_and!; try done.
  unfold replica_counts_toward_replication_factor, replica_is_terminal in *.
  by destruct (rp_lifecycle r); repeat case_match.
Qed.

Lemma counted_NoDup p key : plane_inv p → NoDup (map rp_replica_id (counted p key)).
Proof.
  intros Hp. pose proof (values_replica_ids p Hp) as Hv.
  unfold counted, live_members, generation_replicas.
  induction (values (pl_replicas p)) as [|r l IH]; [constructor|].
  simpl in Hv. apply list.NoDup_cons in Hv as [Hn Hv]. simpl.
  repeat (case_match; simpl; [|auto]). apply list.NoDup_cons. split; [|auto].
  intros Hin. apply Hn. rewrite !list_elem_of_In, in_map_iff in *.
  destruct Hin as (r' & ? & Hr'). exists r'. split; [done|].
  apply filter_In in Hr' as [Hr' _]. apply filter_In in Hr' as [Hr' _]. by apply filter_In in Hr' as [? _].
Qed.

Lemma recompute_count s :
  rs_authoritative_count (recompute_replica_set s) =
  u32 (Z.of_nat (length (List.filter rm_authoritative (rs_authoritative_members s)))).
Proof. unfold recompute_replica_set. by repeat case_match. Qed.

Lemma rebuild_count p s :
  rs_authoritative_count (rebuild_replica_set p s) = u32 (Z.of_nat (length (counted p (set_key s)))).
Proof.
  unfold rebuild_replica_set. rewrite recompute_count. simpl. do 2 f_equal. unfold counted.
  assert (∀ l, List.filter rm_authoritative (map make_member
    (List.filter replica_counts_toward_replication_factor l)) =
    map make_member (List.filter replica_counts_toward_replication_factor l)) as ->.
  { induction l as [|r l IH]; [done|]. simpl.
    destruct (replica_counts_toward_replication_factor r) eqn:E; [|done]. simpl. by rewrite E, IH. }
  apply length_map.
Qed.

Lemma counted_length_le p q key extra :
  plane_inv q →
  (∀ r, r ∈ counted q key → rp_replica_id r = extra ∨
     ∃ r0, r0 ∈ counted p key ∧ rp_replica_id r0 = rp_replica_id r) →
  (length (counted q key) ≤ S (length (counted p key)))%nat.
Proof.
  intros Hq Hsub. rewrite <-(length_map rp_replica_id (counted q key)).
  rewrite <-(length_map rp_replica_id (counted p key)).
  change (S (length (map rp_replica_id (counted p key)))) with
    (length (extra :: map rp_replica_id (counted p key))).
  apply NoDup_incl_length; [apply NoDup_ListNoDup, counted_NoDup; done|].
  intros id (r & <- & Hr)%in_map_iff. apply list_elem_of_In in Hr.
  destruct (Hsub r Hr) as [->|(r0 & H0 & <-)]; [by left|]. right.
  apply in_map_iff. exists r0. split; [done|]. by apply list_elem_of_In.
Qed.

(** A commit adds at most its target to the counted replicas of a generation. *)
Lemma plan_counted p tick commit set make target id fs key :
  plane_inv p → find_replica p id = Some target →
  plane_inv (apply_all p (plan_effects p tick commit set make target ++ fs)) →
  (∀ r, PUT_REPLICA r ∈ fs → rp_counts_toward_factor r = false) →
  (length (counted (apply_all p (plan_effects p tick commit set make target ++ fs)) key) ≤
   S (length (counted p key)))%nat.
Proof.
  intros Hp Ht Hq Hfs. apply counted_length_le with (rp_replica_id target); [done|].
  intros r ([i Hr]%elem_of_values & Hk & Hc)%elem_of_counted.
  apply lookup_written in Hr as [[Hw Hid]|[Hr _]].
  - apply plan_writes in Hw.
    inversion Hw as [Hq1|j prev t text Hprev Hne Hq1|r0 Htail Hq1]; subst r.
    + by left.
    + right. exists prev. split; [|done]. apply elem_of_counted. split; [|done].
      apply elem_of_values. by eexists.
    + apply Hfs in Htail. unfold replica_counts_toward_replication_factor in Hc.
      by rewrite Htail, orb_true_r in Hc.
  - right. exists r. split; [|done]. apply elem_of_counted. split; [|done].
    apply elem_of_values. by eexists.
Qed.

(** ** Commits through the engine *)

Section exec_commit.
Context {S : Type} `{PersistenceStore S} (im im' : Impl S) (commit : OperationCommit).

Lemma void_Ok {A} (m : M A) mu u mu' : void m mu = (Ok u, mu') → ∃ a, m mu = (Ok a, mu').
Proof.
  unfold void, mbind, mret. destruct (m mu) as [[a|c] mu1]; [|done]. intros [= _ <-]. eauto.
Qed.

(** A commit that succeeded on a running operation, read as its effects. *)
Lemma exec_commit_operation existing :
  reachable im → exec (CommitOperation commit) im = (Ok tt, im') →
  find_operation (im_plane im) (oc_operation_id commit) = Some existing →
  operation_is_terminal existing = false →
  ∃ target state set op counters,
    let p := im_plane im in
    let tick := mu_tick (start_mutation p) in
    let make := commit_makes_owner existing state in
    let committed := authoritative_replica p tick (oc_commit_id commit) set make target in
    commit_ready p (im_config im) commit existing target state set ∧
    op_state op = OS.COMPLETE ∧ op_commit_id op = oc_commit_id commit ∧
    op_operation_id op = op_operation_id existing ∧
    op_operation_generation op = op_operation_generation existing ∧
    same_records (im_plane im')
      (apply_all p (plan_effects p tick (oc_commit_id commit) set make target ++
         retirement_effects p commit tick existing committed ++
         [PUT_OPERATION op; PUT_COUNTERS counters])).
Proof.
  intros Hr He Hex Ht. unfold exec in He.
  destruct (mutate_Ok_records (body (CommitOperation commit)) im tt) as (mu & Hb & Hs).
  { by rewrite He. }
  rewrite He in Hs. apply void_Ok in Hb as [op Hb].
  apply commit_operation_run in Hb as [(Ho & Hterm & _)|
    (ex & target & state & set & counters & Hready & H1 & H2 & _ & H3 & H4 & _ & (Hext & _))].
  { congruence. }
  assert (ex = existing) as -> by (pose proof (cr_operation _ _ _ _ _ _ _ Hready); congruence).
  exists target, state, set, op, counters. cbn [snd] in Hs. rewrite Hext in Hs. done.
Qed.
End exec_commit.

Lemma commit_operation_guards p config commit mu op mu' :
  commit_operation commit p config mu = (Ok op, mu') →
  ∃ existing, find_operation p (oc_operation_id commit) = Some existing ∧
    mismatched (oc_expected_coordinator_epoch commit) (pl_coordinator_epoch p) = false ∧
    mismatched (oc_operation_generation commit) (op_operation_generation existing) = false.
Proof.
  unfold commit_operation. intros H.
  apply mbind_Ok in H as (existing & ? & [He ->]%require_Ok & H).
  apply mbind_Ok in H as (? & ? & [H1 ->]%refuse_if_Ok & H).
  apply mbind_Ok in H as (? & ? & [H2 ->]%refuse_if_Ok & H). eauto.
Qed.

(** A completed operation answers its own commit again, and nothing is written. *)
Lemma commit_operation_again p config commit op mu :
  find_operation p (oc_operation_id commit) = Some op → op_state op = OS.COMPLETE →
  op_commit_id op = oc_commit_id commit →
  mismatched (oc_expected_coordinator_epoch commit) (pl_coordinator_epoch p) = false →
  mismatched (oc_operation_generation commit) (op_operation_generation op) = false →
  commit_operation commit p config mu = (Ok op, mu).
Proof.
  intros Ho Hs Hc He Hg. unfold commit_operation. rewrite Ho. cbn [require].
  unfold mbind at 1. cbn [mret]. rewrite He. unfold mbind at 1. cbn [refuse_if mret].
  rewrite Hg. unfold mbind at 1. cbn [refuse_if mret].
  unfold operation_is_terminal. rewrite Hs. cbn [operation_state_is_terminal].
  by rewrite Hc, Z.eqb_refl.
Qed.

Lemma plan_no_epoch p tick commit set make target :
  omap set_epoch (plan_effects p tick commit set make target) = [].
Proof.
  unfold plan_effects, commit_demotions, demotions, bump_replica_set_effect.
  destruct make; [|done]. by repeat case_match.
Qed.

Lemma commit_epoch_unchanged p tick c set make target commit existing committed op cs :
  pl_coordinator_epoch (apply_all p (plan_effects p tick c set make target ++
    retirement_effects p commit tick existing committed ++ [PUT_OPERATION op; PUT_COUNTERS cs])) =
  pl_coordinator_epoch p.
Proof.
  rewrite apply_all_epoch, !omap_app, plan_no_epoch. unfold retirement_effects.
  by destruct (source_to_retire p existing commit committed).
Qed.

Lemma exec_idle {S} `{PersistenceStore S} q (im : Impl S) :
  im_shutting_down im = false →
  body q (im_plane im) (im_config im) (start_mutation (im_plane im)) =
    (Ok tt, start_mutation (im_plane im)) →
  (exec q im).1 = Ok tt ∧ same_records (im_plane (exec q im).2) (im_plane im).
Proof.
  intros Hs Hb. unfold exec, mutate. rewrite Hs, Hb. unfold persist_and_apply. simpl.
  split; [done|]. apply observe_tick_records.
Qed.

(** ** Properties *)

(** C26: a successful commit makes the destination authoritative.  When the commit of
    a running replication or migration succeeds, the same mutation leaves the
    operation complete under the commit identity and the destination replica
    counted toward the replication factor; before it, the destination was
    prepared, verified, compatible, free of pending revalidation and on a live
    cluster of the incarnation it was written under. *)
Theorem commit_installs_destination {S} `{PersistenceStore S} (im im' : Impl S) commit existing :
  reachable im → exec (CommitOperation commit) im = (Ok tt, im') →
  find_operation (im_plane im) (oc_operation_id commit) = Some existing →
  operation_is_terminal existing = false →
  (∃ target state set,
     commit_ready (im_plane im) (im_config im) commit existing target state set) ∧
  (∃ op, find_operation (im_plane im') (oc_operation_id commit) = Some op ∧
     op_state op = OS.COMPLETE ∧ op_commit_id op = oc_commit_id commit) ∧
  (∃ r, find_replica (im_plane im') (op_destination_replica existing) = Some r ∧
     replica_counts_toward_replication_factor r = true ∧ rp_commit_id r = oc_commit_id commit).
Proof.
  intros Hr He Ho Ht.
  destruct (exec_commit_operation im im' commit existing Hr He Ho Ht)
    as (target & state & set & op & cs & Hready & H1 & H2 & H3 & _ & Hs).
  pose proof (reachable_inv im Hr) as Hp.
  split; [by exists target, state, set|]. unfold find_operation, find_replica.
  rewrite (same_operations _ _ Hs), (same_replicas _ _ Hs). split.
  - exists op. split; [|done]. by eapply committed_operation_lookup.
  - eexists. split; [by eapply committed_lookup|]. done.
Qed.

Lemma commit_installs_destination_witness :
  let im := after migration in
  let im' := (exec (CommitOperation demo_operation_commit) im).2 in
  ∃ r, find_replica (im_plane im') 906 = Some r ∧
    replica_counts_toward_replication_factor r = true ∧ rp_commit_id r = 990.
Proof.
  intros im im'.
  destruct (find_operation (im_plane im) 902) as [o|] eqn:Eo; [|vm_compute in Eo; discriminate Eo].
  destruct (commit_installs_destination im im' demo_operation_commit o) as (_ & _ & r & Hr & Hc).
  - apply demo_reachable.
  - vm_compute. reflexivity.
  - exact Eo.
  - vm_compute in Eo. injection Eo as <-. reflexivity.
  - exists r. split; [|exact Hc]. vm_compute in Eo. injection Eo as <-. exact Hr.
Defined.



(** A stale plan is not committed.  If the replica set generation moved after an
    operation was authorized, its commit is refused and changes nothing. *)
Theorem moved_replica_set_refuses_commit {S} `{PersistenceStore S} (im : Impl S) commit existing set :
  im_shutting_down im = false →
  find_operation (im_plane im) (oc_operation_id commit) = Some existing →
  operation_is_terminal existing = false →
  find_replica_set (im_plane im) (op_state_id existing) (op_state_generation existing) = Some set →
  op_source_replica_set_generation existing ≠ 0 →
  rs_generation set ≠ op_source_replica_set_generation existing →
  ∃ code, exec (CommitOperation commit) im = (Err code, im).
Proof.
  intros Hs Ho Ht Hset H0 Hne. apply exec_refused; [done|].
  unfold body, void, commit_operation, require_state. apply refuses_assoc.
  apply refuses_require. intros a Ha. rewrite Ho in Ha. injection Ha as <-.
  do 2 (apply refuses_assoc, refuses_refuse_if; intros _). rewrite Ht.
  apply refuses_assoc, refuses_refuse_if. intros _.
  do 2 (apply refuses_assoc, refuses_require; intros ? _).
  apply refuses_assoc, refuses_require. intros b Hb. rewrite Hset in Hb. injection Hb as <-.
  apply refuses_assoc, refuses_guard. unfold valid. lia.
Qed.

(** The source is quarantined after the migration was authorized: the set moved. *)
Definition moved_set : list request :=
  migration ++ [QuarantineReplica (ReplicaTransition_default <| rt_replica_id := 100 |>)].

Lemma moved_replica_set_refuses_commit_witness :
  ∃ code, exec (CommitOperation demo_operation_commit) (after moved_set) = (Err code, after moved_set).
Proof.
  destruct (find_operation (im_plane (after moved_set)) 902) as [o|] eqn:Eo;
    [|vm_compute in Eo; discriminate Eo].
  destruct (find_replica_set (im_plane (after moved_set)) 5 1) as [s|] eqn:Es;
    [|vm_compute in Es; discriminate Es].
  apply (moved_replica_set_refuses_commit (after moved_set) demo_operation_commit o s);
    [vm_compute; reflexivity|exact Eo|..];
    vm_compute in Eo, Es; injection Eo as <-; injection Es as <-;
    vm_compute; first [reflexivity|discriminate].
Defined.

(** Commits are idempotent.  Repeating a commit that succeeded succeeds again and
    leaves the records as they are, so a client that lost the answer may retry. *)
Theorem repeated_commit_is_idempotent {S} `{PersistenceStore S} (im im' : Impl S) commit existing :
  reachable im → exec (CommitOperation commit) im = (Ok tt, im') →
  find_operation (im_plane im) (oc_operation_id commit) = Some existing →
  operation_is_terminal existing = false →
  (exec (CommitOperation commit) im').1 = Ok tt ∧
  same_records (im_plane (exec (CommitOperation commit) im').2) (im_plane im').
Proof.
  intros Hr He Ho Ht.
  destruct (exec_commit_operation im im' commit existing Hr He Ho Ht)
    as (target & state & set & op & cs & Hready & H1 & H2 & H3 & H4 & Hs).
  pose proof (reachable_inv im Hr) as Hp.
  destruct (mutate_Ok_records (body (CommitOperation commit)) im tt) as (mu & Hb & _).
  { unfold exec in He. by rewrite He. }
  apply void_Ok in Hb as [op' Hb].
  apply commit_operation_guards in Hb as (ex & Hex & Hep & Hgen).
  rewrite Ho in Hex. injection Hex as <-.
  assert (im_shutting_down im' = false) as Hdown.
  { pose proof (mutate_frame (body (CommitOperation commit)) im) as [_ Hf].
    unfold exec in He. rewrite He in Hf. simpl in Hf. rewrite Hf.
    destruct (im_shutting_down im) eqn:E; [|done]. unfold mutate in He. by rewrite E in He. }
  apply exec_idle; [done|].
  assert (commit_operation commit (im_plane im') (im_config im') (start_mutation (im_plane im')) =
    (Ok op, start_mutation (im_plane im'))) as Hc.
  { apply commit_operation_again; try done.
    - unfold find_operation. rewrite (same_operations _ _ Hs). by eapply committed_operation_lookup.
    - rewrite (same_epoch _ _ Hs). by rewrite commit_epoch_unchanged.
    - by rewrite H4. }
  unfold body, void, mbind. by rewrite Hc.
Qed.

Lemma repeated_commit_is_idempotent_witness :
  (exec (CommitOperation demo_operation_commit) (after migrated)).1 = Ok tt.
Proof.
  destruct (find_operation (im_plane (after migration)) 902) as [o|] eqn:Eo;
    [|vm_compute in Eo; discriminate Eo].
  apply (repeated_commit_is_idempotent (after migration) (after migrated) demo_operation_commit o).
  - apply demo_reachable.
  - vm_compute. reflexivity.
  - exact Eo.
  - vm_compute in Eo. injection Eo as <-. reflexivity.
Defined.

(** ** The replication bound *)

Lemma counted_length_size p key : (length (counted p key) ≤ size (pl_replicas p))%nat.
Proof.
  rewrite <-length_values. unfold counted, live_members, generation_replicas.
  etrans; [apply filter_length_le|]. etrans; [apply filter_length_le|]. apply filter_length_le.
Qed.

Lemma retirement_uncounted p commit tick existing committed op cs r :
  PUT_REPLICA r ∈ retirement_effects p commit tick existing committed ++
    [PUT_OPERATION op; PUT_COUNTERS cs] → rp_counts_toward_factor r = false.
Proof.
  by intros (source & _ & ->)%retirement_write.
Qed.

(** C29: the replication bound.  A commit is only accepted while the generation holds
    fewer authoritative replicas than its policy allows, and adds at most one, so
    the rebuilt count afterwards is within the maximum (for fewer than 2^32 - 1
    replicas, where the 32-bit count does not wrap). *)
Theorem commit_respects_replica_maximum {S} `{PersistenceStore S} (im im' : Impl S) commit existing
    set :
  reachable im → exec (CommitOperation commit) im = (Ok tt, im') →
  find_operation (im_plane im) (oc_operation_id commit) = Some existing →
  operation_is_terminal existing = false →
  find_replica_set (im_plane im') (op_state_id existing) (op_state_generation existing) = Some set →
  Z.of_nat (size (pl_replicas (im_plane im))) < 2 ^ 32 - 1 →
  rs_authoritative_count (rebuild_replica_set (im_plane im') set) ≤
  maximum_authoritative
    (resolve_replication_policy (im_plane im) (im_config im) (op_replication_policy_id existing)).
Proof.
  intros Hr He Ho Ht Hset Hsize.
  destruct (exec_commit_operation im im' commit existing Hr He Ho Ht)
    as (target & state & set0 & op & cs & Hready & _ & _ & _ & _ & Hs).
  pose proof (reachable_inv im Hr) as Hp.
  assert (plane_inv (im_plane im')) as Hq.
  { pose proof (exec_inv (CommitOperation commit) im Hp) as Hq. by rewrite He in Hq. }
  pose proof (keyed_set _ (inv_keyed _ Hq) _ _ Hset) as Hk.
  pose proof (keyed_set _ (inv_keyed _ Hp) _ _ (cr_set _ _ _ _ _ _ _ Hready)) as Hk0.
  pose proof (cr_room _ _ _ _ _ _ _ Hready) as Hroom.
  rewrite rebuild_count, Hk0 in Hroom. rewrite rebuild_count, Hk.
  set (key := (op_state_id existing, op_state_generation existing)) in *.
  assert (length (counted (im_plane im') key) ≤ Datatypes.S (length (counted (im_plane im) key)))%nat
    as Hle.
  { assert (∀ p q, same_records p q → counted p key = counted q key) as Hcong.
    { intros p q E. unfold counted, live_members, generation_replicas.
      by rewrite (same_replicas _ _ E). }
    rewrite (Hcong _ _ Hs). eapply plan_counted; [done|apply (cr_target _ _ _ _ _ _ _ Hready)| |].
    - by rewrite <-Hs.
    - intros r. apply retirement_uncounted. }
  pose proof (counted_length_size (im_plane im) key) as Hn.
  unfold u32 in *. rewrite Z.mod_small in Hroom by lia. rewrite Z.mod_small by lia. lia.
Qed.

Lemma commit_respects_replica_maximum_witness :
  ∃ set, find_replica_set (im_plane (after migrated)) 5 1 = Some set ∧
    rs_authoritative_count (rebuild_replica_set (im_plane (after migrated)) set) ≤ 8.
Proof.
  destruct (find_operation (im_plane (after migration)) 902) as [o|] eqn:Eo;
    [|vm_compute in Eo; discriminate Eo].
  destruct (find_replica_set (im_plane (after migrated)) 5 1) as [s|] eqn:Es;
    [|vm_compute in Es; discriminate Es].
  exists s. split; [reflexivity|].
  pose proof (commit_respects_replica_maximum (after migration) (after migrated)
    demo_operation_commit o s) as H.
  transitivity (maximum_authoritative (resolve_replication_policy (im_plane (after migration))
    (im_config (after migration)) (op_replication_policy_id o)));
    [|vm_compute in Eo; injection Eo as <-; vm_compute; discriminate].
  apply H.
  - apply demo_reachable.
  - vm_compute. reflexivity.
  - exact Eo.
  - vm_compute in Eo. injection Eo as <-. reflexivity.
  - rewrite <-Es. vm_compute in Eo. injection Eo as <-. reflexivity.
  - vm_compute. reflexivity.
Defined.
