(* ===== verification/Staging.v ===== *)
(** * Staged copies carry no authority

    Registration, transfer progress and transfer completion never change which
    replicas count toward the replication factor, nor the replica set generation
    an authorized operation is bound to. *)

From S2P Require Import Prelude Taxonomy Model Cost ModelOps ControlPlane Effects Consistency.
From S2P Require Import FabricCore MutationLogic FabricState FabricReplica FabricOps Lifecycle.
From S2P Require Import Fabric Engine Admissible Ownership Invariants Transactions Scenario.

Local Open Scope Z_scope.

Definition staging_request (q : request) : bool :=
  match q with
  | RegisterReplica _ | RecordTransferProgress _ | RecordTransferCompletion _ => true
  | _ => false
  end.

Definition counts := replica_counts_toward_replication_factor.

(** An effect that leaves the counted replicas and the set generations alone. *)
Definition staged (p : ControlPlane) (e : Effect) : Prop :=
  match e with
  | PUT_REPLICA r => counts r = false ∧ ∀ r0, find_replica p (rp_replica_id r) = Some r0 → counts r0 = false
  | PUT_REPLICA_SET s => ∀ s0, pl_replica_sets p !! set_key s = Some s0 → valid (rs_generation s0) = true →
      rs_generation s = rs_generation s0
  | _ => True
  end.

Lemma lifecycle_not_counted r :
  rp_lifecycle r ≠ RL.AUTHORITATIVE → rp_lifecycle r ≠ RL.DEGRADED → counts r = false.
Proof.
  intros. unfold counts, replica_counts_toward_replication_factor.
  repeat case_match; done.
Qed.

Lemma registrable_not_counted r : registrable (rp_lifecycle r) = true → counts r = false.
Proof. intros H. apply lifecycle_not_counted; intros E; by rewrite E in H. Qed.

Lemma completing_not_counted r : accepts_completion (rp_lifecycle r) = true → counts r = false.
Proof. intros H. apply lifecycle_not_counted; intros E; by rewrite E in H. Qed.

Section staging.
Context (p : ControlPlane) (config : FabricConfig) (Hp : plane_inv p).

Lemma rebuild_generation s : rs_generation (rebuild_replica_set p s) = rs_generation s.
Proof. unfold rebuild_replica_set, recompute_replica_set. by repeat case_match. Qed.

Lemma staged_bump sid gen tick epoch :
  staged p (bump_replica_set_effect p sid gen tick epoch false).
Proof.
  simpl. intros s0. rewrite (bumped_set_key p Hp). intros Hs Hv.
  unfold bumped_replica_set, find_replica_set. rewrite Hs.
  rewrite <-(rebuild_generation s0) in Hv |- *.
  generalize dependent (rebuild_replica_set p s0). intros s Hv. by rewrite Hv.
Qed.

Lemma emits_staged_put r :
  staged p (PUT_REPLICA r) → emits (staged p) (put_replica_and_set p r false) (λ _, True).
Proof. intros Hr. unfold put_replica_and_set. emits_auto; [done|]. apply staged_bump. Qed.

Lemma emits_staged_advance id gen next note :
  emits (staged p) (advance_operation p id gen next note) (λ _, True).
Proof. unfold advance_operation. by emits_auto. Qed.

(** The guards of a report, whatever the effects. *)
Lemma guard_replica_found P id gen inc boot epoch :
  emits P (guard_replica p id gen inc boot epoch) (λ r, find_replica p id = Some r).
Proof. unfold guard_replica. emits_auto. by simplify_eq/=. Qed.

Hint Resolve emits_staged_put emits_staged_advance guard_replica_found : emits.

(** The revision of a guarded replica, by the lifecycle it had. *)
Lemma staged_revision id r r' :
  find_replica p id = Some r → rp_replica_id r' = rp_replica_id r → counts r = false →
  counts r' = false → staged p (PUT_REPLICA r').
Proof.
  intros Hr Hid Hc Hc'. split; [done|]. rewrite Hid, (find_replica_id p Hp _ _ Hr).
  intros r0 Hr0. congruence.
Qed.

Lemma staged_progress t : emits (staged p) (record_transfer_progress t p config) (λ _, True).
Proof.
  unfold record_transfer_progress. emits_auto; cbv beta in *; try done.
  all: apply emits_staged_put; eapply staged_revision; [eassumption|done| |];
    first [apply registrable_not_counted; by apply negb_false_iff|apply lifecycle_not_counted; done].
Qed.

Lemma staged_completion t : emits (staged p) (record_transfer_completion t p config) (λ _, True).
Proof.
  unfold record_transfer_completion, record_and_refuse. emits_auto; cbv beta in *; try done.
  all: apply emits_staged_put; eapply staged_revision; [eassumption|done| |];
    first [apply completing_not_counted; by apply negb_false_iff|apply lifecycle_not_counted; done].
Qed.

Lemma staged_register r : emits (staged p) (register_replica r p config) (λ _, True).
Proof.
  unfold register_replica. emits_auto; cbv beta in *; try done.
  apply emits_staged_put. split.
  - apply lifecycle_not_counted; simpl; intros E;
      match goal with H : negb (registrable _) = false |- _ => by rewrite E in H end.
  - intros r0 Hr0. exfalso.
    match goal with H : has_key _ _ = false |- _ =>
      apply bool_decide_eq_false in H; apply H end.
    by exists r0.
Qed.

Lemma staged_request q :
  staging_request q = true → Forall (staged p) (outcome_effects q p config).
Proof.
  intros Hq. unfold outcome_effects.
  assert (emits (staged p) (body q p config) (λ _, True)) as Hb.
  { destruct q; try done; (eapply emits_bind; [|intros; by apply emits_ret]).
    - apply staged_register.
    - apply staged_progress.
    - apply staged_completion. }
  destruct (emits_run _ _ _ (start_mutation p) Hb eq_refl) as [Hes _].
  destruct (body q p config (start_mutation p)) as [[u|c] mu]; [done|].
  by destruct (mu_commit_before_return mu).
Qed.

Lemma staged_counts es id r :
  Forall (staged p) es → counts r = true →
  pl_replicas (apply_all p es) !! id = Some r ↔ pl_replicas p !! id = Some r.
Proof.
  intros Hes Hc. rewrite list.Forall_forall in Hes. split.
  - intros [[Hin _]|[? _]]%lookup_written; [|done].
    apply Hes in Hin as [Hf _]. congruence.
  - intros Hr. destruct (le_replicas _ _ (apply_all_le es p) id) as [r' Hr']; [by eexists|].
    pose proof Hr' as Hw. apply lookup_written in Hw as [[Hin Hid]|[? _]]; [|congruence].
    apply Hes in Hin as [_ Hf]. rewrite Hid in Hf. specialize (Hf r Hr). congruence.
Qed.

Lemma staged_generation es key s :
  Forall (staged p) es → pl_replica_sets p !! key = Some s → valid (rs_generation s) = true →
  ∃ s', pl_replica_sets (apply_all p es) !! key = Some s' ∧ rs_generation s' = rs_generation s.
Proof.
  intros Hes Hs Hv. rewrite list.Forall_forall in Hes.
  destruct (le_replica_sets _ _ (apply_all_le es p) key) as [s' Hs']; [by eexists|].
  exists s'. split; [done|]. rewrite apply_all_replica_sets in Hs'.
  apply lookup_put_all_inv in Hs' as [[Hin <-]|[? _]]; [|congruence].
  put_inv Hin. by apply (Hes (PUT_REPLICA_SET s')).
Qed.
End staging.

(** ** Properties *)

(** C30: staging is invisible.  Registering a replica, reporting transfer progress or
    reporting a transfer's completion (adverse reports included) neither adds nor
    removes nor alters a replica that counts toward the replication factor, and
    does not advance any replica set generation. *)
Theorem staging_grants_no_authority {S} `{PersistenceStore S} (im : Impl S) (q : request) :
  reachable im → staging_request q = true →
  (∀ id r, replica_counts_toward_replication_factor r = true →
     pl_replicas (im_plane (exec q im).2) !! id = Some r ↔ pl_replicas (im_plane im) !! id = Some r) ∧
  (∀ key s, pl_replica_sets (im_plane im) !! key = Some s → valid (rs_generation s) = true →
     ∃ s', pl_replica_sets (im_plane (exec q im).2) !! key = Some s' ∧
       rs_generation s' = rs_generation s).
Proof.
  intros Hp%reachable_inv Hq. pose proof (staged_request _ (im_config im) Hp q Hq) as Hes.
  unfold exec. destruct (mutate_records (body q) im) as [E|E].
  - rewrite (same_replicas _ _ E), (same_replica_sets _ _ E). split; [done|]. eauto.
  - rewrite kept_outcome in E. rewrite (same_replicas _ _ E), (same_replica_sets _ _ E). split.
    + intros id r Hc. by apply staged_counts.
    + intros key s. by apply staged_generation.
Qed.

Lemma staging_grants_no_authority_witness :
  (∃ a, (exec (demo_completion 906 902) (after authorized)).1 = Ok a) ∧
  ∀ id r, replica_counts_toward_replication_factor r = true →
    pl_replicas (im_plane (exec (demo_completion 906 902) (after authorized)).2) !! id = Some r ↔
    pl_replicas (im_plane (after authorized)) !! id = Some r.
Proof.
  split; [eexists; vm_compute; reflexivity|].
  exact (proj1 (staging_grants_no_authority (after authorized) (demo_completion 906 902)
    (demo_reachable authorized) eq_refl)).
Defined.
