(* ===== verification/ClusterLoss.v ===== *)
(** * Losing a cluster

    Declaring a cluster incarnation unreachable, or retiring it, takes the
    authority of everything it hosts in the same mutation. *)

From S2P Require Import Prelude Taxonomy Model Cost ModelOps Authority ControlPlane Effects.
From S2P Require Import Consistency FabricCore MutationLogic FabricState FabricReplica FabricOps.
From S2P Require Import Lifecycle Fabric Engine Admissible Ownership Recovery Invariants.
From S2P Require Import Transactions Scenario.

Local Open Scope Z_scope.

(** ** The exact effects *)

(** The request takes authority from this cluster incarnation. *)
Definition fences (q : request) (cluster_id incarnation : Z) : bool :=
  match q with
  | MarkClusterUnreachable c i _ | RetireCluster c i => (c =? cluster_id) && (i =? incarnation)
  | _ => false
  end.

(** The effects of a fence: a record without live authority, every hosted replica
    fenced, and the counters. *)
Definition fencing_effects (p : ControlPlane) (c : ClusterRecord) (cluster_id incarnation : Z)
    (es : list Effect) : Prop :=
  ∃ record lifecycle availability text tick counters,
    cl_cluster_id record = cl_cluster_id c ∧ cl_live_authority record = false ∧
    es = [PUT_CLUSTER record] ++
      fence_effects p (fence_replica lifecycle availability text tick) tick
        (hosted_replicas p cluster_id incarnation) ++ [PUT_COUNTERS counters] ∧
    lifecycle ≠ RL.AUTHORITATIVE ∧ lifecycle ≠ RL.DEGRADED.

Lemma validate_text_run text mu u mu' : validate_text text mu = (Ok u, mu') → mu' = mu.
Proof. unfold validate_text. intros H. by run_ok H. Qed.

Lemma fencing_run q p config mu mu' c cluster_id incarnation :
  fences q cluster_id incarnation = true →
  find_cluster p cluster_id = Some c → cl_live_authority c = true →
  body q p config mu = (Ok tt, mu') → mu_effects mu = [] →
  fencing_effects p c cluster_id incarnation (mu_effects mu').
Proof.
  intros Hf Hc Hlive Hb Hmu. unfold fencing_effects.
  assert (∀ mu1 mu2 mu3 e es f u, extends mu mu1 [] →
    emit e mu1 = (Ok u, mu2) → extends mu2 mu3 es →
    mu_effects (mu3 <| mu_effects ::= λ l, l ++ [f] |>) = [e] ++ es ++ [f]) as Hes.
  { intros mu1 mu2 mu3 e es f u (E1&_) ->%emit_Ok (E3&_). simpl. rewrite E3. simpl.
    by rewrite E1, Hmu. }
  destruct q; try done; simpl in Hf; apply andb_true_iff in Hf as [->%Z.eqb_eq ->%Z.eqb_eq];
    apply void_Ok in Hb as [a Hb];
    unfold mark_cluster_unreachable, retire_cluster in Hb;
    apply mbind_Ok in Hb as (? & ? & [Hc' ->]%require_Ok & Hb);
    rewrite Hc in Hc'; injection Hc' as <-;
    apply mbind_Ok in Hb as (? & ? & [_ ->]%refuse_if_Ok & Hb).
  - rewrite Hlive in Hb. simpl in Hb.
    apply mbind_Ok in Hb as (? & ? & ->%validate_text_run & Hb).
    apply mbind_Ok in Hb as (? & ? & [-> ->]%get_tick_Ok & Hb).
    apply mbind_Ok in Hb as (? & mu2 & He & Hb).
    apply mbind_Ok in Hb as (? & mu3 & Hall & Hb).
    apply mbind_Ok in Hb as (? & ? & ->%emit_Ok & Hb). apply mret_Ok in Hb as [_ ->].
    do 6 eexists. split; [|split; [|split]]; cycle 2.
    + exact (Hes _ _ _ _ _ _ _ (extends_refl _) He (emit_all_run _ _ _ _ Hall)).
    + done.
    + reflexivity.
    + reflexivity.
  - apply mbind_Ok in Hb as (? & ? & [-> ->]%get_tick_Ok & Hb).
    apply mbind_Ok in Hb as (? & mu2 & He & Hb).
    apply mbind_Ok in Hb as (? & mu3 & Hall & Hb).
    apply mbind_Ok in Hb as (? & ? & ->%emit_Ok & Hb). apply mret_Ok in Hb as [_ ->].
    do 6 eexists. split; [|split; [|split]]; cycle 2.
    + exact (Hes _ _ _ _ _ _ _ (extends_refl _) He (emit_all_run _ _ _ _ Hall)).
    + done.
    + reflexivity.
    + reflexivity.
Qed.

(** ** What is left of the incarnation's authority *)

Section loss.
Context (p : ControlPlane) (Hp : plane_inv p) (c : ClusterRecord) (cluster_id incarnation : Z).
Context (Hc : find_cluster p cluster_id = Some c) (es : list Effect).
Context (Hes : fencing_effects p c cluster_id incarnation es).

Lemma fence_effects_write revise tick rs r :
  PUT_REPLICA r ∈ fence_effects p revise tick rs ↔ ∃ r0, r0 ∈ rs ∧ r = revise r0.
Proof.
  unfold fence_effects, fenced_set_effects.
  induction rs as [|r1 rs IH]; simpl.
  - rewrite elem_of_nil. split; [done|]. by intros (? & ?%elem_of_nil & _).
  - rewrite elem_of_cons, elem_of_app, IH. setoid_rewrite elem_of_cons. split.
    + intros [[= ->]|[Hs|(r0 & ? & ->)]]; [by eauto| |by eauto].
      destruct (find_replica_set p _ _); [|by apply elem_of_nil in Hs].
      by apply list_elem_of_singleton in Hs.
    + intros (r0 & [->|?] & ->); [by left|]. right. right. eauto.
Qed.

Lemma fence_effects_no_cluster revise tick rs : omap put_cluster (fence_effects p revise tick rs) = [].
Proof.
  apply omap_nil. unfold fence_effects, fenced_set_effects.
  apply Forall_concat, list.Forall_fmap, list.Forall_forall. intros r _. simpl.
  constructor; [done|]. destruct (find_replica_set p _ _); by repeat constructor.
Qed.

Lemma lost_cluster :
  ∃ record, find_cluster (apply_all p es) cluster_id = Some record ∧ cl_live_authority record = false.
Proof.
  destruct Hes as (record & l & a & text & tick & counters & Hid & Hl & -> & _).
  exists record. split; [|done]. unfold find_cluster. rewrite apply_all_clusters.
  rewrite !omap_app, fence_effects_no_cluster. simpl.
  rewrite Hid, (keyed_cluster _ (inv_keyed _ Hp) _ _ Hc). apply lookup_insert_eq.
Qed.

Lemma lost_replicas id r :
  pl_replicas (apply_all p es) !! id = Some r →
  rlo_cluster_id (rp_location r) = cluster_id →
  rlo_cluster_incarnation (rp_location r) = incarnation →
  replica_counts_toward_replication_factor r = false ∧
  (replica_is_terminal r = false → rp_authority r = RAS.FENCED).
Proof.
  destruct Hes as (record & l & a & text & tick & counters & _ & _ & -> & _).
  intros Hr Hcl Hinc. apply lookup_written in Hr as [[Hin _]|[Hr Hno]].
  - rewrite !elem_of_app in Hin. destruct Hin as [Hin|[Hin|Hin]].
    + by apply list_elem_of_singleton in Hin.
    + apply fence_effects_write in Hin as (r0 & _ & ->).
      destruct (fence_replica_fields l a text tick r0) as (-> & Hcount & _). split; [|done].
      unfold replica_counts_toward_replication_factor. by rewrite Hcount, orb_true_r.
    + by apply list_elem_of_singleton in Hin.
  - destruct (replica_is_terminal r) eqn:Ht.
    + split; [|done]. unfold replica_counts_toward_replication_factor, replica_is_terminal in *.
      by destruct (rp_lifecycle r); repeat case_match.
    + exfalso. apply (Hno (fence_replica l a text tick r)).
      * rewrite !elem_of_app. right. left. apply fence_effects_write. exists r. split; [|done].
        unfold hosted_replicas. apply list_elem_of_In, filter_In. split.
        { apply list_elem_of_In, elem_of_values. by eexists. }
        by rewrite Hcl, Hinc, !Z.eqb_refl, Ht.
      * pose proof (fence_replica_binding l a text tick r) as (-> & _)%binding_inv.
        by apply (con_replica_id _ (inv_consistent _ Hp)).
Qed.
End loss.

(** A replica on a cluster without live authority is never authoritative. *)
Lemma dead_cluster_no_authority p state set policy now r record :
  find_cluster p (rlo_cluster_id (rp_location r)) = Some record → cl_live_authority record = false →
  ra_authoritative_for_reuse
    (assess_replica_authority r (authority_context p state set policy now r)) = false.
Proof.
  intros Hc Hl. apply not_true_iff_false. intros [[(c & Ec & Hlive & _) _ _ _ _ _ _ _ _] _]%authoritative_core.
  simpl in Ec. congruence.
Qed.

(** ** Properties *)


Definition cluster_lost : request := MarkClusterUnreachable 10 1 "link down".

