(* ===== verification/Authorization.v ===== *)
(** * Authorizing a transfer

    The source a transfer is given and the destination it is sent to, at the moment
    it is authorized. *)

From S2P Require Import Prelude Taxonomy Model Cost ModelOps Authority ControlPlane Effects.
From S2P Require Import Consistency Placement FabricCore MutationLogic FabricState FabricReplica.
From S2P Require Import FabricOps Lifecycle Fabric Engine Admissible Ownership Invariants.
From S2P Require Import Transactions Staging Scenario.

Local Open Scope Z_scope.

(** ** Source selection *)

(** Preferred cluster first, then lowest identity. *)
Definition selection_rank (preferred : Z) (r : ReplicaRecord) : Z * Z :=
  (if valid preferred && (rlo_cluster_id (rp_location r) =? preferred) then 0 else 1,
   rp_replica_id r).

Definition source_le (preferred : Z) (a b : ReplicaRecord) : Prop :=
  key_leb (selection_rank preferred a) (selection_rank preferred b) = true.

Lemma source_le_refl preferred a : source_le preferred a a.
Proof. unfold source_le. by destruct (key_leb_total (selection_rank preferred a) (selection_rank preferred a)). Qed.

Lemma better_source_le preferred best r b :
  better_source preferred best r = Some b →
  (b = r ∨ best = Some b) ∧ source_le preferred b r ∧
  ∀ a, best = Some a → source_le preferred b a.
Proof.
  unfold better_source, source_le, selection_rank. destruct best as [a|].
  - simpl. destruct (valid preferred && (rlo_cluster_id (rp_location r) =? preferred)) eqn:Er,
      (valid preferred && (rlo_cluster_id (rp_location a) =? preferred)) eqn:Ea; simpl;
      try (destruct (rp_replica_id r <? rp_replica_id a) eqn:E); intros [= <-];
      (split; [auto|]); split; try (intros a' [= <-]); rewrite ?Er, ?Ea; simpl; lia.
  - intros [= <-]. split; [auto|]. split; [|done].
    destruct (valid preferred && _); simpl; lia.
Qed.

Lemma better_source_Some preferred best r : is_Some (better_source preferred best r).
Proof. unfold better_source. by repeat case_match. Qed.

Lemma fold_better_source preferred l best b :
  fold_left (better_source preferred) l best = Some b →
  (b ∈ l ∨ best = Some b) ∧ (∀ r, r ∈ l → source_le preferred b r) ∧
  (∀ a, best = Some a → source_le preferred b a).
Proof.
  revert best. induction l as [|r l IH]; intros best; simpl.
  - intros ->. split; [by right|]. split; [by intros ? ?%elem_of_nil|].
    intros a [= <-]. apply source_le_refl.
  - intros Hf. destruct (better_source_Some preferred best r) as [b0 Hb0].
    destruct (IH _ Hf) as (Hin & Hall & Hbest).
    destruct (better_source_le _ _ _ _ Hb0) as (Hor & Hr & Ha). specialize (Hbest b0 Hb0).
    assert (∀ x, source_le preferred b0 x → source_le preferred b x) as Htr.
    { intros x Hx. eapply key_leb_trans; [exact Hbest|exact Hx]. }
    split_and!.
    + rewrite elem_of_cons. rewrite Hb0 in Hin. destruct Hin as [?|[= ->]]; [tauto|]. tauto.
    + intros x [->|?]%elem_of_cons; auto.
    + intros a Ea. auto.
Qed.

Lemma elem_of_replicas_of_state p s g r :
  r ∈ replicas_of_state p s g ↔
  r ∈ values (pl_replicas p) ∧ rp_state_id r = s ∧ rp_state_generation r = g.
Proof.
  unfold replicas_of_state. rewrite !list_elem_of_In, filter_In. rewrite andb_true_iff, !Z.eqb_eq.
  tauto.
Qed.

Lemma select_source_spec p s g preferred policy now r :
  select_source_replica p s g preferred policy now = Some r →
  r ∈ replicas_of_state p s g ∧ is_source p s g policy now r = true ∧
  ∀ r', r' ∈ replicas_of_state p s g → is_source p s g policy now r' = true →
    source_le preferred r r'.
Proof.
  unfold select_source_replica. intros H. apply fold_better_source in H as ([Hin|?] & Hall & _); [|done].
  apply list_elem_of_In, filter_In in Hin as [Hin Hs].
  split; [by apply list_elem_of_In|]. split; [done|]. intros r' Hr' Hs'. apply Hall.
  apply list_elem_of_In, filter_In. by rewrite <-list_elem_of_In.
Qed.

Lemma is_source_core p s g policy now r :
  is_source p s g policy now r = true →
  authority_core r (authority_context p (find_state p s g) (find_replica_set p s g) policy now r).
Proof.
  unfold is_source. destruct (assess_flags_agree r (authority_context p (find_state p s g)
    (find_replica_set p s g) policy now r)) as (_ & -> & _). by intros [? _]%authoritative_core.
Qed.

(** ** Authorization *)

Lemma chosen_candidate plane config state source destination request chosen :
  pr_candidates request =
    map (λ c, build_candidate plane config c state source) (candidate_clusters plane destination) →
  pe_chosen_cluster (evaluate_placement request (Some state)) = chosen → valid chosen = true →
  ∃ c, c ∈ values (pl_clusters plane) ∧ cl_cluster_id c = chosen ∧
    (valid destination = true → chosen = destination) ∧
    accepts request (Some state) (build_candidate plane config c state source) = true.
Proof.
  intros Hc Hchosen Hv.
  pose proof (evaluate_chosen request (Some state)) as He.
  destruct (pe_ranked (evaluate_placement request (Some state))) as [|first rest] eqn:E.
  { destruct He as [_ He]. rewrite Hchosen in He. rewrite He in Hv. discriminate Hv. }
  destruct (ranked_head request (Some state) first rest E) as (cand & Hin & Ha & -> & _).
  rewrite Hc in Hin. apply list_elem_of_In, in_map_iff in Hin as (c & <- & Hin).
  apply filter_In in Hin as [Hin Hf]. destruct He as (_ & He & _). rewrite Hchosen in He.
  exists c. split; [by apply list_elem_of_In|]. split; [by rewrite He|]. split; [|done].
  intros Hd. apply andb_true_iff in Hf as [_ Hf]. rewrite Hd in Hf. simpl in Hf.
  change (rkc_cluster_id (score request (Some state) (build_candidate plane config c state source)))
    with (cl_cluster_id c) in He. lia.
Qed.

(** What a transfer is asked for. *)
Record transfer_order := mkTransferOrder {
  to_state : Z; to_generation : Z; to_destination : Z; to_source_cluster : Z;
  to_kind : OperationKind; to_destructive : bool;
  to_replication_policy : Z; to_placement_policy : Z; to_expected_epoch : Z
}.

Definition authorize (t : transfer_order) (p : ControlPlane) (config : FabricConfig)
    : M TransferAuthorization :=
  authorize_transaction p config (to_state t) (to_generation t) (to_destination t)
    (to_source_cluster t) (to_kind t) (to_destructive t) (to_replication_policy t)
    (to_placement_policy t) (to_expected_epoch t).

Section authorize.
Context (p : ControlPlane) (config : FabricConfig) (t : transfer_order).

(** The placement request the destination is chosen by. *)
Definition destination_request (state : StateGenerationRecord) (set : ReplicaSetRecord)
    (policy : ReplicationPolicyRecord) (placement : PlacementPolicyRecord) (source : ReplicaRecord)
    : PlacementRequest :=
  (build_request p (to_state t) (to_generation t) (rebuild_replica_set p set) policy placement
     (Some source) (if bool_decide (to_kind t = OpK.MIGRATION) then DK.MIGRATE else DK.REPLICATE))
    <| pr_candidates := map (λ c, build_candidate p config c state (Some source))
                          (candidate_clusters p (to_destination t)) |>.

(** What holds of the plane when a transfer is authorized, and what the authorization
    says. *)
Record authorization_sound (a : TransferAuthorization) (state : StateGenerationRecord)
    (set : ReplicaSetRecord) (policy : ReplicationPolicyRecord) (placement : PlacementPolicyRecord)
    (source : ReplicaRecord) (target : ClusterRecord) : Prop := {
  az_epoch : mismatched (to_expected_epoch t) (pl_coordinator_epoch p) = false;
  az_state : find_state p (to_state t) (to_generation t) = Some state;
  az_current : is_current state = true;
  az_set : find_replica_set p (to_state t) (to_generation t) = Some set;
  az_policy : resolve_replication_policy p config (to_replication_policy t) = Some policy;
  az_placement : resolve_placement_policy p config (to_placement_policy t) = Some placement;
  az_capacity : operation_capacity_available p (to_state t)
    (er_maximum_in_flight_operations_per_state (rpp_destination_rules policy)) = true;
  az_source : source ∈ replicas_of_state p (to_state t) (to_generation t);
  az_source_authority : authority_core source
    (authority_context p (Some state) (Some set) (Some policy) (pl_logical_time p) source);
  az_source_best : ∀ r, r ∈ replicas_of_state p (to_state t) (to_generation t) →
    is_source p (to_state t) (to_generation t) (Some policy) (pl_logical_time p) r = true →
    source_le (to_source_cluster t) source r;
  az_source_healthy : healthy_source p policy source = true;
  az_target : find_cluster p (ta_destination_cluster a) = Some target;
  az_target_live : cl_live_authority target = true;
  az_target_named : valid (to_destination t) = true → ta_destination_cluster a = to_destination t;
  az_target_legal : accepts (destination_request state set policy placement source) (Some state)
    (build_candidate p config target state (Some source)) = true;
  az_says_epoch : ta_coordinator_epoch a = pl_coordinator_epoch p;
  az_says_set : ta_replica_set_generation a = rs_generation set;
  az_says_source : ta_source_replica a = rp_replica_id source;
  az_says_source_generation : ta_source_replica_generation a = rp_replica_generation source;
  az_says_incarnation : ta_destination_incarnation a = cl_incarnation target;
  az_says_digest : ta_expected_digest a = sg_content_digest state
}.

Lemma authorize_run mu a mu' :
  keyed p → authorize t p config mu = (Ok a, mu') →
  ∃ op copy cs n,
    (∃ state set policy placement source target,
       authorization_sound a state set policy placement source target) ∧
    op_operation_id op = ta_operation_id a ∧ op_state op = OS.RESERVED ∧
    rp_replica_id copy = ta_destination_replica a ∧ rp_authority copy = RAS.CANDIDATE ∧
    extends mu mu' ([PUT_OPERATION op; PUT_AUTHORIZATION a; PUT_REPLICA copy;
      bump_replica_set_effect p (rp_state_id copy) (rp_state_generation copy) (mu_tick mu)
        (pl_coordinator_epoch p) false; PUT_COUNTERS cs; SET_NEXT_ID n]).
Proof.
  intros Hk H. unfold authorize, authorize_transaction in H. apply mbind_Ok in H as (u & mu0 & Re & H).
  run_step Re. run_ok H.
  rename x into state, x1 into set, x2 into policy, x3 into placement, x5 into source,
    x10 into target.
  fold (destination_request state set policy placement source) in *.
  apply negb_false_iff in R0, R4, R6, R8, R11.
  destruct (chosen_candidate p config state (Some source) (to_destination t)
    (destination_request state set policy placement source) _ eq_refl eq_refl R8)
    as (c & Hc & Hid & Hd & Ha).
  generalize dependent (pe_chosen_cluster
    (evaluate_placement (destination_request state set policy placement source) (Some state))).
  intros chosen R8 R9 R10 R12 Hid Hd.
  assert (c = target) as ->.
  { apply elem_of_values in Hc as [k Hc]. pose proof (keyed_cluster _ Hk _ _ Hc) as Hkey.
    rewrite Hid in Hkey. subst k. unfold find_cluster in R10. congruence. }
  destruct (select_source_spec _ _ _ _ _ _ _ R5) as (Hin & Hsrc & Hbest).
  apply is_source_core in Hsrc. rewrite R, R1 in Hsrc.
  do 4 eexists. split; [|split; [|split; [|split; [|split]]]]; cycle 5.
  - exact (extends_emit2 _ _ _ _ _ (extends_trans _ _ _ _ _
      (extends_emit2 _ _ _ _ _ (extends_refl mu)) (put_replica_and_set_run _ _ _ _ _ _ _ R12 eq_refl))).
  - exists state, set, policy, placement, source, target. split; try assumption; try reflexivity.
    apply rebuild_generation.
  - reflexivity.
  - reflexivity.
  - reflexivity.
  - reflexivity.
Qed.
End authorize.

(** C33: a transfer is authorized only from a replica that holds authority, to a
    destination that is legal.  When a replication or migration is authorized, the
    caller's epoch was current, the generation is the current one, the source is
    the preferred one of the replicas that earned authority, the operation
    limit was respected, and the destination is a live cluster that passes every
    hard placement constraint (the named one when one was named).  The returned
    authorization carries the epoch, replica-set generation, source generation,
    destination incarnation and digest of that plane; it is stored with a RESERVED
    operation and a destination replica that is only a candidate, and no ownership
    record changes. *)
Theorem authorization_is_earned {S} `{PersistenceStore S} (im im' : Impl S) t a :
  reachable im → mutate (authorize t) im = (Ok a, im') →
  (∃ state set policy placement source target,
     authorization_sound (im_plane im) (im_config im) t a state set policy placement source target) ∧
  find_authorization (im_plane im') (ta_operation_id a) = Some a ∧
  (∃ op, find_operation (im_plane im') (ta_operation_id a) = Some op ∧ op_state op = OS.RESERVED) ∧
  (∃ copy, find_replica (im_plane im') (ta_destination_replica a) = Some copy ∧
     rp_authority copy = RAS.CANDIDATE) ∧
  pl_ownership (im_plane im') = pl_ownership (im_plane im).
Proof.
  intros Hr He. pose proof (reachable_inv im Hr) as Hp.
  destruct (mutate_Ok_records (authorize t) im a) as (mu & Hrun & Hs); [by rewrite He|].
  rewrite He in Hs. cbn [snd] in Hs.
  destruct (authorize_run _ _ _ _ _ _ (inv_keyed _ Hp) Hrun)
    as (op & copy & cs & n & Hsound & Hop & Hst & Hcopy & Hauth & (Hes & _)).
  split; [done|]. unfold find_authorization, find_operation, find_replica.
  rewrite (same_authorizations _ _ Hs), (same_operations _ _ Hs), (same_replicas _ _ Hs),
    (same_ownership _ _ Hs). rewrite Hes. rewrite_apply_all. simpl. rewrite Hop, Hcopy.
  split_and!; try done.
  - apply lookup_insert_eq.
  - exists op. by rewrite lookup_insert_eq.
  - exists copy. by rewrite lookup_insert_eq.
Qed.

Definition demo_order : transfer_order := mkTransferOrder 5 1 20 0 OpK.MIGRATION true 0 0 0.

Lemma authorization_is_earned_witness :
  let im := after setup in
  ∃ a, (mutate (authorize demo_order) im).1 = Ok a ∧ ta_destination_cluster a = 20 ∧
    find_authorization (im_plane (mutate (authorize demo_order) im).2) (ta_operation_id a) = Some a.
Proof.
  intros im.
  destruct (mutate (authorize demo_order) im) as [[a|code] im'] eqn:E; [|vm_compute in E; discriminate E].
  exists a. split; [reflexivity|]. split.
  - vm_compute in E. injection E as <- _. reflexivity.
  - apply (authorization_is_earned im im' demo_order a (demo_reachable setup) E).
Defined.
