(* ===== verification/ReplicaSets.v ===== *)
(** * Replica-set health

    The state a replica set reports is a function of the replicas that count toward
    the replication factor, whatever was stored for it. *)

From S2P Require Import Prelude Taxonomy Model ModelOps ControlPlane FabricCore FabricReplica.
From S2P Require Import FabricOps Lifecycle Fabric Transactions Scenario.

Local Open Scope Z_scope.

(** The health of a set whose counted replicas are [members]. *)
Definition set_health (required : ReplicationRequirements) (revalidation : bool)
    (members : list ReplicaRecord) : ReplicaSetState :=
  let n := u32 (Z.of_nat (length members)) in
  let spread f := u32 (distinct (map f members)) in
  let domains :=
    u32 (distinct (List.filter valid (map (λ r, rlo_failure_domain (rp_location r)) members))) in
  if n =? 0 then RSS.NO_AUTHORITATIVE_REPLICA
  else if revalidation then RSS.REVALIDATION_REQUIRED
  else if rr_maximum_replicas required <? n then RSS.OVER_REPLICATED
  else if n <? rr_minimum_authoritative_replicas required then RSS.UNDER_REPLICATED
  else if (rr_cluster_diversity required <=? spread (λ r, rlo_cluster_id (rp_location r))) &&
          (rr_region_diversity required <=? spread (λ r, rlo_region (rp_location r))) &&
          (rr_failure_domain_diversity required <=? domains)
  then RSS.HEALTHY else RSS.DEGRADED.

Lemma counted_members p key :
  List.filter rm_authoritative (map make_member
    (List.filter replica_counts_toward_replication_factor (live_members p key))) =
  map make_member (counted p key).
Proof.
  unfold counted. generalize (live_members p key). intros l. induction l as [|r l IH]; [done|].
  simpl. destruct (replica_counts_toward_replication_factor r) eqn:E; [|done].
  simpl. by rewrite E, IH.
Qed.

(** A replica that counts is verified and compatible. *)
Lemma counts_evidence r :
  replica_counts_toward_replication_factor r = true →
  rp_integrity r = RI.VERIFIED ∧ rp_compatibility r = RCS.COMPATIBLE.
Proof.
  unfold replica_counts_toward_replication_factor. case_match; [done|].
  destruct (decide (rp_integrity r = RI.VERIFIED)) as [->|]; [|by rewrite bool_decide_eq_true_2].
  destruct (decide (rp_compatibility r = RCS.COMPATIBLE)) as [->|]; [done|].
  by rewrite (bool_decide_eq_true_2 (rp_compatibility r ≠ _)); [case_match|].
Qed.

Lemma counted_faultless p key (f : ReplicaSetMember → bool) :
  (∀ m, rm_integrity m = RI.VERIFIED → rm_compatibility m = RCS.COMPATIBLE → f m = false) →
  existsb f (map make_member (counted p key)) = false.
Proof.
  intros Hf. apply not_true_iff_false. rewrite existsb_exists. intros (m & Hm & Ht).
  apply in_map_iff in Hm as (r & <- & Hr). unfold counted in Hr. apply filter_In in Hr as [_ Hr].
  apply counts_evidence in Hr as [? ?]. rewrite Hf in Ht; done.
Qed.


