(* ===== verification/Generations.v ===== *)
(** * Superseding a state generation *)

From S2P Require Import Prelude Taxonomy Model Cost ModelOps ControlPlane Effects Consistency.
From S2P Require Import FabricCore MutationLogic FabricState FabricReplica FabricOps Lifecycle.
From S2P Require Import Fabric Engine Admissible Ownership Invariants Transactions Scenario.

Local Open Scope Z_scope.

(** A current generation the commit of [existing] replaces. *)
Definition replaced (existing old : StateGenerationRecord) : bool :=
  is_current old && (sg_lineage old =? sg_lineage existing) &&
  (sg_state_id old =? sg_state_id existing) && negb (sg_generation old =? sg_generation existing).

Lemma filter_conj {A} (f h : A → bool) l :
  List.filter f (List.filter h l) = List.filter (λ x, h x && f x) l.
Proof.
  induction l as [|x l IH]; [done|]. simpl. destruct (h x); simpl; [|done]. by destruct (f x); rewrite IH.
Qed.

Lemma superseded_filter p existing :
  List.filter (λ old, negb (sg_generation old =? sg_generation existing))
    (current_generations p (sg_state_id existing) (sg_lineage existing)) =
  List.filter (replaced existing) (values (pl_states p)).
Proof. unfold current_generations. apply filter_conj. Qed.

Section commit.
Context (p : ControlPlane) (config : FabricConfig) (s g c : Z).

Lemma commit_state_run existing mu rec mu' :
  plane_inv p → find_state p s g = Some existing → is_current existing = false →
  sg_branch existing = false →
  commit_state_generation s g c p config mu = (Ok rec, mu') →
  ∃ cs, sg_lifecycle rec = SGL.CURRENT ∧ sg_commit rec = c ∧
    sg_state_id rec = s ∧ sg_generation rec = g ∧
    extends mu mu' (concat (map (supersede_effects p (mu_tick mu))
      (List.filter (replaced existing) (values (pl_states p)))) ++ [PUT_STATE rec; PUT_COUNTERS cs]).
Proof.
  intros Hp Hf Hc Hb H.
  pose proof (con_state _ (inv_consistent _ Hp) _ _ Hf) as [= Hs Hg].
  unfold commit_state_generation in H. run_ok H; rewrite Hf in R0; injection R0 as <-;
    try (unfold is_current in Hc; bool_simpl; congruence).
  all: rewrite Hb in R2; apply emit_all_run in R2; simpl in R2.
  all: rewrite superseded_filter in R2; eexists; split_and!; try done.
  all: by apply extends_emit2.
Qed.
End commit.

Section effects.
Context (p : ControlPlane) (tick : Z) (existing rec : StateGenerationRecord) (cs : FabricCounters).
Definition commit_effects : list Effect :=
  concat (map (supersede_effects p tick) (List.filter (replaced existing) (values (pl_states p)))) ++
  [PUT_STATE rec; PUT_COUNTERS cs].

Lemma elem_of_commit_effects e :
  e ∈ commit_effects ↔
  (∃ key old, pl_states p !! key = Some old ∧ replaced existing old = true ∧
     e ∈ supersede_effects p tick old) ∨ e = PUT_STATE rec ∨ e = PUT_COUNTERS cs.
Proof.
  unfold commit_effects. rewrite elem_of_app, !elem_of_cons, elem_of_nil.
  rewrite list_elem_of_In, in_concat. setoid_rewrite in_map_iff. setoid_rewrite filter_In.
  setoid_rewrite <-list_elem_of_In. setoid_rewrite elem_of_values. naive_solver.
Qed.

Context (Hp : plane_inv p) (Hkey : state_key rec = state_key existing).

Lemma committed_state : pl_states (apply_all p commit_effects) !! state_key existing = Some rec.
Proof.
  unfold commit_effects. rewrite apply_all_states, omap_app, put_all_app. simpl.
  by rewrite <-Hkey, lookup_insert_eq.
Qed.

(** A generation that is current afterwards is the committed one. *)
Lemma current_after key r :
  pl_states (apply_all p commit_effects) !! key = Some r → is_current r = true →
  sg_state_id r = sg_state_id existing → sg_lineage r = sg_lineage existing →
  key = state_key existing.
Proof.
  rewrite apply_all_states. intros [[Hin Hk]|[Hr Hn]]%lookup_put_all_inv Hc Hs Hl.
  - put_inv Hin. apply elem_of_commit_effects in He as [(k & old & Hold & Hrep & He)|[[= ->]|?]];
      [|unfold state_key; congruence|done].
    exfalso. unfold supersede_effects in He. rewrite !elem_of_app, list_elem_of_singleton in He.
    destruct He as [[= ->]|[He|He]].
    + done.
    + apply list_elem_of_In, in_map_iff in He as (? & ? & _). done.
    + destruct (find_replica_set p (sg_state_id old) (sg_generation old));
        [apply list_elem_of_singleton in He|apply elem_of_nil in He]; done.
  - pose proof (con_state _ (inv_consistent _ Hp) _ _ Hr) as <-.
    destruct (decide (sg_generation r = sg_generation existing)) as [Hg|Hg].
    { unfold state_key. congruence. }
    exfalso. set (old := r <| sg_lifecycle := SGL.HISTORICAL |>).
    assert (PUT_STATE old ∈ commit_effects) as Hin.
    { apply elem_of_commit_effects. left. exists (state_key r), r.
      split; [done|]. split; [unfold replaced; rewrite Hc; lia|]. by left. }
    exact (Hn old (elem_of_omap_intro put_state _ _ _ Hin eq_refl) eq_refl).
Qed.

(** A replica of a replaced generation has been superseded. *)
Lemma superseded_after id r old :
  pl_states p !! replica_state_key r = Some old → replaced existing old = true →
  pl_replicas (apply_all p commit_effects) !! id = Some r →
  rp_authority r = RAS.HISTORICAL ∧ replica_counts_toward_replication_factor r = false.
Proof.
  intros Hold Hrep [[Hin Hid]|[Hr Hn]]%lookup_written.
  - apply elem_of_commit_effects in Hin as [(k & o & Ho & _ & He)|[?|?]]; [|done..].
    unfold supersede_effects in He. rewrite !elem_of_app, list_elem_of_singleton in He.
    destruct He as [?|[He|He]]; [done| |].
    + apply list_elem_of_In, in_map_iff in He as (r0 & [= <-] & _). split; [done|].
      unfold replica_counts_toward_replication_factor. simpl. by rewrite orb_true_r.
    + destruct (find_replica_set p (sg_state_id o) (sg_generation o));
        [apply list_elem_of_singleton in He|apply elem_of_nil in He]; done.
  - exfalso. pose proof (con_state _ (inv_consistent _ Hp) _ _ Hold) as [= Hs Hg].
    refine (Hn (supersede_replica p tick r) _ _);
      [|unfold supersede_replica; case_match; simpl; by eapply con_replica_id; [apply inv_consistent|]].
    apply elem_of_commit_effects. left. exists (replica_state_key r), old. split; [done|]. split; [done|].
    unfold supersede_effects. rewrite !elem_of_app. right. left.
    apply list_elem_of_In, in_map_iff. exists r. split; [done|].
    apply filter_In. split; [|lia]. apply list_elem_of_In, elem_of_values. by exists id.
Qed.
End effects.


Definition demo_successor : request :=
  RegisterState
    (StateGenerationSpec_default <| ss_state_id := 5 |> <| ss_generation := 2 |>
       <| ss_consistency := CM.SINGLE_WRITER |> <| ss_content_digest := digest_one |>
       <| ss_logical_size := size_of 4096 |>).

