(* ===== verification/Verification.v ===== *)
(** * What a verification establishes *)

From S2P Require Import Prelude Taxonomy Model ModelOps Digest ControlPlane Effects Consistency.
From S2P Require Import FabricCore MutationLogic FabricState FabricReplica FabricOps Lifecycle.
From S2P Require Import Fabric Engine Admissible Invariants Transactions Staging Scenario.

Local Open Scope Z_scope.

(** The digest a replica of the generation must measure. *)
Definition expected_digest (p : ControlPlane) (r : ReplicaRecord) : Digest :=
  match find_state p (rp_state_id r) (rp_state_generation r) with
  | Some s => sg_content_digest s
  | None => Digest_default
  end.

(** The report contradicts the content digest. *)
Definition contradicted (p : ControlPlane) (v : ReplicaVerification) (r : ReplicaRecord) : Prop :=
  rvf_integrity_verified v = false ∨
  (digest_valid (expected_digest p r) = true ∧ digest_valid (rvf_measured_digest v) = true ∧
   rvf_measured_digest v ≠ expected_digest p r).

(** The record a verification may leave for [r]. *)
Record verdict (p : ControlPlane) (v : ReplicaVerification) (r r' : ReplicaRecord) : Prop := {
  vd_measured : rp_measured_digest r' = rvf_measured_digest v;
  vd_verified : ¬ contradicted p v r →
    digest_valid (expected_digest p r) = true → digest_valid (rvf_measured_digest v) = true →
    rp_integrity r' = RI.VERIFIED ∧ rvf_measured_digest v = expected_digest p r;
  vd_unmeasured : ¬ contradicted p v r →
    digest_valid (expected_digest p r) = true → digest_valid (rvf_measured_digest v) = false →
    rp_integrity r' = RI.UNVERIFIED;
  vd_contradicted : contradicted p v r →
    rp_integrity r' = RI.MISMATCH ∧ rp_lifecycle r' = RL.CORRUPT ∧ rp_authority r' = RAS.FENCED ∧
    rp_counts_toward_factor r' = false;
  vd_prepared : rp_lifecycle r' = RL.PREPARED →
    rp_integrity r' = RI.VERIFIED ∧ rp_compatibility r' = RCS.COMPATIBLE
}.

Definition judged (p : ControlPlane) (v : ReplicaVerification) (e : Effect) : Prop :=
  match e with
  | PUT_REPLICA r' => ∃ r, find_replica p (rvf_replica_id v) = Some r ∧
      rp_replica_id r' = rp_replica_id r ∧ verdict p v r r'
  | _ => True
  end.

Section verification.
Context (p : ControlPlane) (config : FabricConfig) (v : ReplicaVerification).

Lemma judged_put r :
  judged p v (PUT_REPLICA r) → emits (judged p v) (put_replica_and_set p r false) (λ _, True).
Proof. intros Hr. unfold put_replica_and_set. by emits_auto. Qed.

Lemma judged_advance id gen next note :
  emits (judged p v) (advance_operation p id gen next note) (λ _, True).
Proof. unfold advance_operation. by emits_auto. Qed.

Lemma judged_fail r cs n code text :
  judged p v (PUT_REPLICA r) →
  emits (judged p v) (persist_and_fail v p r cs n code text) (λ _, False).
Proof.
  intros Hr. unfold persist_and_fail.
  pose proof judged_advance. pose proof (judged_put r Hr). emits_auto; done.
Qed.

Lemma judged_prepared r cs n :
  judged p v (PUT_REPLICA r) → emits (judged p v) (persist_prepared v p r cs n) (λ r', r' = r).
Proof.
  intros Hr. unfold persist_prepared.
  pose proof judged_advance. pose proof (judged_put r Hr). emits_auto; done.
Qed.

(** The report agrees with the content digest, as far as one was recorded. *)
Definition agrees (r : ReplicaRecord) : Prop :=
  rvf_integrity_verified v = true ∧
  (digest_valid (expected_digest p r) = true →
     digest_valid (rvf_measured_digest v) = true ∧ rvf_measured_digest v = expected_digest p r).

Lemma agrees_not_contradicted r : agrees r → ¬ contradicted p v r.
Proof. intros [Hi Hd] [?|(He & Hm & Hne)]; [congruence|]. by destruct (Hd He). Qed.

Section revised.
Context (r r1 : ReplicaRecord) (cs : FabricCounters) (n : Z).
Context (Hr : find_replica p (rvf_replica_id v) = Some r) (Hag : agrees r).
Context (Hid : rp_replica_id r1 = rp_replica_id r)
  (Hm : rp_measured_digest r1 = rvf_measured_digest v) (Hi : rp_integrity r1 = RI.VERIFIED).

Lemma judged_revision r2 :
  rp_replica_id r2 = rp_replica_id r1 → rp_measured_digest r2 = rp_measured_digest r1 →
  rp_integrity r2 = rp_integrity r1 →
  (rp_lifecycle r2 = RL.PREPARED → rp_compatibility r2 = RCS.COMPATIBLE) →
  judged p v (PUT_REPLICA r2).
Proof.
  intros H1 H2 H3 H4. exists r. split; [done|]. split; [congruence|].
  pose proof (agrees_not_contradicted r Hag). split; rewrite ?H2, ?H3; try done.
  - intros _ He _. split; [done|]. by apply Hag.
  - intros _ He Hn. destruct Hag as [_ Hd]. destruct (Hd He). congruence.
  - intros Hl. split; [done|auto].
Qed.

Lemma judged_descriptor requirement d g :
  emits (judged p v) (verify_against_descriptor v p requirement d g r1 cs n)
    (λ r', rp_lifecycle r' = RL.PREPARED).
Proof.
  unfold verify_against_descriptor. cbv zeta. case_match.
  - eapply emits_weaken; [apply judged_prepared|by intros ? ->].
    destruct d; by apply judged_revision.
  - eapply emits_weaken; [apply judged_fail; by apply judged_revision|done].
  - eapply emits_weaken; [apply judged_fail; by apply judged_revision|done].
  - eapply emits_weaken; [apply judged_fail; by apply judged_revision|done].
Qed.

Lemma judged_cluster st c :
  emits (judged p v) (verify_against_cluster v p st c r1 cs n)
    (λ r', rp_lifecycle r' = RL.PREPARED).
Proof.
  unfold verify_against_cluster. cbv zeta. case_match.
  - eapply emits_weaken; [apply judged_prepared|by intros ? ->]. by apply judged_revision.
  - eapply emits_weaken; [apply judged_fail; by apply judged_revision|done].
  - eapply emits_weaken; [apply judged_fail; by apply judged_revision|done].
  - eapply emits_weaken; [apply judged_fail; by apply judged_revision|done].
Qed.
End revised.

Lemma judged_corrupt r r1 text :
  find_replica p (rvf_replica_id v) = Some r → rp_replica_id r1 = rp_replica_id r →
  rp_measured_digest r1 = rvf_measured_digest v → contradicted p v r →
  judged p v (PUT_REPLICA (mark_corrupt text r1)).
Proof. intros Hr Hid Hm Hc. exists r. split; [done|]. split; [done|]. by split. Qed.

Lemma judged_verify :
  emits (judged p v) (verify_replica v p config) (λ r', rp_lifecycle r' = RL.PREPARED).
Proof.
  unfold verify_replica. eapply emits_bind; [apply guard_replica_found|]. intros r Hr.
  eapply emits_bind; [apply emits_refuse_if|intros ? Hl].
  eapply emits_bind; [apply emits_get_tick|intros tick _]. cbv zeta.
  fold (expected_digest p r).
  destruct (rvf_integrity_verified v) eqn:Hv; simpl negb; cbv iota.
  2: { eapply emits_weaken; [apply judged_fail, judged_corrupt with r; try done; by left|done]. }
  destruct (digest_valid (expected_digest p r) && digest_valid (rvf_measured_digest v) &&
    bool_decide (rvf_measured_digest v ≠ expected_digest p r)) eqn:Hmis.
  { bool_simpl. eapply emits_weaken; [apply judged_fail, judged_corrupt with r; try done|done].
    right. destruct Hmis as [[? ?] ?]. by split_and!. }
  destruct (digest_valid (expected_digest p r) && negb (digest_valid (rvf_measured_digest v))) eqn:Hno.
  { eapply emits_weaken; [apply judged_fail|done]. exists r. split; [done|]. split; [done|].
    apply andb_true_iff in Hno as [He Hn%negb_true_iff].
    split; try done; [by rewrite Hn|]. intros [?|(_ & ? & _)]; congruence. }
  assert (agrees r) as Hag.
  { split; [done|]. intros He. rewrite He in Hno, Hmis. simpl in Hno, Hmis.
    apply negb_false_iff in Hno. rewrite Hno in Hmis. simpl in Hmis.
    split; [done|]. apply bool_decide_eq_false in Hmis. by apply dec_stable. }
  destruct (negb (descriptor_empty (rvf_compatibility_descriptor v)));
    [by apply (judged_descriptor r)|].
  destruct (negb (descriptor_empty (rp_compatibility_descriptor r)));
    [by apply (judged_descriptor r)|].
  destruct (find_cluster p (rlo_cluster_id (rp_location r)));
    [by apply (judged_cluster r)|by apply (judged_descriptor r)].
Qed.

(** A successful verification writes one replica record: the one it returns. *)
Definition writes_result (mu mu' : FabricMutation) (r : ReplicaRecord) : Prop :=
  ∃ es, mu_effects mu' = mu_effects mu ++ es ∧ omap put_replica es = [r].

Lemma persist_and_fail_not_Ok r cs n code text mu a mu' :
  persist_and_fail v p r cs n code text mu = (Ok a, mu') → False.
Proof. unfold persist_and_fail. intros H. by run_ok H. Qed.

Lemma advance_operation_run id gen next note mu u mu' :
  advance_operation p id gen next note mu = (Ok u, mu') →
  ∃ es, mu_effects mu' = mu_effects mu ++ es ∧ omap put_replica es = [].
Proof.
  unfold advance_operation. intros H. run_ok H;
    first [by exists []; rewrite app_nil_r|by eexists [_]].
Qed.

Lemma persist_prepared_run r cs n mu a mu' :
  persist_prepared v p r cs n mu = (Ok a, mu') → a = r ∧ writes_result mu mu' r.
Proof.
  unfold persist_prepared. intros H. run_ok H. split; [done|].
  apply advance_operation_run in R as (es & He & Hn). unfold put_replica_and_set in R0. run_ok R0.
  simpl. rewrite He. eexists. split; [by rewrite <-!app_assoc|].
  rewrite omap_app, Hn. done.
Qed.

Lemma verify_descriptor_run requirement d g r cs n mu a mu' :
  verify_against_descriptor v p requirement d g r cs n mu = (Ok a, mu') → writes_result mu mu' a.
Proof.
  unfold verify_against_descriptor. cbv zeta. case_match; intros Hv;
    first [by apply persist_and_fail_not_Ok in Hv|by apply persist_prepared_run in Hv as [-> ?]].
Qed.

Lemma verify_cluster_run st c r cs n mu a mu' :
  verify_against_cluster v p st c r cs n mu = (Ok a, mu') → writes_result mu mu' a.
Proof.
  unfold verify_against_cluster. cbv zeta. case_match; intros Hv;
    first [by apply persist_and_fail_not_Ok in Hv|by apply persist_prepared_run in Hv as [-> ?]].
Qed.

Lemma guard_replica_run id gen inc boot epoch mu r mu' :
  guard_replica p id gen inc boot epoch mu = (Ok r, mu') → mu' = mu.
Proof. unfold guard_replica. intros H. run_ok H; done. Qed.

Lemma verify_run mu a mu' :
  verify_replica v p config mu = (Ok a, mu') → writes_result mu mu' a.
Proof.
  unfold verify_replica. intros H. run_ok H.
  all: try (exfalso; eapply persist_and_fail_not_Ok; eassumption).
  all: match goal with G : guard_replica _ _ _ _ _ _ _ = _ |- _ => apply guard_replica_run in G; subst end.
  all: first [by eapply verify_descriptor_run|by eapply verify_cluster_run].
Qed.
End verification.

(** The effects a body leaves to be kept satisfy what it emits. *)
Lemma kept_emits {S} `{PersistenceStore S} {A} (fn : ControlPlane → FabricConfig → M A) (im : Impl S)
    P Q :
  emits P (fn (im_plane im) (im_config im)) Q → Forall P (kept_effects fn im).
Proof.
  intros Hm. unfold kept_effects.
  destruct (emits_run _ _ _ (start_mutation (im_plane im)) Hm eq_refl) as [Hes _].
  destruct (fn (im_plane im) (im_config im) _) as [[a|c] mu]; [done|].
  by destruct (mu_commit_before_return mu).
Qed.

Lemma judged_lookup p v r es r' :
  find_replica p (rvf_replica_id v) = Some r → Forall (judged p v) es →
  pl_replicas (apply_all p es) !! rvf_replica_id v = Some r' → r' = r ∨ verdict p v r r'.
Proof.
  intros Hr Hes [[Hin _]|[Hx _]]%lookup_written.
  - rewrite list.Forall_forall in Hes. apply Hes in Hin as (r0 & Hr0 & _ & ?). right. congruence.
  - left. unfold find_replica in Hr. congruence.
Qed.

(** What a verification report does to its replica. *)
Lemma verify_verdict {S} `{PersistenceStore S} (im : Impl S) v r r' :
  let after := exec (VerifyReplica v) im in
  reachable im → find_replica (im_plane im) (rvf_replica_id v) = Some r →
  find_replica (im_plane after.2) (rvf_replica_id v) = Some r' →
  (r' = r ∨ verdict (im_plane im) v r r') ∧
  (after.1 = Ok tt → verdict (im_plane im) v r r' ∧ rp_lifecycle r' = RL.PREPARED).
Proof.
  intros after Hp%reachable_inv Hr Hr'. unfold find_replica in Hr'. split.
  - unfold after, exec in Hr'. destruct (mutate_records (body (VerifyReplica v)) im) as [E|E];
      rewrite (same_replicas _ _ E) in Hr'; [left; unfold find_replica in Hr; congruence|].
    eapply judged_lookup; [done| |exact Hr']. eapply kept_emits, emits_bind; [apply judged_verify|].
    intros. by apply (emits_ret _ _ (λ _, True)).
  - intros Hok. destruct (mutate_Ok_records (body (VerifyReplica v)) im tt Hok) as (mu & Hrun & E).
    unfold after, exec in Hr'. rewrite (same_replicas _ _ E) in Hr'. apply void_Ok in Hrun as [a Hrun].
    destruct (emits_run _ _ _ (start_mutation (im_plane im))
      (judged_verify (im_plane im) (im_config im) v) eq_refl) as [Hes Hprep].
    rewrite Hrun in Hes, Hprep. specialize (Hprep a eq_refl).
    destruct (verify_run _ _ _ _ _ _ Hrun) as (es & He & Hone). simpl in He, Hes. subst es.
    assert (PUT_REPLICA a ∈ mu_effects mu) as Hin.
    { assert (a ∈ omap put_replica (mu_effects mu)) as Ha by (rewrite Hone; by left). by put_inv Ha. }
    rewrite list.Forall_forall in Hes. destruct (Hes _ Hin) as (r0 & Hr0 & Hid & Hv).
    assert (r0 = r) as -> by congruence.
    assert (r' = a) as ->; [|done].
    rewrite apply_all_replicas, Hone in Hr'. simpl in Hr'.
    rewrite Hid, (find_replica_id _ Hp _ _ Hr) in Hr'.
    rewrite lookup_insert_eq in Hr'. congruence.
Qed.


Definition demo_report : ReplicaVerification :=
  ReplicaVerification_default <| rvf_replica_id := 906 |> <| rvf_operation_id := 902 |>
    <| rvf_integrity_verified := true |> <| rvf_measured_digest := digest_one |>.

