(* ===== verification/Coordinator.v ===== *)
(** * The coordinator process ([coordinator.hpp] / [coordinator.cpp])

    The server side of the control plane: it owns the fabric, registers the agents
    that say HELLO, turns their reports and the requests of controllers into calls
    of the fabric, and sends transfer intents.  One step is what a connection thread
    does between two calls of [receive_frame]; the fabric serialises its own calls. *)

From S2P Require Import Prelude Taxonomy Model Bytes Cost ModelOps ControlPlane FabricCore.
From S2P Require Import FabricState Encoding RecordCodecs RequestCodecs Frames Payloads.
From S2P Require Import ControlCodecs FabricReplica FabricOps Lifecycle Fabric.

Local Open Scope Z_scope.

Record CoordinatorConfig := mkCoordinatorConfig {
  ccf_bind_address : string;
  ccf_port : Z;
  ccf_coordinator_id : Z;
  ccf_home_cluster : Z;
  ccf_persistence_directory : string;
  ccf_require_durable_commits : bool;
  ccf_maximum_payload_bytes : Z;
  ccf_placement_policy : PlacementPolicyRecord;
  ccf_replication_policy : ReplicationPolicyRecord
}.

Definition fabric_config (config : CoordinatorConfig) : FabricConfig :=
  FabricConfig_default <| cfg_coordinator_id := ccf_coordinator_id config |>
    <| cfg_home_cluster := ccf_home_cluster config |>
    <| cfg_persistence_directory := ccf_persistence_directory config |>
    <| cfg_require_durable_commits := ccf_require_durable_commits config |>
    <| cfg_maximum_payload_bytes := ccf_maximum_payload_bytes config |>
    <| cfg_default_placement_policy := ccf_placement_policy config |>
    <| cfg_default_replication_policy := ccf_replication_policy config |>.

(** The part of [peer] before its last colon. *)
Fixpoint before_last_colon (peer : string) : option string :=
  match peer with
  | EmptyString => None
  | String c rest =>
      match before_last_colon rest with
      | Some host => Some (String c host)
      | None => if bool_decide (c = Ascii.ascii_of_nat 58) then Some EmptyString else None
      end
  end.

Definition host_of (peer : string) : string := default peer (before_last_colon peer).

(** A session object; its connection is the number it is kept under. *)
Record Session := mkSession {
  ssn_peer : string;
  ssn_cluster_id : Z;
  ssn_incarnation : Z;
  ssn_worker_boot_id : Z;
  ssn_host : string;
  ssn_data_port : Z;
  ssn_is_agent : bool
}.

#[export] Instance Session_eta : Eta Session := λ s,
  mkSession (ssn_peer s) (ssn_cluster_id s) (ssn_incarnation s) (ssn_worker_boot_id s)
    (ssn_host s) (ssn_data_port s) (ssn_is_agent s).

Definition Session_new (peer : string) : Session := mkSession peer 0 0 0 "" 0 false.

(** Where the thread of a connection is in [handle_connection]. *)
Inductive Phase := Greeting | ServingAgent | ServingController | Awaiting (operation_id : Z) | Ended.

(** The connections as the coordinator uses them: sending may fail. *)
Class Network (T : Type) := {
  net_send : T → Z → Frame → Result unit * T;
  net_close : T → Z → T
}.

Section coordinator.
Context {S : Type} `{PersistenceStore S} {T : Type} `{Network T}.

(** [sessions] are the session objects, which the shared pointers of [agents] and of
    the connection threads keep alive; [listed] is [Shared::sessions]. *)
Record Coordinator := mkCoordinator {
  crd_config : CoordinatorConfig;
  crd_fabric : Impl S;
  crd_network : T;
  crd_sessions : gmap Z Session;
  crd_phases : gmap Z Phase;
  crd_listed : list Z;
  crd_agents : gmap Z Z;
  crd_stopping : bool;
  crd_shutdown_requested : bool
}.

#[export] Instance Coordinator_eta : Eta Coordinator := λ c,
  mkCoordinator (crd_config c) (crd_fabric c) (crd_network c) (crd_sessions c) (crd_phases c)
    (crd_listed c) (crd_agents c) (crd_stopping c) (crd_shutdown_requested c).

(** [Coordinator::start], given what opening the store and binding the listener
    returned. *)
Definition start (config : CoordinatorConfig) (opened : option (S * Result ControlPlane))
    (bound : Result T) : Result Coordinator :=
  match open (fabric_config config) opened with
  | Err code => Err code
  | Ok fabric =>
      match bound with
      | Err code => Err code
      | Ok network => Ok (mkCoordinator config fabric network ∅ ∅ [] ∅ false false)
      end
  end.

Definition epoch (co : Coordinator) : Z := pl_coordinator_epoch (im_plane (crd_fabric co)).

Definition send_frame_to (sid : Z) (frame : Frame) (co : Coordinator)
    : Result unit * Coordinator :=
  let '(sent, network) := net_send (crd_network co) sid frame in
  (sent, co <| crd_network := network |>).

Definition is_agent_session (co : Coordinator) (sid : Z) : bool :=
  match crd_sessions co !! sid with Some session => ssn_is_agent session | None => false end.

(** The listener is closed and every listed agent connection with it. *)
Definition request_stop (co : Coordinator) : Coordinator :=
  co <| crd_stopping := true |>
     <| crd_network ::=
          λ network, fold_left net_close (List.filter (is_agent_session co) (crd_listed co)) network |>.

Definition release_session (sid : Z) (co : Coordinator) : Coordinator :=
  co <| crd_network ::= λ network, net_close network sid |>
     <| crd_listed ::= List.filter (λ other, negb (other =? sid)) |>.

(** A call of the fabric that may change it. *)
Definition call_fabric {A} (fn : ControlPlane → FabricConfig → M A) (co : Coordinator)
    : Result A * Coordinator :=
  let '(result, fabric) := mutate fn (crd_fabric co) in
  (result, co <| crd_fabric := fabric |>).

Definition outgoing_frame (type : MessageType) (epoch : Z) (payload : list Z) : Frame :=
  mkFrame (FrameHeader_default <| fh_message_type := type |> <| fh_coordinator_epoch := epoch |>)
    payload.

Definition make_response (co : Coordinator) (ok : bool) (code : ErrorCode) (detail : string)
    (body : list Z) : Frame :=
  outgoing_frame MT.CONTROL_RESPONSE (epoch co)
    (ByteWriter.u32 (if ok then 1 else 0) ++ encode_enum code ++ ByteWriter.str detail ++
     ByteWriter.blob body).

(** ** Agents *)

Section handlers.
(** The text of [Error::to_string], which the model leaves open. *)
Context (text : string).

Definition registration_of (hello : HelloPayload) : ClusterRegistration :=
  mkClusterRegistration (hp_cluster_id hello) (hp_region hello) (hp_site hello)
    (hp_failure_domain hello) (hp_location_descriptor hello) (hp_worker_id hello)
    (hp_worker_boot_id hello) (hp_capabilities hello) (hp_capacity hello) CH.HEALTHY
    (hp_expected_coordinator_epoch hello) false.

(** The session and the directory of agents after an accepted HELLO. *)
Definition adopt_agent (sid : Z) (hello : HelloPayload) (cluster : ClusterRecord)
    (co : Coordinator) : Coordinator :=
  co <| crd_sessions ::= alter (λ session,
          session <| ssn_cluster_id := hp_cluster_id hello |>
            <| ssn_incarnation := cl_incarnation cluster |>
            <| ssn_worker_boot_id := cl_worker_boot_id cluster |>
            <| ssn_host := host_of (ssn_peer session) |>
            <| ssn_data_port := hp_listen_port hello mod 2 ^ 16 |>
            <| ssn_is_agent := true |>) sid |>
     <| crd_agents ::= <[hp_cluster_id hello := sid]> |>.

Definition handle_agent_hello (sid : Z) (frame : Frame) (co : Coordinator)
    : Result unit * Coordinator :=
  match (decode_HelloPayload (make_reader (fr_payload frame))).1 with
  | None => (Err EC.FRAME_CORRUPT, co)
  | Some hello =>
      let '(registered, co) := call_fabric (register_cluster (registration_of hello)) co in
      let ack incarnation worker boot accepted detail :=
        mkHelloAckPayload (hp_cluster_id hello) incarnation worker boot
          (ccf_coordinator_id (crd_config co)) (epoch co) accepted detail in
      let reply (ack : HelloAckPayload) :=
        outgoing_frame MT.HELLO_ACK (ha_coordinator_epoch ack) (encode_HelloAckPayload ack) in
      match registered with
      | Err _ => send_frame_to sid (reply (ack 0 0 0 0 text)) co
      | Ok cluster =>
          send_frame_to sid
            (reply (ack (cl_incarnation cluster) (cl_worker_id cluster) (cl_worker_boot_id cluster)
                      1 "registered"))
            (adopt_agent sid hello cluster co)
      end
  end.

Definition evidence_update_of (evidence : EvidencePayload) : ClusterEvidenceUpdate :=
  mkClusterEvidenceUpdate (ep_cluster_id evidence) (ep_cluster_incarnation evidence)
    (ep_health evidence) (ep_capabilities evidence) (ep_capacity evidence) true true
    (ep_expected_coordinator_epoch evidence) (ep_worker_boot_id evidence).

(** Reports are attributed to the cluster of the session and stamped with the
    coordinator's own epoch. *)
Definition progress_of (cluster_id epoch : Z) (report : TransferReportPayload)
    : TransferProgress :=
  mkTransferProgress (tr_transfer_id report) (tr_transfer_generation report)
    (tr_replica_id report) (tr_replica_generation report) (tr_operation_id report)
    (tr_operation_generation report) cluster_id (tr_cluster_incarnation report)
    (tr_worker_boot_id report) epoch (tr_bytes_transferred report) false "".

Definition failure_of (cluster_id epoch : Z) (report : TransferReportPayload)
    : TransferProgress :=
  (progress_of cluster_id epoch report) <| tp_bytes_transferred := 0 |> <| tp_failed := true |>
    <| tp_failure_reason := tr_detail report |>.

Definition completion_of (cluster_id epoch : Z) (report : TransferReportPayload)
    : TransferCompletion :=
  TransferCompletion_default <| tc_transfer_id := tr_transfer_id report |>
    <| tc_transfer_generation := tr_transfer_generation report |>
    <| tc_replica_id := tr_replica_id report |>
    <| tc_replica_generation := tr_replica_generation report |>
    <| tc_operation_id := tr_operation_id report |>
    <| tc_operation_generation := tr_operation_generation report |>
    <| tc_cluster_id := cluster_id |>
    <| tc_cluster_incarnation := tr_cluster_incarnation report |>
    <| tc_worker_boot_id := tr_worker_boot_id report |>
    <| tc_expected_coordinator_epoch := epoch |>
    <| tc_bytes_transferred := tr_bytes_transferred report |>
    <| tc_measured_digest := tr_measured_digest report |>
    <| tc_transfer_complete := true |>.

Definition verification_of (cluster_id epoch : Z) (report : VerifyReportPayload)
    : ReplicaVerification :=
  ReplicaVerification_default <| rvf_verification_id := vr_verification_id report |>
    <| rvf_replica_id := vr_replica_id report |>
    <| rvf_replica_generation := vr_replica_generation report |>
    <| rvf_operation_id := vr_operation_id report |>
    <| rvf_operation_generation := vr_operation_generation report |>
    <| rvf_cluster_id := cluster_id |>
    <| rvf_cluster_incarnation := vr_cluster_incarnation report |>
    <| rvf_worker_boot_id := vr_worker_boot_id report |>
    <| rvf_expected_coordinator_epoch := epoch |>
    <| rvf_integrity_verified := negb (vr_integrity_verified report =? 0) |>
    <| rvf_measured_digest := vr_measured_digest report |>
    <| rvf_compatibility_verified := negb (vr_compatibility_verified report =? 0) |>
    <| rvf_verified_bytes := vr_verified_bytes report |>
    <| rvf_established_durability := default DC.UNKNOWN (enum_cast (vr_durability report)) |>
    <| rvf_detail := vr_detail report |>.

(** The acknowledgement of a report: [detail] when the fabric accepted it. *)
Definition acknowledge {A} (sid : Z) (type : MessageType) (detail : string)
    (recorded : Result A * Coordinator) : Result unit * Coordinator :=
  let '(result, co) := recorded in
  let ack :=
    match result with
    | Ok _ => mkSimplePayload 1 (enum_value EC.OK) detail ""
    | Err code => mkSimplePayload 0 (enum_value code) text ""
    end in
  send_frame_to sid (outgoing_frame type (epoch co) (encode_SimplePayload ack)) co.

Definition is_acknowledgement (type : MessageType) : bool :=
  match type with
  | MT.TRANSFER_INTENT_ACK | MT.TRANSFER_PROGRESS_ACK | MT.TRANSFER_RESULT_ACK
  | MT.VERIFY_RESULT_ACK | MT.SHUTDOWN_ACK | MT.HEARTBEAT_ACK => true
  | _ => false
  end.

Definition handle_agent_frame (sid : Z) (frame : Frame) (co : Coordinator)
    : Result unit * Coordinator :=
  let reader := make_reader (fr_payload frame) in
  let cluster_id := default 0 (ssn_cluster_id <$> crd_sessions co !! sid) in
  match fh_message_type (fr_header frame) with
  | MT.EVIDENCE =>
      match (decode_EvidencePayload reader).1 with
      | None => (Err EC.FRAME_CORRUPT, co)
      | Some evidence =>
          acknowledge sid MT.EVIDENCE_ACK "evidence accepted"
            (call_fabric (publish_cluster_evidence (evidence_update_of evidence)) co)
      end
  | MT.TRANSFER_PROGRESS =>
      match (decode_TransferReportPayload reader).1 with
      | None => (Err EC.FRAME_CORRUPT, co)
      | Some report =>
          acknowledge sid MT.TRANSFER_PROGRESS_ACK "progress accepted"
            (call_fabric (record_transfer_progress (progress_of cluster_id (epoch co) report)) co)
      end
  | MT.TRANSFER_RESULT =>
      match (decode_TransferReportPayload reader).1 with
      | None => (Err EC.FRAME_CORRUPT, co)
      | Some report =>
          if negb (tr_failed report =? 0)
          then acknowledge sid MT.TRANSFER_RESULT_ACK "failure recorded"
                 (call_fabric (record_transfer_progress (failure_of cluster_id (epoch co) report)) co)
          else acknowledge sid MT.TRANSFER_RESULT_ACK "transfer recorded"
                 (call_fabric
                    (record_transfer_completion (completion_of cluster_id (epoch co) report)) co)
      end
  | MT.VERIFY_RESULT =>
      match (decode_VerifyReportPayload reader).1 with
      | None => (Err EC.FRAME_CORRUPT, co)
      | Some report =>
          acknowledge sid MT.VERIFY_RESULT_ACK "verification recorded"
            (call_fabric (verify_replica (verification_of cluster_id (epoch co) report)) co)
      end
  | MT.HEARTBEAT =>
      send_frame_to sid
        (outgoing_frame MT.HEARTBEAT_ACK (epoch co)
           (encode_SimplePayload (mkSimplePayload 1 (enum_value EC.OK) "alive" ""))) co
  | type => if is_acknowledgement type then (Ok tt, co) else (Err EC.PROTOCOL_UNSUPPORTED, co)
  end.
End handlers.

(** ** Controllers *)

Definition result_map {A B} (f : A → B) (r : Result A) : Result B :=
  match r with Ok a => Ok (f a) | Err code => Err code end.

(** Decodes the arguments of an operation; what follows them is not looked at. *)
Definition with_arguments {A R} (m : Reader A) (arguments : list Z) (malformed : R) (k : A → R) : R :=
  match (m (make_reader arguments)).1 with None => malformed | Some a => k a end.

Definition decode_two : Reader (Z * Z) :=
  (a <- decode_id;; b <- decode_id;; rret (a, b))%reader.
Definition decode_three : Reader (Z * Z * Z) :=
  (a <- decode_id;; b <- decode_id;; c <- decode_id;; rret (a, b, c))%reader.
Definition decode_unreachable : Reader (Z * Z * string) :=
  (a <- decode_id;; b <- decode_id;; reason <- Reader.str kMaxReasonBytes;;
   rret (a, b, reason))%reader.

(** The transfer intent of an authorization, for agents at the given addresses. *)
Definition intent_of (auth : TransferAuthorization) (source destination : Session)
    : TransferIntentPayload :=
  mkTransferIntentPayload (ta_transfer_id auth) (ta_transfer_generation auth)
    (ta_operation_id auth) (ta_operation_generation auth) (ta_migration_id auth)
    (ta_migration_generation auth) (ta_reservation_id auth) (ta_reservation_generation auth)
    (ta_state_id auth) (ta_state_generation auth) (ta_destination_replica auth)
    (ta_destination_replica_generation auth) (ta_destination_cluster auth)
    (ta_destination_incarnation auth) (ta_source_cluster auth) (ta_source_incarnation auth)
    (ta_source_replica auth)
    (if size_known (ta_transfer_bytes auth) then sz_bytes (ta_transfer_bytes auth) else 0)
    (ta_expected_digest auth) (ta_transfer_id auth) (ta_coordinator_epoch auth)
    (ta_reservation_expires_at auth) (ssn_host source) (ssn_data_port source)
    (ssn_data_port destination).

Definition intent_frame (epoch : Z) (auth : TransferAuthorization) (source destination : Session)
    : Frame :=
  mkFrame (FrameHeader_default <| fh_message_type := MT.TRANSFER_INTENT |>
             <| fh_coordinator_epoch := epoch |>
             <| fh_cluster_id := ta_destination_cluster auth |>
             <| fh_cluster_incarnation := ta_destination_incarnation auth |>
             <| fh_operation_generation := ta_operation_generation auth |>)
    (encode_TransferIntentPayload (intent_of auth source destination)).

(** The connection and the session of the agent of a cluster. *)
Definition find_agent (co : Coordinator) (cluster_id : Z) : option (Z * Session) :=
  sid ← crd_agents co !! cluster_id; session ← crd_sessions co !! sid; Some (sid, session).

(** What a result of [dispatch] is: [None] while the thread waits for the state of an
    operation to change. *)
Definition Reply : Type := option (Result (list Z)) * Coordinator.

Definition malformed (co : Coordinator) : Reply := (Some (Err EC.INVALID_ARGUMENT), co).

(** A mutation whose arguments and response are records. *)
Definition mutation {B} `{Codec B} (fn : ControlPlane → FabricConfig → M B) (co : Coordinator)
    : Reply :=
  let '(result, co) := call_fabric fn co in (Some (result_map encode result), co).

Definition query {B} (enc : B → list Z) (result : Result B) (co : Coordinator) : Reply :=
  (Some (result_map enc result), co).

(** The intent goes to the destination; the authorization stands even when it cannot
    be sent. *)
Definition send_intent (authorized : Result TransferAuthorization) (co : Coordinator) : Reply :=
  match authorized with
  | Err code => (Some (Err code), co)
  | Ok auth =>
      match find_agent co (ta_destination_cluster auth), find_agent co (ta_source_cluster auth) with
      | Some (sid, destination), Some (_, source) =>
          let '(sent, co) := send_frame_to sid (intent_frame (epoch co) auth source destination) co in
          match sent with
          | Err code => (Some (Err code), co)
          | Ok _ => (Some (Ok (encode auth)), co)
          end
      | _, _ => (Some (Err EC.UNKNOWN_CLUSTER), co)
      end
  end.

(** One turn of the loop of [AWAIT_OPERATION]. *)
Definition await_operation (operation_id : Z) (co : Coordinator) : Reply :=
  match query_operation (im_plane (crd_fabric co)) operation_id with
  | Err code => (Some (Err code), co)
  | Ok record =>
      if bool_decide (op_state record = OS.PREPARED) || operation_is_terminal record
      then (Some (Ok (encode record)), co) else (None, co)
  end.

Definition current_status (co : Coordinator) : FabricStatus :=
  let im := crd_fabric co in
  status (im_plane im) (if im_store im then true else false) (im_recovered_from_durable im).

(** The cases for clusters, revalidation, policies and the end of the service. *)
Definition dispatch_administration (operation : ControlOperation) (arguments : list Z) (co : Coordinator) : Reply :=
  let args {A} (m : Reader A) (k : A → Reply) : Reply :=
    with_arguments m arguments (malformed co) k in
  match operation with
  | CO.MARK_CLUSTER_UNREACHABLE =>
      args decode_unreachable (λ '(cluster_id, incarnation, reason),
        mutation (mark_cluster_unreachable cluster_id incarnation reason) co)
  | CO.RETIRE_CLUSTER =>
      args decode_two (λ '(cluster_id, incarnation),
        mutation (retire_cluster cluster_id incarnation) co)
  | CO.REINCARNATE_CLUSTER => args decode (λ registration, mutation (register_cluster registration) co)
  | CO.REVALIDATE_REPLICA => args decode (λ transition, mutation (revalidate_replica transition) co)
  | CO.PUBLISH_COMPATIBILITY => args decode (λ record, mutation (publish_compatibility record) co)
  | CO.PUBLISH_REPLICATION_POLICY =>
      args decode (λ policy, mutation (publish_replication_policy policy) co)
  | CO.PUBLISH_PLACEMENT_POLICY =>
      args decode (λ policy, mutation (publish_placement_policy policy) co)
  | CO.SHUTDOWN => (Some (Ok (ByteWriter.u32 1)), co <| crd_shutdown_requested := true |>)
  | _ => (Some (Err EC.PROTOCOL_UNSUPPORTED), co)
  end.

(** The cases for decisions and their explanations. *)
Definition dispatch_decisions (operation : ControlOperation) (arguments : list Z) (co : Coordinator) : Reply :=
  let plane := im_plane (crd_fabric co) in
  let config := im_config (crd_fabric co) in
  let args {A} (m : Reader A) (k : A → Reply) : Reply :=
    with_arguments m arguments (malformed co) k in
  match operation with
  | CO.EVALUATE_REUSE =>
      args decode_three (λ '(state_id, generation, cluster_id),
        query encode_reuse (Ok (evaluate_reuse plane config state_id generation cluster_id)) co)
  | CO.RECONCILE_REPLICA_SET =>
      args decode_two (λ '(state_id, generation),
        query encode_reconciliation (reconcile_replica_set plane state_id generation) co)
  | CO.PLAN_REPLICATION =>
      args decode (λ request,
        query encode_placement (Query.plan_replication plane config request) co)
  | CO.EXPLAIN_REPLICA_SET =>
      args decode_two (λ '(state_id, generation),
        query encode_explanation (Explain.explain_replica_set_state plane state_id generation) co)
  | _ => dispatch_administration operation arguments co
  end.

(** The cases for operations. *)
Definition dispatch_transactions (operation : ControlOperation) (arguments : list Z) (co : Coordinator) : Reply :=
  let plane := im_plane (crd_fabric co) in
  let args {A} (m : Reader A) (k : A → Reply) : Reply :=
    with_arguments m arguments (malformed co) k in
  match operation with
  | CO.COMMIT_OPERATION => args decode (λ commit, mutation (commit_operation commit) co)
  | CO.CANCEL_OPERATION =>
      args decode (λ cancellation, mutation (cancel_operation cancellation) co)
  | CO.QUERY_OPERATION =>
      args decode_id (λ operation_id, query encode (query_operation plane operation_id) co)
  | CO.AWAIT_OPERATION => args decode_id (λ operation_id, await_operation operation_id co)
  | CO.LIST_OPERATIONS => query (encode_vector encode) (Ok (list_operations plane)) co
  | CO.QUERY_AUTHORIZATION =>
      args decode_id (λ operation_id, query encode (query_authorization plane operation_id) co)
  | _ => dispatch_decisions operation arguments co
  end.

(** The switch of [dispatch]: states, replicas and authorizations, and then the other groups. *)
Definition dispatch (operation : ControlOperation) (arguments : list Z) (co : Coordinator) : Reply :=
  let plane := im_plane (crd_fabric co) in
  let args {A} (m : Reader A) (k : A → Reply) : Reply :=
    with_arguments m arguments (malformed co) k in
  match operation with
  | CO.STATUS => query encode_status (Ok (current_status co)) co
  | CO.REGISTER_STATE => args decode (λ spec, mutation (register_state spec) co)
  | CO.COMMIT_STATE =>
      args decode_three (λ '(state_id, generation, commit_id),
        mutation (commit_state_generation state_id generation commit_id) co)
  | CO.QUERY_STATE =>
      args decode_two (λ '(state_id, generation),
        query encode (query_state plane state_id generation) co)
  | CO.LIST_CLUSTERS => query (encode_vector encode) (Ok (list_clusters plane)) co
  | CO.REGISTER_REPLICA => args decode (λ registration, mutation (register_replica registration) co)
  | CO.TRANSFER_COMPLETION =>
      args decode (λ completion, mutation (record_transfer_completion completion) co)
  | CO.VERIFY_REPLICA => args decode (λ verification, mutation (verify_replica verification) co)
  | CO.COMMIT_REPLICA => args decode (λ commit, mutation (commit_replica commit) co)
  | CO.QUERY_REPLICA =>
      args decode_id (λ replica_id, query encode (query_replica plane replica_id) co)
  | CO.LIST_REPLICAS =>
      args decode_two (λ '(state_id, generation),
        query (encode_vector encode) (Ok (list_replicas plane state_id generation)) co)
  | CO.AUTHORIZE_REPLICATION =>
      args decode (λ request,
        let '(authorized, co) := call_fabric (authorize_replication request) co in
        send_intent authorized co)
  | CO.AUTHORIZE_MIGRATION =>
      args decode (λ request,
        let '(authorized, co) := call_fabric (authorize_migration request) co in
        send_intent authorized co)
  | _ => dispatch_transactions operation arguments co
  end.

(** ** Connections *)

Definition set_phase (sid : Z) (phase : Phase) (co : Coordinator) : Coordinator :=
  co <| crd_phases ::= <[sid := phase]> |>.

(** The connection thread returns after releasing its session. *)
Definition end_session (sid : Z) (co : Coordinator) : Coordinator :=
  set_phase sid Ended (release_session sid co).

(** The end of the agent loop. *)
Definition leave_agent (sid : Z) (co : Coordinator) : Coordinator :=
  let cluster_id := default 0 (ssn_cluster_id <$> crd_sessions co !! sid) in
  end_session sid
    (if valid cluster_id then co <| crd_agents ::= delete cluster_id |> else co).

(** The end of one turn of the controller loop. *)
Definition after_request (sid : Z) (co : Coordinator) : Coordinator :=
  if crd_shutdown_requested co then end_session sid (request_stop co)
  else set_phase sid ServingController co.

Definition send_reply (text : string) (sid : Z) (reply : Result (list Z)) (co : Coordinator)
    : Coordinator :=
  let response :=
    match reply with
    | Ok body => make_response co true EC.OK "ok" body
    | Err code => make_response co false code text []
    end in
  let '(sent, co) := send_frame_to sid response co in
  match sent with
  | Err _ => end_session sid co
  | Ok _ => after_request sid co
  end.

Definition decode_control_request (max_bytes : Z) : Reader (Z * list Z) :=
  (raw_operation <- Reader.u16;; arguments <- Reader.blob max_bytes;;
   rret (raw_operation, arguments))%reader.

Definition serve_request (text : string) (sid : Z) (frame : Frame) (co : Coordinator)
    : Coordinator :=
  match (decode_control_request (ccf_maximum_payload_bytes (crd_config co))
           (make_reader (fr_payload frame))).1 with
  | None =>
      set_phase sid ServingController
        (send_frame_to sid (make_response co false EC.FRAME_CORRUPT text []) co).2
  | Some (raw_operation, arguments) =>
      match control_operation_cast raw_operation with
      | None =>
          after_request sid
            (send_frame_to sid
               (make_response co false EC.PROTOCOL_UNSUPPORTED "unknown control operation" []) co).2
      | Some operation =>
          match dispatch operation arguments co with
          | (Some reply, co) => send_reply text sid reply co
          | (None, co) => set_phase sid (Awaiting (with_arguments decode_id arguments 0 id)) co
          end
      end
  end.

(** What can happen to a connection: a peer connects, a frame arrives,
    [receive_frame] fails, or the condition an awaited operation waits on is
    signalled.  [text] is what an error would be rendered as. *)
Inductive event :=
  | Accepted (sid : Z) (peer : string)
  | Received (sid : Z) (frame : Frame) (text : string)
  | Lost (sid : Z)
  | Woken (sid : Z) (text : string).

(** The first frame decides what the connection is; the two early returns after it
    leave the session listed. *)
Definition greet (text : string) (sid : Z) (frame : Frame) (co : Coordinator) : Coordinator :=
  match fh_message_type (fr_header frame) with
  | MT.HELLO =>
      match handle_agent_hello text sid frame co with
      | (Ok _, co) => set_phase sid ServingAgent co
      | (Err _, co) => set_phase sid Ended co
      end
  | MT.CONTROL_REQUEST => serve_request text sid frame co
  | _ => set_phase sid Ended co
  end.

Definition step (ev : event) (co : Coordinator) : Coordinator :=
  match ev with
  | Accepted sid peer =>
      if crd_stopping co then co
      else match crd_phases co !! sid with
           | Some _ => co
           | None =>
               set_phase sid Greeting
                 (co <| crd_sessions ::= <[sid := Session_new peer]> |>
                     <| crd_listed ::= λ listed, listed ++ [sid] |>)
           end
  | Received sid frame text =>
      match crd_phases co !! sid with
      | Some Greeting => greet text sid frame co
      | Some ServingAgent =>
          match handle_agent_frame text sid frame co with
          | (Ok _, co) => co
          | (Err _, co) => leave_agent sid co
          end
      | Some ServingController => serve_request text sid frame co
      | _ => co
      end
  | Lost sid =>
      match crd_phases co !! sid with
      | Some Greeting | Some ServingController => end_session sid co
      | Some ServingAgent => leave_agent sid co
      | _ => co
      end
  | Woken sid text =>
      match crd_phases co !! sid with
      | Some (Awaiting operation_id) =>
          match await_operation operation_id co with
          | (Some reply, co) => send_reply text sid reply co
          | (None, co) => co
          end
      | _ => co
      end
  end.

Definition steps (evs : list event) (co : Coordinator) : Coordinator :=
  fold_left (λ co ev, step ev co) evs co.
End coordinator.

Arguments Coordinator S T : clear implicits.
