(* ===== verification/Coordination.v ===== *)
(** * What the coordinator does to the fabric

    Every step of the coordinator makes at most one call of the fabric, so whatever
    its connections do, what it serves is a history of the fabric; which calls an
    agent and a controller can cause; and the directory of agents. *)

From S2P Require Import Prelude Taxonomy Model Bytes ModelOps ControlPlane FabricCore FabricState.
From S2P Require Import Encoding RecordCodecs RequestCodecs Frames Payloads ControlCodecs.
From S2P Require Import FabricReplica FabricOps Lifecycle Fabric Scenario Invariants Coordinator.

Local Open Scope Z_scope.

(** ** What each kind of peer may ask for *)

(** The requests a controller's operations make. *)
Definition controller_request (q : request) : bool :=
  match q with
  | RegisterState _ | CommitStateGeneration _ _ _ | RegisterCluster _ | MarkClusterUnreachable _ _ _
  | RetireCluster _ _ | PublishCompatibility _ | PublishPlacementPolicy _
  | PublishReplicationPolicy _ | RegisterReplica _ | RecordTransferCompletion _ | VerifyReplica _
  | CommitReplica _ | RevalidateReplica _ | AuthorizeReplication _ | AuthorizeMigration _
  | CommitOperation _ | CancelOperation _ => true
  | _ => false
  end.

(** The reports of an agent, attributed to a cluster and addressed to an epoch. *)
Definition agent_report (cluster_id epoch : Z) (q : request) : bool :=
  match q with
  | PublishClusterEvidence _ => true
  | RecordTransferProgress p =>
      (tp_cluster_id p =? cluster_id) && (tp_expected_coordinator_epoch p =? epoch)
  | RecordTransferCompletion c =>
      (tc_cluster_id c =? cluster_id) && (tc_expected_coordinator_epoch c =? epoch)
  | VerifyReplica v =>
      (rvf_cluster_id v =? cluster_id) && (rvf_expected_coordinator_epoch v =? epoch)
  | _ => false
  end.

(** Whatever either kind of peer can cause. *)
Definition remote_request (q : request) : bool :=
  match q with
  | PublishClusterEvidence _ | RecordTransferProgress _ => true
  | _ => controller_request q
  end.

Section coordination.
Context {S : Type} `{PersistenceStore S} {T : Type} `{Network T}.
Implicit Types (co : Coordinator S T) (im : Impl S).

(** At most one call of the fabric, of the given kind. *)
Definition served (allowed : request → bool) (im im' : Impl S) : Prop :=
  im' = im ∨ ∃ q, allowed q = true ∧ im' = (exec q im).2.

Lemma served_none allowed im : served allowed im im.
Proof. by left. Qed.

Lemma served_weaken (allowed allowed' : request → bool) im im' :
  (∀ q, allowed q = true → allowed' q = true) → served allowed im im' → served allowed' im im'.
Proof. intros Hw [->|(q & Hq & ->)]; [by left|right; eauto]. Qed.

(** Dropping the response of a body changes nothing else. *)
Lemma mutate_void {A} (fn : ControlPlane → FabricConfig → M A) im :
  (mutate (λ plane config, void (fn plane config)) im).2 = (mutate fn im).2.
Proof.
  unfold mutate. destruct (im_shutting_down im); [done|]. unfold void, mbind, mret.
  destruct (fn (im_plane im) (im_config im) (start_mutation (im_plane im))) as [[a|code] mu].
  - by destruct (persist_and_apply mu im) as [[]].
  - destruct (mu_commit_before_return mu); [|done]. by destruct (persist_and_apply mu im) as [[]].
Qed.

Lemma call_fabric_state {A} (fn : ControlPlane → FabricConfig → M A) co :
  (call_fabric fn co).2 = co <| crd_fabric := (mutate fn (crd_fabric co)).2 |>.
Proof. unfold call_fabric. by destruct (mutate fn (crd_fabric co)). Qed.

(** A call of the fabric is the execution of the request it stands for. *)
Lemma call_fabric_served {A} (fn : ControlPlane → FabricConfig → M A) q allowed co :
  body q = (λ plane config, void (fn plane config)) → allowed q = true →
  served allowed (crd_fabric co) (crd_fabric (call_fabric fn co).2).
Proof.
  intros Hb Hq. right. exists q. split; [done|]. rewrite call_fabric_state. unfold exec.
  by rewrite Hb, mutate_void.
Qed.

(** ** Steps that do not touch the fabric *)

Lemma send_frame_to_fabric sid frame co : crd_fabric (send_frame_to sid frame co).2 = crd_fabric co.
Proof. unfold send_frame_to. by destruct (net_send (crd_network co) sid frame). Qed.

Lemma release_session_fabric sid co : crd_fabric (end_session sid co) = crd_fabric co.
Proof. reflexivity. Qed.

Lemma after_request_fabric sid co : crd_fabric (after_request sid co) = crd_fabric co.
Proof. unfold after_request. by destruct (crd_shutdown_requested co). Qed.

Lemma send_reply_fabric text sid reply co : crd_fabric (send_reply text sid reply co) = crd_fabric co.
Proof.
  unfold send_reply.
  set (response := match reply with Ok _ => _ | Err _ => _ end). clearbody response.
  pose proof (send_frame_to_fabric sid response co) as E.
  destruct (send_frame_to sid response co) as [[u|code] co']; cbn [snd] in E.
  - by rewrite after_request_fabric.
  - done.
Qed.

Lemma leave_agent_fabric sid co : crd_fabric (leave_agent sid co) = crd_fabric co.
Proof. unfold leave_agent. by destruct (valid _). Qed.

Lemma acknowledge_fabric {A} text sid type detail (recorded : Result A * Coordinator S T) :
  crd_fabric (acknowledge text sid type detail recorded).2 = crd_fabric recorded.2.
Proof. destruct recorded as [result co]. unfold acknowledge. by rewrite send_frame_to_fabric. Qed.

Lemma send_intent_fabric authorized co :
  crd_fabric (send_intent authorized co).2 = crd_fabric co.
Proof.
  unfold send_intent. destruct authorized as [auth|]; [|done].
  destruct (find_agent co _) as [[sid destination]|]; [|done].
  destruct (find_agent co _) as [[sid' source]|]; [|done].
  set (frame := intent_frame _ _ _ _). clearbody frame.
  pose proof (send_frame_to_fabric sid frame co) as E.
  by destruct (send_frame_to sid frame co) as [[u|code] co'].
Qed.

Lemma await_operation_fabric operation_id co :
  crd_fabric (await_operation operation_id co).2 = crd_fabric co.
Proof.
  unfold await_operation. destruct (query_operation _ _); [|done]. by destruct (_ || _).
Qed.

(** ** Agents *)

Lemma handle_agent_frame_served text sid frame co :
  let cluster_id := default 0 (ssn_cluster_id <$> crd_sessions co !! sid) in
  served (agent_report cluster_id (epoch co)) (crd_fabric co)
    (crd_fabric (handle_agent_frame text sid frame co).2).
Proof.
  cbv zeta. unfold handle_agent_frame. set (cluster_id := default 0 _).
  destruct (fh_message_type (fr_header frame)); try apply served_none.
  - destruct (decode_EvidencePayload _).1 as [evidence|]; [|apply served_none].
    rewrite acknowledge_fabric. by eapply (call_fabric_served _ (PublishClusterEvidence _)).
  - rewrite send_frame_to_fabric. apply served_none.
  - destruct (decode_TransferReportPayload _).1 as [report|]; [|apply served_none].
    rewrite acknowledge_fabric. eapply (call_fabric_served _ (RecordTransferProgress _)); [done|].
    cbn. by rewrite !Z.eqb_refl.
  - destruct (decode_TransferReportPayload _).1 as [report|]; [|apply served_none].
    destruct (negb _); rewrite acknowledge_fabric.
    + eapply (call_fabric_served _ (RecordTransferProgress _)); [done|]. cbn. by rewrite !Z.eqb_refl.
    + eapply (call_fabric_served _ (RecordTransferCompletion _)); [done|]. cbn. by rewrite !Z.eqb_refl.
  - destruct (decode_VerifyReportPayload _).1 as [report|]; [|apply served_none].
    rewrite acknowledge_fabric. eapply (call_fabric_served _ (VerifyReplica _)); [done|].
    cbn. by rewrite !Z.eqb_refl.
Qed.

Lemma handle_agent_hello_served text sid frame co :
  served controller_request (crd_fabric co) (crd_fabric (handle_agent_hello text sid frame co).2).
Proof.
  unfold handle_agent_hello. destruct (decode_HelloPayload _).1 as [hello|]; [|apply served_none].
  pose proof (call_fabric_served (register_cluster (registration_of hello))
    (RegisterCluster (registration_of hello)) controller_request co eq_refl eq_refl) as Hc.
  destruct (call_fabric _ co) as [[cluster|code] co']; rewrite send_frame_to_fabric; exact Hc.
Qed.

(** ** Controllers *)

Lemma mutation_served {B} `{Codec B} (fn : ControlPlane → FabricConfig → M B) q co :
  body q = (λ plane config, void (fn plane config)) → controller_request q = true →
  served controller_request (crd_fabric co) (crd_fabric (mutation fn co).2).
Proof.
  intros Hb Hq. pose proof (call_fabric_served fn q controller_request co Hb Hq) as Hc.
  unfold mutation. by destruct (call_fabric fn co).
Qed.

Lemma authorize_served (fn : ControlPlane → FabricConfig → M TransferAuthorization) q co :
  body q = (λ plane config, void (fn plane config)) → controller_request q = true →
  served controller_request (crd_fabric co)
    (crd_fabric (let '(authorized, co) := call_fabric fn co in send_intent authorized co).2).
Proof.
  intros Hb Hq. pose proof (call_fabric_served fn q controller_request co Hb Hq) as Hc.
  destruct (call_fabric fn co) as [authorized co']. by rewrite send_intent_fabric.
Qed.

Lemma with_arguments_served {A} (m : Reader A) arguments (k : A → Reply) co :
  (∀ a, served controller_request (crd_fabric co) (crd_fabric (k a).2)) →
  served controller_request (crd_fabric co)
    (crd_fabric (with_arguments m arguments (malformed co) k).2).
Proof.
  intros Hk. unfold with_arguments. destruct (m (make_reader arguments)).1; [apply Hk|apply served_none].
Qed.

Lemma dispatch_served operation arguments co :
  served controller_request (crd_fabric co) (crd_fabric (dispatch operation arguments co).2).
Proof.
  destruct operation; cbn [dispatch dispatch_transactions dispatch_decisions dispatch_administration]; try apply served_none;
    (apply with_arguments_served; intros a;
     repeat match goal with p : _ * _ |- _ => destruct p end; try apply served_none).
  - exact (mutation_served _ (RegisterState a) co eq_refl eq_refl).
  - eapply (mutation_served _ (CommitStateGeneration _ _ _)); reflexivity.
  - exact (mutation_served _ (RegisterReplica a) co eq_refl eq_refl).
  - exact (mutation_served _ (RecordTransferCompletion a) co eq_refl eq_refl).
  - exact (mutation_served _ (VerifyReplica a) co eq_refl eq_refl).
  - exact (mutation_served _ (CommitReplica a) co eq_refl eq_refl).
  - exact (authorize_served _ (AuthorizeReplication a) co eq_refl eq_refl).
  - exact (authorize_served _ (AuthorizeMigration a) co eq_refl eq_refl).
  - exact (mutation_served _ (CommitOperation a) co eq_refl eq_refl).
  - exact (mutation_served _ (CancelOperation a) co eq_refl eq_refl).
  - rewrite await_operation_fabric. apply served_none.
  - eapply (mutation_served _ (MarkClusterUnreachable _ _ _)); reflexivity.
  - exact (mutation_served _ (RevalidateReplica a) co eq_refl eq_refl).
  - eapply (mutation_served _ (RetireCluster _ _)); reflexivity.
  - exact (mutation_served _ (PublishCompatibility a) co eq_refl eq_refl).
  - exact (mutation_served _ (PublishReplicationPolicy a) co eq_refl eq_refl).
  - exact (mutation_served _ (PublishPlacementPolicy a) co eq_refl eq_refl).
  - exact (mutation_served _ (RegisterCluster a) co eq_refl eq_refl).
Qed.

Lemma serve_request_served text sid frame co :
  served controller_request (crd_fabric co) (crd_fabric (serve_request text sid frame co)).
Proof.
  unfold serve_request.
  destruct (decode_control_request _ _).1 as [[raw arguments]|].
  2: { cbn [set_phase]. change (crd_fabric (set_phase ?s ?p ?c)) with (crd_fabric c).
       unfold set_phase. cbn [crd_fabric set_field]. rewrite send_frame_to_fabric. apply served_none. }
  destruct (control_operation_cast raw) as [operation|].
  2: { rewrite after_request_fabric, send_frame_to_fabric. apply served_none. }
  pose proof (dispatch_served operation arguments co) as Hd.
  destruct (dispatch operation arguments co) as [[reply|] co']; cbn [snd] in Hd; [|exact Hd].
  by rewrite send_reply_fabric.
Qed.

(** ** Any step *)

Lemma greet_served text sid frame co :
  served controller_request (crd_fabric co) (crd_fabric (greet text sid frame co)).
Proof.
  unfold greet. destruct (fh_message_type (fr_header frame)); try apply served_none.
  - pose proof (handle_agent_hello_served text sid frame co) as Hh.
    by destruct (handle_agent_hello text sid frame co) as [[u|code] co'].
  - apply serve_request_served.
Qed.

Lemma controller_is_remote q : controller_request q = true → remote_request q = true.
Proof. by destruct q. Qed.

Lemma report_is_remote cluster_id epoch q : agent_report cluster_id epoch q = true → remote_request q = true.
Proof. by destruct q. Qed.

Lemma step_served ev co : served remote_request (crd_fabric co) (crd_fabric (step ev co)).
Proof.
  destruct ev as [sid peer|sid frame text|sid|sid text]; cbn [step].
  - destruct (crd_stopping co); [apply served_none|]. by destruct (crd_phases co !! sid); left.
  - destruct (crd_phases co !! sid) as [[]|]; try apply served_none.
    + eapply served_weaken; [apply controller_is_remote|apply greet_served].
    + pose proof (handle_agent_frame_served text sid frame co) as Hf.
      destruct (handle_agent_frame text sid frame co) as [[u|code] co']; cbn [snd] in Hf;
        rewrite ?leave_agent_fabric; (eapply served_weaken; [apply report_is_remote|exact Hf]).
    + eapply served_weaken; [apply controller_is_remote|apply serve_request_served].
  - destruct (crd_phases co !! sid) as [[]|]; try apply served_none.
    rewrite leave_agent_fabric. apply served_none.
  - destruct (crd_phases co !! sid) as [[| | |operation_id|]|]; try apply served_none.
    pose proof (await_operation_fabric operation_id co) as Ha.
    destruct (await_operation operation_id co) as [[reply|] co']; cbn [snd] in Ha.
    + rewrite send_reply_fabric, Ha. apply served_none.
    + rewrite Ha. apply served_none.
Qed.

Lemma steps_history evs co :
  ∃ qs, forallb remote_request qs = true ∧ (length qs ≤ length evs)%nat ∧
    crd_fabric (steps evs co) = run qs (crd_fabric co).
Proof.
  revert co. induction evs as [|ev evs IH]; intros co; cbn [steps fold_left].
  { by exists []. }
  destruct (IH (step ev co)) as (qs & Hq & Hl & E). unfold steps in E.
  destruct (step_served ev co) as [Es|(q & Hr & Es)].
  - exists qs. rewrite E, Es. split_and!; [done|cbn; lia|done].
  - exists (q :: qs). rewrite E, Es. cbn [forallb length]. rewrite Hr. split_and!; [done|lia|done].
Qed.

(** ** The directory of agents *)

(** Every connection that was accepted has a session object, and every cluster in the
    directory leads to the session of an agent of that cluster. *)
Record directory_ok co : Prop := {
  dir_sessions sid : is_Some (crd_phases co !! sid) ↔ is_Some (crd_sessions co !! sid);
  dir_agents cluster_id sid : crd_agents co !! cluster_id = Some sid →
    ∃ session, crd_sessions co !! sid = Some session ∧ ssn_cluster_id session = cluster_id ∧
      ssn_is_agent session = true ∧ crd_phases co !! sid ≠ Some Greeting
}.

(** A connection that is past its greeting stays so. *)
Lemma directory_ok_phase sid phase co :
  directory_ok co → is_Some (crd_phases co !! sid) → phase ≠ Greeting →
  directory_ok (set_phase sid phase co).
Proof.
  intros [Hs Ha] Hp Hne. split; cbn.
  - intros sid'. rewrite <-Hs. destruct (decide (sid' = sid)) as [->|].
    + rewrite lookup_insert_eq. by split.
    + by rewrite lookup_insert_ne.
  - intros cluster_id sid' E. destruct (Ha cluster_id sid' E) as (session & ? & ? & ? & ?).
    exists session. split_and!; [done..|]. destruct (decide (sid' = sid)) as [->|].
    + rewrite lookup_insert_eq. congruence.
    + by rewrite lookup_insert_ne.
Qed.

(** What does not touch sessions, phases or the directory keeps it. *)
Definition same_directory co co' : Prop :=
  crd_sessions co' = crd_sessions co ∧ crd_phases co' = crd_phases co ∧
  crd_agents co' = crd_agents co.

Lemma directory_ok_frame co co' : same_directory co co' → directory_ok co → directory_ok co'.
Proof. intros (E1 & E2 & E3) [Hs Ha]. split; [by rewrite E1, E2|by rewrite E1, E2, E3]. Qed.

Lemma same_directory_trans co1 co2 co3 :
  same_directory co1 co2 → same_directory co2 co3 → same_directory co1 co3.
Proof. intros (? & ? & ?) (? & ? & ?). split_and!; by etrans. Qed.

Lemma send_frame_to_directory sid frame co : same_directory co (send_frame_to sid frame co).2.
Proof. unfold send_frame_to. by destruct (net_send (crd_network co) sid frame). Qed.

Lemma call_fabric_directory {A} (fn : ControlPlane → FabricConfig → M A) co :
  same_directory co (call_fabric fn co).2.
Proof. by rewrite call_fabric_state. Qed.

Lemma acknowledge_directory {A} text sid type detail (recorded : Result A * Coordinator S T) :
  same_directory recorded.2 (acknowledge text sid type detail recorded).2.
Proof. destruct recorded. apply send_frame_to_directory. Qed.

Lemma handle_agent_frame_directory text sid frame co :
  same_directory co (handle_agent_frame text sid frame co).2.
Proof.
  unfold handle_agent_frame. destruct (fh_message_type (fr_header frame)); try done;
    repeat case_match; try done; try apply send_frame_to_directory;
    (eapply same_directory_trans; [|apply acknowledge_directory]; apply call_fabric_directory).
Qed.

Lemma mutation_directory {B} `{Codec B} (fn : ControlPlane → FabricConfig → M B) co :
  same_directory co (mutation fn co).2.
Proof.
  pose proof (call_fabric_directory fn co) as Hd. unfold mutation. by destruct (call_fabric fn co).
Qed.

Lemma send_intent_directory authorized co : same_directory co (send_intent authorized co).2.
Proof.
  unfold send_intent. destruct authorized as [auth|]; [|done].
  destruct (find_agent co _) as [[sid destination]|]; [|done].
  destruct (find_agent co _) as [[sid' source]|]; [|done].
  set (frame := intent_frame _ _ _ _). clearbody frame.
  pose proof (send_frame_to_directory sid frame co) as E.
  by destruct (send_frame_to sid frame co) as [[u|code] co'].
Qed.

Lemma authorize_directory (fn : ControlPlane → FabricConfig → M TransferAuthorization) co :
  same_directory co (let '(authorized, co) := call_fabric fn co in send_intent authorized co).2.
Proof.
  pose proof (call_fabric_directory fn co) as Hc. destruct (call_fabric fn co) as [authorized co'].
  eapply same_directory_trans; [exact Hc|apply send_intent_directory].
Qed.

Lemma dispatch_directory operation arguments co :
  same_directory co (dispatch operation arguments co).2.
Proof.
  destruct operation; cbn [dispatch dispatch_transactions dispatch_decisions dispatch_administration]; try done; unfold with_arguments;
    (destruct (_ (make_reader arguments)).1 as [a|]; [|done]);
    repeat match goal with p : _ * _ |- _ => destruct p end;
    try first [done|apply mutation_directory|apply authorize_directory].
  unfold await_operation. repeat case_match; done.
Qed.

Lemma end_session_directory sid co :
  directory_ok co → is_Some (crd_phases co !! sid) → directory_ok (end_session sid co).
Proof. intros Hd Hp. apply directory_ok_phase; [|done|done]. by eapply directory_ok_frame; [|exact Hd]. Qed.

Lemma after_request_directory sid co :
  directory_ok co → is_Some (crd_phases co !! sid) → directory_ok (after_request sid co).
Proof.
  intros Hd Hp. unfold after_request. destruct (crd_shutdown_requested co).
  - apply end_session_directory; [|done]. by eapply directory_ok_frame; [|exact Hd].
  - by apply directory_ok_phase.
Qed.

Lemma send_reply_directory text sid reply co :
  directory_ok co → is_Some (crd_phases co !! sid) → directory_ok (send_reply text sid reply co).
Proof.
  intros Hd Hp. unfold send_reply.
  set (response := match reply with Ok _ => _ | Err _ => _ end). clearbody response.
  pose proof (send_frame_to_directory sid response co) as E.
  destruct (send_frame_to sid response co) as [[u|code] co']; cbn [snd] in E;
    destruct E as (E1 & E2 & E3); [apply after_request_directory|apply end_session_directory];
    try by rewrite E2. all: by eapply directory_ok_frame; [|exact Hd].
Qed.

Lemma serve_request_directory text sid frame co :
  directory_ok co → is_Some (crd_phases co !! sid) → directory_ok (serve_request text sid frame co).
Proof.
  intros Hd Hp. unfold serve_request.
  destruct (decode_control_request _ _).1 as [[raw arguments]|].
  2: { destruct (send_frame_to_directory sid (make_response co false EC.FRAME_CORRUPT text []) co)
         as (E1 & E2 & E3).
       apply directory_ok_phase; [|by rewrite E2|done]. by eapply directory_ok_frame; [|exact Hd]. }
  destruct (control_operation_cast raw) as [operation|].
  2: { set (response := make_response _ _ _ _ _).
       destruct (send_frame_to_directory sid response co) as (E1 & E2 & E3).
       apply after_request_directory; [|by rewrite E2]. by eapply directory_ok_frame; [|exact Hd]. }
  pose proof (dispatch_directory operation arguments co) as (E1 & E2 & E3).
  destruct (dispatch operation arguments co) as [[reply|] co']; cbn [snd] in *.
  - apply send_reply_directory; [|by rewrite E2]. by eapply directory_ok_frame; [|exact Hd].
  - apply directory_ok_phase; [|by rewrite E2|done]. by eapply directory_ok_frame; [|exact Hd].
Qed.

Lemma leave_agent_directory sid co :
  directory_ok co → is_Some (crd_phases co !! sid) → directory_ok (leave_agent sid co).
Proof.
  intros Hd Hp. unfold leave_agent. destruct (valid _); [|by apply end_session_directory].
  apply end_session_directory; [|done]. destruct Hd as [Hs Ha]. split; [done|].
  intros cluster_id sid' E. apply Ha. cbn in E. by apply lookup_delete_Some in E as [_ E].
Qed.

(** An agent that greets takes its place in the directory. *)
Lemma adopt_agent_directory sid hello cluster phase co :
  directory_ok co → crd_phases co !! sid = Some Greeting → phase ≠ Greeting →
  directory_ok (set_phase sid phase (adopt_agent sid hello cluster co)).
Proof.
  intros [Hs Ha] Hg Hne. split; cbn.
  - intros sid'. destruct (decide (sid' = sid)) as [->|].
    + rewrite lookup_insert_eq, lookup_alter_eq, fmap_is_Some, <-Hs, Hg. by split.
    + by rewrite lookup_insert_ne, lookup_alter_ne.
  - intros cluster_id sid'. destruct (decide (cluster_id = hp_cluster_id hello)) as [->|].
    + rewrite lookup_insert_eq. intros [= <-].
      destruct (proj1 (Hs sid)) as [session E]; [by rewrite Hg|].
      rewrite lookup_alter_eq, E. eexists. split_and!; [done..|]. rewrite lookup_insert_eq. congruence.
    + rewrite lookup_insert_ne by done. intros E.
      destruct (Ha _ _ E) as (session & ? & ? & ? & ?). exists session.
      assert (sid' ≠ sid) by (intros ->; done).
      rewrite lookup_alter_ne, lookup_insert_ne by done. done.
Qed.

Lemma greet_directory text sid frame co :
  directory_ok co → crd_phases co !! sid = Some Greeting → directory_ok (greet text sid frame co).
Proof.
  intros Hd Hg. assert (is_Some (crd_phases co !! sid)) as Hp by (by eexists). unfold greet.
  destruct (fh_message_type (fr_header frame)); try by apply directory_ok_phase.
  2: by apply serve_request_directory.
  unfold handle_agent_hello.
  destruct (decode_HelloPayload _).1 as [hello|]; [|by apply directory_ok_phase].
  pose proof (call_fabric_directory (register_cluster (registration_of hello)) co) as (E1 & E2 & E3).
  destruct (call_fabric _ co) as [registered co1]. cbn [snd] in *.
  assert (directory_ok co1) as Hd1 by (by eapply directory_ok_frame; [|exact Hd]).
  rewrite <-E2 in Hg. clear dependent co. 
  destruct registered as [cluster|code].
  - set (frame' := outgoing_frame _ _ _). clearbody frame'.
    set (co2 := adopt_agent sid hello cluster co1).
    destruct (send_frame_to_directory sid frame' co2) as (F1 & F2 & F3).
    destruct (send_frame_to sid frame' co2) as [[u|code] co3]; cbn [snd] in *;
      match goal with |- directory_ok (set_phase _ ?phase _) =>
        apply (directory_ok_frame (set_phase sid phase co2)) end;
      try (by apply adopt_agent_directory); (split_and!; cbn; [done| |done]); by rewrite F2.
  - set (frame' := outgoing_frame _ _ _). clearbody frame'.
    destruct (send_frame_to_directory sid frame' co1) as (F1 & F2 & F3).
    destruct (send_frame_to sid frame' co1) as [[u|code'] co3]; cbn [snd] in *;
      (apply directory_ok_phase; [by eapply directory_ok_frame; [|exact Hd1]|by rewrite F2, Hg|done]).
Qed.

Lemma step_directory ev co : directory_ok co → directory_ok (step ev co).
Proof.
  intros Hd. destruct ev as [sid peer|sid frame text|sid|sid text]; cbn [step].
  - destruct (crd_stopping co); [done|]. destruct (crd_phases co !! sid) eqn:Ep; [done|].
    destruct Hd as [Hs Ha]. split; cbn.
    + intros sid'. destruct (decide (sid' = sid)) as [->|]; [by rewrite !lookup_insert_eq|].
      by rewrite !lookup_insert_ne.
    + intros cluster_id sid' E. destruct (Ha _ _ E) as (session & Hses & ? & ? & ?).
      assert (sid' ≠ sid) by (intros ->; destruct (proj2 (Hs sid)) as [? ?]; [by eexists|congruence]).
      exists session. by rewrite !lookup_insert_ne.
  - destruct (crd_phases co !! sid) as [[]|] eqn:Ep; try done.
    + by apply greet_directory.
    + pose proof (handle_agent_frame_directory text sid frame co) as (E1 & E2 & E3).
      destruct (handle_agent_frame text sid frame co) as [[u|code] co']; cbn [snd] in *.
      * by eapply directory_ok_frame; [|exact Hd].
      * apply leave_agent_directory; [by eapply directory_ok_frame; [|exact Hd]|by rewrite E2, Ep].
    + apply serve_request_directory; [done|by rewrite Ep].
  - destruct (crd_phases co !! sid) as [[]|] eqn:Ep; try done.
    + apply end_session_directory; [done|by rewrite Ep].
    + apply leave_agent_directory; [done|by rewrite Ep].
    + apply end_session_directory; [done|by rewrite Ep].
  - destruct (crd_phases co !! sid) as [[| | |operation_id|]|] eqn:Ep; try done.
    unfold await_operation. destruct (query_operation _ _) as [record|].
    + destruct (_ || _); [|done]. apply send_reply_directory; [done|by rewrite Ep].
    + apply send_reply_directory; [done|by rewrite Ep].
Qed.

Lemma steps_directory evs co : directory_ok co → directory_ok (steps evs co).
Proof.
  revert co. induction evs as [|ev evs IH]; intros co Hd; [done|]. by apply IH, step_directory.
Qed.

Lemma start_directory config opened bound co :
  start config opened bound = Ok co → directory_ok co.
Proof.
  unfold start. destruct (open _ _); [|done]. destruct bound; [|done]. intros [= <-]. split; cbn.
  - intros sid. by rewrite !lookup_empty.
  - intros cluster_id sid E. by rewrite lookup_empty in E.
Qed.

(** ** Whose reports they are *)

(** The fabric does not look at the cluster a report is attributed to. *)
Lemma progress_cluster_ignored a b epoch report plane config :
  record_transfer_progress (progress_of a epoch report) plane config =
  record_transfer_progress (progress_of b epoch report) plane config.
Proof. reflexivity. Qed.

Lemma failure_cluster_ignored a b epoch report plane config :
  record_transfer_progress (failure_of a epoch report) plane config =
  record_transfer_progress (failure_of b epoch report) plane config.
Proof. reflexivity. Qed.

Lemma completion_cluster_ignored a b epoch report plane config :
  record_transfer_completion (completion_of a epoch report) plane config =
  record_transfer_completion (completion_of b epoch report) plane config.
Proof. reflexivity. Qed.

Lemma verification_cluster_ignored a b epoch report plane config :
  verify_replica (verification_of a epoch report) plane config =
  verify_replica (verification_of b epoch report) plane config.
Proof. reflexivity. Qed.

Lemma mutate_ext {A} (f g : ControlPlane → FabricConfig → M A) im :
  f (im_plane im) (im_config im) = g (im_plane im) (im_config im) → mutate f im = mutate g im.
Proof. intros E. unfold mutate. by rewrite E. Qed.

Lemma acknowledged_call_fabric {A} text sid type detail (fn : ControlPlane → FabricConfig → M A) co :
  crd_fabric (acknowledge text sid type detail (call_fabric fn co)).2 =
  (mutate fn (crd_fabric co)).2.
Proof. by rewrite acknowledge_fabric, call_fabric_state. Qed.

Lemma handle_agent_frame_any_session text sid sid' frame co :
  crd_fabric (handle_agent_frame text sid frame co).2 =
  crd_fabric (handle_agent_frame text sid' frame co).2.
Proof.
  unfold handle_agent_frame.
  set (cluster := default 0 (ssn_cluster_id <$> crd_sessions co !! sid)).
  set (cluster' := default 0 (ssn_cluster_id <$> crd_sessions co !! sid')).
  destruct (fh_message_type (fr_header frame)); try reflexivity.
  - destruct (decode_EvidencePayload _).1; [|done]. by rewrite !acknowledged_call_fabric.
  - by rewrite !send_frame_to_fabric.
  - destruct (decode_TransferReportPayload _).1 as [report|]; [|done].
    rewrite !acknowledged_call_fabric.
    by rewrite (mutate_ext _ _ _ (progress_cluster_ignored cluster cluster' _ report _ _)).
  - destruct (decode_TransferReportPayload _).1 as [report|]; [|done].
    destruct (negb _); rewrite !acknowledged_call_fabric.
    + by rewrite (mutate_ext _ _ _ (failure_cluster_ignored cluster cluster' _ report _ _)).
    + by rewrite (mutate_ext _ _ _ (completion_cluster_ignored cluster cluster' _ report _ _)).
  - destruct (decode_VerifyReportPayload _).1 as [report|]; [|done].
    rewrite !acknowledged_call_fabric.
    by rewrite (mutate_ext _ _ _ (verification_cluster_ignored cluster cluster' _ report _ _)).
Qed.

Lemma run_reachable qs im : reachable im → reachable (run qs im).
Proof. revert im. induction qs as [|q qs IH]; intros im Hr; [done|]. by apply IH, reach_request. Qed.

(** ** Properties *)

(** C14: the coordinator is a front end of the fabric.  Whatever connections, frames,
    losses and wake-ups reach it, in whatever order, the fabric it serves is the one a
    history of at most as many requests leads to, none of which moves the clock or the
    epoch by hand; so it stays reachable and no state generation ever has two owners. *)
Theorem coordinator_serves_fabric_histories (evs : list event) (co : Coordinator S T) :
  (∃ qs, forallb remote_request qs = true ∧ (length qs ≤ length evs)%nat ∧
     crd_fabric (steps evs co) = run qs (crd_fabric co)) ∧
  (reachable (crd_fabric co) →
   reachable (crd_fabric (steps evs co)) ∧
   ∀ key, (length (owners (im_plane (crd_fabric (steps evs co))) key) ≤ 1)%nat).
Proof.
  pose proof (steps_history evs co) as Hh. split; [done|]. destruct Hh as (qs & _ & _ & ->).
  intros Hr. apply (run_reachable qs) in Hr. split; [done|]. intros key.
  by apply at_most_one_owner, reachable_inv.
Qed.

(** C15: an agent never decides authority.  A frame on the connection of an agent makes at
    most one call of the fabric, and that call is cluster evidence or a report of progress,
    completion or verification, attributed to the cluster the connection registered and
    stamped with the epoch the coordinator is in. *)
Theorem agents_only_report (text : string) (sid : Z) (frame : Frame) (co : Coordinator S T) :
  crd_phases co !! sid = Some ServingAgent →
  let cluster_id := default 0 (ssn_cluster_id <$> crd_sessions co !! sid) in
  served (agent_report cluster_id (epoch co)) (crd_fabric co)
    (crd_fabric (step (Received sid frame text) co)).
Proof.
  intros Hp. cbv zeta. cbn [step]. rewrite Hp.
  pose proof (handle_agent_frame_served text sid frame co) as Hf. cbv zeta in Hf.
  destruct (handle_agent_frame text sid frame co) as [[u|code] co']; [exact Hf|].
  by rewrite leave_agent_fabric.
Qed.

(** The attribution of a report binds nobody.  What a frame does to the fabric does
    not depend on which agent connection it arrives on: the cluster of the session is
    written into the report and never compared with the cluster that hosts the replica. *)
Theorem reports_are_not_bound_to_their_cluster (text : string) (sid sid' : Z) (frame : Frame)
    (co : Coordinator S T) :
  crd_phases co !! sid = Some ServingAgent → crd_phases co !! sid' = Some ServingAgent →
  crd_fabric (step (Received sid frame text) co) = crd_fabric (step (Received sid' frame text) co).
Proof.
  intros Hp Hp'. pose proof (handle_agent_frame_any_session text sid sid' frame co) as E.
  cbn [step]. rewrite Hp, Hp'.
  destruct (handle_agent_frame text sid frame co) as [[u|c] co1];
    destruct (handle_agent_frame text sid' frame co) as [[u'|c'] co2];
    rewrite ?leave_agent_fabric; exact E.
Qed.

(** C20: intents reach the cluster they are for.  From the start of the coordinator and
    whatever happens to its connections, a cluster in the directory of agents leads to
    the session of an agent that registered that very cluster. *)
Theorem directory_leads_to_the_cluster (config : CoordinatorConfig)
    (opened : option (S * Result ControlPlane)) (bound : Result T) (co : Coordinator S T)
    (evs : list event) (cluster_id sid : Z) (session : Session) :
  start config opened bound = Ok co →
  find_agent (steps evs co) cluster_id = Some (sid, session) →
  ssn_cluster_id session = cluster_id ∧ ssn_is_agent session = true ∧
  crd_agents (steps evs co) !! cluster_id = Some sid.
Proof.
  intros Hs Hf. pose proof (steps_directory evs co (start_directory _ _ _ _ Hs)) as [_ Ha].
  unfold find_agent in Hf. destruct (crd_agents (steps evs co) !! cluster_id) as [sid'|] eqn:E; [|done].
  destruct (Ha cluster_id sid' E) as (session' & E' & Hc & Hi & _). cbn in Hf. rewrite E' in Hf.
  cbn in Hf. by simplify_eq.
Qed.

(** A superseded connection takes its successor down.  When the connection of an agent
    ends, the directory entry of its cluster is removed whoever it leads to: if the
    cluster has registered again on another connection in the meantime, the agent that
    is connected can no longer be found. *)
Theorem old_connection_evicts_its_successor (old new : Z) (cluster_id : Z) (session : Session)
    (co : Coordinator S T) :
  crd_phases co !! old = Some ServingAgent → crd_sessions co !! old = Some session →
  ssn_cluster_id session = cluster_id → valid cluster_id = true →
  crd_agents co !! cluster_id = Some new → old ≠ new →
  find_agent (step (Lost old) co) cluster_id = None ∧
  crd_phases (step (Lost old) co) !! new = crd_phases co !! new.
Proof.
  intros Hp Hs Hc Hv Ha Hne. cbn [step]. rewrite Hp. unfold leave_agent. rewrite Hs.
  replace (default 0 (ssn_cluster_id <$> Some session)) with cluster_id by done.
  rewrite Hv. unfold find_agent. cbn. split; [by rewrite lookup_delete_eq|].
  by rewrite lookup_insert_ne.
Qed.
End coordination.

(** ** A coordinator without a store on a network that never fails *)

(** The log of the frames that were sent. *)
#[export] Instance recording_network : Network (list (Z * Frame)) := {|
  net_send := λ log sid frame, (Ok tt, log ++ [(sid, frame)]);
  net_close := λ log _, log
|}.

Definition demo_coordinator_config : CoordinatorConfig :=
  mkCoordinatorConfig "127.0.0.1" 0 1 10 "" false kMaxFramePayloadBytes
    (cfg_default_placement_policy demo_config) (cfg_default_replication_policy demo_config).

Definition demo_coordinator : Coordinator Empty_set (list (Z * Frame)) :=
  match start demo_coordinator_config None (Ok []) with
  | Ok co => co
  | Err _ => mkCoordinator demo_coordinator_config demo_start [] ∅ ∅ [] ∅ true true
  end.

Definition demo_hello (cluster_id : Z) : Frame :=
  outgoing_frame MT.HELLO 0
    (encode_HelloPayload
       (mkHelloPayload cluster_id 1 1 1 7 8 0 "rack" ClusterCapabilities_default
          (mkClusterCapacity 1000000 0 100 8 0) 0 9000)).

Definition demo_heartbeat : Frame := outgoing_frame MT.HEARTBEAT 0 [].

(** The agent of cluster 10 connects twice, on connections 1 and 2, and the agent of
    cluster 20 on connection 3. *)
Definition demo_events : list event :=
  [Accepted 1 "127.0.0.1:5000"; Received 1 (demo_hello 10) "";
   Accepted 2 "127.0.0.1:5001"; Received 2 (demo_hello 10) "";
   Accepted 3 "127.0.0.1:5002"; Received 3 (demo_hello 20) ""].

Definition demo_served : Coordinator Empty_set (list (Z * Frame)) :=
  steps demo_events demo_coordinator.

Example demo_started : start demo_coordinator_config None (Ok []) = Ok demo_coordinator.
Proof. vm_compute. reflexivity. Qed.

Example demo_directory :
  crd_agents demo_served !! 10 = Some 2 ∧ crd_agents demo_served !! 20 = Some 3 ∧
  crd_phases demo_served !! 1 = Some ServingAgent ∧ crd_phases demo_served !! 2 = Some ServingAgent ∧
  (ssn_host <$> crd_sessions demo_served !! 2) = Some "127.0.0.1" ∧
  map fst (crd_network demo_served) = [1; 2; 3] ∧
  size (pl_clusters (im_plane (crd_fabric demo_served))) = 2%nat.
Proof. vm_compute. repeat split. Qed.

Example demo_fabric_reachable : reachable (crd_fabric demo_coordinator).
Proof. eapply (reach_start_volatile (fabric_config demo_coordinator_config)). vm_compute. reflexivity. Qed.

Lemma coordinator_serves_fabric_histories_witness :
  size (pl_clusters (im_plane (crd_fabric demo_served))) = 2%nat ∧ reachable (crd_fabric demo_served).
Proof.
  split; [vm_compute; reflexivity|].
  apply (proj2 (coordinator_serves_fabric_histories demo_events demo_coordinator) demo_fabric_reachable).
Defined.

(** The same connections over the runtime in which a migration to cluster 20 is
    authorized, and the report that its transfer is complete. *)
Definition demo_transferring : Coordinator Empty_set (list (Z * Frame)) :=
  demo_served <| crd_fabric := after authorized |>.

Definition demo_report : Frame :=
  outgoing_frame MT.TRANSFER_RESULT 0
    (encode_TransferReportPayload
       (mkTransferReportPayload 0 0 902 0 906 0 0 0 4096 digest_one 1 0 "")).

Definition demo_lifecycle (co : Coordinator Empty_set (list (Z * Frame))) : option ReplicaLifecycle :=
  rp_lifecycle <$> pl_replicas (im_plane (crd_fabric co)) !! 906.

Lemma agents_only_report_witness :
  demo_lifecycle (step (Received 3 demo_report "") demo_transferring) ≠
    demo_lifecycle demo_transferring ∧
  served (agent_report 20 1) (crd_fabric demo_transferring)
    (crd_fabric (step (Received 3 demo_report "") demo_transferring)).
Proof.
  split; [vm_compute; congruence|].
  assert (crd_phases demo_transferring !! 3 = Some ServingAgent) as Hp by (vm_compute; reflexivity).
  pose proof (agents_only_report "" 3 demo_report demo_transferring Hp) as H.
  assert (default 0 (ssn_cluster_id <$> crd_sessions demo_transferring !! 3) = 20) as E
    by (vm_compute; reflexivity).
  assert (epoch demo_transferring = 1) as E' by (vm_compute; reflexivity).
  cbv zeta in H. rewrite E, E' in H. exact H.
Defined.

(** The agent of cluster 10 completes the transfer of a replica that cluster 20 hosts. *)
Lemma reports_are_not_bound_to_their_cluster_witness :
  demo_lifecycle (step (Received 1 demo_report "") demo_transferring) ≠
    demo_lifecycle demo_transferring ∧
  ssn_cluster_id <$> crd_sessions demo_transferring !! 1 = Some 10 ∧
  crd_fabric (step (Received 1 demo_report "") demo_transferring) =
  crd_fabric (step (Received 3 demo_report "") demo_transferring).
Proof.
  split; [vm_compute; congruence|]. split; [vm_compute; reflexivity|].
  apply (reports_are_not_bound_to_their_cluster "" 1 3 demo_report demo_transferring);
    vm_compute; reflexivity.
Defined.

Lemma directory_leads_to_the_cluster_witness :
  crd_agents demo_served !! 20 = Some 3 ∧ ssn_cluster_id <$> crd_sessions demo_served !! 3 = Some 20.
Proof.
  split; [vm_compute; reflexivity|].
  assert (∃ session, find_agent demo_served 20 = Some (3, session) ∧
    crd_sessions demo_served !! 3 = Some session) as (session & Hf & Hs).
  { eexists. split; vm_compute; reflexivity. }
  destruct (directory_leads_to_the_cluster demo_coordinator_config None (Ok []) demo_coordinator
    demo_events 20 3 session demo_started Hf) as (Hc & _). by rewrite Hs, <-Hc at 1.
Defined.

Lemma old_connection_evicts_its_successor_witness :
  find_agent demo_served 10 ≠ None ∧ find_agent (step (Lost 1) demo_served) 10 = None ∧
  crd_phases (step (Lost 1) demo_served) !! 2 = Some ServingAgent.
Proof.
  split; [vm_compute; congruence|].
  assert (∃ session, crd_sessions demo_served !! 1 = Some session ∧ ssn_cluster_id session = 10)
    as (session & Hs & Hc).
  { eexists. split; vm_compute; reflexivity. }
  assert (crd_phases demo_served !! 1 = Some ServingAgent) as Hp by (vm_compute; reflexivity).
  assert (crd_agents demo_served !! 10 = Some 2) as Ha by (vm_compute; reflexivity).
  destruct (old_connection_evicts_its_successor 1 2 10 session demo_served Hp Hs Hc eq_refl Ha)
    as [Hf Hn]; [done|].
  split; [exact Hf|]. rewrite Hn. vm_compute. reflexivity.
Defined.
