(* ===== verification/Client.v ===== *)
(** * The controller's client ([CoordinatorClient] of [coordinator.cpp])

    Each typed method encodes its arguments, makes one control request and decodes
    the body of the response.  The request and the response are taken at the level
    of frames; the connection between them is [Transport]. *)

From S2P Require Import Prelude Taxonomy Model Bytes ModelOps ControlPlane FabricCore FabricState.
From S2P Require Import Compatibility Encoding RecordCodecs RequestCodecs Frames Payloads ControlCodecs.
From S2P Require Import FabricReplica FabricOps Lifecycle Fabric Scenario Coordinator Coordination.

Local Open Scope Z_scope.

(** The result of a call.  The code of a refusal is cast from the response without a
    check, so it is a number. *)
Inductive Answer (A : Type) := Answered (value : A) | Refused (code : Z).
Arguments Answered {A} value.
Arguments Refused {A} code.

Definition local_error {A} (code : ErrorCode) : Answer A := Refused (enum_value code).

(** ** One request *)

Definition call_payload (operation : ControlOperation) (arguments : list Z) : list Z :=
  ByteWriter.u16 (ControlOperation_value operation) ++ ByteWriter.blob arguments.

Definition call_frame (operation : ControlOperation) (arguments : list Z) : Frame :=
  outgoing_frame MT.CONTROL_REQUEST 0 (call_payload operation arguments).

Definition decode_response : Reader (Z * Z * string * list Z) :=
  (ok <- Reader.u32;; code <- Reader.u16;; detail <- Reader.str kMaxReasonBytes;;
   body <- Reader.blob kMaxFramePayloadBytes;; rret (ok, code, detail, body))%reader.

Definition read_response (reply : Frame) : Answer (list Z) :=
  if negb (bool_decide (fh_message_type (fr_header reply) = MT.CONTROL_RESPONSE))
  then local_error EC.PROTOCOL_UNSUPPORTED
  else match (decode_response (make_reader (fr_payload reply))).1 with
       | None => local_error EC.FRAME_CORRUPT
       | Some (ok, code, _, body) => if ok =? 0 then Refused code else Answered body
       end.

Definition decode_body {A} (m : Reader A) (answer : Answer (list Z)) : Answer A :=
  match answer with
  | Refused code => Refused code
  | Answered body =>
      match (m (make_reader body)).1 with
      | Some value => Answered value
      | None => local_error EC.FRAME_CORRUPT
      end
  end.

Section client.
Context {S : Type} `{PersistenceStore S} {T : Type} `{Network T}.
Implicit Types co : Coordinator S T.

(** The response of the coordinator to a control request; [None] while it waits. *)
Definition response_to (text : string) (frame : Frame) (co : Coordinator S T)
    : option Frame * Coordinator S T :=
  match (decode_control_request (ccf_maximum_payload_bytes (crd_config co))
           (make_reader (fr_payload frame))).1 with
  | None => (Some (make_response co false EC.FRAME_CORRUPT text []), co)
  | Some (raw_operation, arguments) =>
      match control_operation_cast raw_operation with
      | None =>
          (Some (make_response co false EC.PROTOCOL_UNSUPPORTED "unknown control operation" []), co)
      | Some operation =>
          match dispatch operation arguments co with
          | (Some (Ok body), co) => (Some (make_response co true EC.OK "ok" body), co)
          | (Some (Err code), co) => (Some (make_response co false code text []), co)
          | (None, co) => (None, co)
          end
      end
  end.

(** [CoordinatorClient::call] against a coordinator. *)
Definition call (operation : ControlOperation) (arguments : list Z) (text : string)
    (co : Coordinator S T) : option (Answer (list Z)) * Coordinator S T :=
  let '(response, co) := response_to text (call_frame operation arguments) co in
  (read_response <$> response, co).

(** A typed method: arguments already encoded, and how its body is read. *)
Definition method {B} (operation : ControlOperation) (arguments : list Z) (m : Reader B)
    (text : string) (co : Coordinator S T) : option (Answer B) * Coordinator S T :=
  let '(answer, co) := call operation arguments text co in (decode_body m <$> answer, co).

(** The lists of records, which have no end check either. *)
Definition decode_list {A} `{Codec A} (bound : Z) : Reader (list A) :=
  (count <- Reader.u32;;
   if count >? bound then Reader.fail EC.FRAME_CORRUPT
   else decode_elements (Z.to_nat count) decode)%reader.

Definition empty_arguments : list Z := [].
Definition ids (values : list Z) : list Z := concat (map encode_id values).

Definition client_status := method CO.STATUS empty_arguments decode_status.
Definition client_register_state (spec : StateGenerationSpec) :=
  method CO.REGISTER_STATE (encode spec) (decode (A:=StateGenerationRecord)).
Definition client_commit_state (state_id generation commit_id : Z) :=
  method CO.COMMIT_STATE (ids [state_id; generation; commit_id]) (decode (A:=StateGenerationRecord)).
Definition client_query_state (state_id generation : Z) :=
  method CO.QUERY_STATE (ids [state_id; generation]) (decode (A:=StateGenerationRecord)).
Definition client_list_clusters :=
  method CO.LIST_CLUSTERS empty_arguments (decode_list (A:=ClusterRecord) 1024).
Definition client_register_replica (registration : ReplicaRegistration) :=
  method CO.REGISTER_REPLICA (encode registration) (decode (A:=ReplicaRecord)).
Definition client_record_transfer_progress (progress : TransferProgress) :=
  method CO.TRANSFER_PROGRESS (encode progress) (decode (A:=ReplicaRecord)).
Definition client_record_transfer_completion (completion : TransferCompletion) :=
  method CO.TRANSFER_COMPLETION (encode completion) (decode (A:=ReplicaRecord)).
Definition client_verify_replica (verification : ReplicaVerification) :=
  method CO.VERIFY_REPLICA (encode verification) (decode (A:=ReplicaRecord)).
Definition client_commit_replica (commit : ReplicaCommit) :=
  method CO.COMMIT_REPLICA (encode commit) (decode (A:=ReplicaRecord)).
Definition client_query_replica (replica_id : Z) :=
  method CO.QUERY_REPLICA (ids [replica_id]) (decode (A:=ReplicaRecord)).
Definition client_list_replicas (state_id generation : Z) :=
  method CO.LIST_REPLICAS (ids [state_id; generation]) (decode_list (A:=ReplicaRecord) 4096).
Definition client_authorize_replication (request : ReplicationRequest) :=
  method CO.AUTHORIZE_REPLICATION (encode request) (decode (A:=TransferAuthorization)).
Definition client_authorize_migration (request : MigrationRequest) :=
  method CO.AUTHORIZE_MIGRATION (encode request) (decode (A:=TransferAuthorization)).
Definition client_query_authorization (operation_id : Z) :=
  method CO.QUERY_AUTHORIZATION (ids [operation_id]) (decode (A:=TransferAuthorization)).
Definition client_commit_operation (commit : OperationCommit) :=
  method CO.COMMIT_OPERATION (encode commit) (decode (A:=OperationRecord)).
Definition client_cancel_operation (cancellation : OperationCancellation) :=
  method CO.CANCEL_OPERATION (encode cancellation) (decode (A:=OperationRecord)).
Definition client_query_operation (operation_id : Z) :=
  method CO.QUERY_OPERATION (ids [operation_id]) (decode (A:=OperationRecord)).
Definition client_await_operation (operation_id : Z) :=
  method CO.AWAIT_OPERATION (ids [operation_id]) (decode (A:=OperationRecord)).
Definition client_list_operations :=
  method CO.LIST_OPERATIONS empty_arguments (decode_list (A:=OperationRecord) 4096).
Definition client_evaluate_reuse (state_id generation cluster_id : Z) :=
  method CO.EVALUATE_REUSE (ids [state_id; generation; cluster_id]) decode_reuse.
Definition client_reconcile_replica_set (state_id generation : Z) :=
  method CO.RECONCILE_REPLICA_SET (ids [state_id; generation]) decode_reconciliation.
Definition client_plan_replication (request : ReplicationRequest) :=
  method CO.PLAN_REPLICATION (encode request) decode_placement.
Definition client_mark_cluster_unreachable (cluster_id incarnation : Z) (reason : string) :=
  method CO.MARK_CLUSTER_UNREACHABLE (ids [cluster_id; incarnation] ++ ByteWriter.str reason)
    (decode (A:=ClusterRecord)).
Definition client_retire_cluster (cluster_id incarnation : Z) :=
  method CO.RETIRE_CLUSTER (ids [cluster_id; incarnation]) (decode (A:=ClusterRecord)).
Definition client_reincarnate_cluster (registration : ClusterRegistration) :=
  method CO.REINCARNATE_CLUSTER (encode registration) (decode (A:=ClusterRecord)).
Definition client_revalidate_replica (transition : ReplicaTransition) :=
  method CO.REVALIDATE_REPLICA (encode transition) (decode (A:=ReplicaRecord)).
Definition client_publish_compatibility (record : CompatibilityRecord) :=
  method CO.PUBLISH_COMPATIBILITY (encode record) (decode (A:=CompatibilityRecord)).
Definition client_publish_replication_policy (policy : ReplicationPolicyRecord) :=
  method CO.PUBLISH_REPLICATION_POLICY (encode policy) (decode (A:=ReplicationPolicyRecord)).
Definition client_publish_placement_policy (policy : PlacementPolicyRecord) :=
  method CO.PUBLISH_PLACEMENT_POLICY (encode policy) (decode (A:=PlacementPolicyRecord)).
Definition client_explain_replica_set (state_id generation : Z) :=
  method CO.EXPLAIN_REPLICA_SET (ids [state_id; generation]) decode_explanation.

(** [shutdown_coordinator] does not look at the body. *)
Definition client_shutdown_coordinator (text : string) (co : Coordinator S T)
    : option (Answer unit) * Coordinator S T :=
  let '(answer, co) := call CO.SHUTDOWN empty_arguments text co in
  ((λ a, match a with Answered _ => Answered tt | Refused code => Refused code end) <$> answer, co).

(** ** The envelope *)

(** Reading one encoding that is the whole data. *)
Lemma reads_all {A} (m : Reader A) v enc :
  reads m v enc → Z.of_nat (length enc) ≤ u64_max → (m (make_reader enc)).1 = Some v.
Proof.
  intros Hm Hl. specialize (Hm [] [] EC.OK). rewrite app_nil_r in Hm.
  change (make_reader enc) with (mkByteReader enc 0 true EC.OK). exact (f_equal fst (Hm Hl)).
Qed.

Lemma length_blob bytes :
  Z.of_nat (length bytes) < 2 ^ 32 →
  Z.of_nat (length (ByteWriter.blob bytes)) = 4 + Z.of_nat (length bytes).
Proof. intros Hl. rewrite blob_small, length_app by done. cbn. lia. Qed.

Lemma response_is_read co ok code detail body :
  fits_reason detail = true → Z.of_nat (length body) ≤ kMaxFramePayloadBytes →
  read_response (make_response co ok code detail body) =
  if ok then Answered body else Refused (enum_value code).
Proof.
  intros Hd Hb. unfold read_response, make_response, outgoing_frame. cbn [fr_header fr_payload].
  rewrite bool_decide_true by done. cbn [negb].
  assert (kMaxFramePayloadBytes < 2 ^ 32) as Hk by done.
  assert (Z.of_nat (String.length detail) ≤ 4096) as Hs by (by apply Z.leb_le in Hd).
  rewrite (reads_all decode_response (if ok then 1 else 0, enum_value code, detail, body)).
  - by destruct ok.
  - eapply reads_bind; [apply reads_u32; by destruct ok|].
    eapply reads_bind; [apply reads_u16, enum_value_u16|].
    eapply reads_bind; [by apply reads_fit_str|].
    eapply reads_map; [apply reads_blob; lia|]. apply reads_ret.
  - rewrite !length_app. unfold ByteWriter.str. rewrite !Nat2Z.inj_add.
    rewrite !length_blob by (rewrite ?length_as_bytes; lia). rewrite length_as_bytes.
    unfold encode_enum. cbn [length ByteWriter.u32 ByteWriter.u16]. unfold u64_max. lia.
Qed.

Lemma request_is_read operation arguments max :
  Z.of_nat (length arguments) ≤ Z.min max ByteWriter.u32_max →
  (decode_control_request max (make_reader (call_payload operation arguments))).1 =
  Some (ControlOperation_value operation, arguments).
Proof.
  intros Hl. unfold ByteWriter.u32_max in Hl. apply reads_all.
  - eapply reads_bind; [apply reads_u16, control_operation_range|].
    eapply reads_map; [apply reads_blob; lia|]. apply reads_ret.
  - unfold call_payload. rewrite length_app, Nat2Z.inj_add, length_blob by lia.
    cbn [length ByteWriter.u16]. unfold u64_max. lia.
Qed.

(** What a call returns is what [dispatch] does. *)
Definition answer_of (result : Result (list Z)) : Answer (list Z) :=
  match result with Ok body => Answered body | Err code => Refused (enum_value code) end.

Lemma call_is_dispatch operation arguments text co :
  Z.of_nat (length arguments) ≤ Z.min (ccf_maximum_payload_bytes (crd_config co)) ByteWriter.u32_max →
  fits_reason text = true →
  (∀ body, (dispatch operation arguments co).1 = Some (Ok body) →
     Z.of_nat (length body) ≤ kMaxFramePayloadBytes) →
  call operation arguments text co =
  (answer_of <$> (dispatch operation arguments co).1, (dispatch operation arguments co).2).
Proof.
  intros Hl Ht Hb. unfold call, response_to. cbn [call_frame outgoing_frame fr_payload].
  rewrite request_is_read, control_operation_cast_value by done.
  destruct (dispatch operation arguments co) as [[[body|code]|] co']; cbn [fst snd fmap option_fmap option_map].
  - rewrite response_is_read; [done|done|]. by apply Hb.
  - by rewrite response_is_read.
  - done.
Qed.

(** ** Typed mutations *)

(** What the client should return for a result of the fabric. *)
Definition answer {B} (result : Result B) : Answer B :=
  match result with Ok b => Answered b | Err code => Refused (enum_value code) end.

(** A typed method behaves as the call of the fabric it stands for, as long as
    its arguments and the response fit a frame. *)
Definition transparent {A B} `{Codec A} `{Codec B}
    (client : A → string → Coordinator S T → option (Answer B) * Coordinator S T)
    (fn : A → ControlPlane → FabricConfig → M B) : Prop :=
  ∀ a text co result fabric,
    encodable a = true → fits_reason text = true →
    Z.of_nat (length (encode a)) ≤
      Z.min (ccf_maximum_payload_bytes (crd_config co)) ByteWriter.u32_max →
    mutate (fn a) (crd_fabric co) = (result, fabric) →
    (∀ b, result = Ok b → encodable b = true ∧ Z.of_nat (length (encode b)) ≤ kMaxFramePayloadBytes) →
    client a text co = (Some (answer result), co <| crd_fabric := fabric |>).

Lemma method_transparent {A B} `{CA : Codec A} `{CB : Codec B} operation
    (fn : A → ControlPlane → FabricConfig → M B) :
  (∀ arguments co,
     dispatch operation arguments co =
     with_arguments decode arguments (malformed co) (λ a, mutation (fn a) co)) →
  transparent (λ a, method operation (encode a) decode) fn.
Proof.
  intros Hd a text co result fabric Ha Ht Hl E Hr.
  assert (dispatch operation (encode a) co =
    (Some (result_map encode result), co <| crd_fabric := fabric |>)) as Ed.
  { rewrite Hd. unfold with_arguments.
    rewrite (reads_all decode a (encode a)); [|by apply codec_ok|unfold ByteWriter.u32_max, u64_max in *; lia].
    unfold mutation, call_fabric. by rewrite E. }
  unfold method. rewrite call_is_dispatch; [|done|done|]; rewrite Ed; cbn [fst snd fmap option_fmap option_map].
  - destruct result as [b|code]; cbn [result_map answer_of answer decode_body]; [|done].
    destruct (Hr b eq_refl) as [Hb Hlb].
    rewrite (reads_all decode b (encode b)); [done|by apply codec_ok|].
    etrans; [exact Hlb|done].
  - intros body. destruct result as [b|code]; cbn [result_map]; [|done].
    intros [= <-]. by apply (Hr b).
Qed.

(** A method whose operation is a query with decodable arguments. *)
Lemma method_query {B C} operation arguments (m : Reader C) (enc : B → list Z) b c text co :
  dispatch operation arguments co = query enc (Ok b) co →
  reads_to_end m c (enc b) → fits_reason text = true →
  Z.of_nat (length arguments) ≤ Z.min (ccf_maximum_payload_bytes (crd_config co)) ByteWriter.u32_max →
  Z.of_nat (length (enc b)) ≤ kMaxFramePayloadBytes →
  method operation arguments m text co = (Some (Answered c), co).
Proof.
  intros Ed Hr Ht Hl Hb. unfold method.
  rewrite call_is_dispatch; [|done|done|]; rewrite Ed; cbn [query fst snd fmap option_fmap option_map].
  - cbn [result_map answer_of decode_body]. specialize (Hr [] EC.OK).
    cbn [app length] in Hr. change (make_reader (enc b)) with (mkByteReader (enc b) 0 true EC.OK).
    rewrite Hr; [done|]. etrans; [exact Hb|done].
  - by intros body [= <-].
Qed.

Lemma decode_three_ids a b c :
  fits_u64 a = true → fits_u64 b = true → fits_u64 c = true →
  (decode_three (make_reader (ids [a; b; c]))).1 = Some (a, b, c).
Proof.
  intros Ha Hb Hc. apply reads_all; [|reflexivity || (vm_compute; discriminate)].
  cbn [ids map concat]. rewrite app_nil_r. unfold decode_three.
  eapply reads_bind; [by apply reads_id|]. eapply reads_bind; [by apply reads_id|].
  eapply reads_map; [by apply reads_id|]. apply reads_ret.
Qed.

(** ** Properties *)


(** The typed progress report of the client is refused whatever it says: the
    coordinator does not serve its operation. *)
Lemma progress_calls_are_never_served progress text co :
  fits_reason text = true →
  Z.of_nat (length (encode progress)) ≤
    Z.min (ccf_maximum_payload_bytes (crd_config co)) ByteWriter.u32_max →
  client_record_transfer_progress progress text co = (Some (local_error EC.PROTOCOL_UNSUPPORTED), co).
Proof.
  intros Ht Hl. unfold client_record_transfer_progress, method.
  by rewrite call_is_dispatch.
Qed.

(** An authorization the fabric granted stands although the controller is told that an
    agent is missing. *)
Lemma authorization_without_agents request auth fabric text co :
  encodable request = true → fits_reason text = true →
  Z.of_nat (length (encode request)) ≤
    Z.min (ccf_maximum_payload_bytes (crd_config co)) ByteWriter.u32_max →
  mutate (authorize_replication request) (crd_fabric co) = (Ok auth, fabric) →
  crd_agents co !! ta_destination_cluster auth = None →
  client_authorize_replication request text co =
  (Some (local_error EC.UNKNOWN_CLUSTER), co <| crd_fabric := fabric |>).
Proof.
  intros Hr Ht Hl E Ha.
  assert (dispatch CO.AUTHORIZE_REPLICATION (encode request) co =
    (Some (Err EC.UNKNOWN_CLUSTER), co <| crd_fabric := fabric |>)) as Ed.
  { cbn [dispatch dispatch_transactions dispatch_decisions dispatch_administration]. unfold with_arguments.
    rewrite (reads_all decode request (encode request));
      [|by apply codec_ok|unfold ByteWriter.u32_max, u64_max in *; lia].
    unfold call_fabric. rewrite E. unfold send_intent, find_agent. cbn. by rewrite Ha. }
  unfold client_authorize_replication, method. rewrite call_is_dispatch; rewrite ?Ed; done.
Qed.
End client.

(** The response is what the connection thread sends. *)
Lemma serve_request_sends {S} `{PersistenceStore S} text sid frame response
    (co co' : Coordinator S (list (Z * Frame))) :
  response_to text frame co = (Some response, co') →
  crd_network (serve_request text sid frame co) = crd_network co' ++ [(sid, response)].
Proof.
  unfold response_to, serve_request.
  assert (∀ sid (c : Coordinator S (list (Z * Frame))), crd_network (after_request sid c) = crd_network c) as Hafter.
  { intros sid' c. unfold after_request. destruct (crd_shutdown_requested c); [|done]. cbn.
    generalize (List.filter (is_agent_session c) (crd_listed c)). intros l.
    generalize (crd_network c). induction l as [|x l IH]; intros net; [done|]. apply IH. }
  destruct (decode_control_request _ _).1 as [[raw arguments]|]; [|by intros [= <- <-]].
  destruct (control_operation_cast raw) as [operation|].
  - destruct (dispatch operation arguments co) as [[[body|code]|] co1]; [| |done].
    + intros [= <- <-]. unfold send_reply. cbn [send_frame_to net_send recording_network]. by rewrite Hafter.
    + intros [= <- <-]. unfold send_reply. cbn [send_frame_to net_send recording_network]. by rewrite Hafter.
  - intros [= <- <-]. by rewrite Hafter.
Qed.

(** The controller commits the migration of the demonstration history. *)
Definition demo_committing : Coordinator Empty_set (list (Z * Frame)) :=
  demo_served <| crd_fabric := after migration |>.

Definition fits_response {B} `{Codec B} (result : Result B) : bool :=
  match result with
  | Ok b => encodable b && (Z.of_nat (length (encode b)) <=? kMaxFramePayloadBytes)
  | Err _ => true
  end.

