(* ===== verification/ClusterAgent.v ===== *)
(** * The cluster agent ([cluster_agent.hpp] / [cluster_agent.cpp])

    The process that hosts the bytes of replicas: its store, the data plane that
    serves them to peers, the pull of a transfer intent, its reports, and the control
    loop.  What a connection delivers is a list of results of [receive_frame]; a list
    that ends is a peer that closed. *)

From S2P Require Import Prelude Taxonomy Model Bytes Digest ModelOps Encoding RecordCodecs Frames.
From S2P Require Import FabricState Payloads Coordinator.

Local Open Scope Z_scope.

Definition kDataChunkBytes : Z := 256 * 1024.

(** ** The replica store *)

Record Entry := mkEntry {
  en_state_id : Z;
  en_generation : Z;
  en_bytes : list Z;
  en_digest : Digest
}.

Module ReplicaStore.
Definition store : Type := gmap Z Entry.

Definition put (replica state_id generation : Z) (bytes : list Z) (digest : Digest) (s : store)
    : store :=
  <[replica := mkEntry state_id generation bytes digest]> s.

Definition contains (replica : Z) (s : store) : bool := bool_decide (is_Some (s !! replica)).

Definition read (replica offset length : Z) (s : store) : option (list Z) :=
  match s !! replica with
  | None => None
  | Some entry =>
      let size := Z.of_nat (List.length (en_bytes entry)) in
      if offset >? size then None
      else
        let available := size - offset in
        let count := if length =? 0 then available else Z.min length available in
        Some (take (Z.to_nat count) (drop (Z.to_nat offset) (en_bytes entry)))
  end.

Definition size_of (replica : Z) (s : store) : Z :=
  match s !! replica with None => 0 | Some entry => Z.of_nat (List.length (en_bytes entry)) end.

Definition digest_of (replica : Z) (s : store) : Digest :=
  match s !! replica with None => Digest_default | Some entry => en_digest entry end.

Definition count (s : store) : nat := size s.
Definition erase (replica : Z) (s : store) : store := delete replica s.
Definition replica_ids (s : store) : list Z := (entries s).*1.
End ReplicaStore.

(** ** The data plane, serving *)

Definition chunk_frame (chunk : DataChunkPayload) : Frame :=
  outgoing_frame MT.DATA_CHUNK 0 (encode_DataChunkPayload chunk).

(** The loop over the hosted bytes; the fuel bounds its turns, each of which sends at
    least one byte. *)
Fixpoint serve_chunks (fuel : nat) (s : ReplicaStore.store) (request : DataRequestPayload)
    (digest : Digest) (total offset : Z) : list Frame :=
  match fuel with
  | O => []
  | S fuel =>
      if negb (offset <? total) then []
      else
        match ReplicaStore.read (dr_replica_id request) offset kDataChunkBytes s with
        | None => []
        | Some slice =>
            let next := u64 (offset + Z.of_nat (length slice)) in
            chunk_frame
              (mkDataChunkPayload (dr_state_id request) (dr_state_generation request)
                 (dr_replica_id request) offset (if next >=? total then 1 else 0) digest slice) ::
            serve_chunks fuel s request digest total next
        end
  end.

(** The answer to a data request, and whether the connection stays open. *)
Definition serve_data_request (s : ReplicaStore.store) (request : DataRequestPayload)
    : list Frame * bool :=
  let digest := ReplicaStore.digest_of (dr_replica_id request) s in
  let total := ReplicaStore.size_of (dr_replica_id request) s in
  if total =? 0
  then ([chunk_frame
           (mkDataChunkPayload (dr_state_id request) (dr_state_generation request)
              (dr_replica_id request) 0 1 Digest_default [])], false)
  else (serve_chunks (Z.to_nat total) s request digest total (dr_offset request), true).

(** Bytes pushed by a peer are kept when they match their declared digest. *)
Definition host_state (host : HostStatePayload) (s : ReplicaStore.store)
    : SimplePayload * ReplicaStore.store :=
  let measured := Sha256.sha256 (hs_bytes host) in
  if negb (bool_decide (measured = hs_expected_digest host)) &&
     digest_valid (hs_expected_digest host)
  then (mkSimplePayload 0 (enum_value EC.INTEGRITY_MISMATCH)
          "hosted bytes do not match the declared digest" "", s)
  else (mkSimplePayload 1 (enum_value EC.OK) (hex measured) "",
        ReplicaStore.put (hs_replica_id host) (hs_state_id host) (hs_state_generation host)
          (hs_bytes host) measured s).

(** One turn of [handle_data_connection]: the frames it sends, the store, and whether
    it goes on. *)
Definition data_turn (max_payload : Z) (frame : Frame) (s : ReplicaStore.store)
    : list Frame * ReplicaStore.store * bool :=
  let reader := make_reader (fr_payload frame) in
  match fh_message_type (fr_header frame) with
  | MT.DATA_REQUEST =>
      match (decode_DataRequestPayload reader).1 with
      | None => ([], s, false)
      | Some request => let '(frames, open) := serve_data_request s request in (frames, s, open)
      end
  | MT.HOST_STATE =>
      match (decode_HostStatePayload max_payload reader).1 with
      | None => ([], s, false)
      | Some host =>
          let '(reply, s) := host_state host s in
          ([outgoing_frame MT.HOST_STATE_ACK 0 (encode_SimplePayload reply)], s, true)
      end
  | _ => ([], s, false)
  end.

(** ** The agent *)

Record ClusterAgentConfig := mkClusterAgentConfig {
  acf_coordinator_host : string;
  acf_coordinator_port : Z;
  acf_data_bind_address : string;
  acf_cluster_id : Z;
  acf_region : Z;
  acf_site : Z;
  acf_failure_domain : Z;
  acf_location_descriptor : string;
  acf_capabilities : ClusterCapabilities;
  acf_capacity : ClusterCapacity;
  acf_maximum_payload_bytes : Z;
  acf_maximum_data_connections : Z;
  acf_expected_coordinator_epoch : Z
}.

(** What a connection will deliver. *)
Definition incoming : Type := list (Result Frame).

(** [receive_frame] on a connection: the next result and the rest. *)
Definition receive (stream : incoming) : Result Frame * incoming :=
  match stream with
  | [] => (Err EC.TRANSPORT_CLOSED, [])
  | result :: stream => (result, stream)
  end.

(** The control connection is number 0 of the network. *)
Definition kControl : Z := 0.

Section agent.
Context {T : Type} `{Network T}.

Record ClusterAgent := mkClusterAgent {
  ag_config : ClusterAgentConfig;
  ag_network : T;
  ag_data_port : Z;
  ag_incarnation : Z;
  ag_worker_id : Z;
  ag_worker_boot_id : Z;
  ag_coordinator_epoch : Z;
  ag_registered : bool;
  ag_stopping : bool;
  ag_store : ReplicaStore.store;
  ag_last_error : option ErrorCode
}.

#[export] Instance ClusterAgent_eta : Eta ClusterAgent := λ a,
  mkClusterAgent (ag_config a) (ag_network a) (ag_data_port a) (ag_incarnation a)
    (ag_worker_id a) (ag_worker_boot_id a) (ag_coordinator_epoch a) (ag_registered a)
    (ag_stopping a) (ag_store a) (ag_last_error a).

Definition send_control (frame : Frame) (ag : ClusterAgent) : Result unit * ClusterAgent :=
  let '(sent, network) := net_send (ag_network ag) kControl frame in
  (sent, ag <| ag_network := network |>).

(** The header every authority-bearing frame of the agent carries. *)
Definition stamped_frame (type : MessageType) (payload : list Z) (ag : ClusterAgent) : Frame :=
  mkFrame (FrameHeader_default <| fh_message_type := type |>
             <| fh_coordinator_epoch := ag_coordinator_epoch ag |>
             <| fh_cluster_id := acf_cluster_id (ag_config ag) |>
             <| fh_cluster_incarnation := ag_incarnation ag |>
             <| fh_worker_id := ag_worker_id ag |>
             <| fh_worker_boot_id := ag_worker_boot_id ag |>) payload.

(** *** Registration *)

Definition hello_of (ag : ClusterAgent) : HelloPayload :=
  let config := ag_config ag in
  mkHelloPayload (acf_cluster_id config) (acf_region config) (acf_site config)
    (acf_failure_domain config) (ag_worker_id ag) (ag_worker_boot_id ag) 0
    (acf_location_descriptor config) (capabilities_canonicalize (acf_capabilities config))
    (acf_capacity config) (acf_expected_coordinator_epoch config) (ag_data_port ag).

Definition hello_frame (ag : ClusterAgent) : Frame :=
  mkFrame (FrameHeader_default <| fh_message_type := MT.HELLO |>
             <| fh_cluster_id := acf_cluster_id (ag_config ag) |>
             <| fh_worker_id := ag_worker_id ag |> <| fh_worker_boot_id := ag_worker_boot_id ag |>)
    (encode_HelloPayload (hello_of ag)).

Definition evidence_of (ag : ClusterAgent) : EvidencePayload :=
  mkEvidencePayload (acf_cluster_id (ag_config ag)) (ag_incarnation ag) (ag_worker_boot_id ag)
    CH.HEALTHY (capabilities_canonicalize (acf_capabilities (ag_config ag)))
    (acf_capacity (ag_config ag)) (ag_coordinator_epoch ag).

Definition evidence_frame (ag : ClusterAgent) : Frame :=
  mkFrame (FrameHeader_default <| fh_message_type := MT.EVIDENCE |>
             <| fh_cluster_id := acf_cluster_id (ag_config ag) |>
             <| fh_cluster_incarnation := ag_incarnation ag |>
             <| fh_worker_id := ag_worker_id ag |> <| fh_worker_boot_id := ag_worker_boot_id ag |>)
    (encode_EvidencePayload (evidence_of ag)).

(** The agent after an accepted HELLO. *)
Definition register_with (ack : HelloAckPayload) (ag : ClusterAgent) : ClusterAgent :=
  ag <| ag_incarnation := ha_incarnation ack |>
     <| ag_coordinator_epoch := ha_coordinator_epoch ack |> <| ag_registered := true |>.

(** The second half of [connect_and_register]. *)
Definition publish_evidence (ag : ClusterAgent) (stream : incoming)
    : Result unit * ClusterAgent * incoming :=
  let '(sent, ag) := send_control (evidence_frame ag) ag in
  match sent with
  | Err code => (Err code, ag, stream)
  | Ok _ =>
      let '(reply, stream) := receive stream in
      match reply with
      | Err code => (Err code, ag, stream)
      | Ok frame =>
          if negb (bool_decide (fh_message_type (fr_header frame) = MT.EVIDENCE_ACK))
          then (Err EC.PROTOCOL_UNSUPPORTED, ag, stream)
          else (Ok tt, ag, stream)
      end
  end.

(** On a connection to the coordinator. *)
Definition connect_and_register (ag : ClusterAgent) (stream : incoming)
    : Result unit * ClusterAgent * incoming :=
  let '(sent, ag) := send_control (hello_frame ag) ag in
  match sent with
  | Err code => (Err code, ag, stream)
  | Ok _ =>
      let '(reply, stream) := receive stream in
      match reply with
      | Err code => (Err code, ag, stream)
      | Ok frame =>
          if negb (bool_decide (fh_message_type (fr_header frame) = MT.HELLO_ACK))
          then (Err EC.PROTOCOL_UNSUPPORTED, ag, stream)
          else
            match (decode_HelloAckPayload (make_reader (fr_payload frame))).1 with
            | None => (Err EC.FRAME_CORRUPT, ag, stream)
            | Some ack =>
                if ha_accepted ack =? 0 then (Err EC.AUTHORITY_NOT_ESTABLISHED, ag, stream)
                else publish_evidence (register_with ack ag) stream
            end
      end
  end.

(** *** Reports *)

Definition report_of (intent : TransferIntentPayload) (ag : ClusterAgent)
    (bytes_transferred : Z) (measured : Digest) (completed failed : Z) (detail : string)
    : TransferReportPayload :=
  mkTransferReportPayload (ti_transfer_id intent) (ti_transfer_generation intent)
    (ti_operation_id intent) (ti_operation_generation intent) (ti_destination_replica intent)
    (ti_destination_replica_generation intent) (ag_incarnation ag) (ag_worker_boot_id ag)
    bytes_transferred measured completed failed detail.

Definition verification_report (intent : TransferIntentPayload) (ag : ClusterAgent)
    (received : Z) (measured : Digest) : VerifyReportPayload :=
  let digest_matches :=
    negb (digest_valid (ti_expected_digest intent)) ||
    bool_decide (measured = ti_expected_digest intent) in
  mkVerifyReportPayload (ti_operation_id intent) (ti_destination_replica intent)
    (ti_destination_replica_generation intent) (ti_operation_id intent)
    (ti_operation_generation intent) (ag_incarnation ag) (ag_worker_boot_id ag)
    (if digest_matches then 1 else 0) measured 1 received (enum_value DC.DURABLE)
    (if digest_matches then "digest matches the authorized digest"
     else "digest does not match the authorized digest").

(** *** The pull *)

Definition request_of (intent : TransferIntentPayload) : DataRequestPayload :=
  mkDataRequestPayload (ti_state_id intent) (ti_state_generation intent)
    (ti_source_replica intent) 0 0.

Definition pull_request (intent : TransferIntentPayload) (ag : ClusterAgent) : Frame :=
  stamped_frame MT.DATA_REQUEST (encode_DataRequestPayload (request_of intent)) ag.

(** What the loop of [pull_from_peer] carries. *)
Record Pull := mkPull {
  pu_bytes : list Z;
  pu_hasher : Sha256.Hasher;
  pu_reported : bool
}.

Definition Pull_start : Pull := mkPull [] Sha256.reset false.

(** The progress report that follows the first chunk. *)
Definition report_progress (intent : TransferIntentPayload) (pull : Pull) (ag : ClusterAgent)
    : Result unit * ClusterAgent :=
  if pu_reported pull then (Ok tt, ag)
  else
    send_control
      (stamped_frame MT.TRANSFER_PROGRESS
         (encode_TransferReportPayload
            (report_of intent ag (Z.of_nat (length (pu_bytes pull))) Digest_default 0 0 "receiving"))
         ag) ag.

(** One received chunk: the pull goes on, ends, or fails. *)
Definition take_chunk (intent : TransferIntentPayload) (max_payload : Z) (frame : Frame)
    : Result DataChunkPayload :=
  if negb (bool_decide (fh_message_type (fr_header frame) = MT.DATA_CHUNK))
  then Err EC.PROTOCOL_UNSUPPORTED
  else
    match (decode_DataChunkPayload max_payload (make_reader (fr_payload frame))).1 with
    | None => Err EC.FRAME_CORRUPT
    | Some chunk =>
        if negb (dc_replica_id chunk =? ti_source_replica intent) then Err EC.FRAME_CORRUPT
        else if (length (dc_bytes chunk) =? 0)%nat && (dc_last chunk =? 1)
        then Err EC.TRANSFER_FAILED
        else Ok chunk
    end.

Fixpoint pull_loop (intent : TransferIntentPayload) (peer : incoming) (pull : Pull)
    (ag : ClusterAgent) : Result Pull * ClusterAgent :=
  match peer with
  | [] => (Err EC.TRANSPORT_CLOSED, ag)
  | Err code :: _ => (Err code, ag)
  | Ok frame :: peer =>
      match take_chunk intent (acf_maximum_payload_bytes (ag_config ag)) frame with
      | Err code => (Err code, ag)
      | Ok chunk =>
          let grown :=
            mkPull (pu_bytes pull ++ dc_bytes chunk)
              (Sha256.update (pu_hasher pull) (dc_bytes chunk)) (pu_reported pull) in
          let '(sent, ag) := report_progress intent grown ag in
          match sent with
          | Err code => (Err code, ag)
          | Ok _ =>
              let grown := mkPull (pu_bytes grown) (pu_hasher grown) true in
              if dc_last chunk =? 1 then (Ok grown, ag)
              else if Z.of_nat (length (pu_bytes grown)) >?
                      acf_maximum_payload_bytes (ag_config ag)
              then (Err EC.FRAME_TOO_LARGE, ag)
              else pull_loop intent peer grown ag
          end
      end
  end.

(** [peer] is what connecting and sending the request returned, and then what the
    source sends. *)
Definition pull_from_peer (intent : TransferIntentPayload) (peer : Result incoming)
    (ag : ClusterAgent) : Result (list Z * Digest) * ClusterAgent :=
  match peer with
  | Err code => (Err code, ag)
  | Ok chunks =>
      match pull_loop intent chunks Pull_start ag with
      | (Err code, ag) => (Err code, ag)
      | (Ok pull, ag) =>
          if negb (ti_payload_bytes intent =? 0) &&
             negb (Z.of_nat (length (pu_bytes pull)) =? ti_payload_bytes intent)
          then (Err EC.TRANSFER_INCOMPLETE, ag)
          else (Ok (pu_bytes pull, (Sha256.finalize (pu_hasher pull)).1), ag)
      end
  end.

(** *** Acknowledgements *)

Definition kMaxFrames : nat := 8.

(** Up to [attempts] frames are read; those of other types are dropped. *)
Fixpoint await_loop (attempts : nat) (expected : MessageType) (stream : incoming)
    : Result Frame * incoming :=
  match attempts with
  | O => (Err EC.PROTOCOL_UNSUPPORTED, stream)
  | S attempts =>
      let '(reply, stream) := receive stream in
      match reply with
      | Err code => (Err code, stream)
      | Ok frame =>
          if bool_decide (fh_message_type (fr_header frame) = expected) then (Ok frame, stream)
          else if bool_decide (fh_message_type (fr_header frame) = MT.SHUTDOWN)
          then (Err EC.SHUTTING_DOWN, stream)
          else await_loop attempts expected stream
      end
  end.

Definition await_acknowledgement : MessageType → incoming → Result Frame * incoming :=
  await_loop kMaxFrames.

(** Sends a frame and waits for its acknowledgement. *)
Definition send_and_await (frame : Frame) (expected : MessageType) (ag : ClusterAgent)
    (stream : incoming) : Result unit * ClusterAgent * incoming :=
  let '(sent, ag) := send_control frame ag in
  match sent with
  | Err code => (Err code, ag, stream)
  | Ok _ =>
      let '(reply, stream) := await_acknowledgement expected stream in
      match reply with
      | Err code => (Err code, ag, stream)
      | Ok _ => (Ok tt, ag, stream)
      end
  end.

(** *** Transfer intents *)

Section intents.
(** The message of an error, which the model leaves open, and what the source of
    a transfer does. *)
Context (text : string) (peer : Result incoming).

(** The bytes are stored, then the result and the verification are reported. *)
Definition finish_transfer (intent : TransferIntentPayload) (bytes : list Z) (measured : Digest)
    (ag : ClusterAgent) (stream : incoming) : Result unit * ClusterAgent * incoming :=
  let received := Z.of_nat (length bytes) in
  let ag :=
    ag <| ag_store ::= ReplicaStore.put (ti_destination_replica intent) (ti_state_id intent)
            (ti_state_generation intent) bytes measured |> in
  let result := report_of intent ag received measured 1 0 "transfer complete" in
  let '(outcome, ag, stream) :=
    send_and_await (stamped_frame MT.TRANSFER_RESULT (encode_TransferReportPayload result) ag)
      MT.TRANSFER_RESULT_ACK ag stream in
  match outcome with
  | Err code => (Err code, ag, stream)
  | Ok _ =>
      send_and_await
        (stamped_frame MT.VERIFY_RESULT
           (encode_VerifyReportPayload (verification_report intent ag received measured)) ag)
        MT.VERIFY_RESULT_ACK ag stream
  end.

(** A pull that failed is reported; nothing is stored. *)
Definition fail_transfer (intent : TransferIntentPayload) (code : ErrorCode) (ag : ClusterAgent)
    : ClusterAgent :=
  let report := report_of intent ag 0 Digest_default 0 1 text in
  (send_control (stamped_frame MT.TRANSFER_RESULT (encode_TransferReportPayload report) ag) ag).2
    <| ag_last_error := Some code |>.

Definition handle_transfer_intent (frame : Frame) (ag : ClusterAgent) (stream : incoming)
    : Result unit * ClusterAgent * incoming :=
  match (decode_TransferIntentPayload (make_reader (fr_payload frame))).1 with
  | None => (Err EC.FRAME_CORRUPT, ag, stream)
  | Some intent =>
      match pull_from_peer intent peer ag with
      | (Err code, ag) => (Err code, fail_transfer intent code ag, stream)
      | (Ok (bytes, measured), ag) => finish_transfer intent bytes measured ag stream
      end
  end.

(** *** The control loop *)

(** A short acknowledgement; only the heartbeat's carries the worker boot. *)
Definition short_ack (type : MessageType) (ag : ClusterAgent) : Frame :=
  mkFrame (FrameHeader_default <| fh_message_type := type |>
             <| fh_cluster_id := acf_cluster_id (ag_config ag) |>
             <| fh_cluster_incarnation := ag_incarnation ag |>
             <| fh_worker_boot_id :=
                  if bool_decide (type = MT.HEARTBEAT_ACK) then ag_worker_boot_id ag else 0 |>) [].

(** One frame of the control loop: [None] when it goes on, and otherwise the outcome
    it leaves with. *)
Definition control_turn (frame : Frame) (ag : ClusterAgent) (stream : incoming)
    : option (Result unit) * ClusterAgent * incoming :=
  match fh_message_type (fr_header frame) with
  | MT.SHUTDOWN =>
      (Some (Ok tt), (send_control (short_ack MT.SHUTDOWN_ACK ag) ag).2, stream)
  | MT.HEARTBEAT =>
      let '(sent, ag) := send_control (short_ack MT.HEARTBEAT_ACK ag) ag in
      match sent with
      | Err code => (Some (Err code), ag, stream)
      | Ok _ => (None, ag, stream)
      end
  | MT.TRANSFER_INTENT =>
      let '(sent, ag) := send_control (short_ack MT.TRANSFER_INTENT_ACK ag) ag in
      match sent with
      | Err code => (Some (Err code), ag, stream)
      | Ok _ =>
          let '(handled, ag, stream) := handle_transfer_intent frame ag stream in
          match handled with
          | Ok _ => (None, ag, stream)
          | Err code => (None, ag <| ag_last_error := Some code |>, stream)
          end
      end
  | MT.HOST_STATE =>
      match (decode_HostStatePayload (acf_maximum_payload_bytes (ag_config ag))
               (make_reader (fr_payload frame))).1 with
      | None => (None, ag, stream)
      | Some host =>
          (None, ag <| ag_store ::= ReplicaStore.put (hs_replica_id host) (hs_state_id host)
                         (hs_state_generation host) (hs_bytes host)
                         (Sha256.sha256 (hs_bytes host)) |>, stream)
      end
  | _ => (None, ag, stream)
  end.
End intents.

(** [ClusterAgent::serve] over what the coordinator sends; [peers] answers the
    transfers, by what the source of the [n]-th pull does.  The fuel bounds the
    turns, each of which takes a frame from the stream. *)
Fixpoint serve_loop (fuel : nat) (text : string) (peers : nat → Result incoming)
    (ag : ClusterAgent) (stream : incoming) : Result unit * ClusterAgent :=
  match fuel with
  | O => (Ok tt, ag)
  | S fuel =>
      let '(frame, stream) := receive stream in
      match frame with
      | Err code =>
          if ag_stopping ag then (Ok tt, ag)
          else (Err code, ag <| ag_last_error := Some code |>)
      | Ok frame =>
          let '(outcome, ag, stream) := control_turn text (peers fuel) frame ag stream in
          match outcome with
          | Some outcome => (outcome, ag)
          | None => serve_loop fuel text peers ag stream
          end
      end
  end.

Definition serve (text : string) (peers : nat → Result incoming) (ag : ClusterAgent)
    (stream : incoming) : Result unit * ClusterAgent :=
  let '(outcome, ag) := serve_loop (S (length stream)) text peers ag stream in
  (outcome, ag <| ag_stopping := true |>).

Definition agent_request_stop (ag : ClusterAgent) : ClusterAgent :=
  ag <| ag_stopping := true |> <| ag_network ::= λ network, net_close network kControl |>.

(** [ClusterAgent::start] in a process with the given number, once its listener is
    bound and its connection made. *)
Definition agent_start (config : ClusterAgentConfig) (process_identity data_port : Z) (network : T)
    (stream : incoming) : Result ClusterAgent * incoming :=
  let ag :=
    mkClusterAgent config network data_port 0 (acf_cluster_id config) process_identity 0 false
      false ∅ None in
  let '(registered, ag, stream) := connect_and_register ag stream in
  match registered with Err code => (Err code, stream) | Ok _ => (Ok ag, stream) end.
End agent.

Arguments ClusterAgent T : clear implicits.

(** ** The data connections ([data_loop])

    Every accepted connection gets a worker of its own while fewer than the configured
    number are at work; the counters are shared under a mutex. *)
Record DataLoop := mkDataLoop { dl_active : Z; dl_served : Z }.

(** An accepted connection: whether it is served, or closed at once. *)
Definition data_accept (config : ClusterAgentConfig) (dl : DataLoop) : bool * DataLoop :=
  if dl_active dl >=? acf_maximum_data_connections config then (false, dl)
  else (true, mkDataLoop (u64 (dl_active dl + 1)) (dl_served dl)).

(** What a worker does when its connection has ended. *)
Definition data_worker_done (dl : DataLoop) : DataLoop :=
  mkDataLoop (if dl_active dl >? 0 then dl_active dl - 1 else dl_active dl) (u64 (dl_served dl + 1)).

(** The interleavings of the loop with its workers; the number of workers is beside the
    counters. *)
Inductive data_loop_reaches (config : ClusterAgentConfig) : nat → DataLoop → Prop :=
  | data_loop_start : data_loop_reaches config 0 (mkDataLoop 0 0)
  | data_loop_accept workers dl served dl' :
      data_loop_reaches config workers dl → data_accept config dl = (served, dl') →
      data_loop_reaches config (if served then S workers else workers) dl'
  | data_loop_done workers dl :
      data_loop_reaches config (S workers) dl →
      data_loop_reaches config workers (data_worker_done dl).

(** The counter is the number of workers, so no more than the configured number work. *)
Lemma data_loop_bounded config workers dl :
  0 ≤ acf_maximum_data_connections config ≤ u64_max → data_loop_reaches config workers dl →
  dl_active dl = Z.of_nat workers ∧ Z.of_nat workers ≤ acf_maximum_data_connections config.
Proof.
  intros Hm. induction 1 as [|workers dl served dl' _ [IH IHm] E|workers dl _ [IH IHm]]; cbn; [lia| |].
  - revert E. unfold data_accept. destruct (Z.geb_spec (dl_active dl) (acf_maximum_data_connections config));
      intros [= <- <-]; [done|]. cbn. unfold u64_max in Hm. rewrite u64_id by lia. lia.
  - destruct (Z.gtb_spec (dl_active dl) 0); lia.
Qed.
