(* ===== verification/DataPlane.v ===== *)
(** * What agents store and vouch for

    The bytes a destination pulls are the bytes its source hosts; every digest a
    store holds was measured over the bytes next to it; and an agent vouches for a
    replica only after storing it. *)

From S2P Require Import Prelude Taxonomy Model Bytes Digest ModelOps FabricState Encoding.
From S2P Require Import RecordCodecs Frames Payloads Coordinator Coordination ClusterAgent.

Local Open Scope Z_scope.

(** ** Serving *)

Section serving.
Context (s : ReplicaStore.store) (request : DataRequestPayload) (entry : Entry).
Context (Hhosted : s !! dr_replica_id request = Some entry).
Let total := Z.of_nat (length (en_bytes entry)).

(** The bytes of one chunk. *)
Definition slice_at (offset : Z) : list Z :=
  take (Z.to_nat kDataChunkBytes) (drop (Z.to_nat offset) (en_bytes entry)).

Definition chunk_of (digest : Digest) (offset : Z) (slice : list Z) : DataChunkPayload :=
  mkDataChunkPayload (dr_state_id request) (dr_state_generation request) (dr_replica_id request)
    offset (if offset + Z.of_nat (length slice) >=? total then 1 else 0) digest slice.

Lemma read_hosted offset :
  0 ≤ offset ≤ total →
  ReplicaStore.read (dr_replica_id request) offset kDataChunkBytes s = Some (slice_at offset).
Proof.
  intros Ho. unfold ReplicaStore.read, slice_at. rewrite Hhosted. fold total.
  destruct (Z.gtb_spec offset total); [lia|].
  destruct (Z.eqb_spec kDataChunkBytes 0) as [E|_]; [discriminate E|].
  f_equal. destruct (decide (kDataChunkBytes ≤ total - offset)).
  - by rewrite Z.min_l.
  - rewrite Z.min_r by lia.
    rewrite !take_ge; [done|rewrite length_drop; unfold total in *; lia
      |rewrite length_drop; unfold total in *; lia].
Qed.

Lemma length_slice offset :
  0 ≤ offset < total →
  0 < Z.of_nat (length (slice_at offset)) ≤ total - offset ∧
  (en_bytes entry = take (Z.to_nat offset) (en_bytes entry) ++
     slice_at offset ++ drop (Z.to_nat (offset + Z.of_nat (length (slice_at offset)))) (en_bytes entry)).
Proof.
  intros Ho. assert (0 < kDataChunkBytes) as Hk by reflexivity. revert Hk. unfold slice_at.
  generalize kDataChunkBytes. intros k Hk. set (rest := drop (Z.to_nat offset) (en_bytes entry)).
  assert (length rest = Z.to_nat (total - offset)) as Hr.
  { unfold rest. rewrite length_drop. unfold total in *. lia. }
  split; [rewrite length_take; lia|].
  replace (drop (Z.to_nat (offset + Z.of_nat (length (take (Z.to_nat k) rest)))) (en_bytes entry))
    with (drop (length (take (Z.to_nat k) rest)) rest).
  - rewrite length_take. destruct (decide (Z.to_nat k ≤ length rest)%nat).
    + rewrite Nat.min_l by done. rewrite take_drop. unfold rest. by rewrite take_drop.
    + rewrite Nat.min_r, drop_all, app_nil_r, (take_ge rest) by lia. unfold rest. by rewrite take_drop.
  - generalize (length (take (Z.to_nat k) rest)). intros n. unfold rest. rewrite drop_drop. f_equal. lia.
Qed.

Lemma serve_chunks_step fuel digest offset :
  0 ≤ offset < total → total < 2 ^ 64 →
  serve_chunks (S fuel) s request digest total offset =
  chunk_frame (chunk_of digest offset (slice_at offset)) ::
  serve_chunks fuel s request digest total (offset + Z.of_nat (length (slice_at offset))).
Proof.
  intros Ho Ht. pose proof (length_slice offset Ho) as [Hl _].
  cbn [serve_chunks]. destruct (Z.ltb_spec offset total); [|lia]. cbn [negb].
  rewrite read_hosted by lia. revert Hl. generalize (slice_at offset). intros slice Hl.
  unfold u64. by rewrite (Z.mod_small (offset + _)) by lia.
Qed.
End serving.

(** ** Pulling *)

Section pulling.
Context {T : Type} `{Network T}.
Implicit Types ag : ClusterAgent T.

(** The network never refuses a frame on the control connection. *)
Definition sends_always : Prop := ∀ (n : T) frame, (net_send n kControl frame).1 = Ok tt.

(** What an agent never changes once it is registered. *)
Definition identity ag :=
  (ag_config ag, ag_incarnation ag, ag_worker_id ag, ag_worker_boot_id ag,
   ag_coordinator_epoch ag, ag_registered ag, ag_stopping ag).

Lemma identity_config ag ag' : identity ag = identity ag' → ag_config ag = ag_config ag'.
Proof. by intros [= ? _ _ _ _ _ _]. Qed.

Lemma identity_stopping ag ag' : identity ag = identity ag' → ag_stopping ag = ag_stopping ag'.
Proof. by intros [= _ _ _ _ _ _ ?]. Qed.

Lemma send_control_state frame ag :
  identity (send_control frame ag).2 = identity ag ∧ ag_store (send_control frame ag).2 = ag_store ag.
Proof. unfold send_control. by destruct (net_send (ag_network ag) kControl frame). Qed.

Lemma report_progress_state intent pull ag :
  identity (report_progress intent pull ag).2 = identity ag ∧
  ag_store (report_progress intent pull ag).2 = ag_store ag.
Proof. unfold report_progress. destruct (pu_reported pull); [done|apply send_control_state]. Qed.

Lemma report_progress_sent intent pull ag :
  sends_always → (report_progress intent pull ag).1 = Ok tt.
Proof.
  intros Hs. unfold report_progress. destruct (pu_reported pull); [done|].
  unfold send_control. set (frame := stamped_frame _ _ _). clearbody frame.
  specialize (Hs (ag_network ag) frame). by destruct (net_send (ag_network ag) kControl frame).
Qed.

(** Whatever the source sends, the pull keeps the configuration and the store, and the
    hasher has seen exactly the bytes. *)
Lemma pull_loop_sound intent peer pull ag :
  hashes (pu_hasher pull) (pu_bytes pull) →
  let '(result, ag') := pull_loop intent peer pull ag in
  identity ag' = identity ag ∧ ag_store ag' = ag_store ag ∧
  ∀ pull', result = Ok pull' → hashes (pu_hasher pull') (pu_bytes pull').
Proof.
  revert pull ag. induction peer as [|[frame|code] peer IH]; intros pull ag Hh; cbn [pull_loop]; [done| |done].
  destruct (take_chunk _ _ frame) as [chunk|code]; [|done].
  apply (hashes_update _ _ (dc_bytes chunk)) in Hh.
  set (grown := mkPull (pu_bytes pull ++ dc_bytes chunk) _ _).
  pose proof (report_progress_state intent grown ag) as [Hc Hs].
  destruct (report_progress intent grown ag) as [[u|code] ag1]; cbn [snd] in Hc, Hs; [|done].
  destruct (dc_last chunk =? 1).
  { split_and!; [done|done|]. by intros pull' [= <-]. }
  destruct (_ >? _); [done|].
  specialize (IH (mkPull (pu_bytes grown) (pu_hasher grown) true) ag1 Hh).
  destruct (pull_loop intent peer _ ag1) as [result ag2]. by rewrite Hc, Hs in IH.
Qed.

Lemma pull_from_peer_sound intent peer ag :
  let '(result, ag') := pull_from_peer intent peer ag in
  identity ag' = identity ag ∧ ag_store ag' = ag_store ag ∧
  ∀ bytes measured, result = Ok (bytes, measured) →
    measured = Reference.sha256 bytes ∧
    (ti_payload_bytes intent ≠ 0 → Z.of_nat (length bytes) = ti_payload_bytes intent).
Proof.
  unfold pull_from_peer. destruct peer as [chunks|code]; [|done].
  pose proof (pull_loop_sound intent chunks Pull_start ag hashes_reset) as Hp.
  destruct (pull_loop intent chunks Pull_start ag) as [[pull|code] ag']; destruct Hp as (Hc & Hs & Hh); [|done].
  destruct (Z.eqb_spec (ti_payload_bytes intent) 0); cbn [negb andb];
    [|destruct (Z.eqb_spec (Z.of_nat (length (pu_bytes pull))) (ti_payload_bytes intent)); cbn [negb]; [|done]];
    (split_and!; [done|done|]); intros bytes measured [= <- <-];
    (split; [by apply hashes_finalize, Hh|done]).
Qed.

(** *** A transfer between two agents *)

Section transfer.
Context (s : ReplicaStore.store) (intent : TransferIntentPayload) (entry : Entry).

(** The source hosts the replica of the intent, and its bytes fit the protocol and the
    destination's payload bound. *)
Record transferable (max_payload : Z) : Prop := {
  tf_hosted : s !! ti_source_replica intent = Some entry;
  tf_bytes : en_bytes entry ≠ [] ∧ forallb fits_byte (en_bytes entry) = true;
  tf_digest : encodable_Digest (en_digest entry) = true;
  tf_intent : fits_u64 (ti_state_id intent) && fits_u64 (ti_state_generation intent) &&
              fits_u64 (ti_source_replica intent) = true;
  tf_bounds : Z.of_nat (length (en_bytes entry)) ≤ max_payload < 2 ^ 64;
  tf_length : ti_payload_bytes intent = 0 ∨
              ti_payload_bytes intent = Z.of_nat (length (en_bytes entry))
}.

Context (max_payload : Z) (Htf : transferable max_payload).
Let total := Z.of_nat (length (en_bytes entry)).
Let slice offset := slice_at entry offset.

Lemma slice_bounds offset :
  0 ≤ offset < total →
  0 < Z.of_nat (length (slice offset)) ≤ kDataChunkBytes ∧ forallb fits_byte (slice offset) = true.
Proof.
  intros Ho. pose proof (length_slice entry offset Ho) as [Hl Heq].
  split; [split; [exact (proj1 Hl)|]|].
  - unfold slice, slice_at. assert (0 < kDataChunkBytes) as Hk by reflexivity. revert Hk.
    generalize kDataChunkBytes. intros k Hk. rewrite length_take. lia.
  - destruct (tf_bytes _ Htf) as [_ Hb]. rewrite Heq, !forallb_app in Hb. fold (slice offset) in Hb.
    apply andb_true_iff in Hb as [_ Hb]. by apply andb_true_iff in Hb as [Hb _].
Qed.

(** A chunk survives the wire and is accepted. *)
Lemma chunk_is_taken offset :
  0 ≤ offset < total →
  take_chunk intent max_payload
    (chunk_frame (chunk_of (request_of intent) entry (en_digest entry) offset (slice offset))) =
  Ok (chunk_of (request_of intent) entry (en_digest entry) offset (slice offset)).
Proof.
  intros Ho. pose proof (slice_bounds offset Ho) as [Hl Hb].
  pose proof (length_slice entry offset Ho) as [Hl' _]. fold (slice offset) total in Hl'.
  revert Hl Hb Hl'. generalize (slice offset). intros bytes Hl Hb Hl'.
  assert (total ≤ max_payload < 2 ^ 64) as Hm by exact (tf_bounds _ Htf).
  assert (kDataChunkBytes = 262144) as Hk by reflexivity. rewrite Hk in Hl. clear Hk.
  pose proof (tf_intent _ Htf) as Hi. split_fits Hi.
  unfold take_chunk. change (fh_message_type _) with MT.DATA_CHUNK. cbn [bool_decide_spec negb].
  rewrite bool_decide_true by done. cbn [negb fr_payload chunk_frame outgoing_frame].
  set (last := if offset + Z.of_nat (length bytes) >=? total then 1 else 0).
  assert (last = 0 ∨ last = 1) as Hlast by (unfold last; destruct (_ >=? _); auto).
  unfold chunk_of. fold total last.
  rewrite (payload_decodes _ _ _ (DataChunkPayload_canonical max_payload)).
  - cbn [dc_replica_id request_of dr_replica_id dc_bytes dc_last]. rewrite Z.eqb_refl. cbn [negb].
    destruct (Nat.eqb_spec (length bytes) 0); [lia|done].
  - unfold encodable_DataChunkPayload, fits_blob.
    cbn [dc_state_id dc_state_generation dc_replica_id dc_offset dc_last dc_digest dc_bytes
         dr_state_id dr_state_generation dr_replica_id request_of].
    rewrite Hi, Hf, Hf0, Hb, (tf_digest _ Htf).
    unfold fits_u64, fits_u32. rewrite !andb_true_r. cbn [andb].
    destruct Hlast as [->| ->]; repeat (apply andb_true_iff; split); try reflexivity; lia.
  - unfold encode_DataChunkPayload.
    cbn [dc_state_id dc_state_generation dc_replica_id dc_offset dc_last dc_digest dc_bytes].
    pose proof (tf_digest _ Htf) as Hd. apply andb_true_iff in Hd as [Hd _].
    rewrite !length_app. unfold encode_Digest, ByteWriter.raw, ByteWriter.blob.
    destruct (Z.gtb_spec (Z.of_nat (length bytes)) ByteWriter.u32_max);
      [unfold ByteWriter.u32_max in *; lia|].
    rewrite length_app. unfold ByteWriter.raw. cbn [length encode_id ByteWriter.u64 ByteWriter.u32].
    unfold u64_max. lia.
Qed.

Lemma pull_loop_complete fuel offset pull ag :
  sends_always → acf_maximum_payload_bytes (ag_config ag) = max_payload →
  0 ≤ offset < total → total - offset ≤ Z.of_nat fuel →
  pu_bytes pull = take (Z.to_nat offset) (en_bytes entry) → hashes (pu_hasher pull) (pu_bytes pull) →
  ∃ h ag',
    pull_loop intent
      (map Ok (serve_chunks fuel s (request_of intent) (en_digest entry) total offset)) pull ag =
    (Ok (mkPull (en_bytes entry) h true), ag') ∧ hashes h (en_bytes entry).
Proof.
  intros Hs. revert offset pull ag.
  induction fuel as [|fuel IH]; intros offset pull ag Hm Ho Hfuel Hp Hh; [lia|].
  assert (s !! dr_replica_id (request_of intent) = Some entry) as Hhost by exact (tf_hosted _ Htf).
  assert (total ≤ max_payload < 2 ^ 64) as Hb by exact (tf_bounds _ Htf).
  unfold total. rewrite (serve_chunks_step s (request_of intent) entry Hhost) by (fold total; lia).
  fold total. change (slice_at entry offset) with (slice offset). cbn [map pull_loop].
  rewrite Hm, chunk_is_taken by done.
  pose proof (length_slice entry offset Ho) as [Hl Heq]. fold total (slice offset) in Hl, Heq.
  revert Hl Heq. generalize (slice offset). intros bytes Hl Heq.
  cbn [dc_bytes dc_last chunk_of].
  set (grown := mkPull (pu_bytes pull ++ bytes) _ _).
  assert (pu_bytes grown = take (Z.to_nat (offset + Z.of_nat (length bytes))) (en_bytes entry)) as Hg.
  { unfold grown. cbn [pu_bytes]. rewrite Hp. rewrite Heq at 2. rewrite app_assoc.
    rewrite take_app_length'; [done|]. rewrite length_app, length_take. unfold total in *. lia. }
  assert (hashes (pu_hasher grown) (pu_bytes grown)) as Hgh by exact (hashes_update _ _ bytes Hh).
  pose proof (report_progress_sent intent grown ag Hs) as Hsent.
  pose proof (report_progress_state intent grown ag) as [Hc _].
  destruct (report_progress intent grown ag) as [sent ag1]. cbn [fst snd] in Hsent, Hc. subst sent.
  fold total. clearbody grown.
  destruct (Z.geb_spec (offset + Z.of_nat (length bytes)) total) as [Hge|Hlt].
  - rewrite (take_ge (en_bytes entry)) in Hg by (unfold total in *; lia). rewrite Hg in Hgh |- *.
    cbn [Z.eqb Pos.eqb]. by exists (pu_hasher grown), ag1.
  - cbn [Z.eqb pu_bytes]. destruct (Z.gtb_spec (Z.of_nat (length (pu_bytes grown)))
      (acf_maximum_payload_bytes (ag_config ag1))) as [Hgt|_].
    { rewrite (identity_config _ _ Hc), Hm, Hg, length_take in Hgt. unfold total in *. lia. }
    apply IH; [by rewrite (identity_config _ _ Hc)| |lia|exact Hg|exact Hgh]. lia.
Qed.

(** The source's turn on the pull's request, and the pull of what it sends. *)
Lemma pull_from_source ag max_source :
  sends_always → acf_maximum_payload_bytes (ag_config ag) = max_payload →
  ∃ frames ag',
    data_turn max_source (pull_request intent ag) s = (frames, s, true) ∧
    pull_from_peer intent (Ok (map Ok frames)) ag =
    (Ok (en_bytes entry, Reference.sha256 (en_bytes entry)), ag').
Proof.
  intros Hs Hm. destruct (tf_bytes _ Htf) as [Hne _].
  assert (0 < total) as Hpos by (unfold total; destruct (en_bytes entry); [done|cbn [length]; lia]).
  pose proof (tf_intent _ Htf) as Hi. split_fits Hi.
  destruct (pull_loop_complete (Z.to_nat total) 0 Pull_start ag Hs Hm) as (h & ag' & Hpull & Hh);
    [lia|lia|done|apply hashes_reset|].
  exists (serve_chunks (Z.to_nat total) s (request_of intent) (en_digest entry) total 0), ag'. split.
  - unfold data_turn. change (fh_message_type _) with MT.DATA_REQUEST. cbv iota.
    change (fr_payload (pull_request intent ag)) with (encode_DataRequestPayload (request_of intent)).
    rewrite (payload_decodes _ _ _ DataRequestPayload_canonical);
      [|unfold encodable_DataRequestPayload, request_of; cbn [dr_state_id dr_state_generation
          dr_replica_id dr_offset dr_length]; by rewrite Hi, Hf, Hf0
       |by vm_compute].
    unfold serve_data_request, ReplicaStore.size_of, ReplicaStore.digest_of.
    change (dr_replica_id (request_of intent)) with (ti_source_replica intent).
    rewrite (tf_hosted _ Htf). fold total. destruct (Z.eqb_spec total 0); [lia|done].
  - unfold pull_from_peer. rewrite Hpull. cbn [pu_bytes pu_hasher].
    rewrite (hashes_finalize _ _ Hh). fold total.
    destruct (tf_length _ Htf) as [-> | ->]; [done|]. fold total. by rewrite Z.eqb_refl, andb_false_r.
Qed.
End transfer.

(** ** The store *)

(** Every digest was measured over the bytes next to it. *)
Definition measured_store (s : ReplicaStore.store) : Prop :=
  map_Forall (λ _ entry, en_digest entry = Reference.sha256 (en_bytes entry)) s.

Lemma put_measured replica state_id generation bytes digest s :
  measured_store s → digest = Reference.sha256 bytes →
  measured_store (ReplicaStore.put replica state_id generation bytes digest s).
Proof. intros Hs ->. by apply map_Forall_insert_2. Qed.

Lemma data_turn_measured max_payload frame s :
  measured_store s → measured_store (data_turn max_payload frame s).1.2.
Proof.
  intros Hs. unfold data_turn. destruct (fh_message_type _); try done.
  - destruct ((decode_DataRequestPayload _).1) as [request|]; [|done].
    by destruct (serve_data_request s request).
  - destruct ((decode_HostStatePayload _ _).1) as [host|]; [|done].
    unfold host_state. destruct (_ && _); [done|]. by apply put_measured, sha256_reference.
Qed.

Lemma send_and_await_state frame expected ag stream :
  let ag' := (send_and_await frame expected ag stream).1.2 in
  identity ag' = identity ag ∧ ag_store ag' = ag_store ag.
Proof.
  unfold send_and_await. pose proof (send_control_state frame ag) as [Hc Hs].
  destruct (send_control frame ag) as [[u|code] ag1]; [|done].
  by destruct (await_acknowledgement expected stream) as [[reply|code] rest].
Qed.

Definition stored (intent : TransferIntentPayload) (bytes : list Z) (s : ReplicaStore.store)
    : ReplicaStore.store :=
  ReplicaStore.put (ti_destination_replica intent) (ti_state_id intent)
    (ti_state_generation intent) bytes (Reference.sha256 bytes) s.

Lemma finish_transfer_store intent bytes ag stream :
  ag_store (finish_transfer intent bytes (Reference.sha256 bytes) ag stream).1.2 =
  stored intent bytes (ag_store ag).
Proof.
  unfold finish_transfer. set (ag1 := ag <| ag_store ::= _ |>).
  assert (ag_store ag1 = stored intent bytes (ag_store ag)) as H1 by done. clearbody ag1.
  set (report := stamped_frame _ _ ag1). clearbody report.
  pose proof (send_and_await_state report MT.TRANSFER_RESULT_ACK ag1 stream) as [_ Hs].
  destruct (send_and_await report MT.TRANSFER_RESULT_ACK ag1 stream) as [[[u|code] ag2] rest];
    cbn [fst snd] in *; [|by rewrite Hs].
  set (verdict := stamped_frame _ _ ag2). clearbody verdict.
  destruct (send_and_await_state verdict MT.VERIFY_RESULT_ACK ag2 rest) as [_ Hs'].
  by rewrite Hs', Hs.
Qed.

Lemma handle_transfer_intent_store text peer frame ag stream :
  let ag' := (handle_transfer_intent text peer frame ag stream).1.2 in
  ag_store ag' = ag_store ag ∨
  ∃ intent bytes,
    (decode_TransferIntentPayload (make_reader (fr_payload frame))).1 = Some intent ∧
    ag_store ag' = stored intent bytes (ag_store ag).
Proof.
  unfold handle_transfer_intent.
  destruct ((decode_TransferIntentPayload _).1) as [intent|]; [|by left].
  pose proof (pull_from_peer_sound intent peer ag) as Hp.
  destruct (pull_from_peer intent peer ag) as [[[bytes measured]|code] ag1];
    destruct Hp as (_ & Hs & Hm).
  - destruct (Hm _ _ eq_refl) as [-> _]. right. exists intent, bytes. split; [done|].
    by rewrite finish_transfer_store, Hs.
  - left. unfold fail_transfer. cbn [fst snd].
    set (report := stamped_frame _ _ ag1). clearbody report.
    destruct (send_control_state report ag1) as [_ Hs']. by rewrite <- Hs, <- Hs'.
Qed.

Lemma control_turn_measured text peer frame ag stream :
  measured_store (ag_store ag) →
  measured_store (ag_store (control_turn text peer frame ag stream).1.2).
Proof.
  intros Hs. unfold control_turn.
  assert (∀ f, measured_store (ag_store (send_control f ag).2)) as Hsend.
  { intros f. by destruct (send_control_state f ag) as [_ ->]. }
  destruct (fh_message_type _); try done; try exact (Hsend _).
  - specialize (Hsend (short_ack MT.HEARTBEAT_ACK ag)).
    by destruct (send_control _ ag) as [[u|code] ag1].
  - specialize (Hsend (short_ack MT.TRANSFER_INTENT_ACK ag)).
    destruct (send_control _ ag) as [[u|code] ag1]; [|done].
    pose proof (handle_transfer_intent_store text peer frame ag1 stream) as Hst.
    destruct (handle_transfer_intent text peer frame ag1 stream) as [[handled ag2] rest].
    cbn [fst snd] in *.
    assert (measured_store (ag_store ag2)) by
      (destruct Hst as [->|(intent & bytes & _ & ->)]; [done|by apply put_measured]).
    by destruct handled.
  - destruct ((decode_HostStatePayload _ _).1) as [host|]; [|done].
    cbn [fst snd]. by apply put_measured, sha256_reference.
Qed.

Lemma serve_loop_measured fuel text peers ag stream :
  measured_store (ag_store ag) → measured_store (ag_store (serve_loop fuel text peers ag stream).2).
Proof.
  revert ag stream. induction fuel as [|fuel IH]; intros ag stream Hs; cbn [serve_loop]; [done|].
  destruct (receive stream) as [[frame|code] rest]; [|by destruct (ag_stopping ag)].
  pose proof (control_turn_measured text (peers fuel) frame ag rest Hs) as Ht.
  destruct (control_turn text (peers fuel) frame ag rest) as [[[outcome|] ag1] rest'];
    [done|by apply IH].
Qed.

(** ** The control stream *)

Lemma receive_suffix stream : (receive stream).2 `suffix_of` stream.
Proof. destruct stream as [|frame stream]; [done|]. cbn. by apply suffix_cons_r. Qed.

Lemma await_loop_suffix attempts expected stream :
  (await_loop attempts expected stream).2 `suffix_of` stream.
Proof.
  revert stream. induction attempts as [|attempts IH]; intros stream; cbn [await_loop]; [done|].
  pose proof (receive_suffix stream) as Hr.
  destruct (receive stream) as [[frame|code] rest]; cbn [snd] in Hr; [|done].
  repeat case_bool_decide; [done|done|]. by etrans; [apply IH|].
Qed.

Lemma send_and_await_suffix frame expected ag stream :
  (send_and_await frame expected ag stream).2 `suffix_of` stream.
Proof.
  unfold send_and_await, await_acknowledgement. destruct (send_control frame ag) as [[u|code] ag1]; [|done].
  pose proof (await_loop_suffix kMaxFrames expected stream) as Ha.
  by destruct (await_loop kMaxFrames expected stream) as [[reply|code] rest].
Qed.

Lemma handle_transfer_intent_suffix text peer frame ag stream :
  (handle_transfer_intent text peer frame ag stream).2 `suffix_of` stream.
Proof.
  unfold handle_transfer_intent.
  destruct ((decode_TransferIntentPayload _).1) as [intent|]; [|done].
  destruct (pull_from_peer intent peer ag) as [[[bytes measured]|code] ag1]; [|done].
  unfold finish_transfer. set (report := stamped_frame _ _ _). clearbody report.
  set (ag2 := ag1 <| ag_store ::= _ |>). clearbody ag2.
  pose proof (send_and_await_suffix report MT.TRANSFER_RESULT_ACK ag2 stream) as Hr.
  destruct (send_and_await report _ ag2 stream) as [[[u|code] ag3] rest]; [|done].
  by etrans; [apply send_and_await_suffix|].
Qed.

Lemma handle_transfer_intent_identity text peer frame ag stream :
  identity (handle_transfer_intent text peer frame ag stream).1.2 = identity ag.
Proof.
  unfold handle_transfer_intent.
  destruct ((decode_TransferIntentPayload _).1) as [intent|]; [|done].
  pose proof (pull_from_peer_sound intent peer ag) as Hp.
  destruct (pull_from_peer intent peer ag) as [[[bytes measured]|code] ag1];
    destruct Hp as (Hi & _ & _).
  - rewrite <- Hi. unfold finish_transfer. set (ag2 := ag1 <| ag_store ::= _ |>).
    change (identity ag1) with (identity ag2). clearbody ag2.
    set (report := stamped_frame _ _ ag2). clearbody report.
    pose proof (send_and_await_state report MT.TRANSFER_RESULT_ACK ag2 stream) as [Hc _].
    destruct (send_and_await report _ ag2 stream) as [[[u|code] ag3] rest]; [|done].
    cbn [fst snd] in Hc. rewrite <- Hc. by apply send_and_await_state.
  - unfold fail_transfer. cbn [fst snd]. set (report := stamped_frame _ _ ag1). clearbody report.
    destruct (send_control_state report ag1) as [Hc _]. by rewrite <- Hi, <- Hc.
Qed.

(** A turn takes a part of the stream, and only a SHUTDOWN frame ends the loop well. *)
Lemma control_turn_ends text peer frame ag stream :
  let '(outcome, ag', rest) := control_turn text peer frame ag stream in
  rest `suffix_of` stream ∧ identity ag' = identity ag ∧
  (outcome = Some (Ok tt) → fh_message_type (fr_header frame) = MT.SHUTDOWN).
Proof.
  unfold control_turn.
  assert (∀ f, identity (send_control f ag).2 = identity ag) as Hsend.
  { intros f. by destruct (send_control_state f ag). }
  destruct (fh_message_type (fr_header frame)); try done.
  - specialize (Hsend (short_ack MT.HEARTBEAT_ACK ag)).
    by destruct (send_control _ ag) as [[u|code] ag1].
  - specialize (Hsend (short_ack MT.TRANSFER_INTENT_ACK ag)).
    destruct (send_control _ ag) as [[u|code] ag1]; [|done].
    pose proof (handle_transfer_intent_suffix text peer frame ag1 stream) as Hx.
    pose proof (handle_transfer_intent_identity text peer frame ag1 stream) as Hi.
    destruct (handle_transfer_intent text peer frame ag1 stream) as [[[v|code] ag2] rest];
      (split_and!; [exact Hx|exact (eq_trans Hi Hsend)|done]).
  - destruct ((decode_HostStatePayload _ _).1) as [host|]; done.
Qed.

(** With a turn for every frame, the loop ends well only for a SHUTDOWN frame or because the
    agent was told to stop: the fuel never decides. *)
Lemma serve_loop_ends fuel text peers ag stream :
  (length stream < fuel)%nat → (serve_loop fuel text peers ag stream).1 = Ok tt →
  ag_stopping ag = true ∨
  ∃ frame, Ok frame ∈ stream ∧ fh_message_type (fr_header frame) = MT.SHUTDOWN.
Proof.
  revert ag stream. induction fuel as [|fuel IH]; intros ag stream Hf; cbn [serve_loop]; [lia|].
  destruct stream as [|[frame|code] stream]; cbn [receive].
  - destruct (ag_stopping ag) eqn:E; [by left|done].
  - pose proof (control_turn_ends text (peers fuel) frame ag stream) as Ht.
    destruct (control_turn text (peers fuel) frame ag stream) as [[[outcome|] ag1] rest];
      destruct Ht as (Hx & Hi & He).
    + cbn [fst]. intros ->. right. exists frame. split; [left|auto].
    + intros Hok. apply suffix_length in Hx as Hl. cbn [length] in Hf.
      destruct (IH ag1 rest ltac:(lia) Hok) as [Hst|(stop & Hin & Hty)].
      * left. by rewrite <- (identity_stopping _ _ Hi).
      * right. exists stop. split; [|done]. right.
        destruct Hx as [front ->]. apply elem_of_app. by right.
  - destruct (ag_stopping ag) eqn:E; [by left|done].
Qed.
End pulling.

(** ** What the agent sends

    On the network that records every frame. *)

Section recording.
Notation Agent := (ClusterAgent (list (Z * Frame))).
Implicit Types ag : Agent.

(** Between two states the agent sent only frames of the kind [P]. *)
Definition sent_only (P : Frame → Prop) ag ag' : Prop :=
  ∃ sent, ag_network ag' = ag_network ag ++ sent ∧ Forall (λ entry : Z * Frame, P entry.2) sent.

Lemma sent_nothing P ag ag' : ag_network ag' = ag_network ag → sent_only P ag ag'.
Proof. intros Hn. exists []. by rewrite app_nil_r. Qed.

Lemma sent_trans P ag1 ag2 ag3 : sent_only P ag1 ag2 → sent_only P ag2 ag3 → sent_only P ag1 ag3.
Proof.
  intros (s1 & H1 & F1) (s2 & H2 & F2). exists (s1 ++ s2).
  by rewrite H2, H1, app_assoc, Forall_app.
Qed.

Lemma sent_impl (P Q : Frame → Prop) ag ag' :
  (∀ frame, P frame → Q frame) → sent_only P ag ag' → sent_only Q ag ag'.
Proof. intros HPQ (sent & Hn & HF). exists sent. split; [done|]. eapply list.Forall_impl; [exact HF|auto]. Qed.

Lemma send_control_sends (P : Frame → Prop) frame ag :
  P frame → sent_only P ag (send_control frame ag).2.
Proof. intros HP. exists [(kControl, frame)]. by split; [|repeat constructor]. Qed.

Definition of_type (type : MessageType) (frame : Frame) : Prop :=
  fh_message_type (fr_header frame) = type.

Lemma report_progress_sends intent pull ag :
  sent_only (of_type MT.TRANSFER_PROGRESS) ag (report_progress intent pull ag).2.
Proof.
  unfold report_progress. destruct (pu_reported pull); [by apply sent_nothing|].
  by apply send_control_sends.
Qed.

Lemma pull_loop_sends intent peer pull ag :
  sent_only (of_type MT.TRANSFER_PROGRESS) ag (pull_loop intent peer pull ag).2.
Proof.
  revert pull ag. induction peer as [|[frame|code] peer IH]; intros pull ag; cbn [pull_loop];
    [by apply sent_nothing| |by apply sent_nothing].
  destruct (take_chunk _ _ frame) as [chunk|code]; [|by apply sent_nothing].
  set (grown := mkPull (pu_bytes pull ++ dc_bytes chunk) _ _). clearbody grown.
  pose proof (report_progress_sends intent grown ag) as Hp.
  destruct (report_progress intent grown ag) as [[u|code] ag1]; [|done].
  destruct (dc_last chunk =? 1); [done|]. destruct (_ >? _); [done|].
  by eapply sent_trans; [exact Hp|apply IH].
Qed.

Lemma pull_from_peer_sends intent peer ag :
  sent_only (of_type MT.TRANSFER_PROGRESS) ag (pull_from_peer intent peer ag).2.
Proof.
  unfold pull_from_peer. destruct peer as [chunks|code]; [|by apply sent_nothing].
  pose proof (pull_loop_sends intent chunks Pull_start ag) as Hp.
  destruct (pull_loop intent chunks Pull_start ag) as [[pull|code] ag1]; [|done].
  by destruct (_ && _).
Qed.

Lemma send_and_await_sends (P : Frame → Prop) frame expected ag stream :
  P frame → sent_only P ag (send_and_await frame expected ag stream).1.2.
Proof.
  intros HP. pose proof (send_control_sends P frame ag HP) as Hs. unfold send_and_await.
  destruct (send_control frame ag) as [[u|code] ag1]; [|done].
  by destruct (await_acknowledgement expected stream) as [[reply|code] rest].
Qed.

(** A verification report that vouches for bytes: it carries their digest and length,
    and says they are intact exactly when they are what was authorized. *)
Record vouches (intent : TransferIntentPayload) (bytes : list Z) (frame : Frame) : Prop := {
  vo_report : ∃ report, fr_payload frame = encode_VerifyReportPayload report ∧
    (∃ ag, report = verification_report intent ag (Z.of_nat (length bytes)) (Reference.sha256 bytes)) ∧
    vr_replica_id report = ti_destination_replica intent ∧
    vr_measured_digest report = Reference.sha256 bytes ∧
    vr_verified_bytes report = Z.of_nat (length bytes) ∧
    (vr_integrity_verified report = 1 ↔
     digest_valid (ti_expected_digest intent) = false ∨
     ti_expected_digest intent = Reference.sha256 bytes);
  vo_length : ti_payload_bytes intent ≠ 0 → Z.of_nat (length bytes) = ti_payload_bytes intent
}.

Lemma verification_vouches intent bytes ag ag' :
  (ti_payload_bytes intent ≠ 0 → Z.of_nat (length bytes) = ti_payload_bytes intent) →
  vouches intent bytes
    (stamped_frame MT.VERIFY_RESULT
       (encode_VerifyReportPayload
          (verification_report intent ag (Z.of_nat (length bytes)) (Reference.sha256 bytes))) ag').
Proof.
  intros Hl. split; [|exact Hl]. eexists. split; [reflexivity|]. split; [by exists ag|]. split_and!; [done..|].
  unfold verification_report. cbn [vr_integrity_verified].
  destruct (digest_valid (ti_expected_digest intent)); cbn [negb orb]; [|by split; [left|]].
  case_bool_decide as E; cbn [orb]; split; [by right|done|done|].
  intros [?|Heq]; [done|by rewrite Heq in E].
Qed.

(** A frame that is a verification report vouches for the bytes. *)
Definition only_vouches (intent : TransferIntentPayload) (bytes : list Z) (frame : Frame) : Prop :=
  of_type MT.VERIFY_RESULT frame → vouches intent bytes frame.

Lemma finish_transfer_sends intent bytes ag stream :
  (ti_payload_bytes intent ≠ 0 → Z.of_nat (length bytes) = ti_payload_bytes intent) →
  sent_only (only_vouches intent bytes) ag
    (finish_transfer intent bytes (Reference.sha256 bytes) ag stream).1.2.
Proof.
  intros Hl. unfold finish_transfer. set (ag1 := ag <| ag_store ::= _ |>).
  assert (sent_only (only_vouches intent bytes) ag ag1) as H0 by by apply sent_nothing.
  clearbody ag1. set (report := stamped_frame MT.TRANSFER_RESULT _ ag1).
  assert (only_vouches intent bytes report) as Hr by done. clearbody report.
  pose proof (send_and_await_sends _ _ MT.TRANSFER_RESULT_ACK ag1 stream Hr) as H1.
  destruct (send_and_await report _ ag1 stream) as [[[u|code] ag2] rest];
    pose proof (sent_trans _ _ _ _ H0 H1) as H2; [|exact H2].
  eapply sent_trans; [exact H2|]. apply send_and_await_sends. intros _.
  by apply verification_vouches.
Qed.

(** Either no verification is reported, or the bytes of the intent are stored and vouched for. *)
Definition vouched_turn (frame : Frame) ag ag' : Prop :=
  sent_only (λ f, ¬ of_type MT.VERIFY_RESULT f) ag ag' ∨
  ∃ intent bytes,
    (decode_TransferIntentPayload (make_reader (fr_payload frame))).1 = Some intent ∧
    ag_store ag' = stored intent bytes (ag_store ag) ∧
    sent_only (only_vouches intent bytes) ag ag'.

Lemma other_type type (P : Prop) f :
  of_type type f → type ≠ MT.VERIFY_RESULT → of_type MT.VERIFY_RESULT f → P.
Proof. unfold of_type. by intros ->. Qed.

Lemma handle_transfer_intent_vouches text peer frame ag stream :
  vouched_turn frame ag (handle_transfer_intent text peer frame ag stream).1.2.
Proof.
  unfold handle_transfer_intent, vouched_turn.
  destruct ((decode_TransferIntentPayload _).1) as [intent|]; [|by left; apply sent_nothing].
  pose proof (pull_from_peer_sound intent peer ag) as Hp.
  pose proof (pull_from_peer_sends intent peer ag) as Hsent.
  destruct (pull_from_peer intent peer ag) as [[[bytes measured]|code] ag1];
    destruct Hp as (_ & Hs & Hm); cbn [snd] in Hsent.
  - destruct (Hm _ _ eq_refl) as [-> Hl]. right. exists intent, bytes.
    split_and!; [done|by rewrite finish_transfer_store, Hs|].
    eapply sent_trans; [eapply sent_impl, Hsent|by apply finish_transfer_sends].
    intros f Hf Hv. exact (other_type _ _ f Hf ltac:(discriminate) Hv).
  - left. unfold fail_transfer. set (report := stamped_frame _ _ ag1).
    assert (¬ of_type MT.VERIFY_RESULT report) as Hr by done. clearbody report.
    eapply sent_trans; [eapply sent_impl, Hsent|].
    + intros f Hf Hv. exact (other_type _ _ f Hf ltac:(discriminate) Hv).
    + destruct (send_control_sends (λ f, ¬ of_type MT.VERIFY_RESULT f) report ag1 Hr) as (sent & Hn & HF).
      by exists sent.
Qed.

Lemma vouched_after frame f ag ag' :
  ¬ of_type MT.VERIFY_RESULT f → vouched_turn frame (send_control f ag).2 ag' →
  vouched_turn frame ag ag'.
Proof.
  intros Hf [Hv|(intent & bytes & Hd & Hst & Hv)].
  - left. by eapply sent_trans; [apply send_control_sends, Hf|].
  - right. exists intent, bytes. destruct (send_control_state f ag) as [_ <-].
    split_and!; [done|done|]. eapply sent_trans; [apply (send_control_sends _ f)|exact Hv].
    by intros Ht.
Qed.

Lemma control_turn_vouches text peer frame ag stream :
  vouched_turn frame ag (control_turn text peer frame ag stream).1.2.
Proof.
  unfold control_turn.
  assert (∀ f, ¬ of_type MT.VERIFY_RESULT f → vouched_turn frame ag (send_control f ag).2) as Hsend.
  { intros f Hf. left. by apply send_control_sends. }
  destruct (fh_message_type (fr_header frame)); try (by left; apply sent_nothing).
  - specialize (Hsend (short_ack MT.HEARTBEAT_ACK ag) ltac:(done)).
    by destruct (send_control _ ag) as [[u|code] ag1].
  - set (ack := short_ack MT.TRANSFER_INTENT_ACK ag).
    assert (¬ of_type MT.VERIFY_RESULT ack) as Hf by done. clearbody ack.
    pose proof (λ ag', vouched_after frame ack ag ag' Hf) as Hafter. specialize (Hsend ack Hf).
    destruct (send_control ack ag) as [[u|code] ag1]; [|done]. cbn [snd] in Hafter.
    pose proof (handle_transfer_intent_vouches text peer frame ag1 stream) as Hv.
    by destruct (handle_transfer_intent text peer frame ag1 stream) as [[[v|code] ag2] rest];
      apply Hafter.
  - exact (Hsend (short_ack MT.SHUTDOWN_ACK ag) ltac:(done)).
  - destruct ((decode_HostStatePayload _ _).1) as [host|]; by left; apply sent_nothing.
Qed.
End recording.

(** ** Properties *)

Lemma send_and_await_acknowledged {T} `{Network T} (frame ack : Frame) expected (ag : ClusterAgent T) rest :
  sends_always (T := T) → fh_message_type (fr_header ack) = expected →
  let '(outcome, _, unread) := send_and_await frame expected ag (Ok ack :: rest) in
  outcome = Ok tt ∧ unread = rest.
Proof.
  intros Hs Ht. unfold send_and_await, send_control. specialize (Hs (ag_network ag) frame).
  destruct (net_send (ag_network ag) kControl frame) as [sent network]. cbn [fst] in Hs. subst sent.
  unfold await_acknowledgement. change kMaxFrames with (S 7). cbn [await_loop receive].
  by rewrite bool_decide_true.
Qed.

Lemma finish_transfer_acknowledged {T} `{Network T} intent bytes measured (result_ack verify_ack : Frame)
    (ag : ClusterAgent T) rest :
  sends_always (T := T) → fh_message_type (fr_header result_ack) = MT.TRANSFER_RESULT_ACK →
  fh_message_type (fr_header verify_ack) = MT.VERIFY_RESULT_ACK →
  let '(outcome, _, unread) :=
    finish_transfer intent bytes measured ag (Ok result_ack :: Ok verify_ack :: rest) in
  outcome = Ok tt ∧ unread = rest.
Proof.
  intros Hs Hr Hv. unfold finish_transfer. set (ag1 := ag <| ag_store ::= _ |>). clearbody ag1.
  set (report := stamped_frame MT.TRANSFER_RESULT _ ag1). clearbody report.
  pose proof (send_and_await_acknowledged report _ _ ag1 (Ok verify_ack :: rest) Hs Hr) as H1.
  destruct (send_and_await report _ ag1 _) as [[outcome ag2] unread]. destruct H1 as [-> ->].
  by apply send_and_await_acknowledged.
Qed.


Definition demo_intent : TransferIntentPayload :=
  mkTransferIntentPayload 1 1 2 1 0 0 3 1 7 1 12 1 2 1 1 1 11 3 (Reference.sha256 [1; 2; 3]) 0 1 100
    "127.0.0.1" 9000 9001.

Definition demo_entry : Entry := mkEntry 7 1 [1; 2; 3] (Sha256.sha256 [1; 2; 3]).
Definition demo_store : ReplicaStore.store := {[ 11 := demo_entry ]}.

Definition demo_agent : ClusterAgent (list (Z * Frame)) :=
  mkClusterAgent
    (mkClusterAgentConfig "127.0.0.1" 9100 "127.0.0.1" 2 1 1 1 "" ClusterCapabilities_default
       ClusterCapacity_default kMaxFramePayloadBytes 16 0)
    [] 9001 1 2 77 1 true false ∅ None.

Definition demo_intent_frame : Frame :=
  outgoing_frame MT.TRANSFER_INTENT 1 (encode_TransferIntentPayload demo_intent).

Definition demo_acks : incoming :=
  [Ok (outgoing_frame MT.TRANSFER_RESULT_ACK 1 []); Ok (outgoing_frame MT.VERIFY_RESULT_ACK 1 [])].

Lemma demo_transferable : transferable demo_store demo_intent demo_entry kMaxFramePayloadBytes.
Proof. split; try (by vm_compute). by right. Qed.



(** C25: an agent's store is always measured: serving its control connection and every turn of a
    data connection keep each stored digest the SHA-256 digest of the bytes next to it, so
    what the agent serves to peers is labelled by what it hosts and never by what it
    was told. *)
Theorem store_is_measured {T} `{Network T} (ag : ClusterAgent T) (text : string)
    (peers : nat → Result incoming) (stream : incoming) (max_payload : Z) (frame : Frame)
    (Hs : measured_store (ag_store ag)) :
  measured_store (ag_store (serve text peers ag stream).2) ∧
  measured_store (data_turn max_payload frame (ag_store ag)).1.2.
Proof.
  split; [|by apply data_turn_measured].
  unfold serve. pose proof (serve_loop_measured (S (length stream)) text peers ag stream Hs) as Hl.
  by destruct (serve_loop _ text peers ag stream).
Qed.

(** At work: on the empty store of an agent that has just started. *)
Lemma store_is_measured_witness :
  measured_store (ag_store demo_agent) ∧
  measured_store (ag_store (serve "" (λ _, Err EC.TRANSPORT_CLOSED) demo_agent [Ok demo_intent_frame]).2) ∧
  measured_store (data_turn kMaxFramePayloadBytes demo_intent_frame (ag_store demo_agent)).1.2.
Proof.
  assert (measured_store (ag_store demo_agent)) as Hs by apply map_Forall_empty.
  split; [exact Hs|].
  exact (store_is_measured demo_agent "" _ [Ok demo_intent_frame] _ demo_intent_frame Hs).
Defined.

(** A transfer intent that arrives while the agent waits for an acknowledgement is lost:
    it is taken from the connection and never handled. *)
Theorem early_intents_are_lost (intent ack : Frame) (expected : MessageType) (rest : incoming) :
  fh_message_type (fr_header intent) = MT.TRANSFER_INTENT →
  fh_message_type (fr_header ack) = expected → expected ≠ MT.TRANSFER_INTENT →
  await_acknowledgement expected (Ok intent :: Ok ack :: rest) = (Ok ack, rest).
Proof.
  intros Hi Ha Hne. unfold await_acknowledgement. change kMaxFrames with (S (S 6)).
  cbn [await_loop receive]. rewrite Hi, (bool_decide_false (MT.TRANSFER_INTENT = expected)) by done.
  rewrite bool_decide_false by done. by rewrite bool_decide_true.
Qed.

(** The control connection stores pushed bytes whatever digest was declared for them; the
    data connection refuses the same bytes. *)
Theorem control_push_is_not_checked {T} `{Network T} (text : string) (peer : Result incoming)
    (frame : Frame) (host : HostStatePayload) (ag : ClusterAgent T) (stream : incoming) :
  fh_message_type (fr_header frame) = MT.HOST_STATE →
  (decode_HostStatePayload (acf_maximum_payload_bytes (ag_config ag))
     (make_reader (fr_payload frame))).1 = Some host →
  digest_valid (hs_expected_digest host) = true →
  hs_expected_digest host ≠ Reference.sha256 (hs_bytes host) →
  ReplicaStore.contains (hs_replica_id host) (ag_store (control_turn text peer frame ag stream).1.2) = true ∧
  (data_turn (acf_maximum_payload_bytes (ag_config ag)) frame (ag_store ag)).1.2 = ag_store ag.
Proof.
  intros Ht Hd Hv Hne. unfold control_turn, data_turn. rewrite Ht, Hd. split.
  - unfold ReplicaStore.contains. apply bool_decide_true. cbn [fst snd].
    exists (mkEntry (hs_state_id host) (hs_state_generation host) (hs_bytes host)
      (Sha256.sha256 (hs_bytes host))). apply lookup_insert_eq.
  - unfold host_state. rewrite sha256_reference, bool_decide_false by congruence. by rewrite Hv.
Qed.
