(* ===== verification/EndToEnd.v ===== *)
(** * From the bytes of an agent to the records of the fabric

    The agent of [ClusterAgent] and the coordinator of [Coordinator] put together: what
    the control plane records about a replica after a verification report is about bytes
    that the agent hosts. *)

From S2P Require Import Prelude Taxonomy Model Bytes Digest ModelOps ControlPlane FabricCore.
From S2P Require Import FabricState Encoding RecordCodecs Frames Payloads FabricReplica Lifecycle.
From S2P Require Import Fabric Scenario Invariants Verification Coordinator Coordination.
From S2P Require Import ClusterAgent DataPlane.

Local Open Scope Z_scope.

(** ** Digests fit the wire *)

Lemma digest_wf_encodable d : digest_wf d → encodable_Digest d = true.
Proof.
  intros [Hl Hb]. unfold encodable_Digest. rewrite Hl. apply andb_true_iff. split; [done|].
  apply forallb_forall. intros b Hin. rewrite Forall_forall in Hb.
  specialize (Hb b Hin). unfold is_byte in Hb. unfold fits_byte. lia.
Qed.

(** ** What the wire carries of a report

    Identities and counts are 64-bit fields, so a report arrives reduced to them. *)

Definition wrapped (report : VerifyReportPayload) : VerifyReportPayload :=
  mkVerifyReportPayload (u64 (vr_verification_id report)) (u64 (vr_replica_id report))
    (u64 (vr_replica_generation report)) (u64 (vr_operation_id report))
    (u64 (vr_operation_generation report)) (u64 (vr_cluster_incarnation report))
    (u64 (vr_worker_boot_id report)) (vr_integrity_verified report) (vr_measured_digest report)
    (vr_compatibility_verified report) (u64 (vr_verified_bytes report)) (vr_durability report)
    (vr_detail report).

Lemma byte_at_wrap z shift :
  0 ≤ shift ≤ 56 → ByteWriter.byte_at (u64 z) shift = ByteWriter.byte_at z shift.
Proof.
  intros Hs. unfold ByteWriter.byte_at, u64. apply Z.bits_inj'. intros n Hn.
  rewrite !Z.land_spec. destruct (decide (n < 8)).
  - f_equal. rewrite !Z.shiftr_spec by done. apply Z.mod_pow2_bits_low. lia.
  - assert (Z.testbit 255 n = false) as ->; [|by rewrite !andb_false_r].
    change 255 with (Z.ones 8). apply Z.ones_spec_high. lia.
Qed.

Lemma u64_wrap z : ByteWriter.u64 (u64 z) = ByteWriter.u64 z.
Proof. unfold ByteWriter.u64. by rewrite !byte_at_wrap by lia. Qed.

Lemma encode_wrapped report :
  encode_VerifyReportPayload (wrapped report) = encode_VerifyReportPayload report.
Proof.
  unfold encode_VerifyReportPayload, wrapped, encode_id.
  cbn [vr_verification_id vr_replica_id vr_replica_generation vr_operation_id
       vr_operation_generation vr_cluster_incarnation vr_worker_boot_id vr_integrity_verified
       vr_measured_digest vr_compatibility_verified vr_verified_bytes vr_durability vr_detail].
  by rewrite !u64_wrap.
Qed.

Lemma fits_wrap z : fits_u64 (u64 z) = true.
Proof. pose proof (u64_range z). unfold fits_u64. lia. Qed.

(** A verification report of an agent arrives as it was sent. *)
Lemma report_arrives {T} (intent : TransferIntentPayload) (ag : ClusterAgent T) received bytes :
  let report := verification_report intent ag received (Reference.sha256 bytes) in
  (decode_VerifyReportPayload (make_reader (encode_VerifyReportPayload report))).1 =
  Some (wrapped report).
Proof.
  cbv zeta. rewrite <-encode_wrapped.
  assert (∀ ok : bool, fits_u32 (if ok then 1 else 0) = true) as Hflag by by intros [].
  assert (∀ ok : bool, fits_str kMaxDetailLength
    (if ok then "digest matches the authorized digest"
     else "digest does not match the authorized digest") = true) as Htext by by intros [].
  apply (payload_decodes _ _ _ VerifyReportPayload_canonical).
  - unfold encodable_VerifyReportPayload, wrapped, verification_report.
    cbn [vr_verification_id vr_replica_id vr_replica_generation vr_operation_id
         vr_operation_generation vr_cluster_incarnation vr_worker_boot_id vr_integrity_verified
         vr_measured_digest vr_compatibility_verified vr_verified_bytes vr_durability vr_detail].
    rewrite !fits_wrap, Hflag, Htext, (digest_wf_encodable _ (sha256_digest_wf bytes)). done.
  - unfold encode_VerifyReportPayload, wrapped, verification_report.
    cbn [vr_verification_id vr_replica_id vr_replica_generation vr_operation_id
         vr_operation_generation vr_cluster_incarnation vr_worker_boot_id vr_integrity_verified
         vr_measured_digest vr_compatibility_verified vr_verified_bytes vr_durability vr_detail].
    destruct (sha256_digest_wf bytes) as [Hl _]. rewrite !length_app.
    unfold encode_Digest, ByteWriter.raw. rewrite Hl.
    assert (∀ ok : bool, (length (ByteWriter.str
      (if ok then "digest matches the authorized digest"
       else "digest does not match the authorized digest")) ≤ 100)%nat) as Hstr
      by (intros []; vm_compute; lia).
    specialize (Hstr (negb (digest_valid (ti_expected_digest intent)) ||
      bool_decide (Reference.sha256 bytes = ti_expected_digest intent))).
    cbn [length encode_id ByteWriter.u64 ByteWriter.u32]. unfold u64_max, kSha256Length. lia.
Qed.

(** ** The step of the coordinator *)

Section reported.
Context {S : Type} `{PersistenceStore S} {T : Type} `{Network T}.

(** A verification frame that decodes is served as the request it stands for. *)
Lemma step_verify (text : string) sid frame report (co : Coordinator S T) :
  crd_phases co !! sid = Some ServingAgent →
  fh_message_type (fr_header frame) = MT.VERIFY_RESULT →
  (decode_VerifyReportPayload (make_reader (fr_payload frame))).1 = Some report →
  let cluster_id := default 0 (ssn_cluster_id <$> crd_sessions co !! sid) in
  crd_fabric (step (Received sid frame text) co) =
  (exec (VerifyReplica (verification_of cluster_id (epoch co) report)) (crd_fabric co)).2.
Proof.
  intros Hp Ht Hd. cbv zeta. cbn [step]. rewrite Hp.
  assert (crd_fabric (handle_agent_frame text sid frame co).2 =
    (exec (VerifyReplica (verification_of (default 0 (ssn_cluster_id <$> crd_sessions co !! sid))
       (epoch co) report)) (crd_fabric co)).2) as E.
  { unfold handle_agent_frame. rewrite Ht, Hd. rewrite acknowledge_fabric, call_fabric_state.
    unfold exec. change (body (VerifyReplica ?v)) with (λ plane config, void (verify_replica v plane config)).
    by rewrite mutate_void. }
  destruct (handle_agent_frame text sid frame co) as [[u|code] co']; [exact E|].
  by rewrite leave_agent_fabric.
Qed.
End reported.

(** ** Properties *)

Lemma intent_destination_fits frame intent :
  Forall is_byte (fr_payload frame) →
  (decode_TransferIntentPayload (make_reader (fr_payload frame))).1 = Some intent →
  u64 (ti_destination_replica intent) = ti_destination_replica intent.
Proof.
  intros Hb Hd. apply (payload_is_canonical _ _ _ TransferIntentPayload_canonical) in Hd as [_ Hok]; [|done].
  unfold encodable_TransferIntentPayload in Hok. apply u64_id.
  assert (fits_u64 (ti_destination_replica intent) = true) as Hf.
  { split_fits Hok. assumption. }
  unfold fits_u64 in Hf. lia.
Qed.


(** A migration of a state whose content is three bytes: what the destination's agent pulls
    is verified. *)
Definition three_bytes : Digest := Sha256.sha256 [1; 2; 3].

Definition hosted_history : list request :=
  [demo_cluster 10 1; demo_cluster 20 2;
   RegisterState
     (StateGenerationSpec_default <| ss_state_id := 5 |> <| ss_generation := 1 |>
        <| ss_consistency := CM.SINGLE_WRITER |> <| ss_content_digest := three_bytes |>);
   CommitStateGeneration 5 1 900; demo_replica 10;
   RecordTransferCompletion
     (TransferCompletion_default <| tc_replica_id := 100 |> <| tc_measured_digest := three_bytes |>
        <| tc_bytes_transferred := 3 |>);
   VerifyReplica
     (ReplicaVerification_default <| rvf_replica_id := 100 |> <| rvf_integrity_verified := true |>
        <| rvf_measured_digest := three_bytes |>);
   demo_commit 100 901; demo_migration;
   RecordTransferCompletion
     (TransferCompletion_default <| tc_replica_id := 906 |> <| tc_operation_id := 902 |>
        <| tc_measured_digest := three_bytes |> <| tc_bytes_transferred := 3 |>)].

Definition hosted_coordinator : Coordinator Empty_set (list (Z * Frame)) :=
  demo_served <| crd_fabric := after hosted_history |>.

Definition hosted_intent : TransferIntentPayload :=
  mkTransferIntentPayload 0 0 902 0 0 0 0 0 5 1 906 0 20 0 10 0 11 3 three_bytes 0 1 100
    "127.0.0.1" 9000 9001.

Definition hosted_intent_frame : Frame :=
  outgoing_frame MT.TRANSFER_INTENT 1 (encode_TransferIntentPayload hosted_intent).

Definition hosted_agent : ClusterAgent (list (Z * Frame)) :=
  demo_agent <| ag_incarnation := 0 |> <| ag_worker_boot_id := 0 |>.

Definition hosted_source : Result incoming :=
  Ok (map Ok (data_turn kMaxFramePayloadBytes (pull_request hosted_intent demo_agent) demo_store).1.1).

Abbreviation hosted_turn :=
  ((control_turn "" hosted_source hosted_intent_frame hosted_agent demo_acks).1.2).

Abbreviation replica_906 co :=
  (find_replica (im_plane (crd_fabric co)) (ti_destination_replica hosted_intent)).

Definition hosted_verification : Frame :=
  match list.last (ag_network hosted_turn) with
  | Some (_, f) => f
  | None => hosted_intent_frame
  end.

Abbreviation verified_coordinator :=
  (step (Received 3 hosted_verification "") hosted_coordinator).

Lemma hosted_intent_bytes : Forall is_byte (fr_payload hosted_intent_frame).
Proof.
  assert (forallb fits_byte (fr_payload hosted_intent_frame) = true) as Hf by (vm_compute; reflexivity).
  revert Hf. generalize (fr_payload hosted_intent_frame). intros l Hf. apply Forall_forall.
  intros b Hin. rewrite forallb_forall in Hf. specialize (Hf b Hin). unfold fits_byte in Hf.
  unfold is_byte. lia.
Qed.

Lemma hosted_sent (sent : list (Z * Frame)) : sent = ag_network hosted_agent ++ sent.
Proof. reflexivity. Qed.

Lemma hosted_verification_sent : (kControl, hosted_verification) ∈ ag_network hosted_turn.
Proof.
  assert (ag_network hosted_turn !! 3%nat = Some (kControl, hosted_verification)) as Hl
    by (vm_compute; reflexivity).
  exact (list_elem_of_lookup_2 _ _ _ Hl).
Qed.

Lemma hosted_verification_type : fh_message_type (fr_header hosted_verification) = MT.VERIFY_RESULT.
Proof. vm_compute. reflexivity. Qed.

Lemma hosted_intent_decodes :
  (decode_TransferIntentPayload (make_reader (fr_payload hosted_intent_frame))).1 = Some hosted_intent.
Proof. vm_compute. reflexivity. Qed.

Lemma hosted_fabric_reachable : reachable (crd_fabric hosted_coordinator).
Proof. change (crd_fabric hosted_coordinator) with (after hosted_history). apply demo_reachable. Qed.

Lemma hosted_phase : crd_phases hosted_coordinator !! 3 = Some ServingAgent.
Proof. vm_compute. reflexivity. Qed.

Lemma hosted_replicas :
  ∃ r r', replica_906 hosted_coordinator = Some r ∧ replica_906 verified_coordinator = Some r' ∧ r' ≠ r ∧
    rp_integrity r' = RI.VERIFIED.
Proof.
  assert (rp_lifecycle <$> replica_906 hosted_coordinator = Some RL.TRANSFERRED) as H1
    by (vm_compute; reflexivity).
  assert ((λ r, (rp_lifecycle r, rp_integrity r)) <$> replica_906 verified_coordinator =
    Some (RL.PREPARED, RI.VERIFIED)) as H2 by (vm_compute; reflexivity).
  revert H1 H2. generalize (replica_906 hosted_coordinator) (replica_906 verified_coordinator).
  intros [r|] [r'|] H1 H2; try discriminate. injection H1 as H1. injection H2 as H2 H3.
  exists r, r'. split_and!; [done|done| |done]. intros ->. congruence.
Qed.

