(* ===== verification/Loops.v ===== *)
(** * The loops return

    The loops of the source that are not bounded by a counter are translated with fuel.
    Here the fuel each is given is shown to be enough on every input: more of it changes
    nothing, so the translation returns what the loop returns. *)

From S2P Require Import Prelude Taxonomy Model Bytes Digest ModelOps ControlPlane Encoding.
From S2P Require Import RecordCodecs Frames Payloads Persistence Coordinator Coordination ClusterAgent DataPlane.

Local Open Scope Z_scope.

(** ** The hasher *)

Lemma update_loop_fuel fuel fuel' h data :
  (Sha256.h_buffered h < 64)%nat → (length data ≤ fuel)%nat → (length data ≤ fuel')%nat →
  Sha256.update_loop fuel h data = Sha256.update_loop fuel' h data.
Proof.
  revert fuel' h data. induction fuel as [|fuel IH]; intros fuel' h data Hb Hf Hf'.
  - destruct data; cbn in Hf; [|lia]. by destruct fuel'.
  - destruct data as [|b data]; [by destruct fuel'|].
    destruct fuel' as [|fuel']; [cbn in Hf'; lia|]. cbn [Sha256.update_loop].
    set (space := (64 - Sha256.h_buffered h)%nat).
    set (taken := if (length (b :: data) <? space)%nat then length (b :: data) else space).
    assert (1 ≤ taken ∧ taken + Sha256.h_buffered h ≤ 64)%nat as [Ht Hs].
    { unfold taken, space. destruct (Nat.ltb_spec (length (b :: data)) (64 - Sha256.h_buffered h)); cbn [length] in *; lia. }
    apply IH.
    + destruct (Nat.eqb_spec (Sha256.h_buffered h + taken) 64); cbn; lia.
    + rewrite length_drop. lia.
    + rewrite length_drop. lia.
Qed.

(** ** The chunks of a hosted replica *)

Lemma serve_chunks_fuel fuel fuel' s request entry digest offset :
  s !! dr_replica_id request = Some entry →
  let total := Z.of_nat (length (en_bytes entry)) in
  total ≤ u64_max → 0 ≤ offset →
  total - offset ≤ Z.of_nat fuel → total - offset ≤ Z.of_nat fuel' →
  serve_chunks fuel s request digest total offset = serve_chunks fuel' s request digest total offset.
Proof.
  intros Hh total Hu. revert fuel' offset. induction fuel as [|fuel IH]; intros fuel' offset Ho Hf Hf'.
  - destruct fuel' as [|fuel']; [done|]. cbn [serve_chunks].
    by rewrite (proj2 (Z.ltb_ge offset total)) by lia.
  - destruct (decide (offset < total)) as [Hlt|Hge]; [|].
    + destruct fuel' as [|fuel']; [lia|].
      destruct (length_slice entry offset ltac:(unfold total in *; lia)) as [Hp _].
      unfold total. rewrite !(serve_chunks_step s request entry Hh) by (unfold u64_max in Hu; fold total; lia).
      fold total. f_equal. apply IH; fold total in Hp; lia.
    + destruct fuel' as [|fuel']; cbn [serve_chunks]; by rewrite (proj2 (Z.ltb_ge offset total)) by lia.
Qed.

(** ** The control loop of an agent *)

Lemma serve_loop_fuel {T} `{Network T} fuel fuel' text peer (ag : ClusterAgent T) stream :
  (length stream < fuel)%nat → (length stream < fuel')%nat →
  serve_loop fuel text (λ _, peer) ag stream = serve_loop fuel' text (λ _, peer) ag stream.
Proof.
  revert fuel' ag stream. induction fuel as [|fuel IH]; intros fuel' ag stream Hf Hf'; [lia|].
  destruct fuel' as [|fuel']; [lia|]. cbn [serve_loop].
  destruct stream as [|[frame|code] stream]; cbn [receive]; [done| |done].
  pose proof (control_turn_ends text peer frame ag stream) as Ht.
  destruct (control_turn text peer frame ag stream) as [[[outcome|] ag'] rest]; [done|].
  destruct Ht as [Hx _]. apply suffix_length in Hx. cbn [length] in Hf, Hf'. apply IH; lia.
Qed.

(** ** Properties *)


