(* ===== verification/Applications.v ===== *)
(** * The deployed processes ([apps/arguments.hpp], [ccsf_cluster_agent_main.cpp],
      [ccsf_coordinator_main.cpp])

    How a command line becomes a configuration, the trace file, and what the two entry
    points print and return. *)

From Stdlib Require Import Ascii.
From S2P Require Import Prelude Taxonomy Model Bytes ModelOps ControlPlane FabricCore FabricState.
From S2P Require Import Encoding RecordCodecs Naming Frames Payloads FabricReplica Lifecycle Fabric.
From S2P Require Import Coordinator ClusterAgent.

Local Open Scope Z_scope.

(** [static_cast<std::uint16_t>]. *)
Definition u16 (z : Z) : Z := z mod 2 ^ 16.

(** ** Numbers in text *)

(** [std::isspace] in the "C" locale. *)
Definition is_space (c : ascii) : bool :=
  let code := Z.of_N (N_of_ascii c) in (code =? 32) || ((9 <=? code) && (code <=? 13)).

Fixpoint skip_space (text : string) : string :=
  match text with
  | String c rest => if is_space c then skip_space rest else text
  | EmptyString => EmptyString
  end.

(** [std::strtoull] in base 10, without its end pointer: a sign is accepted, a value
    out of range saturates, and text that is no number is zero.  On an LP64 system
    [std::strtoul] is the same function. *)
Definition strtoull (text : string) : Z :=
  let '(negative, digits) :=
    match skip_space text with
    | String c rest =>
        if bool_decide (c = "-"%char) then (true, rest)
        else if bool_decide (c = "+"%char) then (false, rest)
        else (false, String c rest)
    | EmptyString => (false, EmptyString)
    end in
  let value := (take_digits digits 0).1 in
  if value >? u64_max then u64_max else if negative : bool then u64 (- value) else value.

(** ** The argument list *)

Module Args.

Definition has (name : string) (items : list string) : bool :=
  existsb (λ item, bool_decide (item = name)) items.

Fixpoint value (name fallback : string) (items : list string) : string :=
  match items with
  | item :: ((next :: _) as rest) =>
      if bool_decide (item = name) then next else value name fallback rest
  | _ => fallback
  end.

Definition number (name : string) (fallback : Z) (items : list string) : Z :=
  match value name EmptyString items with
  | EmptyString => fallback
  | text => strtoull text
  end.

Fixpoint repeated (name : string) (items : list string) : list string :=
  match items with
  | item :: ((next :: _) as rest) =>
      if bool_decide (item = name) then next :: repeated name rest else repeated name rest
  | _ => []
  end.

(** [parse]: the program's own name is dropped. *)
Definition parse (argv : list string) : list string := tail argv.

End Args.

(** ** The trace file *)

(** The lines appended to the file; [None] when there is no file. *)
Definition TraceFile : Type := option (list string).

(** The constructor: [opened] says whether the file could be opened. *)
Definition open_trace (path : string) (opened : bool) : TraceFile :=
  match path with EmptyString => None | _ => if opened then Some [] else None end.

Definition trace_line (line : string) (trace : TraceFile) : TraceFile :=
  match trace with None => None | Some lines => Some (lines ++ [line]) end.

Definition trace_enabled (trace : TraceFile) : bool := if trace is Some _ then true else false.

(** The observability hook of a configuration: none when there is no file. *)
Definition trace_callback (trace : TraceFile) : option (string → TraceFile → TraceFile) :=
  if trace_enabled trace then Some trace_line else None.

(** What the hook leaves after the lines of a run. *)
Definition traced (lines : list string) (trace : TraceFile) : TraceFile :=
  match trace_callback trace with
  | None => trace
  | Some callback => fold_left (λ trace line, callback line trace) lines trace
  end.

Lemma traced_lines lines path opened :
  traced lines (open_trace path opened) =
  if negb (bool_decide (path = "")) && opened then Some lines else None.
Proof.
  assert (∀ old, fold_left (λ trace line, trace_line line trace) lines (Some old) = Some (old ++ lines)) as Hl.
  { induction lines as [|line lines IH]; intros old; cbn; [by rewrite app_nil_r|].
    by rewrite IH, <-app_assoc. }
  unfold open_trace. destruct path as [|c path], opened; try done. exact (Hl []).
Qed.

(** ** What a process leaves behind *)

(** The lines on the two streams; an error is shown by the number of its code here, where the
    process prints the code and its text. *)
Inductive Diagnostic :=
  | Message (text : string)
  | Failure (prefix : string) (code : Z).

Record Outcome := mkOutcome {
  out_lines : list string;
  out_diagnostics : list Diagnostic;
  out_status : Z
}.

(** ** The cluster agent *)

Definition agent_config (items : list string) : ClusterAgentConfig :=
  mkClusterAgentConfig
    (Args.value "--coordinator-host" "127.0.0.1" items)
    (u16 (Args.number "--coordinator-port" 0 items))
    (Args.value "--data-bind" "127.0.0.1" items)
    (Args.number "--cluster" 0 items)
    (Args.number "--region" 1 items)
    (Args.number "--site" 1 items)
    (Args.number "--failure-domain" 1 items)
    (Args.value "--descriptor" "reference-site" items)
    (mkClusterCapabilities (Args.repeated "--tag" items) (Args.repeated "--storage" items)
       (Args.repeated "--accelerator" items) (Args.has "--encryption-at-rest" items)
       (Args.has "--attestation" items))
    (mkClusterCapacity (Args.number "--capacity-bytes" (2 ^ 40) items)
       (Args.number "--used-bytes" (2 ^ 30) items) (Args.number "--inbound-bytes" (2 ^ 28) items)
       (u32 (Args.number "--transfer-slots" 8 items))
       (u32 (Args.number "--utilization-per-mille" 100 items)))
    kMaxFramePayloadBytes 4 0.

Section agent_process.
Context {T : Type} `{Network T}.

Definition agent_ready (config : ClusterAgentConfig) (ag : ClusterAgent T) : string :=
  "AGENT READY cluster=" +:+ id_to_string (acf_cluster_id config) +:+
  " incarnation=" +:+ id_to_string (ag_incarnation ag) +:+
  " worker_boot=" +:+ id_to_string (ag_worker_boot_id ag) +:+
  " data_port=" +:+ to_string_u64 (ag_data_port ag).

Definition agent_stopped (config : ClusterAgentConfig) (ag : ClusterAgent T) (connections : Z) : string :=
  "AGENT STOPPED cluster=" +:+ id_to_string (acf_cluster_id config) +:+
  " replicas=" +:+ to_string_u64 (Z.of_nat (ReplicaStore.count (ag_store ag))) +:+
  " connections=" +:+ to_string_u64 connections.

(** [main] of the agent: the process number, the port of its listener, the network, what
    the control connection delivers, how its peers answer and how many data connections
    were served come from outside. *)
Definition agent_main (argv : list string) (process_identity data_port : Z) (network : T)
    (stream : incoming) (text : string) (peers : nat → Result incoming) (connections : Z)
    : Outcome * option (ClusterAgent T) :=
  let config := agent_config (Args.parse argv) in
  if negb (valid (acf_cluster_id config)) then
    (mkOutcome [] [Message "a cluster identity is required"] 2, None)
  else
    match agent_start config process_identity data_port network stream with
    | (Err code, _) => (mkOutcome [] [Failure "cluster agent failed to start" (enum_value code)] 2, None)
    | (Ok ag, stream) =>
        let '(served, ag') := serve text peers ag stream in
        let lines := [agent_ready config ag; agent_stopped config ag' connections] in
        match served with
        | Err code => (mkOutcome lines [Failure "cluster agent stopped with error" (enum_value code)] 1, Some ag')
        | Ok _ => (mkOutcome lines [] 0, Some ag')
        end
    end.
End agent_process.

(** ** The coordinator *)

Definition coordinator_placement_policy (items : list string) : PlacementPolicyRecord :=
  PlacementPolicyRecord_default
    <| pp_placement_policy_id := Args.number "--placement-policy-id" 1 items |>
    <| pp_generation := 1 |>
    <| pp_cost_policy ::= λ p, p <| cpo_source := CS.POLICY |>
         <| cpo_transfer_micro_per_mib := 5000 |> <| cpo_compute_micro_per_mib := 200000 |>
         <| cpo_egress_micro_per_mib := 1000 |> |>
    <| pp_weights ::= λ w, w <| rw_expected_reuse_value := 3 |> <| rw_transfer_cost := -4 |>
         <| rw_destination_health := 5 |> <| rw_failure_domain_diversity := 4 |>
         <| rw_available_bandwidth := 1 |> |>.

Definition coordinator_replication_policy (items : list string) : ReplicationPolicyRecord :=
  (make_replication_policy (Args.number "--replication-policy-id" 1 items) 1 RPF.N_REPLICAS
     (u32 (Args.number "--replication-factor" 2 items)))
    <| rpp_retention ::= λ r, r <| rtp_maximum_replicas_per_state := 8 |> |>
    <| rpp_destination_rules ::= λ r, r <| er_maximum_in_flight_operations_per_state := 4 |> |>.

Definition coordinator_config (items : list string) : CoordinatorConfig :=
  let directory := Args.value "--persistence" EmptyString items in
  mkCoordinatorConfig (Args.value "--bind" "127.0.0.1" items) (u16 (Args.number "--port" 0 items))
    (Args.number "--coordinator-id" 1 items) (Args.number "--home-cluster" 0 items)
    (match directory with
     | EmptyString => EmptyString
     | _ => if Args.has "--ephemeral" items then EmptyString else directory
     end)
    (negb (Args.has "--in-memory" items)) kMaxFramePayloadBytes
    (coordinator_placement_policy items) (coordinator_replication_policy items).

Section coordinator_process.
Context {S : Type} `{PersistenceStore S} {T : Type} `{Network T}.

Definition coordinator_ready (port : Z) (co : Coordinator S T) : string :=
  let status := current_status co in
  "COORDINATOR READY port=" +:+ to_string_u64 port +:+
  " coordinator=" +:+ id_to_string (fst_coordinator_id status) +:+
  " epoch=" +:+ id_to_string (fst_coordinator_epoch status) +:+
  " persistence=" +:+ (if fst_persistence_enabled status then "enabled" else "disabled").

Definition coordinator_stopped (co : Coordinator S T) : string :=
  "COORDINATOR STOPPED epoch=" +:+ id_to_string (epoch co).

(** [main] of the coordinator: the opened store, the bound listener with its port, and
    the run of the sessions ([serve]) come from outside. *)
Definition coordinator_main (argv : list string) (opened : option (S * Result ControlPlane))
    (bound : Result T) (port : Z) (serve : Coordinator S T → Result unit * Coordinator S T)
    : Outcome :=
  match start (coordinator_config (Args.parse argv)) opened bound with
  | Err code => mkOutcome [] [Failure "coordinator failed to start" (enum_value code)] 2
  | Ok co =>
      let '(served, co') := serve co in
      let lines := [coordinator_ready port co; coordinator_stopped co'] in
      match served with
      | Err code => mkOutcome lines [Failure "coordinator stopped with error" (enum_value code)] 1
      | Ok _ => mkOutcome lines [] 0
      end
  end.
End coordinator_process.

(** ** Numbers *)

Lemma take_digits_nonneg text value : 0 ≤ value → 0 ≤ (take_digits text value).1.
Proof.
  revert value. induction text as [|c text IH]; intros value Hv; cbn [take_digits]; [done|].
  destruct (digit_value c) as [digit|] eqn:E; [|done]. apply IH.
  revert E. unfold digit_value. case_match; [|done]. intros [= <-]. lia.
Qed.

Lemma strtoull_range text : 0 ≤ strtoull text ≤ u64_max.
Proof.
  unfold strtoull. destruct (match skip_space text with EmptyString => _ | String _ _ => _ end) as [negative digits].
  pose proof (take_digits_nonneg digits 0 ltac:(lia)) as Hn.
  destruct (Z.gtb_spec (take_digits digits 0).1 u64_max); [by vm_compute|].
  destruct negative; [|lia]. pose proof (u64_range (- (take_digits digits 0).1)). unfold u64_max. lia.
Qed.

(** A digit is neither white space nor a sign. *)
Lemma digit_is_plain c digit :
  digit_value c = Some digit → is_space c = false ∧ c ≠ "-"%char ∧ c ≠ "+"%char.
Proof.
  intros Hd. split_and!; [|by intros ->..].
  revert Hd. unfold digit_value, is_space. case_match; [|done]. intros _. lia.
Qed.

(** A number is read back from its decimal text. *)
Lemma strtoull_to_string value : 0 ≤ value ≤ u64_max → strtoull (id_to_string value) = value.
Proof.
  intros Hv. pose proof (id_from_string_to_string value Hv) as Hf. revert Hf.
  unfold id_from_string, from_chars.
  destruct (id_to_string value) as [|c text] eqn:Et; [done|].
  destruct (digit_value c) as [digit|] eqn:Ed; [|done].
  destruct (digit_is_plain c digit Ed) as (Hs & Hm & Hp).
  destruct (take_digits (String c text) 0) as [read rest] eqn:Er.
  destruct (Z.gtb_spec read u64_max); [done|]. destruct rest; [|done]. intros [= ->].
  unfold strtoull. cbn [skip_space]. rewrite Hs, !bool_decide_false by done. rewrite Er. cbn [fst].
  destruct (Z.gtb_spec value u64_max); [lia|done].
Qed.

Lemma number_range name fallback items :
  0 ≤ fallback ≤ u64_max → 0 ≤ Args.number name fallback items ≤ u64_max.
Proof.
  intros Hf. unfold Args.number. destruct (Args.value name "" items); [done|]. apply strtoull_range.
Qed.

(** The first occurrence of a name that has a value decides. *)
Lemma value_of_argument name fallback front text back :
  name ∉ front → Args.value name fallback (front ++ name :: text :: back) = text.
Proof.
  induction front as [|item front IH]; intros Hn.
  - cbn. by rewrite bool_decide_true.
  - apply not_elem_of_cons in Hn as [Hne Hn]. specialize (IH Hn).
    destruct front as [|next front]; cbn in IH |- *; rewrite bool_decide_false by done; exact IH.
Qed.

Lemma id_to_string_not_empty value : 0 ≤ value ≤ u64_max → id_to_string value ≠ "".
Proof. intros Hv E. pose proof (id_from_string_to_string value Hv) as Hf. by rewrite E in Hf. Qed.

Lemma number_of_argument name fallback front value back :
  name ∉ front → 0 ≤ value ≤ u64_max →
  Args.number name fallback (front ++ name :: id_to_string value :: back) = value.
Proof.
  intros Hn Hv. unfold Args.number. rewrite value_of_argument by done.
  pose proof (id_to_string_not_empty value Hv). pose proof (strtoull_to_string value Hv).
  by destruct (id_to_string value).
Qed.

(** ** Configurations *)

Definition is_u16 (z : Z) : Prop := 0 ≤ z < 2 ^ 16.
Definition is_u32 (z : Z) : Prop := 0 ≤ z < 2 ^ 32.
Definition is_u64 (z : Z) : Prop := 0 ≤ z ≤ u64_max.

Lemma u16_range z : is_u16 (u16 z).
Proof. unfold is_u16, u16. by apply Z.mod_pos_bound. Qed.

Lemma u32_range z : is_u32 (u32 z).
Proof. unfold is_u32, u32. by apply Z.mod_pos_bound. Qed.

(** The numbers of a configuration keep their widths. *)
Definition agent_config_typed (config : ClusterAgentConfig) : Prop :=
  let capacity := acf_capacity config in
  is_u16 (acf_coordinator_port config) ∧
  Forall is_u64 [acf_cluster_id config; acf_region config; acf_site config;
    acf_failure_domain config; cp_total_logical_bytes capacity; cp_used_logical_bytes capacity;
    cp_inbound_bytes_per_tick capacity] ∧
  is_u32 (cp_free_transfer_slots capacity) ∧ is_u32 (cp_utilization_per_mille capacity).

Definition coordinator_config_typed (config : CoordinatorConfig) : Prop :=
  is_u16 (ccf_port config) ∧
  Forall is_u64 [ccf_coordinator_id config; ccf_home_cluster config;
    pp_placement_policy_id (ccf_placement_policy config);
    rpp_replication_policy_id (ccf_replication_policy config)] ∧
  let requirements := effective_requirements (ccf_replication_policy config) in
  is_u32 (rr_maximum_replicas requirements) ∧
  1 ≤ rr_minimum_authoritative_replicas requirements ∧
  rr_minimum_authoritative_replicas requirements = rr_desired_replicas requirements ∧
  rr_desired_replicas requirements = rr_maximum_replicas requirements.

Ltac numbers := repeat apply Forall_cons_2; try apply Forall_nil_2; try (apply number_range; by vm_compute).

Lemma agent_config_is_typed items : agent_config_typed (agent_config items).
Proof.
  split; [apply u16_range|]. split; [|split; apply u32_range].
  unfold agent_config. cbn. numbers.
Qed.

(** The requirements a replication factor means. *)
Lemma coordinator_requirements items :
  let factor := Z.max 1 (u32 (Args.number "--replication-factor" 2 items)) in
  let requirements := effective_requirements (coordinator_replication_policy items) in
  rr_minimum_authoritative_replicas requirements = factor ∧
  rr_desired_replicas requirements = factor ∧ rr_maximum_replicas requirements = factor.
Proof.
  unfold coordinator_replication_policy.
  pose proof (u32_range (Args.number "--replication-factor" 2 items)) as Hr. revert Hr.
  generalize (u32 (Args.number "--replication-factor" 2 items)). intros factor [Hr _].
  unfold effective_requirements, make_replication_policy. cbn.
  unfold clamp_requirements. destruct (Z.eqb_spec factor 0) as [->|Hz]; [by vm_compute|].
  cbn. rewrite Z.max_id. repeat (case_match; cbn in *); lia.
Qed.

Lemma coordinator_config_is_typed items : coordinator_config_typed (coordinator_config items).
Proof.
  split; [apply u16_range|]. split.
  - unfold coordinator_config. cbn. numbers.
  - destruct (coordinator_requirements items) as (H1 & H2 & H3).
    pose proof (u32_range (Args.number "--replication-factor" 2 items)) as [Hl Hu].
    change (ccf_replication_policy (coordinator_config items)) with (coordinator_replication_policy items).
    cbn zeta. rewrite H1, H2, H3. unfold is_u32. lia.
Qed.

(** A factor above eight asks for more replicas than its own retention rule lets the
    fabric commit. *)
Lemma large_factor_is_unreachable items :
  8 < u32 (Args.number "--replication-factor" 2 items) →
  let policy := coordinator_replication_policy items in
  maximum_authoritative (Some policy) <
  rr_minimum_authoritative_replicas (effective_requirements policy).
Proof.
  intros Hf policy. subst policy. rewrite (proj1 (coordinator_requirements items)). cbn. lia.
Qed.


