(* ===== verification/Inspection.v ===== *)
(** * The inspection tool ([tools/ccsf/ccsf_cli.cpp])

    One command line, one answer: over a connection to a coordinator ([Client]), or from
    a persistence directory opened through the library ([Lifecycle]).  The texts printed
    are taken to hold no NUL, where [printf] would stop. *)

From Stdlib Require Import Ascii.
From S2P Require Import Prelude Taxonomy Model Bytes Digest Cost ModelOps ControlPlane FabricCore.
From S2P Require Import FabricState Encoding RecordCodecs RequestCodecs Naming Frames Payloads.
From S2P Require Import ControlCodecs FabricReplica FabricOps Lifecycle Fabric Scenario Fencing.
From S2P Require Import Coordinator Coordination Client Applications.

Local Open Scope Z_scope.

(** ** The command line *)

Definition usage : list string :=
  ["ccsf <command> [arguments]";
   "";
   "Connection:";
   "  --connect <host:port>      query a running coordinator (default 127.0.0.1:7700)";
   "  --persistence <dir>        inspect a durable control plane offline";
   "";
   "Commands:";
   "  status";
   "  clusters";
   "  states";
   "  state <state-id> [generation]";
   "  replicas <state-id> <generation>";
   "  replica <replica-id>";
   "  reuse <state-id> <generation> <cluster-id>";
   "  reconcile <state-id> <generation>";
   "  plan-replication <state-id> <generation>";
   "  operations";
   "  operation <operation-id>";
   "  snapshot-info"].

Definition join (values : list string) : string :=
  fold_left (λ text value, (match text with EmptyString => "" | _ => text +:+ " " end) +:+ value)
    values "".

Definition parse_u64 (text : string) : Z := strtoull text.

(** The options are taken out wherever they stand, the last one wins; an option without a
    value is an argument like any other. *)
Fixpoint split_arguments (arguments : list string) (connect persistence : string)
    : string * string * list string :=
  match arguments with
  | [] => (connect, persistence, [])
  | item :: rest =>
      match rest with
      | next :: tail =>
          if bool_decide (item = "--connect") then split_arguments tail next persistence
          else if bool_decide (item = "--persistence") then split_arguments tail connect next
          else
            let '(connect, persistence, others) := split_arguments rest connect persistence in
            (connect, persistence, item :: others)
      | [] => (connect, persistence, [item])
      end
  end.

(** The text before the first colon, and after it when there is one. *)
Fixpoint split_colon (text : string) : string * option string :=
  match text with
  | EmptyString => (EmptyString, None)
  | String c rest =>
      if bool_decide (c = ":"%char) then (EmptyString, Some rest)
      else let '(host, port) := split_colon rest in (String c host, port)
  end.

Definition endpoint (connect : string) : string * Z :=
  let '(host, port) := split_colon connect in (host, u16 (strtoull (default "7700" port))).

(** ** Printing *)

(** [to_string] of an error code that was cast from a number. *)
Definition code_to_string (code : Z) : string :=
  match enum_cast (E:=ErrorCode) code with
  | Some code => to_string code
  | None => "UNRECOGNIZED_ERROR_CODE"
  end.

Definition or_none (id : Z) : string := if valid id then id_to_string id else "none".
Definition or_unknown (d : Digest) : string := if digest_valid d then hex d else "UNKNOWN".
Definition indented (lines : list string) : list string := map (λ line, "  " +:+ line) lines.
Definition count {A} (l : list A) : string := to_string_u64 (Z.of_nat (length l)).

Definition print_state (record : StateGenerationRecord) : string :=
  id_to_string (sg_state_id record) +:+ " g" +:+ id_to_string (sg_generation record) +:+
  " class=" +:+ to_string (sg_state_class record) +:+
  " consistency=" +:+ to_string (sg_consistency record) +:+
  " lifecycle=" +:+ to_string (sg_lifecycle record) +:+
  " size=" +:+ describe_size (sg_logical_size record) +:+
  " digest=" +:+ or_unknown (sg_content_digest record) +:+
  " commit=" +:+ or_none (sg_commit record).

Definition print_replica (record : ReplicaRecord) : string :=
  "replica " +:+ id_to_string (rp_replica_id record) +:+
  " g" +:+ id_to_string (rp_replica_generation record) +:+
  " state=" +:+ id_to_string (rp_state_id record) +:+
  " g" +:+ id_to_string (rp_state_generation record) +:+
  " cluster=" +:+ id_to_string (rlo_cluster_id (rp_location record)) +:+
  " incarnation=" +:+ id_to_string (rlo_cluster_incarnation (rp_location record)) +:+
  " lifecycle=" +:+ to_string (rp_lifecycle record) +:+
  " integrity=" +:+ to_string (rp_integrity record) +:+
  " compatibility=" +:+ to_string (rp_compatibility record) +:+
  " authority=" +:+ to_string (rp_authority record) +:+
  " counts=" +:+ yes_no (rp_counts_toward_factor record) +:+
  " digest=" +:+ or_unknown (rp_measured_digest record).

Definition print_operation (record : OperationRecord) : string :=
  "operation " +:+ id_to_string (op_operation_id record) +:+
  " g" +:+ id_to_string (op_operation_generation record) +:+
  " kind=" +:+ to_string (op_kind record) +:+ " state=" +:+ to_string (op_state record) +:+
  " state-gen=" +:+ state_generation_label (op_state_id record) (op_state_generation record) +:+
  " dest-cluster=" +:+ id_to_string (op_destination_cluster record) +:+
  " verified=" +:+ yes_no (op_destination_verified record) +:+
  " committed=" +:+ yes_no (op_destination_committed record) +:+
  " source-retired=" +:+ yes_no (op_source_retired record).

Definition print_cluster (cluster : ClusterRecord) : string :=
  let location := cl_location cluster in
  let evidence := cl_evidence cluster in
  "cluster " +:+ id_to_string (cl_cluster_id cluster) +:+
  " incarnation=" +:+ id_to_string (cl_incarnation cluster) +:+
  " region=" +:+ id_to_string (clo_region location) +:+
  " site=" +:+ id_to_string (clo_site location) +:+
  " domain=" +:+ id_to_string (clo_failure_domain location) +:+
  " lifecycle=" +:+ to_string (cl_lifecycle cluster) +:+
  " health=" +:+ to_string (cl_health cluster) +:+
  " live=" +:+ yes_no (cl_live_authority cluster) +:+
  " evidence=" +:+ (if ce_present evidence then "present" else "absent") +:+
  " revalidation=" +:+ (if ce_revalidation_required evidence then "required" else "current") +:+
  " hosted=" +:+ to_string_u64 (cl_hosted_replica_count cluster) +:+
  " reincarnations=" +:+ to_string_u64 (cl_reincarnation_count cluster).

Definition print_status (value : FabricStatus) : list string :=
  let counters := fst_counters value in
  ["coordinator=" +:+ id_to_string (fst_coordinator_id value) +:+
   " epoch=" +:+ id_to_string (fst_coordinator_epoch value) +:+
   " tick=" +:+ to_string_u64 (fst_logical_time value) +:+
   " persistence=" +:+ (if fst_persistence_enabled value then "enabled" else "disabled") +:+
   " healthy=" +:+ yes_no (fst_persistence_healthy value) +:+
   " recovered=" +:+ yes_no (fst_recovered_from_durable_state value);
   "states=" +:+ to_string_u64 (fst_state_generations value) +:+
   " clusters=" +:+ to_string_u64 (fst_clusters value) +:+
   " replicas=" +:+ to_string_u64 (fst_replicas value) +:+
   " replica-sets=" +:+ to_string_u64 (fst_replica_sets value) +:+
   " operations=" +:+ to_string_u64 (fst_operations value);
   "commits=" +:+ to_string_u64 (fc_durable_commits counters) +:+
   " committed-replicas=" +:+ to_string_u64 (fc_replicas_committed counters) +:+
   " retired=" +:+ to_string_u64 (fc_replicas_retired counters) +:+
   " quarantined=" +:+ to_string_u64 (fc_replicas_quarantined counters) +:+
   " integrity-failures=" +:+ to_string_u64 (fc_integrity_failures counters) +:+
   " active-operations=" +:+ to_string_u64 (fc_active_operations counters) +:+
   " reserved-bytes=" +:+ to_string_u64 (fc_reserved_bytes counters)] ++
  match fst_persistence_detail value with
  | EmptyString => []
  | detail => ["persistence-detail=" +:+ detail]
  end.

Definition print_offline_status (value : FabricStatus) : list string :=
  ["offline coordinator=" +:+ id_to_string (fst_coordinator_id value) +:+
   " epoch=" +:+ id_to_string (fst_coordinator_epoch value) +:+
   " tick=" +:+ to_string_u64 (fst_logical_time value) +:+
   " states=" +:+ to_string_u64 (fst_state_generations value) +:+
   " replicas=" +:+ to_string_u64 (fst_replicas value)].

Definition print_reuse (value : WireReuse) : list string :=
  let evaluation := wr_evaluation value in
  ("decision=" +:+ to_string (rev_decision evaluation) +:+
   " code=" +:+ code_to_string (wr_code value) +:+ " replica=" +:+ or_none (rev_replica evaluation) +:+
   " reason=" +:+ rev_reason evaluation) :: indented (rev_findings evaluation).

Definition print_reconciliation (value : ReplicaSetReconciliation) : list string :=
  let set := rsr_replica_set value in
  ("set=" +:+ id_to_string (rs_replica_set_id set) +:+ " g" +:+ id_to_string (rs_generation set) +:+
   " state=" +:+ to_string (rs_state set) +:+
   " authoritative=" +:+ to_string_u64 (rs_authoritative_count set) +:+
   " degraded=" +:+ to_string_u64 (rs_degraded_count set) +:+
   " clusters=" +:+ to_string_u64 (rs_distinct_clusters set) +:+
   " regions=" +:+ to_string_u64 (rs_distinct_regions set) +:+
   " under=" +:+ yes_no (rsr_under_replicated value) +:+ " over=" +:+ yes_no (rsr_over_replicated value) +:+
   " revalidation=" +:+ (if rs_revalidation_required set then "required" else "current"))
  :: indented (rsr_findings value).

Definition print_plan (value : PlacementEvaluation) : list string :=
  ("decision=" +:+ to_string (pe_decision value) +:+
   " destination=" +:+ or_none (pe_chosen_cluster value) +:+
   " score=" +:+ to_string_i64 (pe_chosen_score value)) :: indented (pe_reasons value).

Definition print_snapshot (snapshot : FabricSnapshot) : list string :=
  ["coordinator=" +:+ id_to_string (fs_coordinator_id snapshot) +:+
   " epoch=" +:+ id_to_string (fs_coordinator_epoch snapshot) +:+
   " tick=" +:+ to_string_u64 (fs_logical_time snapshot) +:+
   " sequence=" +:+ to_string_u64 (fs_durable_sequence snapshot) +:+
   " replay=" +:+ to_string_u64 (fs_replay_generation snapshot);
   "states=" +:+ count (fs_states snapshot) +:+ " clusters=" +:+ count (fs_clusters snapshot) +:+
   " replicas=" +:+ count (fs_replicas snapshot) +:+
   " replica-sets=" +:+ count (fs_replica_sets snapshot) +:+
   " operations=" +:+ count (fs_operations snapshot) +:+
   " ownership=" +:+ count (fs_ownership snapshot) +:+
   " authorizations=" +:+ count (fs_active_authorizations snapshot)] ++
  map (λ set, "  " +:+ state_generation_label (rs_state_id set) (rs_state_generation set) +:+
              " g" +:+ id_to_string (rs_generation set) +:+ " state=" +:+ to_string (rs_state set) +:+
              " authoritative=" +:+ to_string_u64 (rs_authoritative_count set))
    (fs_replica_sets snapshot).

(** ** The commands *)

Definition shown (lines : list string) : Outcome := mkOutcome lines [] 0.
Definition report (code : Z) : Outcome := mkOutcome [] [Failure "error" code] 1.
Definition misused : Outcome := mkOutcome usage [] 2.
Definition unsupported : Outcome := report (enum_value EC.NOT_SUPPORTED).

Section inspection.
Context {S : Type} `{PersistenceStore S} {T : Type} `{Network T}.

(** The connected coordinator, or the opened runtime. *)
Inductive Backend := Online (co : Coordinator S T) | Offline (fabric : Impl S).

(** What the tool leaves: nothing yet while it waits for a response. *)
Definition Run : Type := option Outcome * Backend.

Definition print_answer {A} (show : A → list string) (a : Answer A) : Outcome :=
  match a with Answered value => shown (show value) | Refused code => report code end.

Definition ask_client {A} (show : A → list string)
    (client : string → Coordinator S T → option (Answer A) * Coordinator S T) (text : string)
    (co : Coordinator S T) : Run :=
  let '(a, co) := client text co in (print_answer show <$> a, Online co).

Definition ask_fabric {A} (show : A → list string) (result : Result A) (fabric : Impl S) : Run :=
  (Some (print_answer show (answer result)), Offline fabric).

(** A command both backends answer. *)
Definition ask {A} (show : A → list string)
    (client : string → Coordinator S T → option (Answer A) * Coordinator S T)
    (query : Impl S → Result A) (text : string) (backend : Backend) : Run :=
  match backend with
  | Online co => ask_client show client text co
  | Offline fabric => ask_fabric show (query fabric) fabric
  end.

(** A command only one of them answers. *)
Definition ask_online {A} (show : A → list string)
    (client : string → Coordinator S T → option (Answer A) * Coordinator S T) (text : string)
    (backend : Backend) : Run :=
  match backend with
  | Online co => ask_client show client text co
  | Offline fabric => (Some unsupported, backend)
  end.

Definition ask_offline (query : Impl S → list string) (backend : Backend) : Run :=
  match backend with
  | Online co => (Some unsupported, backend)
  | Offline fabric => (Some (shown (query fabric)), backend)
  end.

Definition command_status (text : string) (backend : Backend) : Run :=
  match backend with
  | Online co => ask_client print_status client_status text co
  | Offline fabric =>
      (Some (shown (print_offline_status
         (status (im_plane fabric) (if im_store fabric then true else false)
            (im_recovered_from_durable fabric)))), backend)
  end.

Definition command_clusters : string → Backend → Run :=
  ask (map print_cluster) client_list_clusters (λ fabric, Ok (list_clusters (im_plane fabric))).

Definition command_states : Backend → Run :=
  ask_offline (λ fabric, map print_state (list_states (im_plane fabric))).

(** Without a generation only the offline reader answers, with the current one. *)
Definition command_state (state generation : Z) (text : string) (backend : Backend) : Run :=
  match backend with
  | Online co =>
      if valid generation
      then ask_client (λ r, [print_state r]) (client_query_state state generation) text co
      else (Some (report (enum_value EC.INVALID_ARGUMENT)), backend)
  | Offline fabric =>
      ask_fabric (λ r, [print_state r])
        (if valid generation then query_state (im_plane fabric) state generation
         else current_state (im_plane fabric) state) fabric
  end.

Definition command_replicas (state generation : Z) : string → Backend → Run :=
  ask (map print_replica) (client_list_replicas state generation)
    (λ fabric, Ok (list_replicas (im_plane fabric) state generation)).

Definition command_replica (replica : Z) : string → Backend → Run :=
  ask (λ r, [print_replica r]) (client_query_replica replica)
    (λ fabric, query_replica (im_plane fabric) replica).

(** The local evaluation has its code at hand. *)
Definition local_reuse (value : ReuseEvaluation) : WireReuse :=
  mkWireReuse value (enum_value (rev_code value)).

Definition command_reuse (state generation cluster : Z) : string → Backend → Run :=
  ask print_reuse (client_evaluate_reuse state generation cluster)
    (λ fabric, Ok (local_reuse (evaluate_reuse (im_plane fabric) (im_config fabric) state generation
                                  cluster))).

Definition command_reconcile (state generation : Z) : string → Backend → Run :=
  ask print_reconciliation (client_reconcile_replica_set state generation)
    (λ fabric, reconcile_replica_set (im_plane fabric) state generation).

Definition command_plan_replication (state generation : Z) : string → Backend → Run :=
  ask_online print_plan
    (client_plan_replication
       (ReplicationRequest_default <| rq_state_id := state |> <| rq_state_generation := generation |>)).

Definition command_operations : string → Backend → Run :=
  ask_online (map print_operation) client_list_operations.

Definition command_operation (operation : Z) : string → Backend → Run :=
  ask_online (λ r, print_operation r :: indented (explain_operation r))
    (client_query_operation operation).

Definition command_snapshot_info : Backend → Run :=
  ask_offline (λ fabric, print_snapshot (collect_snapshot (im_plane fabric) FabricSnapshot_default)).

Definition unknown_command (rest : list string) : Outcome :=
  mkOutcome usage
    [Message ("unknown command: " +:+ default "" (head rest)); Message ("arguments: " +:+ join rest)] 2.

(** The body of [main] once a backend is there; [text] is the text of an error response. *)
Definition run_command (rest : list string) (text : string) (backend : Backend) : Run :=
  let misuse : Run := (Some misused, backend) in
  match rest with
  | [] => misuse
  | command :: parameters =>
      let named (name : string) := bool_decide (command = name) in
      if named "status" then command_status text backend
      else if named "clusters" then command_clusters text backend
      else if named "states" then command_states backend
      else if named "state" then
        match parameters with
        | state :: more =>
            command_state (parse_u64 state)
              (match more with generation :: _ => parse_u64 generation | [] => 0 end) text backend
        | _ => misuse
        end
      else if named "replicas" then
        match parameters with
        | state :: generation :: _ =>
            command_replicas (parse_u64 state) (parse_u64 generation) text backend
        | _ => misuse
        end
      else if named "replica" then
        match parameters with
        | replica :: _ => command_replica (parse_u64 replica) text backend
        | _ => misuse
        end
      else if named "reuse" then
        match parameters with
        | state :: generation :: cluster :: _ =>
            command_reuse (parse_u64 state) (parse_u64 generation) (parse_u64 cluster) text backend
        | _ => misuse
        end
      else if named "reconcile" then
        match parameters with
        | state :: generation :: _ =>
            command_reconcile (parse_u64 state) (parse_u64 generation) text backend
        | _ => misuse
        end
      else if named "plan-replication" then
        match parameters with
        | state :: generation :: _ =>
            command_plan_replication (parse_u64 state) (parse_u64 generation) text backend
        | _ => misuse
        end
      else if named "operations" then command_operations text backend
      else if named "operation" then
        match parameters with
        | operation :: _ => command_operation (parse_u64 operation) text backend
        | _ => misuse
        end
      else if named "snapshot-info" then command_snapshot_info backend
      else (Some (unknown_command rest), backend)
  end.

(** The [OfflineReader]: the directory is opened the way a coordinator opens it. *)
Definition offline_config (directory : string) : FabricConfig :=
  FabricConfig_default <| cfg_coordinator_id := 1 |> <| cfg_persistence_directory := directory |>
    <| cfg_require_durable_commits := true |>.

Definition offline_reader (directory : string) (opened : option (S * Result ControlPlane))
    : Result (Impl S) := open (offline_config directory) opened.

(** [main]: [connect] reaches the coordinator at an address, [directory] opens and loads
    the store of a directory. *)
Definition ccsf_main (argv : list string) (connect : string → Z → Result (Coordinator S T))
    (directory : string → S * Result ControlPlane) (text : string)
    : option Outcome * option Backend :=
  let arguments := tail argv in
  match arguments with
  | [] => (Some misused, None)
  | first :: _ =>
      if bool_decide (first = "--help") || bool_decide (first = "help")
      then (Some (shown usage), None)
      else
        let '(address, persistence, rest) := split_arguments arguments "127.0.0.1:7700" "" in
        match rest with
        | [] => (Some misused, None)
        | _ =>
            let reached : Result Backend :=
              match persistence with
              | EmptyString =>
                  let '(host, port) := endpoint address in result_map Online (connect host port)
              | _ => result_map Offline (offline_reader persistence (Some (directory persistence)))
              end in
            match reached with
            | Err code => (Some (report (enum_value code)), None)
            | Ok backend =>
                let '(outcome, backend) := run_command rest text backend in
                (outcome, Some backend)
            end
        end
  end.
End inspection.

Arguments Backend S T : clear implicits.

(** ** Inspection in place *)

Section in_place.
Context {S : Type} `{PersistenceStore S} {T : Type} `{Network T}.
Implicit Types (co : Coordinator S T) (backend : Backend S T).

(** An operation that is answered at once and changes nothing. *)
Definition answers_in_place (operation : ControlOperation) : Prop :=
  ∀ arguments co, ∃ result, dispatch operation arguments co = (Some result, co).

Lemma query_in_place {A B} (m : Reader A) arguments co (enc : B → list Z) (result : A → Result B) :
  ∃ r, with_arguments m arguments (malformed co) (λ a, query enc (result a) co) = (Some r, co).
Proof. unfold with_arguments. destruct (m _).1; by eexists. Qed.

Lemma inspected_operations_answer_in_place :
  Forall answers_in_place
    [CO.STATUS; CO.LIST_CLUSTERS; CO.QUERY_STATE; CO.LIST_REPLICAS; CO.QUERY_REPLICA;
     CO.EVALUATE_REUSE; CO.RECONCILE_REPLICA_SET; CO.PLAN_REPLICATION; CO.LIST_OPERATIONS;
     CO.QUERY_OPERATION].
Proof.
  repeat apply Forall_cons_2; try apply Forall_nil_2; intros arguments co; cbn [dispatch dispatch_transactions dispatch_decisions dispatch_administration].
  - by eexists.
  - by eexists.
  - destruct (query_in_place decode_two arguments co encode
      (λ '(s, g), query_state (im_plane (crd_fabric co)) s g)) as [r E].
    exists r. rewrite <-E. unfold with_arguments. by destruct (decode_two _).1 as [[]|].
  - destruct (query_in_place decode_two arguments co (encode_vector encode)
      (λ '(s, g), Ok (list_replicas (im_plane (crd_fabric co)) s g))) as [r E].
    exists r. rewrite <-E. unfold with_arguments. by destruct (decode_two _).1 as [[]|].
  - apply query_in_place.
  - unfold with_arguments. destruct (decode_three _).1 as [[[]]|]; by eexists.
  - destruct (query_in_place decode_two arguments co encode_reconciliation
      (λ '(s, g), reconcile_replica_set (im_plane (crd_fabric co)) s g)) as [r E].
    exists r. rewrite <-E. unfold with_arguments. by destruct (decode_two _).1 as [[]|].
  - apply query_in_place.
  - by eexists.
  - apply query_in_place.
Qed.

(** Whatever else is wrong with a request, the operation it names is read. *)
Lemma request_names_operation max operation arguments raw args :
  (decode_control_request max (make_reader (call_payload operation arguments))).1 = Some (raw, args) →
  raw = ControlOperation_value operation.
Proof.
  unfold decode_control_request, call_payload, rbind.
  assert (∀ rest, Reader.u16 (make_reader (ByteWriter.u16 (ControlOperation_value operation) ++ rest)) =
    (Some (ControlOperation_value operation),
     mkByteReader (ByteWriter.u16 (ControlOperation_value operation) ++ rest) 2 true EC.OK)) as ->.
  { intros rest. by destruct operation. }
  cbn [fst snd]. destruct (Reader.blob max _) as [[blob|] r]; [|done]. by intros [= <- _].
Qed.

Lemma method_in_place {B} operation arguments (m : Reader B) text co :
  answers_in_place operation → ∃ a, method operation arguments m text co = (Some a, co).
Proof.
  intros Ha. unfold method, call, response_to. cbn [call_frame outgoing_frame fr_payload].
  destruct (decode_control_request _ _).1 as [[raw args]|] eqn:E; [|by eexists].
  apply request_names_operation in E as ->. rewrite control_operation_cast_value.
  destruct (Ha args co) as [[body|code] ->]; by eexists.
Qed.

(** A run that ends and leaves its backend as it was. *)
Definition ends_in_place (run : Run (S:=S) (T:=T)) backend : Prop :=
  ∃ outcome, run = (Some outcome, backend).

Lemma client_in_place {B} (show : B → list string) operation arguments (m : Reader B) text co :
  answers_in_place operation →
  ends_in_place (ask_client show (method operation arguments m) text co) (Online co).
Proof.
  intros Ha. unfold ask_client. destruct (method_in_place operation arguments m text co Ha) as [a ->].
  by eexists.
Qed.

Lemma inspected_operation_answers operation :
  operation ∈ [CO.STATUS; CO.LIST_CLUSTERS; CO.QUERY_STATE; CO.LIST_REPLICAS; CO.QUERY_REPLICA;
    CO.EVALUATE_REUSE; CO.RECONCILE_REPLICA_SET; CO.PLAN_REPLICATION; CO.LIST_OPERATIONS;
    CO.QUERY_OPERATION] → answers_in_place operation.
Proof. intros Hin. by apply (proj1 (list.Forall_forall _ _) inspected_operations_answer_in_place). Qed.

Ltac in_place :=
  first [ solve [eexists; reflexivity]
        | apply client_in_place, inspected_operation_answers; repeat first [left|right] ].

Lemma run_command_in_place rest text backend : ends_in_place (run_command rest text backend) backend.
Proof.
  unfold run_command, command_status, command_clusters, command_states, command_state,
    command_replicas, command_replica, command_reuse, command_reconcile, command_plan_replication,
    command_operations, command_operation, command_snapshot_info, ask, ask_online, ask_offline,
    ask_fabric.
  destruct backend as [co|fabric]; repeat (case_match; try in_place).
Qed.
End in_place.

(** ** Two backends, one answer *)

Section agreement.
Context {S : Type} `{PersistenceStore S} {T : Type} `{Network T}.
Implicit Types (co : Coordinator S T) (backend : Backend S T).

(** A query's client returns what the query returns, as far as it crosses the wire. *)
Lemma method_result {B C} operation arguments (m : Reader C) (enc : B → list Z) (f : B → C) result
    text co :
  dispatch operation arguments co = query enc result co →
  (∀ b, result = Ok b → (m (make_reader (enc b))).1 = Some (f b) ∧
                        Z.of_nat (length (enc b)) ≤ kMaxFramePayloadBytes) →
  fits_reason text = true →
  Z.of_nat (length arguments) ≤ Z.min (ccf_maximum_payload_bytes (crd_config co)) ByteWriter.u32_max →
  method operation arguments m text co = (Some (answer (result_map f result)), co).
Proof.
  intros Ed Hr Ht Hl. unfold method. rewrite call_is_dispatch; [|done|done|]; rewrite Ed; unfold query.
  - cbn [fst snd fmap option_fmap option_map]. destruct result as [b|code]; [|done].
    cbn [result_map answer_of answer decode_body]. by rewrite (proj1 (Hr b eq_refl)).
  - intros body. destruct result as [b|code]; cbn; [|done]. intros [= <-]. by apply Hr.
Qed.

Lemma reads_to_end_all {A} (m : Reader A) v enc :
  reads_to_end m v enc → Z.of_nat (length enc) ≤ u64_max → (m (make_reader enc)).1 = Some v.
Proof.
  intros Hm Hl. specialize (Hm [] EC.OK). cbn [app length] in Hm.
  change (make_reader enc) with (mkByteReader enc 0 true EC.OK). by rewrite Hm.
Qed.

Lemma frame_fits_u64 n : n ≤ kMaxFramePayloadBytes → n ≤ u64_max.
Proof. intros Hn. etrans; [exact Hn|done]. Qed.

Lemma decode_two_ids a b :
  fits_u64 a = true → fits_u64 b = true → (decode_two (make_reader (ids [a; b]))).1 = Some (a, b).
Proof.
  intros Ha Hb. apply reads_all; [|by vm_compute].
  cbn [ids map concat]. rewrite app_nil_r. unfold decode_two.
  eapply reads_bind; [by apply reads_id|]. eapply reads_map; [by apply reads_id|]. apply reads_ret.
Qed.

Lemma decode_one_id a : fits_u64 a = true → (decode_id (make_reader (ids [a]))).1 = Some a.
Proof.
  intros Ha. apply reads_all; [|by vm_compute]. cbn [ids map concat]. rewrite app_nil_r. by apply reads_id.
Qed.

Lemma parse_u64_fits text : fits_u64 (parse_u64 text) = true.
Proof.
  pose proof (strtoull_range text) as Hr. unfold parse_u64, fits_u64. unfold u64_max in Hr.
  apply andb_true_iff. split; [apply Z.leb_le|apply Z.ltb_lt]; lia.
Qed.

(** A response that the frame, the codec and the client's own limit allow. *)
Definition fits_body {A} (ok : A → bool) (enc : A → list Z) (result : Result A) : bool :=
  match result with
  | Ok a => ok a && (Z.of_nat (length (enc a)) <=? kMaxFramePayloadBytes)
  | Err _ => true
  end.

Lemma fits_body_ok {A} ok (enc : A → list Z) a :
  fits_body ok enc (Ok a) = true → ok a = true ∧ Z.of_nat (length (enc a)) ≤ kMaxFramePayloadBytes.
Proof. by intros [Ha Hl%Z.leb_le]%andb_true_iff. Qed.

(** The commands both backends answer, with the responses that fit. *)
Definition answer_fits (rest : list string) (fabric : Impl S) : bool :=
  let plane := im_plane fabric in
  match rest with
  | [] => false
  | command :: parameters =>
      let named (name : string) := bool_decide (command = name) in
      if named "clusters" then
        fits_body (fits_list 1024 encodable) (encode_vector encode) (Ok (list_clusters plane))
      else if named "state" then
        match parameters with
        | state :: generation :: _ =>
            valid (parse_u64 generation) &&
            fits_body encodable encode (query_state plane (parse_u64 state) (parse_u64 generation))
        | _ => false
        end
      else if named "replicas" then
        match parameters with
        | state :: generation :: _ =>
            fits_body (fits_list 4096 encodable) (encode_vector encode)
              (Ok (list_replicas plane (parse_u64 state) (parse_u64 generation)))
        | _ => false
        end
      else if named "replica" then
        match parameters with
        | replica :: _ => fits_body encodable encode (query_replica plane (parse_u64 replica))
        | _ => false
        end
      else if named "reuse" then
        match parameters with
        | state :: generation :: cluster :: _ =>
            fits_body encodable_reuse encode_reuse
              (Ok (evaluate_reuse plane (im_config fabric) (parse_u64 state) (parse_u64 generation)
                     (parse_u64 cluster)))
        | _ => false
        end
      else if named "reconcile" then
        match parameters with
        | state :: generation :: _ =>
            fits_body encodable_reconciliation encode_reconciliation
              (reconcile_replica_set plane (parse_u64 state) (parse_u64 generation))
        | _ => false
        end
      else false
  end.

Lemma reads_decode_list {A} `{Codec A} bound (l : list A) :
  bound < 2 ^ 32 → fits_list bound encodable l = true →
  Z.of_nat (length (encode_vector encode l)) ≤ kMaxFramePayloadBytes →
  (decode_list bound (make_reader (encode_vector encode l))).1 = Some l.
Proof.
  intros Hb [Hlen%Z.leb_le Hl]%andb_true_iff Hs. apply reads_all; [|by apply frame_fits_u64].
  unfold decode_list, encode_vector.
  replace (u32 (Z.of_nat (length l))) with (Z.of_nat (length l)) by (unfold u32; rewrite Z.mod_small; lia).
  eapply reads_bind; [apply reads_u32; lia|].
  destruct (Z.gtb_spec (Z.of_nat (length l)) bound); [lia|].
  rewrite Nat2Z.id. eapply reads_elements; [|done]. intros a Ha. by apply codec_ok.
Qed.

Lemma reads_decode {A} `{Codec A} (a : A) :
  encodable a = true → Z.of_nat (length (encode a)) ≤ kMaxFramePayloadBytes →
  (decode (make_reader (encode a))).1 = Some a.
Proof. intros Ha Hl. apply reads_all; [by apply codec_ok|by apply frame_fits_u64]. Qed.

Lemma result_map_id {A} (r : Result A) : result_map (λ a, a) r = r.
Proof. by destruct r. Qed.

Section commands.
Context (text : string) (co : Coordinator S T).
Hypothesis Htext : fits_reason text = true.
Hypothesis Hroom : 24 ≤ ccf_maximum_payload_bytes (crd_config co).

Lemma ids_fit l :
  (length l ≤ 3)%nat →
  Z.of_nat (length (ids l)) ≤ Z.min (ccf_maximum_payload_bytes (crd_config co)) ByteWriter.u32_max.
Proof.
  intros Hl. transitivity 24; [|unfold ByteWriter.u32_max; lia].
  destruct l as [|a [|b [|c [|d l]]]]; cbn [length] in Hl; [done..|lia].
Qed.

(** The result of a client whose response fits. *)
Lemma client_result {A} operation l (m : Reader A) (ok : A → bool) enc result :
  (length l ≤ 3)%nat → dispatch operation (ids l) co = query enc result co →
  fits_body ok enc result = true →
  (∀ a, ok a = true → Z.of_nat (length (enc a)) ≤ kMaxFramePayloadBytes →
        (m (make_reader (enc a))).1 = Some a) →
  method operation (ids l) m text co = (Some (answer result), co).
Proof.
  intros Hl Hd Hf Hm. rewrite <-(result_map_id result).
  apply (method_result _ _ _ enc); [done| |done|by apply ids_fit].
  intros b ->. apply fits_body_ok in Hf as [Ho Hs]. split; [by apply Hm|done].
Qed.

Lemma clusters_agree :
  fits_body (fits_list 1024 encodable) (encode_vector encode)
    (Ok (list_clusters (im_plane (crd_fabric co)))) = true →
  (command_clusters text (Online co)).1 = (command_clusters (T:=T) text (Offline (crd_fabric co))).1.
Proof.
  intros Hf. unfold command_clusters, ask, ask_client, ask_fabric, client_list_clusters.
  rewrite (client_result CO.LIST_CLUSTERS [] _ (fits_list 1024 encodable) (encode_vector encode)
    (Ok (list_clusters (im_plane (crd_fabric co))))); [done|cbn; lia|done|done|].
  intros l Hl Hs. by apply reads_decode_list.
Qed.

Lemma state_agrees state generation :
  fits_u64 state = true → fits_u64 generation = true → valid generation = true →
  fits_body encodable encode (query_state (im_plane (crd_fabric co)) state generation) = true →
  (command_state state generation text (Online co)).1 =
  (command_state (T:=T) state generation text (Offline (crd_fabric co))).1.
Proof.
  intros Hs Hg Hv Hf. unfold command_state, ask_client, ask_fabric, client_query_state. rewrite Hv.
  rewrite (client_result CO.QUERY_STATE [state; generation] _ encodable encode
    (query_state (im_plane (crd_fabric co)) state generation)); [done|cbn; lia| |done|].
  - cbn [dispatch dispatch_transactions dispatch_decisions dispatch_administration]. unfold with_arguments. by rewrite decode_two_ids.
  - intros a Ha Hl. by apply reads_decode.
Qed.

Lemma replicas_agree state generation :
  fits_u64 state = true → fits_u64 generation = true →
  fits_body (fits_list 4096 encodable) (encode_vector encode)
    (Ok (list_replicas (im_plane (crd_fabric co)) state generation)) = true →
  (command_replicas state generation text (Online co)).1 =
  (command_replicas (T:=T) state generation text (Offline (crd_fabric co))).1.
Proof.
  intros Hs Hg Hf. unfold command_replicas, ask, ask_client, ask_fabric, client_list_replicas.
  rewrite (client_result CO.LIST_REPLICAS [state; generation] _ (fits_list 4096 encodable)
    (encode_vector encode) (Ok (list_replicas (im_plane (crd_fabric co)) state generation)));
    [done|cbn; lia| |done|].
  - cbn [dispatch dispatch_transactions dispatch_decisions dispatch_administration]. unfold with_arguments. by rewrite decode_two_ids.
  - intros l Hl Hlen. by apply reads_decode_list.
Qed.

Lemma replica_agrees replica :
  fits_u64 replica = true →
  fits_body encodable encode (query_replica (im_plane (crd_fabric co)) replica) = true →
  (command_replica replica text (Online co)).1 =
  (command_replica (T:=T) replica text (Offline (crd_fabric co))).1.
Proof.
  intros Hr Hf. unfold command_replica, ask, ask_client, ask_fabric, client_query_replica.
  rewrite (client_result CO.QUERY_REPLICA [replica] _ encodable encode
    (query_replica (im_plane (crd_fabric co)) replica)); [done|cbn; lia| |done|].
  - cbn [dispatch dispatch_transactions dispatch_decisions dispatch_administration]. unfold with_arguments. by rewrite decode_one_id.
  - intros a Ha Hl. by apply reads_decode.
Qed.

(** The other two cross the wire with less than the fabric knows, but nothing the tool
    prints is lost. *)
Lemma reuse_agrees state generation cluster :
  fits_u64 state = true → fits_u64 generation = true → fits_u64 cluster = true →
  fits_body encodable_reuse encode_reuse
    (Ok (evaluate_reuse (im_plane (crd_fabric co)) (im_config (crd_fabric co)) state generation
           cluster)) = true →
  (command_reuse state generation cluster text (Online co)).1 =
  (command_reuse (T:=T) state generation cluster text (Offline (crd_fabric co))).1.
Proof.
  intros Hs Hg Hc [Ho Hl]%fits_body_ok.
  unfold command_reuse, ask, ask_client, ask_fabric, client_evaluate_reuse.
  rewrite (method_result CO.EVALUATE_REUSE (ids [state; generation; cluster]) _ encode_reuse
    reuse_on_the_wire (Ok (evaluate_reuse (im_plane (crd_fabric co)) (im_config (crd_fabric co))
      state generation cluster))); [done| | |done|apply ids_fit; cbn; lia].
  - cbn [dispatch dispatch_transactions dispatch_decisions dispatch_administration]. unfold with_arguments. by rewrite decode_three_ids.
  - intros b [= <-]. split; [|done].
    apply reads_to_end_all; [by apply reads_reuse|by apply frame_fits_u64].
Qed.

Lemma reconcile_agrees state generation :
  fits_u64 state = true → fits_u64 generation = true →
  fits_body encodable_reconciliation encode_reconciliation
    (reconcile_replica_set (im_plane (crd_fabric co)) state generation) = true →
  (command_reconcile state generation text (Online co)).1 =
  (command_reconcile (T:=T) state generation text (Offline (crd_fabric co))).1.
Proof.
  intros Hs Hg Hf.
  unfold command_reconcile, ask, ask_client, ask_fabric, client_reconcile_replica_set.
  rewrite (method_result CO.RECONCILE_REPLICA_SET (ids [state; generation]) _ encode_reconciliation
    reconciliation_on_the_wire (reconcile_replica_set (im_plane (crd_fabric co)) state generation));
    [| | |done|apply ids_fit; cbn; lia].
  - cbn [fmap option_fmap option_map fst]. by destruct (reconcile_replica_set _ state generation).
  - cbn [dispatch dispatch_transactions dispatch_decisions dispatch_administration]. unfold with_arguments. by rewrite decode_two_ids.
  - intros b E. rewrite E in Hf. apply fits_body_ok in Hf as [Ho Hl]. split; [|done].
    apply reads_to_end_all; [by apply reads_reconciliation|by apply frame_fits_u64].
Qed.

Lemma run_command_agrees rest :
  answer_fits rest (crd_fabric co) = true →
  (run_command rest text (Online co)).1 = (run_command (T:=T) rest text (Offline (crd_fabric co))).1.
Proof.
  unfold answer_fits, run_command. cbv zeta. destruct rest as [|command parameters]; [done|].
  destruct (bool_decide_reflect (command = "status")) as [->|_]; [done|].
  destruct (bool_decide (command = "clusters")); [apply clusters_agree|].
  destruct (bool_decide_reflect (command = "states")) as [->|_]; [done|].
  destruct (bool_decide (command = "state")).
  { destruct parameters as [|state [|generation more]]; [done..|].
    intros [Hv Hf]%andb_true_iff. by apply state_agrees; try apply parse_u64_fits. }
  destruct (bool_decide (command = "replicas")).
  { destruct parameters as [|state [|generation more]]; [done..|]. apply replicas_agree; apply parse_u64_fits. }
  destruct (bool_decide (command = "replica")).
  { destruct parameters as [|replica more]; [done..|]. apply replica_agrees; apply parse_u64_fits. }
  destruct (bool_decide (command = "reuse")).
  { destruct parameters as [|state [|generation [|cluster more]]]; [done..|].
    apply reuse_agrees; apply parse_u64_fits. }
  destruct (bool_decide (command = "reconcile")); [|done].
  destruct parameters as [|state [|generation more]]; [done..|]. apply reconcile_agrees; apply parse_u64_fits.
Qed.
End commands.
End agreement.

(** ** Offline inspection

    The offline reader opens the directory as a coordinator does. *)

(** Opening is a restart: the durable control plane moves to the next epoch and a new
    checkpoint is written, although the tool only answers queries. *)
Lemma offline_inspection_restarts {S} `{PersistenceStore S} directory store loaded (im : Impl S) :
  offline_reader directory (Some (store, Ok loaded)) = Ok im → pl_recovered loaded = true →
  0 < pl_coordinator_epoch loaded →
  pl_coordinator_epoch (im_plane im) = id_next (pl_coordinator_epoch loaded) ∧
  ∃ plane, store_write_checkpoint store plane = (None, default store (im_store im)) ∧
           pl_coordinator_epoch plane = id_next (pl_coordinator_epoch loaded).
Proof.
  unfold offline_reader, open. cbn [cfg_coordinator_id offline_config]. intros Hi Hr Hv.
  destruct (initialize_epoch _ _ _ _ Hi Hr) as [He _].
  assert (epoch_floor (offline_config directory) (pl_coordinator_epoch loaded) =
          pl_coordinator_epoch loaded) as Hf.
  { unfold epoch_floor, valid. cbn. by rewrite Z.gtb_ltb, (proj2 (Z.ltb_ge _ _)), (proj2 (Z.eqb_neq _ _)) by lia. }
  rewrite Hf in He. split; [exact He|]. revert Hi He. unfold initialize.
  destruct (initial_plane _ _) as [plane|] eqn:Ep; [|done].
  unfold force_checkpoint_locked. cbn [im_store].
  destruct (store_write_checkpoint store _) as [[e|] store'] eqn:Es; [done|]. intros [= <-] He.
  exists plane. split; [exact Es|exact He].
Qed.

(** The reader calls itself coordinator 1, so the directory of any other coordinator is
    reported as corrupt. *)
Lemma offline_inspection_of_another_coordinator {S} `{PersistenceStore S} directory (store : S) loaded :
  valid (pl_coordinator_id loaded) = true → pl_coordinator_id loaded ≠ 1 →
  offline_reader directory (Some (store, Ok loaded)) = Err EC.PERSISTENCE_CORRUPT.
Proof.
  intros Hv Hne.
  assert (initial_plane (offline_config directory) (Some loaded) = Err EC.PERSISTENCE_CORRUPT) as E.
  { unfold initial_plane, adopt_config.
    change (pl_coordinator_id (loaded <| pl_persistence_enabled := true |>)) with (pl_coordinator_id loaded).
    change (cfg_coordinator_id (offline_config directory)) with 1.
    by rewrite Hv, (proj2 (Z.eqb_neq _ _) Hne). }
  unfold offline_reader, open. change (cfg_coordinator_id (offline_config directory)) with 1.
  unfold initialize. by rewrite E.
Qed.

(** ** Properties *)


(** What the tool says of the replica the migration left behind. *)
Example retired_replica_is_shown :
  (run_command ["replica"; "100"] "" (Online (demo_served <| crd_fabric := after migrated |>))).1 =
  Some (mkOutcome
     ["replica 100 g1 state=5 g1 cluster=10 incarnation=1 lifecycle=RETIRED integrity=VERIFIED compatibility=COMPATIBLE authority=HISTORICAL counts=no digest=0101010101010101010101010101010101010101010101010101010101010101"]
     [] 0).
Proof. vm_compute. reflexivity. Qed.

Lemma Forall_true_lift {A} (f : A → bool) (P : A → Prop) l :
  forallb f l = true → (∀ a, f a = true → P a) → Forall P l.
Proof.
  intros Hl Hp. apply list.Forall_forall. intros a Ha. apply Hp.
  by apply (proj1 (forallb_forall _ _) Hl), list_elem_of_In.
Qed.

