(* ===== verification/Accelerator.v ===== *)
(** * The accelerator backend ([cuda/ccsf_cuda_backend.cu], [cuda/ccsf_cuda_proof_main.cpp])

    The example backend that produces a state payload on a device: the generator of its
    inputs, the kernel over its grid of threads, the reference it is compared with, the
    allocations it holds and every path that returns.  Numbers are binary32 patterns with
    the rounding of the standard.  The device is not part of the repository: what its runtime
    answers, the order in which the threads run and the way the device compiler rounds a
    multiply-add are arguments. *)

From Stdlib Require Import Znumtheory Zpow_facts SpecFloat.
From S2P Require Import Prelude Taxonomy Bytes Digest Applications.

Local Open Scope Z_scope.

(** ** Binary32 *)

Module Float.

(** A [float] is the 32 bits that [memcpy] moves. *)
Definition float : Type := Z.

Definition sign_bit (s : bool) : Z := if s then 2 ^ 31 else 0.

Definition of_bits (w : float) : spec_float :=
  let s := Z.testbit w 31 in
  let exponent := Z.land (Z.shiftr w 23) 255 in
  let fraction := Z.land w 8388607 in
  if exponent =? 255 then if fraction =? 0 then S754_infinity s else S754_nan
  else if exponent =? 0
  then match fraction with Zpos m => S754_finite s m (-149) | _ => S754_zero s end
  else S754_finite s (Z.to_pos (fraction + 2 ^ 23)) (exponent - 150).

Definition to_bits (f : spec_float) : float :=
  u32 (match f with
       | S754_zero s => sign_bit s
       | S754_infinity s => sign_bit s + 2139095040
       | S754_nan => 2143289344
       | S754_finite s m e =>
           if Zpos m <? 2 ^ 23 then sign_bit s + Zpos m
           else sign_bit s + (e + 150) * 2 ^ 23 + (Zpos m - 2 ^ 23)
       end).

Definition of_Z (z : Z) : float := to_bits (binary_normalize 24 128 z 0 false).
Definition add (a b : float) : float := to_bits (SFadd 24 128 (of_bits a) (of_bits b)).
Definition sub (a b : float) : float := to_bits (SFsub 24 128 (of_bits a) (of_bits b)).
Definition mul (a b : float) : float := to_bits (SFmul 24 128 (of_bits a) (of_bits b)).
Definition div (a b : float) : float := to_bits (SFdiv 24 128 (of_bits a) (of_bits b)).
Definition opp (a : float) : float := to_bits (SFopp (of_bits a)).
Definition ltb (a b : float) : bool := SFltb (of_bits a) (of_bits b).

Definition is_nan (w : float) : bool :=
  match of_bits w with S754_nan => true | _ => false end.

Lemma to_bits_range f : 0 ≤ to_bits f < 2 ^ 32.
Proof. unfold to_bits, u32. apply Z.mod_pos_bound. lia. Qed.

(** The three fields of a pattern. *)
Lemma fields w :
  0 ≤ w < 2 ^ 32 →
  w = sign_bit (Z.testbit w 31) + Z.land (Z.shiftr w 23) 255 * 2 ^ 23 + Z.land w 8388607.
Proof.
  intros Hw.
  change 255 with (Z.ones 8). change 8388607 with (Z.ones 23).
  rewrite !Z.land_ones, Z.shiftr_div_pow2 by lia.
  pose proof (Z.testbit_spec' w 31 ltac:(lia)) as Hs.
  assert (w / 2 ^ 31 < 2) by (apply Z.div_lt_upper_bound; lia).
  assert (0 ≤ w / 2 ^ 31) by (apply Z.div_pos; lia).
  rewrite Z.mod_small in Hs by lia.
  pose proof (Z.div_mod w (2 ^ 23) ltac:(lia)) as H23.
  pose proof (Z.div_mod (w / 2 ^ 23) (2 ^ 8) ltac:(lia)) as H8.
  rewrite Z.div_div in H8 by lia. change (2 ^ 23 * 2 ^ 8) with (2 ^ 31) in H8.
  unfold sign_bit. destruct (Z.testbit w 31); cbn [Z.b2z] in Hs; rewrite <-Hs in H8; lia.
Qed.

(** Reading a pattern and writing it again gives the pattern back, except that every NaN is
    written as the same one. *)
Lemma to_bits_of_bits w : 0 ≤ w < 2 ^ 32 → is_nan w = false → to_bits (of_bits w) = w.
Proof.
  intros Hw Hnan. pose proof (fields w Hw) as Hf. unfold is_nan, of_bits, to_bits in *.
  set (s := Z.testbit w 31) in *. set (x := Z.land (Z.shiftr w 23) 255) in *.
  set (m := Z.land w 8388607) in *.
  assert (0 ≤ m < 2 ^ 23) as Hm.
  { subst m. change 8388607 with (Z.ones 23). rewrite Z.land_ones by lia. apply Z.mod_pos_bound. lia. }
  assert (0 ≤ x < 256) as Hx.
  { subst x. change 255 with (Z.ones 8). rewrite Z.land_ones by lia. apply Z.mod_pos_bound. lia. }
  assert (∀ z, z = w → u32 z = w) as Hu.
  { intros z ->. unfold u32. apply Z.mod_small. lia. }
  apply Hu.
  destruct (x =? 255) eqn:E1; [destruct (m =? 0) eqn:E2; [lia|done]|].
  destruct (x =? 0) eqn:E2.
  - destruct m as [|p|p] eqn:Em; [lia| |lia].
    rewrite (proj2 (Z.ltb_lt _ _)) by lia. lia.
  - rewrite Z2Pos.id by lia. rewrite (proj2 (Z.ltb_ge _ _)) by lia. lia.
Qed.

(** A value less itself is a zero or a NaN, which no bound is below. *)
Lemma sub_self a : of_bits (sub a a) = S754_zero false ∨ of_bits (sub a a) = S754_nan.
Proof.
  assert (∀ f, SFsub 24 128 f f = S754_zero false ∨ SFsub 24 128 f f = S754_nan) as H.
  { intros [s|s| |s m e]; cbn; [by destruct s; left|by destruct s; right|by right|].
    left. by rewrite Z.sub_diag. }
  unfold sub. destruct (H (of_bits a)) as [-> | ->]; [left|right]; vm_compute; done.
Qed.

End Float.

Abbreviation float := Float.float.

(** ** The inputs *)

(** The generator of [build_inputs]: three shifts of a 64-bit state. *)
Definition next (state : Z) : Z :=
  let state := Z.lxor state (u64 (Z.shiftl state 13)) in
  let state := Z.lxor state (Z.shiftr state 7) in
  Z.lxor state (u64 (Z.shiftl state 17)).

Definition first_state (seed : Z) : Z := if seed =? 0 then 0x2545F4914F6CDD1D else seed.

Definition input_value (raw : Z) : float :=
  Float.div (Float.sub (Float.of_Z raw) (Float.of_Z 1000)) (Float.of_Z 1000).

Fixpoint fill (count : nat) (state : Z) : list float :=
  match count with
  | O => []
  | S count => let state := next state in input_value (u32 (state mod 2000)) :: fill count state
  end.

(** The elements of the inputs followed by those of the weights, in the width the code computes
    them in. *)
Definition element_count (rows columns : Z) : Z := u64 (u64 (rows * columns) + columns).

Definition build_inputs (rows columns seed : Z) : list float :=
  fill (Z.to_nat (element_count rows columns)) (first_state seed).

Lemma length_fill count state : length (fill count state) = count.
Proof. revert state. induction count as [|count IH]; intros state; cbn; [done|by rewrite IH]. Qed.

Lemma lxor_width a b n : 0 ≤ n → 0 ≤ a < 2 ^ n → 0 ≤ b < 2 ^ n → 0 ≤ Z.lxor a b < 2 ^ n.
Proof.
  intros Hn Ha Hb.
  assert (Z.lxor a b = Z.lxor a b mod 2 ^ n) as ->; [|apply Z.mod_pos_bound; lia].
  rewrite <-Z.land_ones by lia. apply Z.bits_inj'. intros i Hi.
  rewrite Z.land_spec.
  destruct (decide (i < n)) as [H|H].
  - rewrite Z.ones_spec_low by lia. by rewrite andb_true_r.
  - rewrite Z.ones_spec_high by lia. rewrite andb_false_r, Z.lxor_spec.
    rewrite <-(Z.mod_small a (2 ^ n)), <-(Z.mod_small b (2 ^ n)) by lia.
    by rewrite !Z.mod_pow2_bits_high by lia.
Qed.

(** A shift to the left changes every state but zero. *)
Lemma shift_left_moves state k :
  0 < k → 0 ≤ state < 2 ^ 64 → Z.lxor state (u64 (Z.shiftl state k)) = 0 → state = 0.
Proof.
  intros Hk Hs H. apply Z.lxor_eq in H. rewrite Z.shiftl_mul_pow2 in H by lia. unfold u64 in H.
  pose proof (Z.div_mod (state * 2 ^ k) (2 ^ 64) ltac:(lia)) as Hdm.
  rewrite <-H in Hdm.
  assert ((2 ^ 64 | (2 ^ k - 1) * state)) as Hd.
  { exists (state * 2 ^ k / 2 ^ 64). lia. }
  apply Z.gauss in Hd.
  - destruct (decide (state = 0)) as [?|Hne]; [done|]. apply Z.divide_pos_le in Hd; lia.
  - apply Zgcd_1_rel_prime, rel_prime_sym, rel_prime_Zpower_r, rel_prime_sym; [lia|].
    apply bezout_rel_prime, (Bezout_intro _ _ _ (2 ^ (k - 1)) (-1)).
    replace k with (Z.succ (k - 1)) at 2 by lia. rewrite Z.pow_succ_r by lia. lia.
Qed.

Lemma shift_right_moves state k :
  0 < k → 0 ≤ state → Z.lxor state (Z.shiftr state k) = 0 → state = 0.
Proof.
  intros Hk Hs H. apply Z.lxor_eq in H. rewrite Z.shiftr_div_pow2 in H by lia.
  destruct (decide (state = 0)) as [?|Hne]; [done|].
  assert (1 < 2 ^ k) by (apply Z.pow_gt_1; lia).
  pose proof (Z.div_lt state (2 ^ k)). lia.
Qed.

(** The generator stays within 64 bits and never reaches zero, where it would repeat one
    value. *)
Lemma next_nonzero state : 0 < state < 2 ^ 64 → 0 < next state < 2 ^ 64.
Proof.
  intros Hs. unfold next.
  set (a := Z.lxor state (u64 (Z.shiftl state 13))).
  assert (0 ≤ a < 2 ^ 64) as Ha by (apply lxor_width; [lia|lia|exact (u64_range _)]).
  assert (a ≠ 0) as Ha0.
  { intros H. apply shift_left_moves in H; lia. }
  set (b := Z.lxor a (Z.shiftr a 7)).
  assert (0 ≤ b < 2 ^ 64) as Hb.
  { apply lxor_width; [lia|lia|]. rewrite Z.shiftr_div_pow2 by lia.
    pose proof (Z.div_pos a (2 ^ 7)). pose proof (Z.div_lt a (2 ^ 7)). lia. }
  assert (b ≠ 0) as Hb0.
  { intros H. apply shift_right_moves in H; lia. }
  assert (0 ≤ Z.lxor b (u64 (Z.shiftl b 17)) < 2 ^ 64) as Hc
    by (apply lxor_width; [lia|lia|exact (u64_range _)]).
  assert (Z.lxor b (u64 (Z.shiftl b 17)) ≠ 0); [|lia].
  intros H. apply shift_left_moves in H; lia.
Qed.

Lemma first_state_nonzero seed : 0 ≤ seed < 2 ^ 64 → 0 < first_state seed < 2 ^ 64.
Proof. unfold first_state. destruct (seed =? 0) eqn:E; lia. Qed.

(** ** The kernel *)

Section Kernel.

(** [accumulator += a * b]. *)
Context (multiply_add : float → float → float → float).

(** One buffer holds the inputs and then the weights; a read past its end is a fault. *)
Definition read (buffer : list float) (index : Z) : option float := buffer !! Z.to_nat index.

(** The loop over the columns. *)
Fixpoint accumulate (turns : nat) (buffer : list float) (weights row columns column : Z)
    (accumulator : float) : option float :=
  match turns with
  | O => Some accumulator
  | S turns =>
      a ← read buffer (u64 (u64 (row * columns) + column));
      b ← read buffer (weights + column);
      accumulate turns buffer weights row columns (u64 (column + 1)) (multiply_add accumulator a b)
  end.

(** One thread of [gemv_kernel]: block and index in the block. *)
Definition thread_row (thread : Z * Z) : Z := u64 (u64 (thread.1 * 128) + thread.2).

Definition gemv_kernel (buffer : list float) (weights rows columns : Z) (thread : Z * Z)
    (outputs : list float) : option (list float) :=
  let row := thread_row thread in
  if row >=? rows then Some outputs
  else
    accumulator ← accumulate (Z.to_nat columns) buffer weights row columns 0 0;
    if row <? Z.of_nat (length outputs) then Some (<[Z.to_nat row := accumulator]> outputs)
    else None.

(** The threads of a launch, run in some order. *)
Definition grid (blocks : Z) : list (Z * Z) :=
  block ← seqZ 0 blocks; thread ← seqZ 0 128; [(block, thread)].

Fixpoint run_threads (buffer : list float) (weights rows columns : Z) (order : list (Z * Z))
    (outputs : list float) : option (list float) :=
  match order with
  | [] => Some outputs
  | thread :: order =>
      outputs ← gemv_kernel buffer weights rows columns thread outputs;
      run_threads buffer weights rows columns order outputs
  end.

(** The rows one after the other, as [reference_tensor_state] computes them. *)
Definition row_values (buffer : list float) (weights rows columns : Z) : option (list float) :=
  mapM (λ row, accumulate (Z.to_nat columns) buffer weights row columns 0 0) (seqZ 0 rows).

(** *** Every row is computed once, in any order *)

Context (buffer : list float) (rows columns : Z).
Hypothesis (Hrows : 0 ≤ rows) (Hcolumns : 0 ≤ columns).
Hypothesis Hwidth : rows * columns + columns < 2 ^ 64.
Hypothesis Hrows64 : rows + 127 < 2 ^ 64.
Hypothesis Hbuffer : Z.of_nat (length buffer) = rows * columns + columns.

Lemma read_in_range index :
  0 ≤ index < rows * columns + columns → ∃ v, read buffer index = Some v.
Proof. intros H. unfold read. apply lookup_lt_is_Some_2. lia. Qed.

Lemma accumulate_in_range row turns column accumulator :
  0 ≤ row < rows → 0 ≤ column → column + Z.of_nat turns = columns →
  ∃ v, accumulate turns buffer (rows * columns) row columns column accumulator = Some v.
Proof.
  intros Hrow. revert column accumulator.
  induction turns as [|turns IH]; intros column accumulator Hc Ht; cbn [accumulate]; [eauto|].
  assert (row * columns + column < rows * columns) by nia.
  rewrite (u64_id (row * columns)), (u64_id (row * columns + column)), (u64_id (column + 1)) by nia.
  destruct (read_in_range (row * columns + column)) as [a ->]; [nia|].
  destruct (read_in_range (rows * columns + column)) as [b ->]; [nia|].
  cbn. apply IH; lia.
Qed.

Definition row_value (row : Z) : option float :=
  accumulate (Z.to_nat columns) buffer (rows * columns) row columns 0 0.

Lemma row_value_defined row : 0 ≤ row < rows → ∃ v, row_value row = Some v.
Proof.
  intros Hrow. apply accumulate_in_range; lia.
Qed.

Lemma row_values_defined :
  ∃ values, row_values buffer (rows * columns) rows columns = Some values ∧
    Z.of_nat (length values) = rows ∧
    ∀ row, 0 ≤ row < rows → values !! Z.to_nat row = row_value row.
Proof.
  destruct (mapM row_value (seqZ 0 rows)) as [values|] eqn:E.
  - exists values. split; [exact E|]. apply mapM_Some in E.
    pose proof (list.Forall2_length _ _ _ E) as Hl. rewrite length_seqZ in Hl. split; [lia|].
    intros row Hrow.
    destruct (list.Forall2_lookup_l _ _ _ (Z.to_nat row) row E) as (v & -> & Hv); [|done].
    apply lookup_seqZ. lia.
  - exfalso. apply mapM_None in E. apply list.Exists_exists in E as (row & Hrow & Hn).
    apply elem_of_seqZ in Hrow. destruct (row_value_defined row) as [v Hv]; [lia|congruence].
Qed.

(** After some threads the rows they own hold their values and the others are as before. *)
Lemma run_threads_lookup order outputs :
  Z.of_nat (length outputs) = rows →
  Forall (λ thread, 0 ≤ thread_row thread) order →
  ∃ outputs', run_threads buffer (rows * columns) rows columns order outputs = Some outputs' ∧
    length outputs' = length outputs ∧
    ∀ row, 0 ≤ row < rows →
      outputs' !! Z.to_nat row =
      if bool_decide (row ∈ map thread_row order) then row_value row
      else outputs !! Z.to_nat row.
Proof.
  revert outputs. induction order as [|thread order IH]; intros outputs Hl Hpos.
  { exists outputs. split_and!; [done..|]. intros row Hrow. by rewrite bool_decide_eq_false_2 by set_solver. }
  apply list.Forall_cons in Hpos as [Hpos1 Hpos]. cbn [run_threads]. unfold gemv_kernel.
  destruct (thread_row thread >=? rows) eqn:Eg; cbn [mbind option_bind].
  - destruct (IH outputs Hl Hpos) as (outputs' & -> & Hl' & Hv). exists outputs'. split_and!; [done..|].
    intros row Hrow. rewrite (Hv row Hrow). cbn [map].
    rewrite (bool_decide_ext (row ∈ thread_row thread :: map thread_row order) (row ∈ map thread_row order)); [done|].
    rewrite list.elem_of_cons. split; [intros [->|?]; [lia|done]|auto].
  - destruct (row_value_defined (thread_row thread)) as [v Hv]; [lia|].
    unfold row_value in Hv. rewrite Hv. cbn [mbind option_bind].
    rewrite (proj2 (Z.ltb_lt _ _)) by lia. cbn [mbind option_bind].
    destruct (IH (<[Z.to_nat (thread_row thread) := v]> outputs)) as (outputs' & -> & Hl' & Hv');
      [by rewrite length_insert|done|].
    exists outputs'. split_and!; [done|by rewrite Hl', length_insert|].
    intros row Hrow. rewrite (Hv' row Hrow). cbn [map].
    destruct (decide (row ∈ map thread_row order)) as [Hin|Hin].
    { rewrite !bool_decide_eq_true_2; [done|set_solver|done]. }
    rewrite (bool_decide_eq_false_2 _ Hin).
    destruct (decide (row = thread_row thread)) as [->|Hne].
    + rewrite bool_decide_eq_true_2 by set_solver. rewrite list_lookup_insert_eq by lia. done.
    + rewrite bool_decide_eq_false_2 by set_solver. rewrite list_lookup_insert_ne by lia. done.
Qed.

Lemma elem_of_grid blocks block thread :
  (block, thread) ∈ grid blocks ↔ 0 ≤ block < blocks ∧ 0 ≤ thread < 128.
Proof.
  unfold grid. rewrite list_elem_of_bind. split.
  - intros (b & Hin & Hb). rewrite list_elem_of_bind in Hin. destruct Hin as (t & Hin & Ht).
    rewrite elem_of_seqZ in Ht, Hb. apply list_elem_of_singleton in Hin. simplify_eq. lia.
  - intros [Hb Ht]. exists block. rewrite elem_of_seqZ. split; [|lia].
    rewrite list_elem_of_bind. exists thread. rewrite elem_of_seqZ. split; [set_solver|lia].
Qed.

Definition block_count : Z := u32 (u64 (rows + 127) / 128).

(** A grid of enough blocks computes the rows of the reference, whatever order its threads run
    in and whatever the outputs held before. *)
Lemma launch_computes_rows order outputs :
  rows < 2 ^ 32 →
  order ≡ₚ grid block_count →
  Z.of_nat (length outputs) = rows →
  run_threads buffer (rows * columns) rows columns order outputs =
  row_values buffer (rows * columns) rows columns.
Proof.
  intros Hsmall Horder Hl.
  assert (Forall (λ thread, 0 ≤ thread_row thread) order) as Hpos.
  { apply list.Forall_forall. intros thread _. unfold thread_row. apply u64_range. }
  destruct (run_threads_lookup order outputs Hl Hpos) as (outputs' & -> & Hl' & Hv).
  destruct row_values_defined as (values & -> & Hlv & Hvv). f_equal.
  apply list_eq_same_length with (n := length values); [done|lia|].
  intros i x y Hi Hx Hy.
  specialize (Hv (Z.of_nat i)). specialize (Hvv (Z.of_nat i)). rewrite Nat2Z.id in Hv, Hvv.
  rewrite Hvv in Hy by lia. rewrite Hv in Hx by lia.
  rewrite bool_decide_eq_true_2 in Hx; [congruence|].
  set (row := Z.of_nat i) in *. assert (0 ≤ row < rows) as Hrow by lia.
  apply list_elem_of_In, in_map_iff. exists (row / 128, row mod 128).
  pose proof (Z.div_mod row 128 ltac:(lia)). pose proof (Z.mod_pos_bound row 128 ltac:(lia)).
  pose proof (Z.div_pos row 128 ltac:(lia) ltac:(lia)). split.
  - unfold thread_row; cbn [fst snd]. rewrite (u64_id (row / 128 * 128)), u64_id by lia. lia.
  - apply list_elem_of_In. rewrite Horder. apply elem_of_grid. split; [|lia]. split; [lia|].
    unfold block_count. rewrite (u64_id (rows + 127)) by lia.
    pose proof (Z.div_mod (rows + 127) 128 ltac:(lia)).
    pose proof (Z.mod_pos_bound (rows + 127) 128 ltac:(lia)).
    unfold u32. rewrite Z.mod_small by lia. lia.
Qed.

End Kernel.

(** ** The reference on the host *)

(** The host rounds the product and then the sum. *)
Definition host_multiply_add (accumulator a b : float) : float :=
  Float.add accumulator (Float.mul a b).

Definition reference_tensor_state (rows columns seed : Z) : option (list float) :=
  row_values host_multiply_add (build_inputs rows columns seed) (u64 (rows * columns)) rows columns.

(** ** Bytes *)

(** [memcpy] of floats on a little-endian host. *)
Definition float_bytes (w : float) : list Z :=
  [ByteWriter.byte_at w 0; ByteWriter.byte_at w 8; ByteWriter.byte_at w 16; ByteWriter.byte_at w 24].

Definition to_bytes (values : list float) : list Z := values ≫= float_bytes.

Fixpoint from_bytes (bytes : list Z) : list float :=
  match bytes with
  | a :: b :: c :: d :: rest => (a + b * 2 ^ 8 + c * 2 ^ 16 + d * 2 ^ 24) :: from_bytes rest
  | _ => []
  end.

Lemma length_to_bytes values : length (to_bytes values) = (4 * length values)%nat.
Proof. induction values as [|w values IH]; cbn; [done|]. fold (to_bytes values). lia. Qed.

Lemma from_bytes_to_bytes values :
  Forall (λ w, 0 ≤ w < 2 ^ 32) values → from_bytes (to_bytes values) = values.
Proof.
  induction 1 as [|w values Hw _ IH]; [done|]. cbn. fold (to_bytes values). rewrite IH. f_equal.
  unfold ByteWriter.byte_at. change 255 with (Z.ones 8).
  rewrite !Z.land_ones, !Z.shiftr_div_pow2 by lia. change (2 ^ 0) with 1. rewrite Z.div_1_r.
  pose proof (Z.div_mod w (2 ^ 8) ltac:(lia)) as H1.
  pose proof (Z.div_mod (w / 2 ^ 8) (2 ^ 8) ltac:(lia)) as H2.
  pose proof (Z.div_mod (w / 2 ^ 16) (2 ^ 8) ltac:(lia)) as H3.
  rewrite Z.div_div in H2, H3 by lia. change (2 ^ 8 * 2 ^ 8) with (2 ^ 16) in H2.
  change (2 ^ 16 * 2 ^ 8) with (2 ^ 24) in H3.
  assert (w / 2 ^ 24 < 2 ^ 8) by (apply Z.div_lt_upper_bound; lia).
  pose proof (Z.div_pos w (2 ^ 24)). rewrite (Z.mod_small (w / 2 ^ 24)) by lia. lia.
Qed.

(** ** Comparing a payload with the reference *)

Definition magnitude (difference : float) : float :=
  if Float.ltb difference 0 then Float.opp difference else difference.

Definition element_agrees (tolerance decoded expected : float) : bool :=
  negb (Float.ltb tolerance (magnitude (Float.sub decoded expected))).

Definition tensors_agree (device_bytes : list Z) (reference : list float) (tolerance : float) : bool :=
  bool_decide (length device_bytes = (length reference * 4)%nat) &&
  forallb (λ pair, element_agrees tolerance pair.1 pair.2) (zip (from_bytes device_bytes) reference).

(** ** The device *)

(** What the runtime answers during one call, and what fresh memory holds. *)
Record DeviceAnswers := mkDeviceAnswers {
  da_malloc_inputs : bool;
  da_malloc_outputs : bool;
  da_copy_in : bool;
  da_launch : bool;
  da_synchronize : bool;
  da_copy_out : bool;
  da_fresh : Z → float;
  da_order : list (Z * Z)
}.

(** The buffers held on the device, and the number the backend keeps of them. *)
Inductive Buffer := InputBuffer | OutputBuffer.

#[export] Instance Buffer_eq_dec : EqDecision Buffer.
Proof. solve_decision. Defined.

Record Backend := mkBackend { be_held : list Buffer; be_live_allocations : Z }.

Definition cuda_malloc (buffer : Buffer) (backend : Backend) : Backend :=
  mkBackend (buffer :: be_held backend) (u64 (be_live_allocations backend + 1)).

Fixpoint cuda_free (buffer : Buffer) (held : list Buffer) : list Buffer :=
  match held with
  | [] => []
  | other :: held => if bool_decide (other = buffer) then held else other :: cuda_free buffer held
  end.

(** Both buffers are freed and the number goes down by two. *)
Definition release_both (backend : Backend) : Backend :=
  mkBackend (cuda_free OutputBuffer (cuda_free InputBuffer (be_held backend)))
    (u64 (be_live_allocations backend - 2)).

(** How a call ends: with a result, with an exception of the standard library, or with an
    access outside a buffer. *)
Inductive Ending := Returned (result : Result (list Z)) | Thrown | OutOfBounds.

(** The largest vector of floats. *)
Definition max_floats : Z := 2305843009213693951.

Section Generate.

(** The multiply-add of the device. *)
Context (multiply_add : float → float → float → float).

(** What the device computes once both buffers exist: copy in, launch, wait, copy out. *)
Definition compute (answers : DeviceAnswers) (rows columns output_bytes : Z)
    (host_inputs : list float) : Ending :=
  if negb (da_copy_in answers) then Returned (Err EC.INTERNAL_ERROR)
  else
    let blocks := block_count rows in
    if negb (da_launch answers) || (blocks =? 0) || (blocks >? 2147483647)
    then Returned (Err EC.INTERNAL_ERROR)
    else
      match run_threads multiply_add host_inputs (u64 (rows * columns)) rows columns
              (da_order answers) (map (da_fresh answers) (seqZ 0 (output_bytes / 4))) with
      | None => OutOfBounds
      | Some outputs =>
          if negb (da_synchronize answers) then Returned (Err EC.INTERNAL_ERROR)
          else if rows >? max_floats then Thrown
          else if negb (da_copy_out answers) then Returned (Err EC.INTERNAL_ERROR)
          else Returned (Ok (to_bytes outputs))
      end.

(** [generate_tensor_state]: an exception leaves both buffers where they are. *)
Definition generate_tensor_state (answers : DeviceAnswers) (rows columns seed : Z)
    (backend : Backend) : Ending * Backend :=
  if (rows =? 0) || (columns =? 0) then (Returned (Err EC.INVALID_ARGUMENT), backend)
  else
    let elements := element_count rows columns in
    let input_bytes := u64 (elements * 4) in
    let output_bytes := u64 (rows * 4) in
    if (input_bytes >? 2 ^ 30) || (output_bytes >? 2 ^ 30)
    then (Returned (Err EC.RESOURCE_EXHAUSTED), backend)
    else if elements >? max_floats then (Thrown, backend)
    else
      let host_inputs := build_inputs rows columns seed in
      if negb (da_malloc_inputs answers) then (Returned (Err EC.RESOURCE_EXHAUSTED), backend)
      else
        let backend := cuda_malloc InputBuffer backend in
        if negb (da_malloc_outputs answers)
        then (Returned (Err EC.RESOURCE_EXHAUSTED),
              mkBackend (cuda_free InputBuffer (be_held backend))
                (u64 (be_live_allocations backend - 1)))
        else
          let backend := cuda_malloc OutputBuffer backend in
          match compute answers rows columns output_bytes host_inputs with
          | Returned result => (Returned result, release_both backend)
          | ending => (ending, backend)
          end.

(** *** Whatever a call returns, it holds nothing afterwards *)

Lemma allocation_undone backend :
  0 ≤ be_live_allocations backend < 2 ^ 64 →
  mkBackend (cuda_free InputBuffer (be_held (cuda_malloc InputBuffer backend)))
    (u64 (be_live_allocations (cuda_malloc InputBuffer backend) - 1)) = backend.
Proof.
  destruct backend as [held live]. cbn. intros Hl. f_equal.
  unfold u64. rewrite Zminus_mod_idemp_l. replace (live + 1 - 1) with live by lia. apply Z.mod_small. lia.
Qed.

Lemma allocations_undone backend :
  0 ≤ be_live_allocations backend < 2 ^ 64 →
  release_both (cuda_malloc OutputBuffer (cuda_malloc InputBuffer backend)) = backend.
Proof.
  destruct backend as [held live]. cbn. intros Hl. unfold release_both. cbn. f_equal.
  unfold u64. rewrite Zminus_mod_idemp_l.
  replace ((live + 1) mod 2 ^ 64 + 1 - 2) with ((live + 1) mod 2 ^ 64 - 1) by lia.
  rewrite Zminus_mod_idemp_l. replace (live + 1 - 1) with live by lia. apply Z.mod_small. lia.
Qed.

Lemma returned_call_holds_nothing answers rows columns seed backend result backend' :
  0 ≤ be_live_allocations backend < 2 ^ 64 →
  generate_tensor_state answers rows columns seed backend = (Returned result, backend') →
  backend' = backend.
Proof.
  intros Hl H. unfold generate_tensor_state in H.
  do 3 match type of H with (if ?b then _ else _) = _ => destruct b; [by simplify_eq|] end.
  destruct (da_malloc_inputs answers); cbn [negb] in H; [|by simplify_eq].
  destruct (da_malloc_outputs answers); cbn [negb] in H.
  - destruct compute in H; simplify_eq. by apply allocations_undone.
  - injection H as _ <-. by apply allocation_undone.
Qed.

End Generate.

(** ** The state of the device *)

Record DeviceInfo := mkDeviceInfo {
  df_name : string;
  df_compute_major : Z;
  df_compute_minor : Z;
  df_total_memory_bytes : Z;
  df_free_memory_bytes : Z;
  df_runtime_version : Z;
  df_driver_version : Z
}.

(** What the runtime answers when the device is described; [None] is a call that fails. *)
Record DeviceReport := mkDeviceReport {
  dr_count : option Z;
  dr_properties : option (string * Z * Z);
  dr_memory : option (Z * Z);
  dr_runtime_version : Z;
  dr_driver_version : Z
}.

Definition device_info (report : DeviceReport) : Result DeviceInfo :=
  match dr_count report with
  | None => Err EC.NOT_SUPPORTED
  | Some count =>
      if count =? 0 then Err EC.NOT_SUPPORTED
      else
        match dr_properties report with
        | None => Err EC.NOT_SUPPORTED
        | Some (name, major, minor) =>
            match dr_memory report with
            | None => Err EC.NOT_SUPPORTED
            | Some (free_bytes, total_bytes) =>
                Ok (mkDeviceInfo name major minor total_bytes free_bytes
                      (dr_runtime_version report) (dr_driver_version report))
            end
        end
  end.

Definition free_memory_bytes (memory : option (Z * Z)) : Result Z :=
  match memory with None => Err EC.NOT_SUPPORTED | Some (free_bytes, _) => Ok free_bytes end.

Definition release_all (synchronized : bool) (memory : option (Z * Z)) (backend : Backend)
    (baseline_free_bytes tolerance_bytes : Z) : Result bool :=
  if negb synchronized then Err EC.INTERNAL_ERROR
  else if negb (be_live_allocations backend =? 0) then Err EC.INTERNAL_ERROR
  else
    match free_memory_bytes memory with
    | Err code => Err code
    | Ok free_bytes =>
        let returned :=
          if free_bytes >=? baseline_free_bytes then free_bytes - baseline_free_bytes
          else baseline_free_bytes - free_bytes in
        Ok (returned <=? tolerance_bytes)
    end.

(** ** The standalone proof *)

(** [1e-2f]. *)
Definition one_hundredth : float := 0x3C23D70A.

Definition kRows : Z := 8192.
Definition kColumns : Z := 1024.

Definition device_line (info : DeviceInfo) : string :=
  "device: " +:+ df_name info +:+ " sm_" +:+ to_string_i64 (df_compute_major info) +:+
  to_string_i64 (df_compute_minor info) +:+ " total=" +:+
  to_string_u64 (Z.shiftr (df_total_memory_bytes info) 20) +:+ " MiB free=" +:+
  to_string_u64 (Z.shiftr (df_free_memory_bytes info) 20) +:+ " MiB runtime=" +:+
  to_string_i64 (df_runtime_version info) +:+ " driver=" +:+ to_string_i64 (df_driver_version info).

Definition state_line (payload : list Z) (parity : bool) : string :=
  "device state: " +:+ to_string_u64 (Z.of_nat (length payload)) +:+ " bytes digest=" +:+
  hex (Sha256.sha256 payload) +:+ " cpu_parity=" +:+ (if parity then "pass" else "FAIL").

Definition restored (released : Result bool) : bool :=
  match released with Ok flag => flag | Err _ => false end.

(** [main]: [None] when the process ends by an exception or an access outside a buffer. *)
Definition cuda_proof_main (multiply_add : float → float → float → float) (report : DeviceReport)
    (answers : DeviceAnswers) (synchronized : bool) (memory : option (Z * Z)) : option Outcome :=
  match device_info report with
  | Err code => Some (mkOutcome [] [Failure "no usable CUDA device" (enum_value code)] 2)
  | Ok info =>
      match generate_tensor_state multiply_add answers kRows kColumns 0xC0FFEE (mkBackend [] 0) with
      | (Returned (Err code), _) =>
          Some (mkOutcome [device_line info] [Failure "device state generation failed" (enum_value code)] 1)
      | (Returned (Ok payload), backend) =>
          reference ← reference_tensor_state kRows kColumns 0xC0FFEE;
          let parity := tensors_agree payload reference one_hundredth in
          let released :=
            release_all synchronized memory backend (df_free_memory_bytes info) (64 * 1024 * 1024) in
          let memory_line := "device memory restored: " +:+ (if restored released then "yes" else "no") in
          Some (mkOutcome [device_line info; state_line payload parity; memory_line] []
                  (if negb parity || negb (restored released) then 1 else 0))
      | _ => None
      end
  end.

(** ** Within the bound the call computes the rows *)

(** The first call of the runtime that fails, with the code it is reported by. *)
Definition first_failure (answers : DeviceAnswers) : option ErrorCode :=
  if negb (da_malloc_inputs answers && da_malloc_outputs answers) then Some EC.RESOURCE_EXHAUSTED
  else if negb (da_copy_in answers && da_launch answers && da_synchronize answers && da_copy_out answers)
  then Some EC.INTERNAL_ERROR
  else None.

Definition shape_in_bound (rows columns : Z) : Prop :=
  0 < rows ∧ 0 < columns ∧ (rows * columns + columns) * 4 ≤ 2 ^ 30.

Lemma shape_rows rows columns : shape_in_bound rows columns → rows * 4 ≤ 2 ^ 30.
Proof. intros (? & ? & ?). nia. Qed.

Lemma shape_elements rows columns :
  shape_in_bound rows columns → element_count rows columns = rows * columns + columns.
Proof.
  intros (? & ? & ?). unfold element_count. rewrite (u64_id (rows * columns)), u64_id; nia.
Qed.

Lemma length_build_inputs rows columns seed :
  shape_in_bound rows columns →
  Z.of_nat (length (build_inputs rows columns seed)) = rows * columns + columns.
Proof.
  intros H. unfold build_inputs. rewrite length_fill, shape_elements by done.
  destruct H as (? & ? & ?). rewrite Z2Nat.id; nia.
Qed.

Lemma shape_block_count rows columns :
  shape_in_bound rows columns → 0 < block_count rows ≤ 2147483647.
Proof.
  intros H. pose proof (shape_rows _ _ H). destruct H as (? & ? & _). unfold block_count.
  rewrite u64_id by lia.
  pose proof (Z.div_mod (rows + 127) 128 ltac:(lia)).
  pose proof (Z.mod_pos_bound (rows + 127) 128 ltac:(lia)).
  unfold u32. rewrite Z.mod_small; lia.
Qed.

Section Within.

Context (multiply_add : float → float → float → float).
Context (answers : DeviceAnswers) (rows columns seed : Z).
Hypothesis Hshape : shape_in_bound rows columns.
Hypothesis Horder : da_order answers ≡ₚ grid (block_count rows).

(** The rows as this multiply-add computes them. *)
Definition tensor_rows : option (list float) :=
  row_values multiply_add (build_inputs rows columns seed) (u64 (rows * columns)) rows columns.

Lemma tensor_rows_defined : ∃ values, tensor_rows = Some values ∧ Z.of_nat (length values) = rows.
Proof.
  pose proof (shape_rows _ _ Hshape). pose proof (length_build_inputs rows columns seed Hshape).
  unfold tensor_rows. destruct Hshape as (? & ? & ?). rewrite u64_id by nia.
  destruct (row_values_defined multiply_add (build_inputs rows columns seed) rows columns)
    as (values & Hv & Hl & _); [nia..|done|]. eauto.
Qed.

Lemma compute_in_bound values :
  tensor_rows = Some values →
  compute multiply_add answers rows columns (rows * 4) (build_inputs rows columns seed) =
  Returned (if da_copy_in answers && da_launch answers && da_synchronize answers && da_copy_out answers
            then Ok (to_bytes values) else Err EC.INTERNAL_ERROR).
Proof.
  intros Hv. pose proof (shape_rows _ _ Hshape). pose proof (shape_block_count _ _ Hshape) as Hb.
  unfold compute. destruct (da_copy_in answers); [|done]. cbn [negb andb].
  destruct (da_launch answers); [|done]. cbn [negb andb orb].
  rewrite (proj2 (Z.eqb_neq _ _)), Z.gtb_ltb, (proj2 (Z.ltb_ge _ _)) by lia. cbn [orb].
  rewrite Z.div_mul by lia. unfold tensor_rows in Hv.
  pose proof (length_build_inputs rows columns seed Hshape). destruct Hshape as (? & ? & ?).
  rewrite u64_id in Hv |- * by nia.
  rewrite launch_computes_rows, Hv; [|nia..|done|by rewrite length_map, length_seqZ; lia].
  destruct (da_synchronize answers); [|done]. cbn [negb andb].
  rewrite Z.gtb_ltb, (proj2 (Z.ltb_ge _ _)) by (unfold max_floats; lia).
  by destruct (da_copy_out answers).
Qed.

Lemma generate_in_bound values backend :
  0 ≤ be_live_allocations backend < 2 ^ 64 →
  tensor_rows = Some values →
  generate_tensor_state multiply_add answers rows columns seed backend =
  (Returned (match first_failure answers with
             | None => Ok (to_bytes values)
             | Some code => Err code
             end), backend).
Proof.
  intros Hl Hv. pose proof (compute_in_bound values Hv) as Hc.
  pose proof (shape_rows _ _ Hshape). pose proof (shape_elements _ _ Hshape) as He.
  unfold generate_tensor_state. destruct Hshape as (? & ? & ?).
  rewrite (proj2 (Z.eqb_neq rows 0)), (proj2 (Z.eqb_neq columns 0)) by lia. cbn [orb].
  rewrite He, (u64_id (rows * 4)), (u64_id (_ * 4)) by nia.
  rewrite !Z.gtb_ltb, !(proj2 (Z.ltb_ge _ _)) by (unfold max_floats; nia). cbn [orb].
  unfold first_failure. destruct (da_malloc_inputs answers); cbn [negb andb]; [|done].
  destruct (da_malloc_outputs answers); cbn [negb].
  - rewrite Hc, allocations_undone by done. by destruct (_ && _).
  - by rewrite allocation_undone.
Qed.

End Within.

(** ** Parity with the reference *)

Lemma accumulate_ext f g turns buffer weights row columns column accumulator :
  (∀ a b c, f a b c = g a b c) →
  accumulate f turns buffer weights row columns column accumulator =
  accumulate g turns buffer weights row columns column accumulator.
Proof.
  intros Hfg. revert column accumulator.
  induction turns as [|turns IH]; intros column accumulator; cbn [accumulate]; [done|].
  destruct (read buffer (u64 (u64 (row * columns) + column))); cbn; [|done].
  destruct (read buffer (weights + column)); cbn; [|done]. by rewrite Hfg, IH.
Qed.

Lemma tensor_rows_reference multiply_add rows columns seed :
  (∀ a b c, multiply_add a b c = host_multiply_add a b c) →
  tensor_rows multiply_add rows columns seed = reference_tensor_state rows columns seed.
Proof.
  intros H. unfold tensor_rows, reference_tensor_state, row_values. generalize (seqZ 0 rows).
  induction l as [|row l IH]; cbn; [done|].
  rewrite (accumulate_ext _ host_multiply_add) by done. by rewrite IH.
Qed.

(** A row of the reference is a 32-bit pattern. *)
Lemma accumulate_pattern turns buffer weights row columns column accumulator v :
  0 ≤ accumulator < 2 ^ 32 →
  accumulate host_multiply_add turns buffer weights row columns column accumulator = Some v →
  0 ≤ v < 2 ^ 32.
Proof.
  revert column accumulator. induction turns as [|turns IH]; intros column accumulator Ha H;
    cbn [accumulate] in H; [by simplify_eq|].
  destruct (read buffer (u64 (u64 (row * columns) + column))); cbn in H; [|done].
  destruct (read buffer (weights + column)); cbn in H; [|done].
  eapply IH; [|exact H]. apply Float.to_bits_range.
Qed.

Lemma reference_patterns rows columns seed values :
  reference_tensor_state rows columns seed = Some values → Forall (λ w, 0 ≤ w < 2 ^ 32) values.
Proof.
  intros H. apply mapM_Some in H. apply list.Forall_forall. intros v Hv.
  apply list_elem_of_lookup in Hv as [i Hi].
  destruct (list.Forall2_lookup_r _ _ _ i v H Hi) as (row & _ & Hrow).
  eapply accumulate_pattern; [|exact Hrow]. lia.
Qed.

(** A value agrees with itself at every tolerance that is not negative. *)
Lemma element_agrees_self tolerance w :
  Float.ltb tolerance 0 = false → element_agrees tolerance w w = true.
Proof.
  intros Ht. unfold element_agrees, magnitude. apply negb_true_iff.
  assert (Float.ltb (Float.sub w w) 0 = false) as Hs.
  { unfold Float.ltb. destruct (Float.sub_self w) as [-> | ->]; done. }
  rewrite Hs. unfold Float.ltb in *.
  destruct (Float.sub_self w) as [-> | ->]; [exact Ht|]. by destruct (Float.of_bits tolerance).
Qed.

Lemma tensors_agree_self tolerance values :
  Float.ltb tolerance 0 = false → Forall (λ w, 0 ≤ w < 2 ^ 32) values →
  tensors_agree (to_bytes values) values tolerance = true.
Proof.
  intros Ht Hv. unfold tensors_agree. rewrite from_bytes_to_bytes, length_to_bytes by done.
  rewrite bool_decide_eq_true_2 by lia. cbn [andb]. apply forallb_forall. intros [a b] Hin.
  apply list_elem_of_In in Hin.
  assert (a = b) as ->; [|by apply element_agrees_self].
  apply list_elem_of_lookup in Hin as [i Hi]. apply lookup_zip_with_Some in Hi as (x & y & ? & ? & ?).
  congruence.
Qed.

(** ** Properties *)

(** C28: the device computes the reference.  For every shape within the bound, every seed, every order of the threads and every
    multiply-add of the device, the call returns: the code of the first call of the runtime that
    failed, or exactly the bytes of the rows.  Either way it holds no more device memory than
    before.  Where the device rounds the product and the sum as the host does, the payload is
    the reference, byte for byte, and agrees with it at every tolerance that is not negative. *)
Theorem device_state_is_the_reference multiply_add answers rows columns seed backend :
  shape_in_bound rows columns →
  da_order answers ≡ₚ grid (block_count rows) →
  0 ≤ be_live_allocations backend < 2 ^ 64 →
  ∃ values,
    tensor_rows multiply_add rows columns seed = Some values ∧
    Z.of_nat (length values) = rows ∧
    generate_tensor_state multiply_add answers rows columns seed backend =
    (Returned (match first_failure answers with
               | None => Ok (to_bytes values)
               | Some code => Err code
               end), backend) ∧
    ((∀ a b c, multiply_add a b c = host_multiply_add a b c) →
     reference_tensor_state rows columns seed = Some values ∧
     ∀ tolerance, Float.ltb tolerance 0 = false →
       tensors_agree (to_bytes values) values tolerance = true).
Proof.
  intros Hshape Horder Hlive.
  destruct (tensor_rows_defined multiply_add rows columns seed Hshape) as (values & Hv & Hl).
  exists values. split_and!; [done..|by apply generate_in_bound|].
  intros Hround. rewrite tensor_rows_reference in Hv by done. split; [done|].
  intros tolerance Ht. apply tensors_agree_self; [done|]. by eapply reference_patterns.
Qed.

(** A device that answers every call and runs its threads backwards. *)
Definition backward_answers (rows : Z) : DeviceAnswers :=
  mkDeviceAnswers true true true true true true (λ _, 0x7FC00000) (reverse (grid (block_count rows))).

Lemma device_state_is_the_reference_witness :
  ∃ values, generate_tensor_state host_multiply_add (backward_answers 3) 3 2 7 (mkBackend [] 0) =
            (Returned (Ok (to_bytes values)), mkBackend [] 0) ∧
            reference_tensor_state 3 2 7 = Some values.
Proof.
  destruct (device_state_is_the_reference host_multiply_add (backward_answers 3) 3 2 7 (mkBackend [] 0))
    as (values & _ & _ & Hg & Hr).
  - unfold shape_in_bound. lia.
  - apply reverse_Permutation.
  - cbn. lia.
  - exists values. split; [exact Hg|]. by apply Hr.
Defined.

(** The standalone proof exits with zero when the device answers every call, rounds as the host
    does and has its memory back. *)
Lemma proof_main_passes multiply_add report answers info free_bytes total_bytes :
  device_info report = Ok info →
  first_failure answers = None →
  da_order answers ≡ₚ grid (block_count kRows) →
  (∀ a b c, multiply_add a b c = host_multiply_add a b c) →
  Z.abs (free_bytes - df_free_memory_bytes info) ≤ 64 * 1024 * 1024 →
  ∃ lines, cuda_proof_main multiply_add report answers true (Some (free_bytes, total_bytes)) =
           Some (mkOutcome lines [] 0).
Proof.
  intros Hinfo Hok Horder Hround Hmem.
  assert (shape_in_bound kRows kColumns) as Hshape by (unfold shape_in_bound, kRows, kColumns; lia).
  destruct (tensor_rows_defined multiply_add kRows kColumns 0xC0FFEE Hshape) as (values & Hv & _).
  pose proof (generate_in_bound multiply_add answers kRows kColumns 0xC0FFEE Hshape Horder values
                (mkBackend [] 0) ltac:(cbn; lia) Hv) as Hg.
  rewrite tensor_rows_reference in Hv by done.
  pose proof (tensors_agree_self one_hundredth values eq_refl (reference_patterns _ _ _ _ Hv)) as Hp.
  unfold cuda_proof_main. rewrite Hinfo, Hg, Hok, Hv. cbn [mbind option_bind]. rewrite Hp.
  assert (release_all true (Some (free_bytes, total_bytes)) (mkBackend [] 0)
            (df_free_memory_bytes info) (64 * 1024 * 1024) = Ok true) as Hr.
  { unfold release_all. cbn [negb be_live_allocations Z.eqb free_memory_bytes]. f_equal.
    apply Z.leb_le. destruct (free_bytes >=? df_free_memory_bytes info) eqn:E; lia. }
  rewrite Hr. cbn [restored negb orb]. eexists. reflexivity.
Qed.

(** ** What the code does not do *)

(** The bounds are checked after products that wrap: this shape passes both, the exception of the
    oversized host vector leaves both buffers on the device, and from then on the release of the
    backend is refused. *)
Lemma wrapped_shape_leaks :
  generate_tensor_state host_multiply_add (backward_answers 128) (2 ^ 62 + 128) 4 7 (mkBackend [] 0) =
    (Thrown, mkBackend [OutputBuffer; InputBuffer] 2) ∧
  ∀ memory baseline tolerance,
    release_all true memory (mkBackend [OutputBuffer; InputBuffer] 2) baseline tolerance =
    Err EC.INTERNAL_ERROR.
Proof. split; [vm_compute|]; reflexivity. Qed.

(** With one row more the threads read and write outside their buffers. *)
Lemma wrapped_shape_out_of_bounds :
  (generate_tensor_state host_multiply_add (backward_answers 1) (2 ^ 62 + 1) 4 7 (mkBackend [] 0)).1 =
  OutOfBounds.
Proof. vm_compute. reflexivity. Qed.

(** A payload element that is not a number agrees with every reference at every tolerance. *)
Lemma nan_agrees_with_anything w expected tolerance :
  Float.is_nan w = true → element_agrees tolerance w expected = true.
Proof.
  intros Hn. unfold Float.is_nan in Hn. destruct (Float.of_bits w) eqn:E; try done.
  unfold element_agrees, magnitude, Float.sub. rewrite E.
  assert (SFsub 24 128 S754_nan (Float.of_bits expected) = S754_nan) as -> by (by destruct (Float.of_bits expected)).
  change (Float.ltb (Float.to_bits S754_nan) 0) with false. unfold Float.ltb.
  change (Float.of_bits (Float.to_bits S754_nan)) with S754_nan. by destruct (Float.of_bits tolerance).
Qed.

(** The inputs lie between minus one and one. *)
Lemma input_values_bounded raw :
  0 ≤ raw < 2000 →
  Float.ltb (input_value raw) (Float.of_Z (-1)) = false ∧ Float.ltb (input_value raw) (Float.of_Z 1) = true.
Proof.
  assert (forallb (λ raw, negb (Float.ltb (input_value raw) (Float.of_Z (-1))) &&
                          Float.ltb (input_value raw) (Float.of_Z 1)) (seqZ 0 2000) = true) as H
    by (vm_compute; reflexivity).
  intros Hr. rewrite forallb_forall in H.
  assert (raw ∈ seqZ 0 2000) as Hin by (apply elem_of_seqZ; lia).
  apply list_elem_of_In, H in Hin as H'. clear H. rename H' into H.
  apply andb_true_iff in H as [H1 H2]. apply negb_true_iff in H1. done.
Qed.
