(* ===== verification/Examples.v ===== *)
(** * The examples ([examples/common.hpp], [examples/ex_*.cpp])

    The programs the repository ships to show the runtime at work, each with the calls it
    makes, the values it reads, the lines it prints and the ways it stops.  They run on the
    model of the runtime, and what the documentation says they show is what they print. *)

From S2P Require Import Prelude Taxonomy Model Bytes Digest Cost Economics Compatibility ModelOps.
From S2P Require Import ControlPlane FabricCore FabricState FabricReplica FabricOps Lifecycle Fabric.
From S2P Require Import Scenario Encoding Persistence FileStore Applications Accelerator.

Local Open Scope Z_scope.

(** ** What the examples share *)

Definition digest_of (payload : string) : Digest := Sha256.sha256 (as_bytes payload).

Definition cluster_registration (cluster region domain boot : Z) (tags : list string)
    : ClusterRegistration :=
  ClusterRegistration_default
    <| crg_cluster_id := cluster |> <| crg_region := region |> <| crg_site := domain |>
    <| crg_failure_domain := domain |>
    <| crg_location_descriptor := "example-site-" +:+ to_string_u64 cluster |>
    <| crg_worker_id := cluster |> <| crg_worker_boot_id := boot |> <| crg_health := CH.HEALTHY |>
    <| crg_capabilities := ClusterCapabilities_default <| cc_tags := tags |>
         <| cc_storage_classes := ["nvme"] |> <| cc_accelerator_architectures := ["sm_120"] |> |>
    <| crg_capacity := mkClusterCapacity (2 ^ 40) (2 ^ 30) (2 ^ 28) 8 100 |>.

Definition placement_policy (id : Z) : PlacementPolicyRecord :=
  PlacementPolicyRecord_default
    <| pp_placement_policy_id := id |> <| pp_generation := 1 |>
    <| pp_cost_policy := CostPolicy_default <| cpo_source := CS.POLICY |>
         <| cpo_transfer_micro_per_mib := 5000 |> <| cpo_compute_micro_per_mib := 200000 |>
         <| cpo_unit_label := "units" |> |>
    <| pp_weights := RankingWeights_default <| rw_expected_reuse_value := 3 |>
         <| rw_transfer_cost := -4 |> <| rw_destination_health := 5 |>
         <| rw_failure_domain_diversity := 4 |> |>.

Definition replication_policy (id replicas : Z) : ReplicationPolicyRecord :=
  let policy := make_replication_policy id 1 RPF.N_REPLICAS replicas in
  policy <| rpp_retention ::= λ retention, retention <| rtp_maximum_replicas_per_state := 8 |> |>.

(** [Example], with the two streams of the process. *)
Record Example (S : Type) := mkExample {
  ex_fabric : Impl S;
  ex_cluster_a : Z;
  ex_cluster_b : Z;
  ex_cluster_c : Z;
  ex_state : Z;
  ex_generation : Z;
  ex_next_id : Z;
  ex_output : list Diagnostic;
  ex_errors : list Diagnostic
}.

Arguments mkExample {S} _ _ _ _ _ _ _ _ _.
Arguments ex_fabric {S} _.
Arguments ex_cluster_a {S} _.
Arguments ex_cluster_b {S} _.
Arguments ex_cluster_c {S} _.
Arguments ex_state {S} _.
Arguments ex_generation {S} _.
Arguments ex_next_id {S} _.
Arguments ex_output {S} _.
Arguments ex_errors {S} _.

#[export] Instance Example_eta {S} : Eta (Example S) := λ e,
  mkExample (ex_fabric e) (ex_cluster_a e) (ex_cluster_b e) (ex_cluster_c e) (ex_state e)
    (ex_generation e) (ex_next_id e) (ex_output e) (ex_errors e).

(** A program stops with a status, or by reading the value of a result that has none, which
    the standard leaves undefined. *)
Inductive Stop := Exit (status : Z) | NoValue.

Definition Program (S A : Type) : Type := Example S → (Stop + A) * Example S.

Definition pret {S A} (a : A) : Program S A := λ e, (inr a, e).
Definition pbind {S A B} (m : Program S A) (k : A → Program S B) : Program S B := λ e,
  match m e with
  | (inl stop, e) => (inl stop, e)
  | (inr a, e) => k a e
  end.

(** [if (!r) return r.error();] *)
Definition pbind_ok {S A B} (m : Program S (Result A)) (k : A → Program S (Result B))
    : Program S (Result B) :=
  pbind m (λ r, match r with Ok a => k a | Err code => pret (Err code) end).

Declare Scope example_scope.
Notation "x <- m ;; k" := (pbind m (λ x, k))
  (at level 100, m at next level, k at level 200, right associativity) : example_scope.
Notation "m ;;; k" := (pbind m (λ _, k))
  (at level 100, k at level 200, right associativity) : example_scope.
Notation "x <-? m ;; k" := (pbind_ok m (λ x, k))
  (at level 100, m at next level, k at level 200, right associativity) : example_scope.
Local Open Scope example_scope.

Section programs.
Context {S : Type} `{PersistenceStore S}.

Definition line (text : string) : Program S unit := λ e,
  (inr tt, e <| ex_output ::= λ l, l ++ [Message text] |>).

Definition fail (text : string) : Program S unit := λ e,
  (inr tt, e <| ex_errors ::= λ l, l ++ [Message ("example failed: " +:+ text)] |>).

(** [fail(error.to_string())] *)
Definition fail_error (code : ErrorCode) : Program S unit := λ e,
  (inr tt, e <| ex_errors ::= λ l, l ++ [Failure "example failed" (enum_value code)] |>).

Definition stop {A} (status : Z) : Program S A := λ e, (inl (Exit status), e).

Definition value {A} (r : Result A) : Program S A := λ e,
  match r with Ok a => (inr a, e) | Err _ => (inl NoValue, e) end.

(** [if (!r) { fail(r.error().to_string()); return 1; }], and the form with a text. *)
Definition or_error {A} (r : Result A) : Program S A :=
  match r with Ok a => pret a | Err code => fail_error code;;; stop 1 end.
Definition or_fail {A} (text : string) (r : Result A) : Program S A :=
  match r with Ok a => pret a | Err _ => fail text;;; stop 1 end.

Definition take_id : Program S Z := λ e,
  (inr (ex_next_id e), e <| ex_next_id := u64 (ex_next_id e + 1) |>).

Definition gets {A} (f : Example S → A) : Program S A := λ e, (inr (f e), e).

(** A call that changes the runtime, and one that reads it. *)
Definition call {A} (fn : ControlPlane → FabricConfig → M A) : Program S (Result A) := λ e,
  let '(r, fabric) := mutate fn (ex_fabric e) in (inr r, e <| ex_fabric := fabric |>).

Definition reads_plane {A} (f : ControlPlane → FabricConfig → A) : Program S A :=
  gets (λ e, f (im_plane (ex_fabric e)) (im_config (ex_fabric e))).

Definition coordinator_epoch : Program S Z := reads_plane (λ plane _, pl_coordinator_epoch plane).

Definition reconcile : Program S (Result ReplicaSetReconciliation) :=
  e <- gets id;; reads_plane (λ plane _, reconcile_replica_set plane (ex_state e) (ex_generation e)).

Definition reuse_in (cluster : Z) : Program S ReuseEvaluation :=
  e <- gets id;; reads_plane (λ plane config, evaluate_reuse plane config (ex_state e) (ex_generation e) cluster).

Definition yes_no (flag : bool) : string := if flag then "yes" else "no".

(** [publish] *)
Definition publish (payload : string) (size : Z) (consistency : ConsistencyMode) (replicas : Z)
    (required : CompatibilityDescriptor) : Program S (Result unit) :=
  e <- gets id;;
  let spec :=
    StateGenerationSpec_default <| ss_state_id := ex_state e |> <| ss_generation := ex_generation e |>
      <| ss_lineage := ex_state e |> <| ss_state_class := SC.OPAQUE_STATE |>
      <| ss_consistency := consistency |> <| ss_logical_size := size_of size |>
      <| ss_content_digest := digest_of payload |>
      <| ss_compatibility_id := u64 (u64 (ex_state e * 7) + 1) |>
      <| ss_compatibility_generation := 1 |> <| ss_compatibility_required := required |>
      <| ss_durability := DC.DURABLE |> <| ss_expected_reuse := mkReuseValue CS.ESTIMATED 14 800 |>
      <| ss_replication_requirements := rpp_requirements (replication_policy 1 replicas) |>
      <| ss_provenance := StateProvenance_default <| sp_producer := "example" |> |> in
  _ <-? call (register_state spec);;
  commit_id <- take_id;;
  _ <-? call (commit_state_generation (ex_state e) (ex_generation e) commit_id);;
  pret (Ok tt).

(** [seed]: registers, transfers, verifies and commits one replica. *)
Definition seed (cluster : Z) (make_owner : bool) : Program S (Result Z) :=
  e <- gets id;;
  state <-? reads_plane (λ plane _, query_state plane (ex_state e) (ex_generation e));;
  epoch <- coordinator_epoch;;
  let registration :=
    ReplicaRegistration_default <| rrg_state_id := ex_state e |>
      <| rrg_state_generation := ex_generation e |>
      <| rrg_location := ReplicaLocation_default <| rlo_cluster_id := cluster |> |>
      <| rrg_lifecycle := RL.TRANSFERRING |> <| rrg_content_digest := sg_content_digest state |>
      <| rrg_expected_coordinator_epoch := epoch |> in
  registered <-? call (register_replica registration);;
  epoch <- coordinator_epoch;;
  let completion :=
    TransferCompletion_default <| tc_replica_id := rp_replica_id registered |>
      <| tc_replica_generation := rp_replica_generation registered |> <| tc_cluster_id := cluster |>
      <| tc_expected_coordinator_epoch := epoch |>
      <| tc_bytes_transferred := sz_bytes (sg_logical_size state) |>
      <| tc_measured_digest := sg_content_digest state |> in
  _ <-? call (record_transfer_completion completion);;
  epoch <- coordinator_epoch;;
  let verification :=
    ReplicaVerification_default <| rvf_replica_id := rp_replica_id registered |>
      <| rvf_replica_generation := rp_replica_generation registered |> <| rvf_cluster_id := cluster |>
      <| rvf_expected_coordinator_epoch := epoch |> <| rvf_integrity_verified := true |>
      <| rvf_measured_digest := sg_content_digest state |>
      <| rvf_verified_bytes := sz_bytes (sg_logical_size state) |>
      <| rvf_established_durability := DC.DURABLE |> in
  _ <-? call (verify_replica verification);;
  commit_id <- take_id;;
  epoch <- coordinator_epoch;;
  let commit :=
    ReplicaCommit_default <| rc_replica_id := rp_replica_id registered |>
      <| rc_commit_id := commit_id |> <| rc_expected_coordinator_epoch := epoch |>
      <| rc_make_authoritative_owner := make_owner |> in
  _ <-? call (commit_replica commit);;
  pret (Ok (rp_replica_id registered)).

Definition replication_request (destination : Z) : Program S ReplicationRequest :=
  e <- gets id;;
  epoch <- coordinator_epoch;;
  pret (ReplicationRequest_default <| rq_state_id := ex_state e |>
          <| rq_state_generation := ex_generation e |> <| rq_destination_cluster := destination |>
          <| rq_expected_coordinator_epoch := epoch |>).

Definition progress_report (auth : TransferAuthorization) (epoch : Z) : TransferProgress :=
  TransferProgress_default <| tp_transfer_id := ta_transfer_id auth |>
    <| tp_transfer_generation := ta_transfer_generation auth |>
    <| tp_replica_id := ta_destination_replica auth |>
    <| tp_replica_generation := ta_destination_replica_generation auth |>
    <| tp_operation_id := ta_operation_id auth |>
    <| tp_operation_generation := ta_operation_generation auth |>
    <| tp_cluster_id := ta_destination_cluster auth |>
    <| tp_cluster_incarnation := ta_destination_incarnation auth |>
    <| tp_expected_coordinator_epoch := epoch |>
    <| tp_bytes_transferred :=
         if size_known (ta_transfer_bytes auth) then sz_bytes (ta_transfer_bytes auth) / 2 else 0 |>.

Definition completion_report (auth : TransferAuthorization) (epoch bytes : Z) : TransferCompletion :=
  TransferCompletion_default <| tc_transfer_id := ta_transfer_id auth |>
    <| tc_transfer_generation := ta_transfer_generation auth |>
    <| tc_replica_id := ta_destination_replica auth |>
    <| tc_replica_generation := ta_destination_replica_generation auth |>
    <| tc_operation_id := ta_operation_id auth |>
    <| tc_operation_generation := ta_operation_generation auth |>
    <| tc_cluster_id := ta_destination_cluster auth |>
    <| tc_cluster_incarnation := ta_destination_incarnation auth |>
    <| tc_expected_coordinator_epoch := epoch |> <| tc_bytes_transferred := bytes |>
    <| tc_measured_digest := ta_expected_digest auth |>.

Definition verification_report (auth : TransferAuthorization) (epoch bytes : Z) : ReplicaVerification :=
  ReplicaVerification_default <| rvf_replica_id := ta_destination_replica auth |>
    <| rvf_replica_generation := ta_destination_replica_generation auth |>
    <| rvf_operation_id := ta_operation_id auth |>
    <| rvf_operation_generation := ta_operation_generation auth |>
    <| rvf_cluster_id := ta_destination_cluster auth |>
    <| rvf_cluster_incarnation := ta_destination_incarnation auth |>
    <| rvf_expected_coordinator_epoch := epoch |> <| rvf_integrity_verified := true |>
    <| rvf_measured_digest := ta_expected_digest auth |> <| rvf_verified_bytes := bytes |>
    <| rvf_established_durability := DC.DURABLE |>.

(** [replicate]: one authorized replication transaction, to its end. *)
Definition replicate (destination : Z) (retire_source : bool) : Program S (Result Z) :=
  request <- replication_request destination;;
  auth <-? call (authorize_replication request);;
  epoch <- coordinator_epoch;;
  _ <-? call (record_transfer_progress (progress_report auth epoch));;
  epoch <- coordinator_epoch;;
  let bytes := if size_known (ta_transfer_bytes auth) then sz_bytes (ta_transfer_bytes auth) else 0 in
  _ <-? call (record_transfer_completion (completion_report auth epoch bytes));;
  epoch <- coordinator_epoch;;
  _ <-? call (verify_replica (verification_report auth epoch bytes));;
  commit_id <- take_id;;
  epoch <- coordinator_epoch;;
  _ <-? call (commit_operation
                (mkOperationCommit (ta_operation_id auth) (ta_operation_generation auth) commit_id
                   epoch retire_source));;
  pret (Ok (ta_destination_replica auth)).

(** [report_replica] *)
Definition report_replica (replica : Z) : Program S unit :=
  record <- reads_plane (λ plane _, query_replica plane replica);;
  match record with
  | Err code => fail_error code
  | Ok record =>
      line ("  replica " +:+ id_to_string (rp_replica_id record) +:+ " cluster " +:+
            id_to_string (rlo_cluster_id (rp_location record)) +:+ " lifecycle " +:+
            to_string (rp_lifecycle record) +:+ " authority " +:+ to_string (rp_authority record) +:+
            " counts " +:+ yes_no (rp_counts_toward_factor record))
  end.

End programs.

(** ** Running an example *)

Record Ending := mkEnding { en_stop : Stop; en_output : list Diagnostic; en_errors : list Diagnostic }.

Definition banner (title : string) : Diagnostic := Message ("=== " +:+ title +:+ " ===").

Definition ending {S A} (run : (Stop + A) * Example S) : Ending :=
  match run with
  | (inl stop, e) => mkEnding stop (ex_output e) (ex_errors e)
  | (inr _, e) => mkEnding (Exit 0) (ex_output e) (ex_errors e)
  end.

Definition example_config : FabricConfig :=
  FabricConfig_default <| cfg_coordinator_id := 1 |> <| cfg_home_cluster := 100 |>
    <| cfg_epoch_start := 1 |> <| cfg_logical_start := 1 |>
    <| cfg_default_placement_policy := placement_policy 1 |>
    <| cfg_default_replication_policy := replication_policy 1 2 |>.

Definition example_tags : list string := ["gpu:sm_120"; "compat:runtime_abi=ccsf-1"].

Fixpoint register_all {S} `{PersistenceStore S} (on_error : ErrorCode → Program S unit)
    (registrations : list ClusterRegistration) : Program S unit :=
  match registrations with
  | [] => pret tt
  | registration :: registrations =>
      registered <- call (register_cluster registration);;
      match registered with
      | Err code => on_error code;;; stop 1
      | Ok _ => register_all on_error registrations
      end
  end.

(** [make_example] and what follows it in [main]; [output] is what was printed before. *)
Definition make_example (output : list Diagnostic) (title : string) (body : Program Empty_set unit)
    : Ending :=
  match open example_config None with
  | Err code => mkEnding (Exit 1) (output ++ [banner title]) [Failure "example failed" (enum_value code)]
  | Ok fabric =>
      ending ((register_all fail_error
                 [cluster_registration 100 1 1 11 example_tags;
                  cluster_registration 101 1 2 12 example_tags;
                  cluster_registration 102 2 3 13 example_tags];;; body)
                (mkExample fabric 100 101 102 7001 1 5000 (output ++ [banner title]) []))
  end.

(** ** The programs *)

Definition publish_or_stop {S} `{PersistenceStore S} (payload : string) (size : Z)
    (consistency : ConsistencyMode) (replicas : Z) (required : CompatibilityDescriptor)
    : Program S unit :=
  published <- publish payload size consistency replicas required;;
  or_fail "state publication failed" published.

(** [std::to_string(set.value().replica_set.authoritative_count)] *)
Definition authoritative (set : ReplicaSetReconciliation) : string :=
  to_string_u64 (rs_authoritative_count (rsr_replica_set set)).

Definition ex_basic_replication : Ending :=
  make_example [] "basic cross-cluster replication" (
    publish_or_stop "replication-payload" (2 ^ 20) CM.IMMUTABLE 2 CompatibilityDescriptor_default;;;
    source <- seed 100 false;;
    source <- or_error source;;
    line "cluster A holds the authoritative source:";;;
    report_replica source;;;
    before <- reconcile;;
    before <- value before;;
    line ("authoritative replicas before replication: " +:+ authoritative before);;;
    destination <- replicate 101 false;;
    destination <- or_error destination;;
    line "cluster B replica after the transaction:";;;
    report_replica destination;;;
    after <- reconcile;;
    after <- value after;;
    line ("authoritative replicas after replication: " +:+ authoritative after);;;
    line ("replica set generation: " +:+ id_to_string (rs_generation (rsr_replica_set after)));;;
    line ("distinct clusters: " +:+ to_string_u64 (rs_distinct_clusters (rsr_replica_set after)));;;
    reuse <- reuse_in 101;;
    line ("reuse in cluster B: " +:+ to_string (rev_decision reuse) +:+ " (" +:+
          to_string (rev_code reuse) +:+ ")")).

Fixpoint lines {S} (texts : list string) : Program S unit :=
  match texts with [] => pret tt | text :: texts => line text;;; lines texts end.

(** The loop over the destinations of the repair. *)
Fixpoint repair_into (destinations : list Z) : Program Empty_set unit :=
  match destinations with
  | [] => pret tt
  | destination :: destinations =>
      repaired <- replicate destination false;;
      _ <- or_error repaired;;
      now <- reconcile;;
      now <- value now;;
      line ("after repairing into cluster " +:+ id_to_string destination +:+ ": authoritative " +:+
            authoritative now +:+ ", state " +:+ to_string (rs_state (rsr_replica_set now)) +:+
            ", clusters " +:+ to_string_u64 (rs_distinct_clusters (rsr_replica_set now)));;;
      repair_into destinations
  end.

Definition ex_under_replicated_repair : Ending :=
  make_example [] "under-replicated repair" (
    publish_or_stop "repair-payload" (2 ^ 20) CM.IMMUTABLE 3 CompatibilityDescriptor_default;;;
    seeded <- seed 100 false;;
    _ <- or_fail "seeding failed" seeded;;
    first <- reconcile;;
    first <- value first;;
    line ("after one replica: authoritative " +:+ authoritative first +:+ ", state " +:+
          to_string (rs_state (rsr_replica_set first)) +:+ ", shortfall " +:+
          to_string_u64 (rsr_authoritative_shortfall first));;;
    explanation <- reads_plane (λ plane _, Explain.explain_replica_set_state plane 7001 1);;
    match explanation with
    | Ok explanation => lines (map (λ text, "  " +:+ text) (ex_lines explanation))
    | Err _ => pret tt
    end;;;
    repair_into [101; 102];;;
    finished <- reconcile;;
    finished <- value finished;;
    line ("under-replicated: " +:+ yes_no (rsr_under_replicated finished));;;
    line ("over-replicated: " +:+ yes_no (rsr_over_replicated finished))).

(** [explain_replication_plan] *)
Definition explain_replication_plan (plane : ControlPlane) (config : FabricConfig)
    (request : ReplicationRequest) : Result Explanation :=
  match Query.plan_replication plane config request with
  | Err code => Err code
  | Ok evaluation => Ok (Explain.render_placement evaluation)
  end.

Definition ex_deterministic_explanation : Ending :=
  make_example [] "deterministic explanation" (
    publish_or_stop "explained-payload" (38 * 1024 * 1024 * 1024) CM.IMMUTABLE 2
      CompatibilityDescriptor_default;;;
    seeded <- seed 100 false;;
    _ <- or_fail "seeding failed" seeded;;
    request <- replication_request 101;;
    first <- reads_plane (λ plane config, explain_replication_plan plane config request);;
    second <- reads_plane (λ plane config, explain_replication_plan plane config request);;
    match first, second with
    | Ok first, Ok second =>
        line "--- explanation ---";;;
        line (render first);;;
        line ("--- identical on repetition: " +:+ yes_no (bool_decide (render first = render second)) +:+ " ---");;;
        reuse <- reads_plane (λ plane config, Explain.explain_reuse plane config 7001 1 100);;
        line "--- reuse explanation ---";;;
        line (render reuse);;;
        replica_set <- reads_plane (λ plane _, Explain.explain_replica_set_state plane 7001 1);;
        match replica_set with
        | Ok replica_set => line "--- replica set explanation ---";;; line (render replica_set)
        | Err _ => pret tt
        end
    | _, _ => fail "explanation failed";;; stop 1
    end).

(** The economic decision, which needs no runtime. *)
Definition economic_inputs : EconomicInputs :=
  EconomicInputs_default <| ei_transfer_bytes := size_of (38 * 1024 * 1024 * 1024) |>
    <| ei_transfer_cost := cost_from_policy 180000 |> <| ei_egress_cost := cost_from_policy 20000 |>
    <| ei_reconstruction_cost := cost_from_policy 1730000 |>
    <| ei_compute_cost := cost_from_policy 90000 |>
    <| ei_expected_reuse := mkReuseValue CS.ESTIMATED 14 900 |>
    <| ei_reconstruction_available := true |> <| ei_reconstruction_deterministic := true |>
    <| ei_destination_adds_diversity := true |>.

Definition decision_lines (decision : EconomicDecision) : list string :=
  ["decision: " +:+ to_string (ed_kind decision); "reason: " +:+ ed_reason decision].

Definition ex_transfer_vs_reconstruction : list string :=
  let decision := decide_action economic_inputs in
  let unpriced :=
    economic_inputs <| ei_transfer_cost := cost_unknown |> <| ei_egress_cost := cost_unknown |>
      <| ei_reconstruction_cost := cost_unknown |> <| ei_compute_cost := cost_unknown |> in
  let illegal := economic_inputs <| ei_destination_healthy := false |> in
  ["=== transfer versus reconstruction ==="] ++
  decision_lines decision ++
  ["transfer total: " +:+ describe_cost (ed_transfer_total decision);
   "reconstruction total: " +:+ describe_cost (ed_reconstruction_total decision)] ++
  map (λ factor, "  factor: " +:+ factor) (ed_factors decision) ++
  [""; "the same query with no price evidence at all:"] ++
  decision_lines (decide_action unpriced) ++
  [""; "the same query with an illegal destination:"] ++
  decision_lines (decide_action illegal) ++
  ["a hard legality constraint is never traded away for a cheaper path"].

(** [explain_migration_plan] *)
Definition explain_migration_plan (plane : ControlPlane) (config : FabricConfig)
    (request : MigrationRequest) : Result Explanation :=
  match Query.plan_migration plane config request with
  | Err code => Err code
  | Ok evaluation => Ok (Explain.render_placement evaluation)
  end.

Definition ex_stale_replica : Ending :=
  make_example [] "stale replica rejection" (
    publish_or_stop "stale-payload" (2 ^ 20) CM.IMMUTABLE 2 CompatibilityDescriptor_default;;;
    source <- seed 100 false;;
    _ <- or_error source;;
    replicated <- replicate 101 false;;
    replicated <- or_error replicated;;
    cluster_b <- reads_plane (λ plane _, query_cluster plane 101);;
    cluster_b <- value cluster_b;;
    marked <- call (mark_cluster_unreachable 101 (cl_incarnation cluster_b) "example: link down");;
    _ <- or_fail "marking the cluster unreachable failed" marked;;
    line ("cluster B is unreachable under incarnation " +:+ id_to_string (cl_incarnation cluster_b));;;
    replica <- reads_plane (λ plane _, query_replica plane replicated);;
    replica <- value replica;;
    line ("the B replica is now: " +:+ to_string (rp_lifecycle replica) +:+ ", authority " +:+
          to_string (rp_authority replica) +:+ ", counts " +:+ yes_no (rp_counts_toward_factor replica));;;
    line ("its committed history is preserved: " +:+ yes_no (rp_commit_recorded replica));;;
    reuse_b <- reuse_in 101;;
    line ("reuse in cluster B: " +:+ to_string (rev_decision reuse_b) +:+ " (" +:+
          to_string (rev_code reuse_b) +:+ ")");;;
    line ("reason: " +:+ rev_reason reuse_b);;;
    reuse_a <- reuse_in 100;;
    line ("reuse in cluster A: " +:+ to_string (rev_decision reuse_a));;;
    set <- reconcile;;
    set <- value set;;
    line ("replica set state: " +:+ to_string (rs_state (rsr_replica_set set)) +:+
          ", authoritative " +:+ authoritative set +:+ ", under-replicated " +:+
          yes_no (rsr_under_replicated set))).

Definition revalidation (replica epoch : Z) : ReplicaTransition :=
  ReplicaTransition_default <| rt_replica_id := replica |> <| rt_expected_coordinator_epoch := epoch |>.

Definition ex_cluster_reincarnation : Ending :=
  make_example [] "cluster reincarnation" (
    publish_or_stop "incarnation-payload" (2 ^ 20) CM.IMMUTABLE 2 CompatibilityDescriptor_default;;;
    seeded <- seed 100 false;;
    _ <- or_fail "seeding failed" seeded;;
    replicated <- replicate 101 false;;
    replicated <- or_error replicated;;
    cluster <- reads_plane (λ plane _, query_cluster plane 101);;
    cluster <- value cluster;;
    line ("cluster B incarnation before the restart: " +:+ id_to_string (cl_incarnation cluster));;;
    boot <- take_id;;
    reincarnated <- call (register_cluster (cluster_registration 101 1 2 boot ["gpu:sm_120"]));;
    reincarnated <- or_error reincarnated;;
    line ("cluster B incarnation after the restart: " +:+ id_to_string (cl_incarnation reincarnated));;;
    line ("reincarnations recorded: " +:+ to_string_u64 (cl_reincarnation_count reincarnated));;;
    replica <- reads_plane (λ plane _, query_replica plane replicated);;
    replica <- value replica;;
    line ("the durable copy still records the incarnation that wrote it: " +:+
          id_to_string (rlo_cluster_incarnation (rp_location replica)));;;
    line ("it counts toward the replication factor: " +:+ yes_no (rp_counts_toward_factor replica));;;
    reuse <- reuse_in 101;;
    line ("reuse before revalidation: " +:+ to_string (rev_decision reuse) +:+ " (" +:+
          to_string (rev_code reuse) +:+ ")");;;
    epoch <- coordinator_epoch;;
    revalidated <- call (revalidate_replica (revalidation replicated epoch));;
    revalidated <- or_error revalidated;;
    line ("after explicit revalidation the replica is rebound to incarnation " +:+
          id_to_string (rlo_cluster_incarnation (rp_location revalidated)));;;
    reuse_after <- reuse_in 101;;
    line ("reuse after revalidation: " +:+ to_string (rev_decision reuse_after));;;
    line "a returned cluster never reclaims authority merely because old bytes survived").

Definition required_descriptor : CompatibilityDescriptor :=
  (cd_set (cd_set CompatibilityDescriptor_default "accelerator" "sm_120").1 "runtime_abi" "ccsf-1").1.

Definition rejection_line (rejection : PlacementRejection) : string :=
  "  cluster " +:+ id_to_string (pj_cluster_id rejection) +:+ " rejected by " +:+
  pj_constraint rejection +:+ " (" +:+ to_string (pj_code rejection) +:+ "): " +:+ pj_detail rejection.

Definition ex_incompatible_destination : Ending :=
  make_example [] "incompatible destination rejection" (
    publish_or_stop "compat-payload" (2 ^ 20) CM.IMMUTABLE 2 required_descriptor;;;
    source <- seed 100 false;;
    _ <- or_error source;;
    cluster_c <- reads_plane (λ plane _, query_cluster plane 102);;
    cluster_c <- value cluster_c;;
    epoch <- coordinator_epoch;;
    let update :=
      ClusterEvidenceUpdate_default <| ceu_cluster_id := 102 |>
        <| ceu_incarnation := cl_incarnation cluster_c |> <| ceu_expected_coordinator_epoch := epoch |>
        <| ceu_has_capabilities := true |>
        <| ceu_capabilities := ClusterCapabilities_default
             <| cc_tags := ["gpu:sm_90"; "compat:runtime_abi=ccsf-1"] |>
             <| cc_accelerator_architectures := ["sm_90"] |> <| cc_storage_classes := ["nvme"] |> |> in
    published <- call (publish_cluster_evidence update);;
    _ <- or_fail "evidence publication failed" published;;
    line "cluster C now reports accelerator sm_90 while the state requires sm_120";;;
    request <- replication_request 102;;
    authorization <- call (authorize_replication request);;
    match authorization with
    | Ok _ => fail "an incompatible destination was authorized";;; stop 1
    | Err code =>
        (λ e, (inr tt, e <| ex_output ::= λ l, l ++ [Failure "authorization refused" (enum_value code)] |>));;;
        plan <- reads_plane (λ plane config, Query.plan_replication plane config request);;
        match plan with
        | Ok plan =>
            line ("plan decision: " +:+ to_string (pe_decision plan));;;
            lines (map rejection_line (pe_rejected plan))
        | Err _ => pret tt
        end;;;
        reuse <- reuse_in 102;;
        line ("reuse in cluster C: " +:+ to_string (rev_decision reuse) +:+ " (" +:+
              to_string (rev_code reuse) +:+ ")")
    end).

Definition ex_migration : Ending :=
  make_example [] "migration of single-writer state" (
    publish_or_stop "mutable-payload" (2 ^ 19) CM.SINGLE_WRITER 1 CompatibilityDescriptor_default;;;
    owner <- seed 100 true;;
    owner <- or_error owner;;
    line "cluster A holds the authoritative owner:";;;
    report_replica owner;;;
    epoch <- coordinator_epoch;;
    let request :=
      MigrationRequest_default <| mq_state_id := 7001 |> <| mq_state_generation := 1 |>
        <| mq_destination_cluster := 101 |> <| mq_retire_source_after_commit := true |>
        <| mq_expected_coordinator_epoch := epoch |> in
    authorization <- call (authorize_migration request);;
    auth <- or_error authorization;;
    line ("migration authorized: operation " +:+ id_to_string (ta_operation_id auth) +:+
          ", destructive move " +:+ yes_no (ta_destructive_move auth));;;
    epoch <- coordinator_epoch;;
    completed <- call (record_transfer_completion (completion_report auth epoch (2 ^ 19)));;
    _ <- or_fail "transfer completion failed" completed;;
    epoch <- coordinator_epoch;;
    let verification :=
      ReplicaVerification_default <| rvf_replica_id := ta_destination_replica auth |>
        <| rvf_replica_generation := ta_destination_replica_generation auth |>
        <| rvf_cluster_id := ta_destination_cluster auth |>
        <| rvf_cluster_incarnation := ta_destination_incarnation auth |>
        <| rvf_expected_coordinator_epoch := epoch |> <| rvf_integrity_verified := true |>
        <| rvf_measured_digest := ta_expected_digest auth |> in
    verified <- call (verify_replica verification);;
    _ <- or_fail "destination verification failed" verified;;
    source_before <- reads_plane (λ plane _, query_replica plane (ta_source_replica auth));;
    source_before <- value source_before;;
    line ("source lifecycle before the commit: " +:+ to_string (rp_lifecycle source_before));;;
    commit_id <- take_id;;
    epoch <- coordinator_epoch;;
    migrated <- call (commit_operation
                        (mkOperationCommit (ta_operation_id auth) (ta_operation_generation auth)
                           commit_id epoch true));;
    migrated <- or_error migrated;;
    line ("migration committed; source retired: " +:+ yes_no (op_source_retired migrated));;;
    source_after <- reads_plane (λ plane _, query_replica plane (ta_source_replica auth));;
    source_after <- value source_after;;
    line ("source lifecycle after the commit: " +:+ to_string (rp_lifecycle source_after));;;
    line ("historical provenance of the retired source is preserved: " +:+
          yes_no (rp_commit_recorded source_after));;;
    reuse_source <- reuse_in 100;;
    line ("reuse at the retired source: " +:+ to_string (rev_decision reuse_source));;;
    reuse_destination <- reuse_in 101;;
    line ("reuse at the destination: " +:+ to_string (rev_decision reuse_destination))).

(** *** The restart, on the files of a directory *)

Definition restart_config : FabricConfig :=
  FabricConfig_default <| cfg_coordinator_id := 1 |> <| cfg_home_cluster := 100 |>
    <| cfg_epoch_start := 1 |> <| cfg_persistence_directory := "runtime/example-restart" |>
    <| cfg_require_durable_commits := true |>
    <| cfg_default_placement_policy := placement_policy 1 |>
    <| cfg_default_replication_policy := replication_policy 1 2 |>.

(** [Fabric::open] on the directory the files are in. *)
Definition open_directory (store : FileStore (gmap string (list Z)))
    : Result (Impl (FileStore (gmap string (list Z)))) :=
  open restart_config (Some (store, load store (cfg_maximum_records restart_config))).

(** The block before the restart: it yields the epoch. *)
Definition before_restart : Program (FileStore (gmap string (list Z))) Z :=
  register_all (λ _, fail "cluster registration failed")
    [cluster_registration 100 1 1 11 ["gpu:sm_120"]; cluster_registration 101 1 2 12 ["gpu:sm_120"]];;;
  publish_or_stop "durable-payload" (2 ^ 20) CM.IMMUTABLE 2 CompatibilityDescriptor_default;;;
  seeded <- seed 100 false;;
  _ <- or_fail "seeding failed" seeded;;
  replicated <- replicate 101 false;;
  _ <- or_fail "replication failed" replicated;;
  first_epoch <- coordinator_epoch;;
  set <- reconcile;;
  set <- value set;;
  line ("before the restart: epoch " +:+ id_to_string first_epoch +:+ ", authoritative replicas " +:+
        authoritative set);;;
  persisted <- (λ e, let '(r, fabric) := persist (ex_fabric e) in (inr r, e <| ex_fabric := fabric |>));;
  _ <- or_fail "checkpoint failed" persisted;;
  pret first_epoch.

Definition after_restart (first_epoch : Z) : Program (FileStore (gmap string (list Z))) unit :=
  epoch <- coordinator_epoch;;
  line ("after the restart: epoch " +:+ id_to_string epoch +:+ " (was " +:+ id_to_string first_epoch +:+ ")");;;
  line "the epoch advances so that every message minted before the restart is fenced";;;
  record <- reads_plane (λ plane _, query_state plane 8801 1);;
  line ("state generation survived: " +:+ yes_no (has_value record));;;
  set <- reconcile;;
  set <- value set;;
  line ("authoritative replicas survived: " +:+ authoritative set);;;
  line ("the recovered replica set requires revalidation: " +:+
        yes_no (rs_revalidation_required (rsr_replica_set set)));;;
  reuse <- reuse_in 100;;
  line ("reuse immediately after the restart: " +:+ to_string (rev_decision reuse) +:+ " (" +:+
        to_string (rev_code reuse) +:+ ")");;;
  let replica :=
    match rs_authoritative_members (rsr_replica_set set) with
    | [] => 0
    | member :: _ => rm_replica_id member
    end in
  epoch <- coordinator_epoch;;
  revalidated <- call (revalidate_replica (revalidation replica epoch));;
  match revalidated with
  | Ok _ => line "revalidation after fresh evidence: restored authority"
  | Err code => λ e,
      (inr tt, e <| ex_output ::= λ l, l ++ [Failure "revalidation after fresh evidence" (enum_value code)] |>)
  end;;;
  after <- reuse_in 100;;
  line ("reuse after revalidation: " +:+ to_string (rev_decision after)).

Definition ex_coordinator_restart : Ending :=
  let title := banner "coordinator restart" in
  match open_directory (mkFileStore (cfg_persistence_directory restart_config) ∅ (Some (None, []))) with
  | Err code => mkEnding (Exit 1) [title] [Failure "example failed" (enum_value code)]
  | Ok fabric =>
      match before_restart (mkExample fabric 0 0 0 8801 1 5000 [title] []) with
      | (inl stop, e) => mkEnding stop (ex_output e) (ex_errors e)
      | (inr first_epoch, e) =>
          match im_store (ex_fabric e) with
          | None => mkEnding NoValue (ex_output e) (ex_errors e)
          | Some store =>
              match open_directory store with
              | Err code =>
                  mkEnding (Exit 1) (ex_output e)
                    (ex_errors e ++ [Failure "example failed" (enum_value code)])
              | Ok fabric => ending (after_restart first_epoch (e <| ex_fabric := fabric |>))
              end
          end
      end
  end.

(** *** A state produced on a device *)

(** [ex_cuda_state]: [None] when the device call throws or leaves its buffers. *)
Definition ex_cuda_state (multiply_add : float → float → float → float) (report : DeviceReport)
    (answers : DeviceAnswers) (synchronized : bool) (memory : option (Z * Z)) : option Ending :=
  let title := banner "CUDA-backed state" in
  match device_info report with
  | Err code => Some (mkEnding (Exit 1) [title] [Failure "example failed" (enum_value code)])
  | Ok info =>
      let device :=
        Message ("device: " +:+ df_name info +:+ " sm_" +:+ to_string_i64 (df_compute_major info) +:+
                 to_string_i64 (df_compute_minor info)) in
      match generate_tensor_state multiply_add answers 4096 512 0xA11CE (mkBackend [] 0) with
      | (Returned (Err code), _) =>
          Some (mkEnding (Exit 1) [title; device] [Failure "example failed" (enum_value code)])
      | (Returned (Ok payload), backend) =>
          reference ← reference_tensor_state 4096 512 0xA11CE;
          let parity := if tensors_agree payload reference one_hundredth then "pass" else "FAIL" in
          let digest := Sha256.sha256 payload in
          let output :=
            [title; device;
             Message ("device produced " +:+ to_string_u64 (Z.of_nat (length payload)) +:+
                      " bytes; cpu parity " +:+ parity);
             Message ("device state digest: " +:+ hex digest)] in
          let released :=
            release_all synchronized memory backend (df_free_memory_bytes info) (64 * 1024 * 1024) in
          let spec :=
            StateGenerationSpec_default <| ss_state_id := 9901 |> <| ss_generation := 1 |>
              <| ss_lineage := 9901 |> <| ss_state_class := SC.TENSOR_STATE |>
              <| ss_logical_size := size_of (Z.of_nat (length payload)) |>
              <| ss_content_digest := digest |>
              <| ss_replication_requirements := rpp_requirements (replication_policy 1 2) |>
              <| ss_provenance := StateProvenance_default <| sp_producer := "cuda-example" |> |> in
          Some (make_example output "CUDA-backed state (fabric half)" (
            (λ e, (inr tt, e <| ex_state := 9901 |>));;;
            registered <- call (register_state spec);;
            _ <- or_fail "device state registration failed" registered;;
            commit_id <- take_id;;
            committed <- call (commit_state_generation 9901 1 commit_id);;
            _ <- or_fail "device state commit failed" committed;;
            source <- seed 100 false;;
            _ <- or_error source;;
            destination <- replicate 101 false;;
            destination <- or_error destination;;
            record <- reads_plane (λ plane _, query_replica plane destination);;
            record <- value record;;
            line ("destination digest matches the device digest: " +:+
                  yes_no (bool_decide (rp_measured_digest record = digest)));;;
            reuse <- reuse_in 101;;
            line ("destination reuse: " +:+ to_string (rev_decision reuse));;;
            line ("device memory restored to baseline: " +:+ yes_no (restored released))))
      | _ => None
      end
  end.

(** ** What they show *)

#[export] Instance Stop_eq_dec : EqDecision Stop.
Proof. solve_decision. Defined.

#[export] Instance Diagnostic_eq_dec : EqDecision Diagnostic.
Proof. solve_decision. Defined.

(** The program ends with zero, has nothing to say on its error stream, and prints the lines. *)
Definition shows (e : Ending) (texts : list Diagnostic) : bool :=
  bool_decide (en_stop e = Exit 0) && bool_decide (en_errors e = []) &&
  forallb (λ text, list_contains (en_output e) text) texts.

(** Each example ends well and prints what the documentation says it shows: the transaction and
    the authority it produces; the handoff of ownership and the retirement of the source; the
    economic decision with unknown prices and with an illegal destination; the compatibility
    rejection and the placement explanation for it; the fenced replica, its preserved history and
    the under-replication; the change of incarnation, the fencing and the revalidation; the
    reconciliation and repair; the durable restart with a higher epoch; and the byte-identical
    explanations. *)
Theorem examples_show_what_is_documented :
  shows ex_basic_replication
    [Message "authoritative replicas before replication: 1";
     Message "authoritative replicas after replication: 2"; Message "distinct clusters: 2";
     Message "reuse in cluster B: REUSE_REMOTE (OK)"] = true ∧
  shows ex_migration
    [Message "migration authorized: operation 49013, destructive move yes";
     Message "source lifecycle before the commit: AUTHORITATIVE";
     Message "migration committed; source retired: yes";
     Message "source lifecycle after the commit: RETIRED";
     Message "historical provenance of the retired source is preserved: yes";
     Message "reuse at the retired source: REJECT";
     Message "reuse at the destination: REUSE_REMOTE"] = true ∧
  (∀ text, text ∈ ["decision: REPLICATE"; "decision: DEFER"; "decision: REJECT";
                   "reason: destination cluster is not healthy"] →
           text ∈ ex_transfer_vs_reconstruction) ∧
  shows ex_incompatible_destination
    [Failure "authorization refused" (enum_value EC.DESTINATION_INELIGIBLE);
     Message "  cluster 102 rejected by compatibility (INCOMPATIBLE): cluster 102 is incompatible with the state compatibility identity";
     Message "reuse in cluster C: REJECT (NO_AUTHORITATIVE_REPLICA)"] = true ∧
  shows ex_stale_replica
    [Message "the B replica is now: STALE, authority FENCED, counts no";
     Message "its committed history is preserved: yes"; Message "reuse in cluster B: REJECT (FENCED)";
     Message "replica set state: UNDER_REPLICATED, authoritative 1, under-replicated yes"] = true ∧
  shows ex_cluster_reincarnation
    [Message "reincarnations recorded: 1"; Message "it counts toward the replication factor: no";
     Message "reuse before revalidation: REJECT (FENCED)";
     Message "reuse after revalidation: REUSE_REMOTE"] = true ∧
  shows ex_under_replicated_repair
    [Message "after one replica: authoritative 1, state UNDER_REPLICATED, shortfall 2";
     Message "after repairing into cluster 102: authoritative 3, state HEALTHY, clusters 3";
     Message "under-replicated: no"; Message "over-replicated: no"] = true ∧
  shows ex_coordinator_restart
    [Message "before the restart: epoch 2, authoritative replicas 2";
     Message "after the restart: epoch 3 (was 2)"; Message "state generation survived: yes";
     Message "authoritative replicas survived: 2";
     Message "reuse immediately after the restart: REJECT (REVALIDATION_REQUIRED)"] = true ∧
  shows ex_deterministic_explanation [Message "--- identical on repetition: yes ---"] = true.
Proof.
  split_and!; try (vm_compute; reflexivity).
  intros text Hin. apply list_elem_of_In in Hin.
  apply list_elem_of_In. cbn in Hin. destruct_or! Hin; try done; subst text; vm_compute; tauto.
Qed.

(** The restart example announces that the revalidation restored authority, and the runtime still
    refuses the reuse: the evidence of the cluster is as old as the restart, and the example
    publishes none. *)
Lemma restored_authority_is_refused :
  shows ex_coordinator_restart
    [Message "revalidation after fresh evidence: restored authority";
     Message "reuse after revalidation: REJECT"] = true.
Proof. vm_compute. reflexivity. Qed.

(** Without a device the accelerator example reports it and makes nothing up. *)
Lemma no_device_is_reported multiply_add report answers synchronized memory :
  dr_count report = None ∨ dr_count report = Some 0 →
  ex_cuda_state multiply_add report answers synchronized memory =
  Some (mkEnding (Exit 1) [banner "CUDA-backed state"]
          [Failure "example failed" (enum_value EC.NOT_SUPPORTED)]).
Proof.
  intros Hc. assert (device_info report = Err EC.NOT_SUPPORTED) as Hd.
  { unfold device_info. by destruct Hc as [-> | ->]. }
  unfold ex_cuda_state. by rewrite Hd.
Qed.
