(* ===== verification/Completion.v ===== *)
(** * Authorized transfers complete

    Once a replication is authorized, driving it as [examples/common.hpp] does (progress,
    completion, verification, commit, with nothing else in between) cannot be refused
    by anything but the two gates of the commit that depend on the rest of the generation:
    the bound on its replicas and an owner that a replication may not replace.  Every other
    guard of the four handlers is passed, and when they all are the destination counts. *)

From S2P Require Import Prelude Taxonomy Model Cost Compatibility ModelOps ControlPlane Effects Consistency.
From S2P Require Import FabricCore MutationLogic Placement FabricState FabricReplica FabricOps Lifecycle.
From S2P Require Import Fabric Engine Admissible Ownership Invariants Transactions Staging Authorization.
From S2P Require Import Digest Coordination Scenario Applications Examples.

Local Open Scope Z_scope.

(** ** Bodies that succeed *)

(** [m] returns [a] and adds the effects [es]. *)
Definition runs {A} (m : M A) (mu : FabricMutation) (a : A) (es : list Effect) : Prop :=
  ∃ mu', m mu = (Ok a, mu') ∧ extends mu mu' es.

Lemma runs_ret {A} (a : A) mu : runs (mret a) mu a [].
Proof. exists mu. split; [done|apply extends_refl]. Qed.

Lemma runs_bind {A B} (m : M A) (f : A → M B) mu a b es fs :
  runs m mu a es → (∀ mu', mu_tick mu' = mu_tick mu → runs (f a) mu' b fs) →
  runs (mbind m f) mu b (es ++ fs).
Proof.
  intros (mu1 & E1 & X1) H2. destruct (H2 mu1) as (mu2 & E2 & X2); [apply X1|].
  exists mu2. split; [unfold mbind; by rewrite E1|]. by eapply extends_trans.
Qed.

Lemma runs_emit e mu : runs (emit e) mu tt [e].
Proof. eexists. split; [done|]. exact (extends_emit _ _ [] e (extends_refl mu)). Qed.

Lemma runs_emit_then {B} e (k : unit → M B) mu b es :
  (∀ mu', mu_tick mu' = mu_tick mu → runs (k tt) mu' b es) → runs (mbind (emit e) k) mu b (e :: es).
Proof. intros H. exact (runs_bind (emit e) k mu tt b [e] es (runs_emit e mu) H). Qed.

Lemma runs_pass {B} (flag : bool) code (k : unit → M B) mu b es :
  flag = false → runs (k tt) mu b es → runs (mbind (refuse_if flag code) k) mu b es.
Proof. intros -> H. exact H. Qed.

Lemma runs_found {A B} (o : option A) a code (k : A → M B) mu b es :
  o = Some a → runs (k a) mu b es → runs (mbind (require o code) k) mu b es.
Proof. intros -> H. exact H. Qed.

Lemma runs_tick {B} (k : Z → M B) mu b es :
  runs (k (mu_tick mu)) mu b es → runs (mbind get_tick k) mu b es.
Proof. intros H. exact H. Qed.

(** The record and its set. *)
Lemma runs_put {B} p r advance tick (k : unit → M B) mu b es :
  mu_tick mu = tick → (∀ mu', mu_tick mu' = tick → runs (k tt) mu' b es) →
  runs (mbind (put_replica_and_set p r advance) k) mu b
    (PUT_REPLICA r :: bump_replica_set_effect p (rp_state_id r) (rp_state_generation r) tick
                        (pl_coordinator_epoch p) advance :: es).
Proof.
  intros <- H.
  apply (runs_bind (put_replica_and_set p r advance) k mu tt b
           [PUT_REPLICA r; bump_replica_set_effect p (rp_state_id r) (rp_state_generation r) (mu_tick mu)
                             (pl_coordinator_epoch p) advance] es); [|exact H].
  unfold put_replica_and_set. apply runs_tick, runs_emit_then. intros. apply runs_emit.
Qed.

(** A runtime without a store keeps what a body that succeeds adds. *)
Lemma mutate_succeeds {A} (fn : ControlPlane → FabricConfig → M A) (im : Impl Empty_set) a mu :
  im_shutting_down im = false →
  fn (im_plane im) (im_config im) (start_mutation (im_plane im)) = (Ok a, mu) →
  ∃ im', mutate fn im = (Ok a, im') ∧ same_records (im_plane im') (apply_all (im_plane im) (mu_effects mu)) ∧
    im_config im' = im_config im ∧ im_shutting_down im' = false.
Proof.
  intros Hs E.
  assert ((mutate fn im).1 = Ok a) as Hok.
  { unfold mutate. rewrite Hs, E. unfold persist_and_apply, append_mutation, checkpoint_if_due.
    destruct (im_store im) as [[]|] eqn:Est. destruct (mu_effects mu); [done|]. cbn. by rewrite Est. }
  destruct (mutate_Ok_records fn im a Hok) as (mu1 & E1 & Hsame). rewrite E in E1. injection E1 as <-.
  destruct (mutate_frame fn im) as [Hc Hd].
  destruct (mutate fn im) as [r im']. cbn [fst snd] in *. subst r. exists im'. rewrite Hd. done.
Qed.

Lemma mutate_runs {A} (fn : ControlPlane → FabricConfig → M A) (im : Impl Empty_set) a es :
  im_shutting_down im = false →
  runs (fn (im_plane im) (im_config im)) (start_mutation (im_plane im)) a es →
  ∃ im', mutate fn im = (Ok a, im') ∧ same_records (im_plane im') (apply_all (im_plane im) es) ∧
    im_config im' = im_config im ∧ im_shutting_down im' = false.
Proof.
  intros Hs (mu & E & (Hes & _)). cbn in Hes. rewrite <-Hes. by apply mutate_succeeds.
Qed.

(** ** A transfer in flight *)

Record copy_of (a : TransferAuthorization) (lifecycle : ReplicaLifecycle) (r : ReplicaRecord) : Prop := {
  co_id : rp_replica_id r = ta_destination_replica a;
  co_generation : rp_replica_generation r = ta_destination_replica_generation a;
  co_cluster : rlo_cluster_id (rp_location r) = ta_destination_cluster a;
  co_incarnation : rlo_cluster_incarnation (rp_location r) = ta_destination_incarnation a;
  co_transfer : rp_transfer_id r = ta_transfer_id a;
  co_transfer_generation : rp_transfer_generation r = ta_transfer_generation a;
  co_operation : rp_operation_id r = ta_operation_id a;
  co_state : rp_state_id r = ta_state_id a;
  co_state_generation : rp_state_generation r = ta_state_generation a;
  co_lifecycle : rp_lifecycle r = lifecycle;
  co_descriptor : lifecycle ≠ RL.PREPARED → descriptor_empty (rp_compatibility_descriptor r) = true
}.

Record operation_of (a : TransferAuthorization) (o : OperationRecord) : Prop := {
  oo_id : op_operation_id o = ta_operation_id a;
  oo_generation : op_operation_generation o = ta_operation_generation a;
  oo_running : operation_is_terminal o = false;
  oo_destination : op_destination_replica o = ta_destination_replica a;
  oo_state : op_state_id o = ta_state_id a;
  oo_state_generation : op_state_generation o = ta_state_generation a;
  oo_set_generation : op_source_replica_set_generation o = ta_replica_set_generation a;
  oo_kind : op_kind o = ta_kind a;
  oo_destructive : op_destructive_move o = ta_destructive_move a
}.

(** The plane around the copy and the operation. *)
Record around (p : ControlPlane) (a : TransferAuthorization) (target : ClusterRecord)
    (state : StateGenerationRecord) : Prop := {
  if_inv : plane_inv p;
  if_epoch : pl_coordinator_epoch p = ta_coordinator_epoch a;
  if_cluster : find_cluster p (ta_destination_cluster a) = Some target;
  if_live : cl_live_authority target = true;
  if_incarnation : cl_incarnation target = ta_destination_incarnation a;
  if_state : find_state p (ta_state_id a) (ta_state_generation a) = Some state;
  if_set : ∃ set, find_replica_set p (ta_state_id a) (ta_state_generation a) = Some set ∧
             (ta_replica_set_generation a ≠ 0 → rs_generation set = ta_replica_set_generation a)
}.

Record in_flight (p : ControlPlane) (a : TransferAuthorization) (copy : ReplicaRecord)
    (operation : OperationRecord) (target : ClusterRecord) (state : StateGenerationRecord) : Prop := {
  if_around : around p a target state;
  if_copy : find_replica p (ta_destination_replica a) = Some copy;
  if_operation : find_operation p (ta_operation_id a) = Some operation;
  if_running : operation_of a operation
}.

Lemma not_mismatched a b : a = b → mismatched a b = false.
Proof. intros ->. unfold mismatched. by rewrite Z.eqb_refl, andb_false_r. Qed.

Lemma not_both_mismatched a b : a = b → both_mismatched a b = false.
Proof. intros ->. unfold both_mismatched. by rewrite Z.eqb_refl, andb_false_r. Qed.

(** A step that writes the copy, the operation and the set, and nothing else of the transfer. *)
Lemma in_flight_step p p' a es target state copy' operation' lifecycle' tick :
  around p a target state →
  copy_of a lifecycle' copy' → operation_of a operation' →
  omap put_replica es = [copy'] → omap put_operation es = [operation'] →
  omap put_replica_set es =
    [bumped_replica_set p (ta_state_id a) (ta_state_generation a) tick (pl_coordinator_epoch p) false] →
  omap put_cluster es = [] → omap put_state es = [] → omap set_epoch es = [] →
  same_records p' (apply_all p es) → plane_inv p' →
  in_flight p' a copy' operation' target state.
Proof.
  intros [Hinv Hep Hcl Hlive Hinc Hst (set & Hset & Hgen)] Hcopy Hop Er Eo Es Ec Et Ee Hs Hinv'.
  split; [split| | |]; try assumption.
  - rewrite (same_epoch _ _ Hs). rewrite_apply_all. by rewrite Ee.
  - unfold find_cluster. rewrite (same_clusters _ _ Hs). rewrite_apply_all. by rewrite Ec.
  - unfold find_state. rewrite (same_states _ _ Hs). rewrite_apply_all. by rewrite Et.
  - unfold find_replica_set. rewrite (same_replica_sets _ _ Hs). rewrite_apply_all. rewrite Es. cbn.
    rewrite bumped_set_key by done. eexists. split; [apply lookup_insert_eq|]. intros Hne.
    specialize (Hgen Hne). unfold bumped_replica_set. rewrite Hset.
    pose proof (rebuild_generation p set) as Hg. rewrite Hgen in Hg.
    generalize dependent (rebuild_replica_set p set). intros s Hg. cbn. rewrite Hg.
    rewrite (proj2 (valid_true _) Hne). cbn. exact Hg.
  - unfold find_replica. rewrite (same_replicas _ _ Hs). rewrite_apply_all. rewrite Er. cbn.
    rewrite (co_id _ _ _ Hcopy). apply lookup_insert_eq.
  - unfold find_operation. rewrite (same_operations _ _ Hs). rewrite_apply_all. rewrite Eo. cbn.
    rewrite (oo_id _ _ Hop). apply lookup_insert_eq.
Qed.

(** ** The reports of the destination *)

Lemma advanced_of p a operation tick next note :
  operation_of a operation → operation_state_is_terminal next = false →
  operation_of a (advanced_operation p tick next note operation).
Proof.
  intros [] Hn. unfold advanced_operation.
  destruct (bool_decide (next = OS.PREPARED)); split; cbn; assumption.
Qed.

Section reports.
Context (p : ControlPlane) (config : FabricConfig) (a : TransferAuthorization).
Context (copy : ReplicaRecord) (operation : OperationRecord).
Context (target : ClusterRecord) (state : StateGenerationRecord).
Context (lifecycle : ReplicaLifecycle).
Hypothesis Hflight : in_flight p a copy operation target state.
Hypothesis Hcopy : copy_of a lifecycle copy.

(** Reports that carry what the authorization says pass the guards. *)
Lemma runs_guard {B} (k : ReplicaRecord → M B) mu b es :
  lifecycle ≠ RL.RETIRED → lifecycle ≠ RL.ABANDONED →
  (∀ mu', mu_tick mu' = mu_tick mu → runs (k copy) mu' b es) →
  runs (mbind (guard_replica p (ta_destination_replica a) (ta_destination_replica_generation a)
                 (ta_destination_incarnation a) 0 (pl_coordinator_epoch p)) k) mu b es.
Proof.
  intros Hr Ha Hk. destruct Hcopy, Hflight, if_around0.
  apply (runs_bind _ k mu copy b [] es); [|done].
  unfold guard_replica. apply (runs_found _ copy); [done|].
  apply runs_pass; [by apply not_mismatched|].
  apply runs_pass; [by apply not_mismatched|].
  apply runs_pass; [by apply not_mismatched|].
  apply (runs_found _ target); [congruence|].
  apply runs_pass; [rewrite if_live0, if_incarnation0, co_incarnation0; cbn; by rewrite Z.eqb_refl|].
  apply runs_pass; [unfold both_mismatched; cbn; by rewrite andb_false_r|].
  apply runs_pass; [|apply runs_ret].
  unfold replica_is_terminal. rewrite co_lifecycle0. by rewrite !bool_decide_eq_false_2.
Qed.

Lemma runs_advance {B} next note tick (k : unit → M B) mu b es :
  mu_tick mu = tick → (∀ mu', mu_tick mu' = tick → runs (k tt) mu' b es) →
  runs (mbind (advance_operation p (ta_operation_id a) (ta_operation_generation a) next note) k) mu b
    (PUT_OPERATION (advanced_operation p tick next note operation) :: es).
Proof.
  intros <- Hk. destruct Hflight, if_running0.
  apply (runs_bind _ k mu tt b [PUT_OPERATION (advanced_operation p (mu_tick mu) next note operation)] es);
    [|done].
  unfold advance_operation. rewrite if_operation0, oo_running0, oo_generation0, Z.eqb_refl, andb_false_r.
  apply runs_tick, runs_emit.
Qed.

(** The copy after a report of progress, of completion and of verification. *)
Lemma progress_runs mu :
  lifecycle = RL.RESERVED →
  ∃ copy' counters, copy_of a RL.TRANSFERRING copy' ∧
    runs (record_transfer_progress (progress_report a (pl_coordinator_epoch p)) p config) mu copy'
      [PUT_OPERATION (advanced_operation p (mu_tick mu) OS.TRANSFERRING "transfer in progress" operation);
       PUT_REPLICA copy';
       bump_replica_set_effect p (rp_state_id copy') (rp_state_generation copy') (mu_tick mu)
         (pl_coordinator_epoch p) false;
       PUT_COUNTERS counters].
Proof.
  intros Hl. do 2 eexists. split; cycle 1.
  - unfold record_transfer_progress.
    apply (runs_guard _ mu); [by subst lifecycle..|]. intros mu1 T1.
    apply runs_pass; [apply not_both_mismatched; symmetry; apply Hcopy|].
    apply runs_pass; [apply not_both_mismatched; symmetry; apply Hcopy|].
    apply runs_pass; [apply not_both_mismatched; symmetry; apply Hcopy|].
    apply runs_pass; [by rewrite (co_lifecycle _ _ _ Hcopy), Hl|].
    apply runs_tick. cbv zeta. rewrite T1.
    apply runs_advance; [done|]. intros mu2 T2.
    apply runs_put; [done|]. intros mu3 T3. apply runs_emit_then. intros mu4 T4. apply runs_ret.
  - destruct Hcopy. split; cbn; try assumption; [reflexivity|]. intros _. apply co_descriptor0. by rewrite Hl.
Qed.

Hypothesis Hdigest : ta_expected_digest a = sg_content_digest state.
Hypothesis Hvalid : digest_valid (ta_expected_digest a) = true.

(** The state of the copy, and the digest it is held to. *)
Lemma state_of_copy : find_state p (rp_state_id copy) (rp_state_generation copy) = Some state.
Proof. rewrite (co_state _ _ _ Hcopy), (co_state_generation _ _ _ Hcopy). apply Hflight. Qed.

Lemma completion_runs bytes mu :
  lifecycle = RL.TRANSFERRING →
  ∃ copy' counters, copy_of a RL.TRANSFERRED copy' ∧
    runs (record_transfer_completion (completion_report a (pl_coordinator_epoch p) bytes) p config) mu copy'
      [PUT_OPERATION (advanced_operation p (mu_tick mu) OS.TRANSFERRED
                        "transfer complete at the destination" operation);
       PUT_REPLICA copy';
       bump_replica_set_effect p (rp_state_id copy') (rp_state_generation copy') (mu_tick mu)
         (pl_coordinator_epoch p) false;
       PUT_COUNTERS counters].
Proof.
  intros Hl. do 2 eexists. split; cycle 1.
  - unfold record_transfer_completion.
    apply (runs_guard _ mu); [by subst lifecycle..|]. intros mu1 T1.
    apply runs_pass; [apply not_both_mismatched; symmetry; apply Hcopy|].
    apply runs_pass; [apply not_both_mismatched; symmetry; apply Hcopy|].
    apply runs_pass; [done|].
    apply runs_pass; [by rewrite (co_lifecycle _ _ _ Hcopy), Hl|].
    apply runs_tick. cbv zeta. rewrite T1, state_of_copy.
    change (tc_measured_digest (completion_report a (pl_coordinator_epoch p) bytes))
      with (ta_expected_digest a).
    rewrite Hvalid. cbn [negb]. rewrite Hdigest, (bool_decide_eq_false_2 (sg_content_digest state ≠ _)) by auto.
    rewrite andb_false_r. rewrite <-Hdigest.
    apply runs_advance; [done|]. intros mu2 T2.
    apply runs_put; [done|]. intros mu3 T3. apply runs_emit_then. intros mu4 T4. apply runs_ret.
  - destruct Hcopy. split; cbn; try assumption; [reflexivity|]. intros _. apply co_descriptor0. by rewrite Hl.
Qed.

(** What the destination cluster publishes meets the requirement of the state. *)
Definition destination_compatible : Prop :=
  descriptor_empty (sg_compatibility_required state) = true ∨
  evaluate_compatibility (state_requirement state) (Some (cluster_compatibility_descriptor target))
    (sg_compatibility_generation state) false = CRes.COMPATIBLE.

Lemma verification_runs bytes mu :
  lifecycle = RL.TRANSFERRED → destination_compatible →
  ∃ copy' counters next, copy_of a RL.PREPARED copy' ∧
    rp_integrity copy' = RI.VERIFIED ∧ rp_compatibility copy' = RCS.COMPATIBLE ∧
    re_revalidation_required (rp_evidence copy') = false ∧
    runs (verify_replica (verification_report a (pl_coordinator_epoch p) bytes) p config) mu copy'
      [PUT_OPERATION (advanced_operation p (mu_tick mu) OS.PREPARED
                        "destination prepared under explicit authority" operation);
       PUT_REPLICA copy';
       bump_replica_set_effect p (rp_state_id copy') (rp_state_generation copy') (mu_tick mu)
         (pl_coordinator_epoch p) false;
       PUT_COUNTERS counters; SET_NEXT_ID next].
Proof.
  intros Hl Hcompat. do 3 eexists. split_and!; cycle 4.
  - unfold verify_replica.
    apply (runs_guard _ mu); [by subst lifecycle..|]. intros mu1 T1.
    apply runs_pass; [by rewrite (co_lifecycle _ _ _ Hcopy), Hl|].
    apply runs_tick. cbv zeta. rewrite T1, state_of_copy.
    change (rvf_measured_digest (verification_report a (pl_coordinator_epoch p) bytes))
      with (ta_expected_digest a).
    change (rvf_integrity_verified (verification_report a (pl_coordinator_epoch p) bytes)) with true.
    change (rvf_compatibility_descriptor (verification_report a (pl_coordinator_epoch p) bytes))
      with CompatibilityDescriptor_default.
    rewrite Hvalid, <-Hdigest, Hvalid, (bool_decide_eq_false_2 (ta_expected_digest a ≠ _)) by auto.
    cbn [negb andb]. change (descriptor_empty CompatibilityDescriptor_default) with true. cbn [negb].
    rewrite (co_descriptor _ _ _ Hcopy) by (by rewrite Hl). cbn [negb].
    rewrite (co_cluster _ _ _ Hcopy), (if_cluster _ _ _ _ (if_around _ _ _ _ _ _ Hflight)).
    unfold verify_against_cluster. cbv zeta.
    change (cq_required (state_requirement state)) with (sg_compatibility_required state).
    change (cq_generation (state_requirement state)) with (sg_compatibility_generation state).
    replace (if descriptor_empty (sg_compatibility_required state) then CRes.COMPATIBLE
             else evaluate_compatibility (state_requirement state)
                    (Some (cluster_compatibility_descriptor target)) (sg_compatibility_generation state) false)
      with CRes.COMPATIBLE by (destruct Hcompat as [-> | ->]; [done|by destruct (descriptor_empty _)]).
    unfold persist_prepared.
    apply runs_advance; [done|]. intros mu2 T2.
    apply runs_put; [done|]. intros mu3 T3. apply runs_emit_then. intros mu4 T4.
    apply runs_emit_then. intros mu5 T5. apply runs_ret.
  - destruct Hcopy. split; cbn; try assumption; [reflexivity|]. by intros [].
  - reflexivity.
  - reflexivity.
  - reflexivity.
Qed.
End reports.

(** ** The commit *)

(** Whatever is said of how a body ends, it may be said past a guard that holds. *)
Lemma ends_pass {A} (Q : Result A * FabricMutation → Prop) (flag : bool) code (k : unit → M A) mu :
  flag = false → Q (k tt mu) → Q (mbind (refuse_if flag code) k mu).
Proof. intros -> H. exact H. Qed.

Lemma ends_found {A B} (Q : Result B * FabricMutation → Prop) (o : option A) a code (k : A → M B) mu :
  o = Some a → Q (k a mu) → Q (mbind (require o code) k mu).
Proof. intros -> H. exact H. Qed.

Lemma ends_tick {A} (Q : Result A * FabricMutation → Prop) (k : Z → M A) mu :
  Q (k (mu_tick mu) mu) → Q (mbind get_tick k mu).
Proof. intros H. exact H. Qed.

(** Another replica owns the generation and a replication may not replace it. *)
Definition owner_in_the_way (p : ControlPlane) (a : TransferAuthorization)
    (operation : OperationRecord) (state : StateGenerationRecord) : bool :=
  requires_single_authoritative_owner (sg_consistency state) &&
  negb (bool_decide (op_kind operation = OpK.MIGRATION) || op_destructive_move operation) &&
  owned_by_another (find_ownership p (ta_state_id a) (ta_state_generation a)) (ta_destination_replica a).

Definition committed_or (p : ControlPlane) (a : TransferAuthorization) (operation : OperationRecord)
    (state : StateGenerationRecord) (mu : FabricMutation)
    (ended : Result OperationRecord * FabricMutation) : Prop :=
  (∃ op, ended.1 = Ok op) ∨ ended = (Err EC.OVER_REPLICATED, mu) ∨
  (ended = (Err EC.SPLIT_BRAIN_RISK, mu) ∧ owner_in_the_way p a operation state = true).

(** The planned commit either goes through or meets an owner. *)
Lemma plan_succeeds p target state set commit_id (migration destructive : bool) mu :
  let single := requires_single_authoritative_owner (sg_consistency state) in
  let plan :=
    plan_authoritative_commit p target state set commit_id (migration || single)
      (migration || destructive) mu in
  (∃ result mu', plan = (Ok result, mu')) ∨
  (plan = (Err EC.SPLIT_BRAIN_RISK, mu) ∧ single = true ∧ migration || destructive = false ∧
   owned_by_another (find_ownership p (rp_state_id target) (rp_state_generation target))
     (rp_replica_id target) = true).
Proof.
  cbv zeta. unfold plan_authoritative_commit, demote_previous.
  destruct (requires_single_authoritative_owner (sg_consistency state)), migration, destructive; cbn;
    (destruct (owned_by_another _ _) eqn:Eo; cbn);
    repeat (case_match; cbn; try (by left; eauto)); try (by left; eauto); right; done.
Qed.

Lemma commit_outcome p config a copy operation target state commit_id mu :
  in_flight p a copy operation target state → copy_of a RL.PREPARED copy →
  rp_integrity copy = RI.VERIFIED → rp_compatibility copy = RCS.COMPATIBLE →
  re_revalidation_required (rp_evidence copy) = false →
  committed_or p a operation state mu
    (commit_operation
       (mkOperationCommit (ta_operation_id a) (ta_operation_generation a) commit_id
          (pl_coordinator_epoch p) false) p config mu).
Proof.
  intros [[Hinv Hep Hcl Hlive Hinc Hst (set & Hset & Hgen)] Hc Ho Hrun] Hcopy Hi Hk He.
  unfold commit_operation. cbn [oc_operation_id oc_expected_coordinator_epoch oc_operation_generation
    oc_retire_source oc_commit_id].
  apply (ends_found _ _ operation); [done|].
  apply ends_pass; [by apply not_mismatched|].
  apply ends_pass; [apply not_mismatched; symmetry; apply Hrun|].
  rewrite (oo_running _ _ Hrun). cbv iota. apply ends_pass; [done|].
  rewrite (oo_destination _ _ Hrun), (oo_state _ _ Hrun), (oo_state_generation _ _ Hrun),
    (oo_set_generation _ _ Hrun).
  apply (ends_found _ _ copy); [done|]. unfold require_state.
  apply (ends_found _ _ state); [done|]. apply (ends_found _ _ set); [done|].
  apply ends_pass.
  { destruct (valid (ta_replica_set_generation a)) eqn:Ev; [|done].
    rewrite (Hgen (proj1 (valid_true _) Ev)). by rewrite Z.eqb_refl. }
  apply ends_pass; [apply bool_decide_eq_false_2; intros H; apply H, Hcopy|].
  apply ends_pass; [apply bool_decide_eq_false_2; auto|].
  apply ends_pass; [apply bool_decide_eq_false_2; auto|].
  apply ends_pass; [done|].
  apply (ends_found _ _ target); [by rewrite (co_cluster _ _ _ Hcopy)|].
  apply ends_pass.
  { rewrite Hlive, Hinc, (co_incarnation _ _ _ Hcopy), Z.eqb_refl. done. }
  destruct (rs_authoritative_count (rebuild_replica_set p set) >=? _); [by right; left|].
  apply ends_pass; [done|].
  pose proof (plan_succeeds p copy state set commit_id (bool_decide (op_kind operation = OpK.MIGRATION))
                (op_destructive_move operation) mu) as Hplan. cbv zeta in Hplan.
  unfold mbind at 1. destruct Hplan as [(result & mu1 & ->)|(-> & Hs & Hm & Hown)].
  - left. apply (ends_tick (λ ended, ∃ op, ended.1 = Ok op)).
    destruct (source_to_retire p operation _ _); eexists; reflexivity.
  - right. right. split; [done|]. unfold owner_in_the_way.
    rewrite Hs, Hm, <-(co_state _ _ _ Hcopy), <-(co_state_generation _ _ _ Hcopy), <-(co_id _ _ _ Hcopy).
    done.
Qed.

(** ** The authorization *)

(** What an authorization was computed from, and what it writes. *)
Lemma authorization_writes t p config mu a mu' :
  authorize t p config mu = (Ok a, mu') →
  ∃ state set policy placement source target chosen,
    let operation :=
      authorized_operation p (mu_tick mu) state (to_state t) (to_generation t)
        (rebuild_replica_set p set) policy placement source target chosen (to_kind t)
        (to_destructive t) in
    let copy :=
      destination_replica p (mu_tick mu) state (to_state t) (to_generation t)
        (rebuild_replica_set p set) source target chosen operation in
    a = authorization_of p (mu_tick mu) state (rebuild_replica_set p set) operation ∧
    find_state p (to_state t) (to_generation t) = Some state ∧
    find_replica_set p (to_state t) (to_generation t) = Some set ∧
    find_cluster p chosen = Some target ∧ cl_live_authority target = true ∧
    extends mu mu' [PUT_OPERATION operation; PUT_AUTHORIZATION a; PUT_REPLICA copy;
      bump_replica_set_effect p (rp_state_id copy) (rp_state_generation copy) (mu_tick mu)
        (pl_coordinator_epoch p) false;
      PUT_COUNTERS (reserve_counters operation (pl_counters p)); SET_NEXT_ID (u64 (pl_next_id p + 5))].
Proof.
  intros H. unfold authorize, authorize_transaction in H. apply mbind_Ok in H as (u & mu0 & Re & H).
  run_step Re. run_ok H.
  rename x into state, x1 into set, x2 into policy, x3 into placement, x5 into source,
    x10 into target.
  fold (destination_request p config t state set policy placement source) in *.
  apply negb_false_iff in R11.
  generalize dependent (pe_chosen_cluster
    (evaluate_placement (destination_request p config t state set policy placement source) (Some state))).
  intros chosen R8 R9 R10 R12.
  exists state, set, policy, placement, source, target, chosen. cbv zeta.
  split; [reflexivity|]. split; [exact R|]. split; [exact R1|]. split; [exact R10|].
  split; [exact R11|].
  set (operation := authorized_operation _ _ _ _ _ _ _ _ _ _ _ _ _) in *.
  set (copy := destination_replica _ _ _ _ _ _ _ _ _ _) in *.
  set (a := authorization_of _ _ _ _ _) in *. clearbody operation copy a.
  exact (extends_emit2 _ _ _ _ _ (extends_trans _ _ _ _ _
      (extends_emit2 _ _ _ _ _ (extends_refl mu)) (put_replica_and_set_run _ _ _ _ _ _ _ R12 eq_refl))).
Qed.

(** The records of an authorization agree with one another. *)
Section authorized.
Context (p : ControlPlane) (tick : Z) (state : StateGenerationRecord) (t g : Z).
Context (set : ReplicaSetRecord) (policy : ReplicationPolicyRecord) (placement : PlacementPolicyRecord).
Context (source : ReplicaRecord) (target : ClusterRecord) (chosen : Z) (kind : OperationKind).
Context (destructive : bool).

Let operation :=
  authorized_operation p tick state t g set policy placement source target chosen kind destructive.
Let a := authorization_of p tick state set operation.

Lemma authorized_operation_of : operation_of a operation.
Proof. split; reflexivity. Qed.

Lemma authorized_copy_of :
  copy_of a RL.RESERVED
    (destination_replica p tick state t g set source target chosen operation).
Proof. split; reflexivity. Qed.

Lemma authorized_fields :
  ta_expected_digest a = sg_content_digest state ∧ pl_coordinator_epoch p = ta_coordinator_epoch a ∧
  ta_destination_cluster a = chosen ∧ cl_incarnation target = ta_destination_incarnation a ∧
  ta_state_id a = t ∧ ta_state_generation a = g ∧ ta_replica_set_generation a = rs_generation set.
Proof. split_and!; reflexivity. Qed.
End authorized.

(** An authorized transfer is in flight, with a reserved copy held to the digest of the state. *)
Lemma authorization_takes_flight t p p' config mu a mu' :
  plane_inv p → authorize t p config mu = (Ok a, mu') → mu_effects mu = [] →
  same_records p' (apply_all p (mu_effects mu')) → plane_inv p' →
  ∃ copy operation target state, in_flight p' a copy operation target state ∧
    copy_of a RL.RESERVED copy ∧ ta_expected_digest a = sg_content_digest state ∧
    find_cluster p (ta_destination_cluster a) = Some target ∧
    find_state p (ta_state_id a) (ta_state_generation a) = Some state.
Proof.
  intros Hinv H Hmu Hs Hinv'.
  apply authorization_writes in H
    as (state & set & policy & placement & source & target & chosen & H).
  cbv zeta in H. destruct H as (Ea & Rst & Rset & Rc & Rl & He & _).
  rewrite Hmu in He. cbn [app] in He. rewrite He in Hs.
  pose proof (authorized_operation_of p (mu_tick mu) state (to_state t) (to_generation t)
    (rebuild_replica_set p set) policy placement source target chosen (to_kind t) (to_destructive t)) as Hop.
  pose proof (authorized_copy_of p (mu_tick mu) state (to_state t) (to_generation t)
    (rebuild_replica_set p set) policy placement source target chosen (to_kind t) (to_destructive t)) as Hcopy.
  pose proof (authorized_fields p (mu_tick mu) state (to_state t) (to_generation t)
    (rebuild_replica_set p set) policy placement source target chosen (to_kind t) (to_destructive t))
    as (Fd & Fe & Fc & Fi & Fs & Fg & Fr).
  cbv zeta in Hop, Hcopy, Fd, Fe, Fc, Fi, Fs, Fg, Fr.
  rewrite <-Ea in Hop, Hcopy, Fd, Fe, Fc, Fi, Fs, Fg, Fr. clear Ea.
  generalize dependent (destination_replica p (mu_tick mu) state (to_state t) (to_generation t)
    (rebuild_replica_set p set) source target chosen
    (authorized_operation p (mu_tick mu) state (to_state t) (to_generation t) (rebuild_replica_set p set)
       policy placement source target chosen (to_kind t) (to_destructive t))).
  generalize dependent (authorized_operation p (mu_tick mu) state (to_state t) (to_generation t)
    (rebuild_replica_set p set) policy placement source target chosen (to_kind t) (to_destructive t)).
  intros operation Hop copy He Hs Hcopy.
  assert (around p a target state) as Haround.
  { split; try congruence. exists set. rewrite Fs, Fg. split; [done|]. rewrite Fr. intros _.
    symmetry. apply rebuild_generation. }
  exists copy, operation, target, state. split; [|split_and!; try done; apply Haround].
  assert (bump_replica_set_effect p (rp_state_id copy) (rp_state_generation copy) (mu_tick mu)
            (pl_coordinator_epoch p) false =
          PUT_REPLICA_SET (bumped_replica_set p (ta_state_id a) (ta_state_generation a) (mu_tick mu)
            (pl_coordinator_epoch p) false)) as Hb
    by (unfold bump_replica_set_effect; by rewrite (co_state _ _ _ Hcopy), (co_state_generation _ _ _ Hcopy)).
  rewrite Hb in Hs.
  by apply (in_flight_step p p' a _ target state copy operation RL.RESERVED (mu_tick mu)
              Haround Hcopy Hop) in Hs.
Qed.

(** ** The transaction *)

(** A handler that answers is the execution of its request. *)
Lemma mutate_request {A} (fn : ControlPlane → FabricConfig → M A) q (im im' : Impl Empty_set) a :
  body q = (λ plane config, void (fn plane config)) → mutate fn im = (Ok a, im') →
  exec q im = (Ok tt, im').
Proof.
  intros Hb. unfold exec. rewrite Hb. unfold mutate. destruct (im_shutting_down im); [done|].
  unfold void, mbind, mret.
  destruct (fn (im_plane im) (im_config im) (start_mutation (im_plane im))) as [[b|code] mu].
  - by destruct (persist_and_apply mu im) as [[u|c] im1]; intros [= _ <-].
  - destruct (mu_commit_before_return mu); [|done]. by destruct (persist_and_apply mu im) as [[]].
Qed.

(** A live runtime with the transfer in flight and the copy at a stage. *)
Record carries (im : Impl Empty_set) (a : TransferAuthorization) (lifecycle : ReplicaLifecycle)
    (copy : ReplicaRecord) (operation : OperationRecord) (target : ClusterRecord)
    (state : StateGenerationRecord) : Prop := {
  ca_reachable : reachable im;
  ca_live : im_shutting_down im = false;
  ca_flight : in_flight (im_plane im) a copy operation target state;
  ca_copy : copy_of a lifecycle copy
}.

(** A report that writes the copy, its set and its operation moves the transfer on. *)
Lemma report_step (fn : ControlPlane → FabricConfig → M ReplicaRecord) q im a lifecycle lifecycle'
    copy copy' operation operation' target state counters tail :
  body q = (λ plane config, void (fn plane config)) →
  carries im a lifecycle copy operation target state →
  copy_of a lifecycle' copy' → operation_of a operation' → tail = [] ∨ (∃ n, tail = [SET_NEXT_ID n]) →
  runs (fn (im_plane im) (im_config im)) (start_mutation (im_plane im)) copy'
    (PUT_OPERATION operation' :: PUT_REPLICA copy' ::
     bump_replica_set_effect (im_plane im) (rp_state_id copy') (rp_state_generation copy')
       (mu_tick (start_mutation (im_plane im))) (pl_coordinator_epoch (im_plane im)) false ::
     PUT_COUNTERS counters :: tail) →
  ∃ im', mutate fn im = (Ok copy', im') ∧ carries im' a lifecycle' copy' operation' target state.
Proof.
  intros Hb [Hr Hl Hf _] Hcopy Hop Htail Hruns.
  destruct (mutate_runs fn im copy' _ Hl Hruns) as (im' & E & Hs & _ & Hl').
  assert (reachable im') as Hr'.
  { pose proof (reach_request q im Hr) as H. by rewrite (mutate_request _ _ _ _ _ Hb E) in H. }
  exists im'. split; [done|]. split; [done..| |done].
  unfold bump_replica_set_effect in Hs.
  rewrite (co_state _ _ _ Hcopy), (co_state_generation _ _ _ Hcopy) in Hs.
  apply (in_flight_step (im_plane im) (im_plane im') a _ target state copy' operation' lifecycle'
    (mu_tick (start_mutation (im_plane im))) (if_around _ _ _ _ _ _ Hf) Hcopy Hop) in Hs;
    [done|..|by apply reachable_inv];
    by destruct Htail as [->|[n ->]].
Qed.

Section carried.
Context (im : Impl Empty_set) (a : TransferAuthorization).
Context (copy : ReplicaRecord) (operation : OperationRecord).
Context (target : ClusterRecord) (state : StateGenerationRecord).
Hypothesis Hdigest : ta_expected_digest a = sg_content_digest state.
Hypothesis Hvalid : digest_valid (ta_expected_digest a) = true.

Let epoch := pl_coordinator_epoch (im_plane im).

Lemma progress_carried :
  carries im a RL.RESERVED copy operation target state →
  ∃ copy' operation' im', mutate (record_transfer_progress (progress_report a epoch)) im = (Ok copy', im') ∧
    carries im' a RL.TRANSFERRING copy' operation' target state.
Proof.
  intros Hc. pose proof Hc as [_ _ Hf Hcopy].
  destruct (progress_runs (im_plane im) (im_config im) a copy operation target state RL.RESERVED Hf Hcopy
              (start_mutation (im_plane im)) eq_refl) as (copy' & counters & Hcopy' & Hruns).
  destruct (report_step _ (RecordTransferProgress (progress_report a epoch)) im a _ _ copy copy' operation _
    target state counters [] eq_refl Hc Hcopy'
    (advanced_of _ _ _ _ OS.TRANSFERRING _ (if_running _ _ _ _ _ _ Hf) eq_refl) (or_introl eq_refl) Hruns)
    as (im' & ? & ?). do 3 eexists. by split_and!; try eassumption.
Qed.

Lemma completion_carried bytes :
  carries im a RL.TRANSFERRING copy operation target state →
  ∃ copy' operation' im',
    mutate (record_transfer_completion (completion_report a epoch bytes)) im = (Ok copy', im') ∧
    carries im' a RL.TRANSFERRED copy' operation' target state.
Proof.
  intros Hc. pose proof Hc as [_ _ Hf Hcopy].
  destruct (completion_runs (im_plane im) (im_config im) a copy operation target state RL.TRANSFERRING Hf
    Hcopy Hdigest Hvalid bytes (start_mutation (im_plane im)) eq_refl) as (copy' & counters & Hcopy' & Hruns).
  destruct (report_step _ (RecordTransferCompletion (completion_report a epoch bytes)) im a _ _ copy copy'
    operation _ target state counters [] eq_refl Hc Hcopy'
    (advanced_of _ _ _ _ OS.TRANSFERRED _ (if_running _ _ _ _ _ _ Hf) eq_refl) (or_introl eq_refl) Hruns)
    as (im' & ? & ?). do 3 eexists. by split_and!; try eassumption.
Qed.

Lemma verification_carried bytes :
  carries im a RL.TRANSFERRED copy operation target state → destination_compatible target state →
  ∃ copy' operation' im',
    mutate (verify_replica (verification_report a epoch bytes)) im = (Ok copy', im') ∧
    carries im' a RL.PREPARED copy' operation' target state ∧
    rp_integrity copy' = RI.VERIFIED ∧ rp_compatibility copy' = RCS.COMPATIBLE ∧
    re_revalidation_required (rp_evidence copy') = false.
Proof.
  intros Hc Hcompat. pose proof Hc as [_ _ Hf Hcopy].
  destruct (verification_runs (im_plane im) (im_config im) a copy operation target state RL.TRANSFERRED Hf
    Hcopy Hdigest Hvalid bytes (start_mutation (im_plane im)) eq_refl Hcompat)
    as (copy' & counters & next & Hcopy' & ? & ? & ? & Hruns).
  destruct (report_step _ (VerifyReplica (verification_report a epoch bytes)) im a _ _ copy copy'
    operation _ target state counters [SET_NEXT_ID next] eq_refl Hc Hcopy'
    (advanced_of _ _ _ _ OS.PREPARED _ (if_running _ _ _ _ _ _ Hf) eq_refl)
    (or_intror (ex_intro _ next eq_refl)) Hruns) as (im' & ? & ?). do 3 eexists. by split_and!; try eassumption.
Qed.
End carried.

(** How a replication that was authorized ends. *)
Definition replication_ended (plane : ControlPlane) (a : TransferAuthorization) (result : Result Z) : Prop :=
  match result with
  | Ok replica =>
      replica = ta_destination_replica a ∧
      ∃ r, find_replica plane replica = Some r ∧ replica_counts_toward_replication_factor r = true
  | Err code =>
      ∃ copy operation state,
        find_replica plane (ta_destination_replica a) = Some copy ∧ rp_lifecycle copy = RL.PREPARED ∧
        find_operation plane (ta_operation_id a) = Some operation ∧ operation_is_terminal operation = false ∧
        find_state plane (ta_state_id a) (ta_state_generation a) = Some state ∧
        (code = EC.OVER_REPLICATED ∨
         code = EC.SPLIT_BRAIN_RISK ∧ owner_in_the_way plane a operation state = true)
  end.

Lemma mutate_refuses {A} (fn : ControlPlane → FabricConfig → M A) (im : Impl Empty_set) code :
  im_shutting_down im = false →
  fn (im_plane im) (im_config im) (start_mutation (im_plane im)) =
    (Err code, start_mutation (im_plane im)) →
  mutate fn im = (Err code, im).
Proof. intros Hs E. unfold mutate. by rewrite Hs, E. Qed.

Lemma commit_ends im a copy operation target state commit_id :
  carries im a RL.PREPARED copy operation target state →
  rp_integrity copy = RI.VERIFIED → rp_compatibility copy = RCS.COMPATIBLE →
  re_revalidation_required (rp_evidence copy) = false →
  let commit := mkOperationCommit (ta_operation_id a) (ta_operation_generation a) commit_id
                  (pl_coordinator_epoch (im_plane im)) false in
  ∃ result im', mutate (commit_operation commit) im = (result, im') ∧
    replication_ended (im_plane im') a
      match result with Ok _ => Ok (ta_destination_replica a) | Err code => Err code end.
Proof.
  intros [Hr Hl Hf Hcopy] Hi Hk He commit.
  assert (∀ code, mutate (commit_operation commit) im = (Err code, im) →
            code = EC.OVER_REPLICATED ∨
            code = EC.SPLIT_BRAIN_RISK ∧ owner_in_the_way (im_plane im) a operation state = true →
            ∃ result im', mutate (commit_operation commit) im = (result, im') ∧
              replication_ended (im_plane im') a
                match result with Ok _ => Ok (ta_destination_replica a) | Err code => Err code end)
    as Hrefused.
  { intros code E Hcode. exists (Err code), im. split; [done|]. exists copy, operation, state.
    destruct Hf as [[] ? ? []]. by split_and!; try assumption; apply Hcopy. }
  destruct (commit_outcome (im_plane im) (im_config im) a copy operation target state commit_id
    (start_mutation (im_plane im)) Hf Hcopy Hi Hk He) as [(op & Hop)|[E|(E & Hown)]].
  - destruct (commit_operation commit (im_plane im) (im_config im) (start_mutation (im_plane im)))
      as [r mu] eqn:E. unfold commit in E. rewrite E in Hop. cbn in Hop. subst r.
    destruct (mutate_succeeds (commit_operation commit) im op mu Hl E) as (im' & Em & _).
    exists (Ok op), im'. split; [done|]. split; [done|].
    pose proof (mutate_request _ (CommitOperation commit) _ _ _ eq_refl Em) as Hex.
    destruct Hf as [_ _ Ho Hrun].
    destruct (exec_commit_operation im im' commit operation Hr Hex Ho (oo_running _ _ Hrun))
      as (copy' & state' & set & op' & cs & Hready & H1 & H2 & H3 & _ & Hs).
    unfold find_replica. rewrite (same_replicas _ _ Hs), <-(oo_destination _ _ Hrun).
    pose proof (reachable_inv im Hr) as Hp. eexists. split; [by eapply committed_lookup|]. done.
  - apply (Hrefused EC.OVER_REPLICATED); [by apply mutate_refuses|by left].
  - apply (Hrefused EC.SPLIT_BRAIN_RISK); [by apply mutate_refuses|by right].
Qed.

(** ** The example's transaction *)

Lemma call_Ok {A B} (fn : ControlPlane → FabricConfig → M A) (k : A → Program Empty_set (Result B))
    e im a im' :
  ex_fabric e = im → mutate fn im = (Ok a, im') →
  pbind_ok (call fn) k e = k a (e <| ex_fabric := im' |>).
Proof. intros <- E. unfold pbind_ok, pbind, call. by rewrite E. Qed.

Lemma epoch_read {B} (k : Z → Program Empty_set B) e :
  pbind coordinator_epoch k e = k (pl_coordinator_epoch (im_plane (ex_fabric e))) e.
Proof. reflexivity. Qed.

Lemma id_taken {B} (k : Z → Program Empty_set B) e :
  pbind take_id k e = k (ex_next_id e) (e <| ex_next_id := u64 (ex_next_id e + 1) |>).
Proof. reflexivity. Qed.

(** What [replicate] asks for. *)
Definition replication_of (e : Example Empty_set) (destination : Z) : ReplicationRequest :=
  ReplicationRequest_default <| rq_state_id := ex_state e |>
    <| rq_state_generation := ex_generation e |> <| rq_destination_cluster := destination |>
    <| rq_expected_coordinator_epoch := pl_coordinator_epoch (im_plane (ex_fabric e)) |>.

Definition order_of (q : ReplicationRequest) : transfer_order :=
  mkTransferOrder (rq_state_id q) (rq_state_generation q) (rq_destination_cluster q)
    (rq_source_cluster q) OpK.REPLICATION false
    (rpp_replication_policy_id (rq_replication_policy q))
    (pp_placement_policy_id (rq_placement_policy q)) (rq_expected_coordinator_epoch q).

Lemma request_taken {B} destination (k : ReplicationRequest → Program Empty_set B) e :
  pbind (replication_request destination) k e = k (replication_of e destination) e.
Proof. reflexivity. Qed.

(** The authorization is carried from the start. *)
Lemma authorization_carried (im im' : Impl Empty_set) q a :
  reachable im → im_shutting_down im = false → mutate (authorize_replication q) im = (Ok a, im') →
  ∃ copy operation target state, carries im' a RL.RESERVED copy operation target state ∧
    ta_expected_digest a = sg_content_digest state ∧
    find_cluster (im_plane im) (ta_destination_cluster a) = Some target ∧
    find_state (im_plane im) (ta_state_id a) (ta_state_generation a) = Some state.
Proof.
  intros Hr Hl E.
  assert (reachable im') as Hr'.
  { pose proof (reach_request (AuthorizeReplication q) im Hr) as H.
    by rewrite (mutate_request _ (AuthorizeReplication q) _ _ _ eq_refl E) in H. }
  destruct (mutate_Ok_records (authorize_replication q) im a) as (mu & Em & Hs); [by rewrite E|].
  rewrite E in Hs. cbn [snd] in Hs.
  destruct (authorization_takes_flight (order_of q) (im_plane im) (im_plane im') (im_config im)
    (start_mutation (im_plane im)) a mu (reachable_inv im Hr) Em eq_refl Hs (reachable_inv im' Hr'))
    as (copy & operation & target & state & Hf & Hcopy & Hd & Hc & Hst).
  destruct (mutate_frame (authorize_replication q) im) as [_ Hl']. rewrite E in Hl'. cbn [snd] in Hl'.
  exists copy, operation, target, state. split_and!; try done. split; [done|by rewrite Hl'|done..].
Qed.

(** C17: an authorized transfer completes.  When the runtime authorizes the replication of
    a generation whose digest is known to a destination that meets the requirement of the
    state, the transaction of [common.hpp] (progress, completion, verification and commit,
    each with what the authorization says) runs to its end: the three reports are accepted,
    and the commit either makes the destination count toward the replication factor or is
    refused for one of two reasons, more replicas than the policy bounds or an owner that
    a replication may not replace, and then the destination waits prepared under an
    operation that is still running. *)
Theorem authorized_replication_completes (e : Example Empty_set) destination a im :
  reachable (ex_fabric e) → im_shutting_down (ex_fabric e) = false →
  mutate (authorize_replication (replication_of e destination)) (ex_fabric e) = (Ok a, im) →
  digest_valid (ta_expected_digest a) = true →
  (∀ target state,
     find_cluster (im_plane (ex_fabric e)) (ta_destination_cluster a) = Some target →
     find_state (im_plane (ex_fabric e)) (ta_state_id a) (ta_state_generation a) = Some state →
     destination_compatible target state) →
  ∃ result e', replicate destination false e = (inr result, e') ∧
    replication_ended (im_plane (ex_fabric e')) a result.
Proof.
  intros Hr Hl Ea Hvalid Hcompat.
  destruct (authorization_carried _ _ _ _ Hr Hl Ea)
    as (copy & operation & target & state & Hc & Hd & Htarget & Hstate).
  specialize (Hcompat _ _ Htarget Hstate).
  unfold replicate. rewrite request_taken. erewrite call_Ok; [|reflexivity|exact Ea]. rewrite epoch_read.
  destruct (progress_carried _ _ _ _ _ _ Hc) as (copy1 & operation1 & im1 & E1 & Hc1).
  erewrite call_Ok; [|reflexivity|exact E1]. rewrite epoch_read.
  set (bytes := if size_known _ then _ else _).
  destruct (completion_carried _ _ _ _ _ _ Hd Hvalid bytes Hc1) as (copy2 & operation2 & im2 & E2 & Hc2).
  erewrite call_Ok; [|reflexivity|exact E2]. rewrite epoch_read.
  destruct (verification_carried _ _ _ _ _ _ Hd Hvalid bytes Hc2 Hcompat)
    as (copy3 & operation3 & im3 & E3 & Hc3 & Hi & Hk & He).
  erewrite call_Ok; [|reflexivity|exact E3]. rewrite id_taken, epoch_read.
  destruct (commit_ends _ _ _ _ _ _ (ex_next_id e) Hc3 Hi Hk He) as (result & im4 & E4 & Hend).
  unfold pbind_ok, pbind, call. cbn. rewrite E4. destruct result as [op|code]; do 2 eexists; split;
    try reflexivity; exact Hend.
Qed.

(** The generation of [Scenario] as an immutable one, which several replicas may share. *)
Definition shared_state : request :=
  RegisterState
    (StateGenerationSpec_default <| ss_state_id := 5 |> <| ss_generation := 1 |>
       <| ss_consistency := CM.IMMUTABLE |> <| ss_content_digest := digest_one |>
       <| ss_logical_size := size_of 4096 |>).

Definition driving (history : list request) : Example Empty_set :=
  mkExample (after history) 10 20 0 5 1 700 [] [].

Definition shared : list request := map (λ q, match q with RegisterState _ => shared_state | _ => q end) setup.

(** Where the generation has a single owner the replication ends at that owner. *)
Lemma replication_meets_the_owner :
  (replicate 20 false (driving setup)).1 = inr (Err EC.SPLIT_BRAIN_RISK).
Proof. vm_compute. reflexivity. Qed.

Lemma authorized_replication_completes_witness :
  ∃ replica r e', replicate 20 false (driving shared) = (inr (Ok replica), e') ∧
    find_replica (im_plane (ex_fabric e')) replica = Some r ∧
    replica_counts_toward_replication_factor r = true.
Proof.
  set (e := driving shared).
  destruct (mutate (authorize_replication (replication_of e 20)) (ex_fabric e)) as [[a|code] im] eqn:Ea;
    [|vm_compute in Ea; discriminate Ea].
  destruct (authorized_replication_completes e 20 a im) as (result & e' & E & Hend).
  - apply demo_reachable.
  - vm_compute. reflexivity.
  - exact Ea.
  - vm_compute in Ea. injection Ea as <- _. reflexivity.
  - intros target state _ Hs. left. vm_compute in Ea. injection Ea as <- _.
    vm_compute in Hs. injection Hs as <-. reflexivity.
  - assert ((replicate 20 false e).1 = inr (Ok (ta_destination_replica a))) as Hr.
    { vm_compute in Ea. injection Ea as <- _. vm_compute. reflexivity. }
    rewrite E in Hr. cbn [fst] in Hr. injection Hr as ->. destruct Hend as (_ & r & Hf & Hc).
    exists (ta_destination_replica a), r, e'. exact (conj E (conj Hf Hc)).
Defined.
